(* ===== verification/_CoqProject ===== *)
-Q . S2P
Prelude.v
Bits.v
State.v
Machine.v
Hoare.v
Csr.v
Trap.v
Instr.v
Linux.v
LinuxModel.v
PageWalk.v
Double.v
Ntoa.v
Ftoa.v
FtoaTotal.v
Printf.v
Console.v
PageFault.v
Block.v
Sbi.v
Handler.v
Guest.v
Isolation.v
Hypervisor.v
Arch.v
Ecall.v
Refine.v
Simulation.v
FaultSim.v
Correct.v
Bare.v
TestKernel.v
Seccomp.v
Boot.v
Loader.v
System.v
LoaderModel.v
Demo.v
Witnesses.v
