(* ===== verification/Prelude.v ===== *)
(** * URVirt, verified

    URVirt runs a RISC-V S-mode kernel inside one Linux process.  The guest
    executes natively; what it may not do natively (privileged instructions,
    system calls, accesses to pages that are not mapped) Linux turns into
    signals, and the stub's signal handler emulates it on the registers the
    kernel saved.  This library models the stub of src/src/urvirt-stub, the loader of
    src/src/urvirt-loader and the guest of src/src/test-kernel, written in C,
    as Rocq functions, and proves that loader and stub together implement a
    RISC-V machine with S- and U-mode.

    ** How the parts interact

    The loader (urvirt-loader.c) maps the stub's image, puts four files on
    fixed descriptors and jumps to the stub's [entrypoint], which unmaps
    everything else, copies the kernel into RAM, installs the handler and the
    filter, and jumps to the guest at [KERNEL_START].  From then on the stub
    runs only as a signal handler.

    A seccomp filter (seccomp-bpf.c) lets only the stub make system calls.
    [handler] (urvirt-stub.c) maps the hypervisor's state, a page of the file
    [CONFIG_FD], and dispatches on the signal.
    - SIGSYS, an ecall: in S-mode an SBI call (handle-sbi.c), in U-mode a trap
      ([enter_trap]).
    - SIGILL: in S-mode a privileged instruction ([handle_priv_instr]), in
      U-mode a trap.
    - SIGALRM: the timer has expired; the interrupt becomes pending.
    - SIGSEGV: [handle_page_fault] walks the guest's Sv39 tables in the file
      [RAM_FD] and maps one page, performs a store to the block device, or
      delivers the fault to the guest.
    The handler then takes a pending interrupt, and when an operation has set
    [should_clear_vm] unmaps everything but the stub, which is how the guest's
    TLB is flushed.

    ** The model

    Words are [Z] with the wrap-around written out ([u64], [s64], ...).
    Stateful code is a computation in the monad [M] of [Machine]: from a
    [world] (hypervisor state, saved registers, kernel state) it returns a
    value or stops the process ([stop]: ebreak, exit, a fault inside the stub,
    undefined behaviour).  Linux is an argument, the class [Kernel]; what is
    assumed of it is the class [KernelLaws], and [LinuxModel] is an executable
    kernel with those laws.  The hypervisor's state is kept apart from the
    bytes of [CONFIG_FD], through which alone the stub reaches it.

    ** The files
    - [Prelude]: machine words, bitwise reasoning, record update.
    - [Bits]: riscv-bits.h, and the constants of common.h and urvirt-block.h.
    - [State]: [struct priv_state] (riscv-priv.h) and the saved registers.
    - [Machine]: Linux's interface, the monad, the wrappers of
      urvirt-syscalls.h and internal-syscall.h.
    - [Hoare]: triples and invariants of computations, with automation.
    - [Csr]: [sanitize_stvec], [initialize_priv], [read_csr], [write_csr].
    - [Trap]: [trap_target], [enter_trap]; the architecture's trap and return.
    - [Instr]: [handle_priv_instr].
    - [Linux], [LinuxModel]: what is assumed of Linux, and an instance.
    - [PageWalk]: [lookup_pa_in_ram], [lookup_pa]; Sv39 as a function.
    - [Double], [Ntoa], [Ftoa], [Printf], [Console]: C doubles, and printf.c:
      the formatters of integers and of doubles, the directives, and printf on
      standard error.
    - [FtoaTotal]: the formatters of doubles return.
    - [PageFault], [Block]: [decode_sd], [get_store_data],
      [handle_page_fault]; the contract of the block device.
    - [Sbi]: [handle_legacy_sbi_call].
    - [Handler]: [handler].
    - [Guest], [Isolation]: the invariants of the registers and of the address
      space through every operation of the handler.
    - [Hypervisor]: runs of the handler, and the guest and the handler as a
      step relation.
    - [Arch]: the abstract machine: a hart with S- and U-mode, a TLB, a console
      and the block device, as a step relation labelled with input and output.
    - [Ecall]: the SBI calls from the signal to the return of the handler.
    - [Refine]: [view], the machine a state of the process stands for.
    - [Simulation], [FaultSim], [Correct]: [gstep], the steps of the process;
      each, and so each run, is a run of the machine.
    - [Bare]: a guest in U-mode with translation off.
    - [TestKernel]: sbi.h, test-kernel.c and entry.S of test-kernel/ as a
      program of the machine.
    - [Seccomp]: [gen_addr_filter].
    - [Boot]: [entrypoint], [entrypoint_1]; what they need of the process
      ([loaded]) and what they leave ([booted]).
    - [Loader], [LoaderModel]: [main] of the loader; what is assumed of files
      and descriptors, and that the executable kernel has it.
    - [System]: loader, stub and handler composed; the machine switched on.
    - [Demo], [Witnesses]: worlds of the executable kernel, and each theorem
      with hypotheses at a concrete input.

    ** What the theorems show
    - The process is the machine: every run of it, of native steps and of
      signals with the handler's runs, is a run of [Arch]'s machine with the
      same input and output ([hypervisor_refines]); from the command line on,
      that machine is one that is switched on ([launch_refines]).
    - From the command line on: the loader prepares the process as the stub
      needs it unless Linux refused a request it needs ([loader_loads]); the
      stub reaches the guest, or stops after one of five requests whose
      refusal is in the history of the process ([boot_outcome], [boot_safe]);
      every state of the guest from there on satisfies the invariant
      ([boot_reachable], [launch_safe]).  A stop is tied to the history
      ([k_calls]) of the very world in which the process stops.
    - The CSR file holds legal values only, and every write obeys its WARL
      rule ([csr_write_refines], [initialize_priv_wf]).
    - Traps, returns, the CSR instructions and translation refine the
      architecture's definitions ([enter_trap_refines], [sret_refines],
      [csr_instr_refines], [lookup_pa_refines]); the words that are emulated
      are characterised exactly ([priv_instr_decides]).
    - A page fault maps the page the tables name, is reflected, or is a
      device access ([page_fault_maps], [page_fault_denied],
      [page_fault_real], [block_store_refines]); end to end, the retried access
      reads RAM ([handler_demand_paging]).
    - Where the code departs from the architecture or from how-it-works.md, a
      theorem says what it does: it takes a pointer in the last table for a
      leaf and stops at superpages and at tables outside RAM
      ([lookup_pa_refines], against the translation of the privileged
      specification), accepts addresses of 40 bits ([lookup_pa_40_bits]), stops
      at an access the entry forbids in S-mode ([page_fault_denied]), at
      privileged words it does not know ([priv_instr_decides]) and at other
      addresses outside RAM ([block_store_refines]), stores the program counter
      for x0 ([block_store_x0]), does not know c.sdsp ([decode_sdsp]), and
      executes no instruction in U-mode with translation off
      ([bare_user_stops]).
    - The test kernel prints its string on the machine, by ecalls from U-mode
      that its trap handler forwards to the SBI ([test_kernel_prints],
      [stvec_returns]); its instructions are steps of the machine
      ([exec_architecture]).  It runs U-mode with translation off, so URVirt
      stops it there ([bare_user_stops]).
    - The guest stays confined to RAM and a change of mode or of satp flushes
      ([reachable_safe], [handler_flushes], [page_fault_isolation],
      [filter_admits_stub]).
    - Each signal has the effect on the guest the architecture gives the event
      ([handler_timer], [handler_uecall], [handler_uillegal],
      [handler_emulates_csr], [handler_putchar], [handler_set_timer],
      [sbi_timer_refines], [sbi_call_refines]).
    - printf writes inside its buffer, the same text on every sink, and
      numbers that read back ([snprintf_spec], [vsnprintf_text],
      [printf_atoi_roundtrip], [printf_writes]); the formatters of doubles
      return, and agree with those of integers ([float_total],
      [printf_float_int]).

    ** What the refinement assumes

    [hypervisor_refines] is about runs of [gstep], which says of Linux and of
    the guest ([raises], [fault_insn], [owns_buffers]):
    - the user-level instructions are the parameter [UserIsa]; those that run
      natively leave mappings and descriptors alone and make no system call;
    - an ecall arrives as SIGSYS with a7 in [si_syscall], an int, so that an
      a7 outside its range is not covered;
    - a fault is at the instruction itself (a fetch) or is that of the load,
      store or atomic instruction the machine has there; excluded are the
      accesses the code gets wrong: floating-point loads and stores, data
      accesses to the instruction's own address, a store of x0 to the device,
      and addresses that are sign-extended from bit 39 but not from bit 38;
    - Linux grants the mapping of a page of RAM; its environment is that of
      [Linux]: the standard streams are no files, munmap does not run into the
      limit on mappings, and a load or store through a mapping succeeds below
      the length of the file ([k_len]);
    - the buffers of block transfers are guest memory, since the code does
      not check [urvb_buf].
    What the process does when it stops (shutdown, ebreak) is no step.

    ** Bounds and fuel

    [walk] has three iterations, the levels of Sv39, and returns or stops
    within them ([walk_refines]); [vsn_loop] has the length of the format,
    since an iteration consumes a character; the BPF interpreter has the
    length of the program, since jumps are forward; the calls of [_ftoa] and
    [_etoa] are nested two deep ([float_total]).

    ** Not modelled

    The naked [handler_wrapper], assembly that calls [handler] and then
    [rt_sigreturn], is an address; the switch of stacks and the jump to the
    guest are inline assembly, modelled as a call and as the new program
    counter; [entrypoint]'s own stack, which it unmaps while it still runs, is
    not part of the state.  SIGALRM is masked during the handler, and a signal the stub itself
    raises is a stop of the model.
    The addresses, registers and compressed encodings that the compiler and
    the linker choose for the test kernel are parameters of its model.
    The operations on doubles are rounded one by one: a compiler that fuses a
    product and a sum would round less often. *)

From Stdlib Require Export ZArith Lia Bool.
From stdpp Require Export base tactics option list gmap strings.
#[global] Open Scope Z_scope.
#[global] Set Default Goal Selector "!".

(** ** Machine words

    A [w]-bit unsigned C integer is a [Z] in [0, 2^w); arithmetic that can
    leave the range is followed by the conversion that C performs. *)

(** Conversion to [uint64_t] ([uintptr_t], [size_t] on RV64). *)
Definition u64 (z : Z) : Z := z mod 2 ^ 64.

(** Conversion to [uint32_t]. *)
Definition u32 (z : Z) : Z := z mod 2 ^ 32.

(** Conversion to [uint16_t]. *)
Definition u16 (z : Z) : Z := z mod 2 ^ 16.

(** Conversion to [char] and [unsigned char] (plain [char] is unsigned on
    RISC-V). *)
Definition u8 (z : Z) : Z := z mod 2 ^ 8.

(** Conversion of a [w]-bit pattern to the signed type of that width. *)
Definition sext (w z : Z) : Z :=
  let m := z mod 2 ^ w in if m <? 2 ^ (w - 1) then m else m - 2 ^ w.

(** Conversion to [int64_t] ([intptr_t], [long], [ssize_t]). *)
Definition s64 (z : Z) : Z := sext 64 z.

(** Conversion to [int]. *)
Definition s32 (z : Z) : Z := sext 32 z.

(** [~ x] on a 64-bit unsigned operand. *)
Definition not64 (z : Z) : Z := u64 (Z.lnot z).

(** [x << n] on a 64-bit unsigned operand. *)
Definition shl64 (z n : Z) : Z := u64 (Z.shiftl z n).

(** The values of [uintptr_t]. *)
Definition is_u64 (z : Z) : Prop := 0 <= z < 2 ^ 64.

#[export] Instance is_u64_dec z : Decision (is_u64 z).
Proof. unfold is_u64. apply _. Defined.

(** The characters of a string literal, without its terminating zero. *)
Fixpoint string_bytes (s : string) : list Z :=
  match s with
  | EmptyString => []
  | String c s => Z.of_N (Ascii.N_of_ascii c) :: string_bytes s
  end.

(** C's [if (x)] on an integer. *)
Definition truthy (z : Z) : bool := negb (z =? 0).

(** ** Bits *)

Create Rewrite HintDb bits.
Create HintDb words.

Lemma testbit_mod_pow2 x w i :
  0 <= w -> 0 <= i -> Z.testbit (x mod 2 ^ w) i = (i <? w) && Z.testbit x i.
Proof.
  intros Hw Hi. destruct (Z.ltb_spec i w).
  - by rewrite Z.mod_pow2_bits_low by lia.
  - by rewrite Z.mod_pow2_bits_high by lia.
Qed.

Lemma testbit_u64 x i : 0 <= i -> Z.testbit (u64 x) i = (i <? 64) && Z.testbit x i.
Proof. intros. by apply testbit_mod_pow2. Qed.

Lemma testbit_not64 x i :
  0 <= i -> Z.testbit (not64 x) i = (i <? 64) && negb (Z.testbit x i).
Proof. intros. unfold not64. by rewrite testbit_u64, Z.lnot_spec by done. Qed.

Lemma testbit_shiftl x n i :
  0 <= i -> 0 <= n -> Z.testbit (Z.shiftl x n) i = (n <=? i) && Z.testbit x (i - n).
Proof.
  intros Hi Hn. rewrite Z.shiftl_spec by done.
  destruct (Z.leb_spec n i); [done|]. by rewrite Z.testbit_neg_r by lia.
Qed.

Lemma testbit_shl64 x n i :
  0 <= i -> 0 <= n ->
  Z.testbit (shl64 x n) i = (i <? 64) && ((n <=? i) && Z.testbit x (i - n)).
Proof. intros. unfold shl64. by rewrite testbit_u64, testbit_shiftl by done. Qed.

Lemma testbit_pred_pow2 w i :
  0 <= w -> 0 <= i -> Z.testbit (Z.shiftl 1 w - 1) i = (i <? w).
Proof.
  intros Hw Hi. rewrite Z.shiftl_1_l, Z.sub_1_r, <- Z.ones_equiv.
  destruct (Z.ltb_spec i w).
  - by rewrite Z.ones_spec_low by lia.
  - by rewrite Z.ones_spec_high by lia.
Qed.

Lemma testbit_small x w i : 0 <= x < 2 ^ w -> w <= i -> Z.testbit x i = false.
Proof.
  intros Hx Hi. assert (0 <= w).
  { destruct (Z.le_gt_cases 0 w); [done|]. rewrite Z.pow_neg_r in Hx by lia. lia. }
  rewrite <- (Z.mod_small x (2 ^ w)) by done. by apply Z.mod_pow2_bits_high.
Qed.

(** A non-negative number with no bit at or above [w] is below [2^w]. *)
Lemma bits_range x w :
  0 <= w -> (forall i, w <= i -> Z.testbit x i = false) -> 0 <= x < 2 ^ w.
Proof.
  intros Hw Hx. replace x with (x mod 2 ^ w); [apply Z.mod_pos_bound; lia|].
  apply Z.bits_inj'. intros i Hi. rewrite testbit_mod_pow2 by done.
  destruct (Z.ltb_spec i w); [done|]. by rewrite Hx.
Qed.

#[export] Hint Rewrite testbit_not64 testbit_shl64 testbit_u64 using lia : bits.
#[export] Hint Rewrite testbit_pred_pow2 testbit_shiftl testbit_mod_pow2 using lia : bits.
#[export] Hint Rewrite Z.shiftr_spec using lia : bits.
#[export] Hint Rewrite Z.lnot_spec using lia : bits.
#[export] Hint Rewrite Z.land_spec Z.lor_spec Z.lxor_spec Z.ldiff_spec Z.bits_0 : bits.

(** Splits every comparison a bit expression depends on. *)
Ltac split_cmps :=
  repeat match goal with
  | |- context [?a <? ?b] => destruct (Z.ltb_spec a b)
  | |- context [?a <=? ?b] => destruct (Z.leb_spec a b)
  end; simpl; try lia.

(** Decides a boolean goal by cases on the bits it mentions. *)
Ltac bit_cases :=
  repeat match goal with
  | |- context [Z.testbit ?x ?i] => destruct (Z.testbit x i) eqn:?
  end; simpl; try done; try congruence.

(** Proves an equation of words bit by bit. *)
Ltac bitwise :=
  apply Z.bits_inj'; intros ?i ?; autorewrite with bits; split_cmps; bit_cases.

(** ** Ranges *)

Lemma u64_range x : is_u64 (u64 x).
Proof. unfold is_u64, u64. apply Z.mod_pos_bound. lia. Qed.

Lemma u64_id x : is_u64 x -> u64 x = x.
Proof. intros. by apply Z.mod_small. Qed.

Lemma is_u64_bits x :
  is_u64 x <-> 0 <= x /\ forall i, 64 <= i -> Z.testbit x i = false.
Proof.
  split.
  - intros Hx. split; [apply Hx|]. intros. by eapply testbit_small.
  - intros [_ Hx]. by apply bits_range.
Qed.

Lemma is_u64_high x i : is_u64 x -> 64 <= i -> Z.testbit x i = false.
Proof. intros Hx. by apply is_u64_bits. Qed.

Lemma is_u64_lor x y : is_u64 x -> is_u64 y -> is_u64 (Z.lor x y).
Proof.
  intros. apply bits_range; [done|]. intros. rewrite Z.lor_spec.
  by rewrite !is_u64_high.
Qed.

Lemma is_u64_land_l x y : is_u64 x -> is_u64 (Z.land x y).
Proof.
  intros. apply bits_range; [done|]. intros. rewrite Z.land_spec.
  by rewrite is_u64_high.
Qed.

Lemma is_u64_land_r x y : is_u64 y -> is_u64 (Z.land x y).
Proof. rewrite Z.land_comm. apply is_u64_land_l. Qed.

Lemma is_u64_shiftr x n : 0 <= n -> is_u64 x -> is_u64 (Z.shiftr x n).
Proof.
  intros ? Hx. apply bits_range; [done|]. intros.
  rewrite Z.shiftr_spec by lia. apply is_u64_high; [done|lia].
Qed.

Lemma is_u64_not64 x : is_u64 (not64 x).
Proof. apply u64_range. Qed.

Lemma is_u64_shl64 x n : is_u64 (shl64 x n).
Proof. apply u64_range. Qed.

#[export] Hint Resolve u64_range is_u64_lor is_u64_not64 is_u64_shl64 : words.
#[export] Hint Resolve is_u64_land_l is_u64_land_r is_u64_shiftr : words.
#[export] Hint Extern 2 (is_u64 _) => (unfold is_u64; lia) : words.
#[export] Hint Extern 1 (_ <= _) => lia : words.

Lemma truthy_true z : truthy z = true <-> z <> 0.
Proof. unfold truthy. rewrite negb_true_iff, Z.eqb_neq. done. Qed.

Lemma truthy_false z : truthy z = false <-> z = 0.
Proof. unfold truthy. rewrite negb_false_iff, Z.eqb_eq. done. Qed.

(** Testing one bit with a mask. *)
Lemma truthy_land_bit x b : 0 <= b -> truthy (Z.land x (Z.shiftl 1 b)) = Z.testbit x b.
Proof.
  intros Hb.
  assert (Z.land x (Z.shiftl 1 b) = if Z.testbit x b then 2 ^ b else 0) as ->.
  { apply Z.bits_inj'. intros i Hi. rewrite Z.land_spec, Z.shiftl_1_l, Z.pow2_bits_eqb by done.
    destruct (Z.eqb_spec b i) as [->|].
    - rewrite andb_true_r. destruct (Z.testbit x i); [|by rewrite Z.bits_0].
      by rewrite Z.pow2_bits_true.
    - rewrite andb_false_r. destruct (Z.testbit x b); [|by rewrite Z.bits_0].
      by rewrite Z.pow2_bits_false by lia. }
  destruct (Z.testbit x b); [|done]. apply truthy_true. lia.
Qed.

(** ** Signed conversions *)

Lemma s64_spec z : - 2 ^ 63 <= s64 z < 2 ^ 63 /\ exists q, s64 z = z + 2 ^ 64 * q.
Proof.
  unfold s64, sext. pose proof (Z.mod_pos_bound z (2 ^ 64) ltac:(lia)).
  pose proof (Z.div_mod z (2 ^ 64) ltac:(lia)) as Hz. change (64 - 1) with 63.
  destruct (Z.ltb_spec (z mod 2 ^ 64) (2 ^ 63)); (split; [lia|]).
  - exists (- (z / 2 ^ 64)). lia.
  - exists (- (z / 2 ^ 64) - 1). lia.
Qed.

Lemma s64_small z : 0 <= z < 2 ^ 63 -> s64 z = z.
Proof.
  intros Hz. unfold s64, sext. rewrite Z.mod_small by lia.
  by rewrite (proj2 (Z.ltb_lt z _)) by lia.
Qed.

Lemma s64_nonneg z : is_u64 z -> 0 <= s64 z -> z < 2 ^ 63.
Proof.
  unfold is_u64, s64, sext. intros Hz. rewrite Z.mod_small by lia.
  destruct (Z.ltb_spec z (2 ^ (64 - 1))); lia.
Qed.

(** Concatenation of disjoint bit ranges. *)
Lemma lor_add a b n : 0 <= n -> 0 <= b < 2 ^ n -> Z.lor (Z.shiftl a n) b = a * 2 ^ n + b.
Proof.
  intros Hn Hb. rewrite <- Z.shiftl_mul_pow2 by done. symmetry. apply Z.add_nocarry_lor.
  apply Z.bits_inj'. intros i Hi. rewrite Z.land_spec, Z.bits_0.
  destruct (Z.lt_ge_cases i n).
  - by rewrite Z.shiftl_spec_low.
  - by rewrite (testbit_small b n), andb_false_r.
Qed.

(** A decidable property of the numbers below [n] is checked by running it. *)
Lemma forall_below (n : Z) (P : Z -> bool) :
  forallb P (seqZ 0 n) = true -> forall i, 0 <= i < n -> P i = true.
Proof.
  rewrite forallb_forall. intros H i Hi. apply H.
  apply list_elem_of_In, elem_of_seqZ. lia.
Qed.

(** ** Records

    [r <| f := v |>] is the record [r] with field [f] replaced.  A record
    type opts in with an [Eta] instance that rebuilds a value from its
    projections; the update is found by abstracting the field in it. *)

Class Eta (R : Type) := eta : R -> R.
Class Update {R F : Type} (proj : R -> F) := update : F -> R -> R.

Ltac solve_update :=
  match goal with
  | |- @Update ?R ?F ?proj =>
      let r := fresh "r" in let v := fresh "v" in
      refine (fun (v : F) (r : R) => _);
      let e := eval hnf in (@eta R _ r) in
      match eval pattern (proj r) in e with
      | ?f _ => let t := eval cbv beta in (f v) in exact t
      end
  end.

#[export] Hint Extern 1 (Update _) => solve_update : typeclass_instances.

Declare Scope record_scope.
Notation "r <| f := v |>" := (update (proj := f) v r)
  (at level 1, f at level 10, v at level 100, left associativity) : record_scope.
#[global] Open Scope record_scope.
