(* ===== verification/Bits.v ===== *)
(** * Instruction fields, CSR fields and constants

    Models [src/common/riscv-bits.h] (and the constants of
    [src/common/common.h] and [urvirt-block.h]).  The two field macros
    [ins_bitfield] and [bitfield] become the functions [ins_bitfield],
    [bf_mask], [bf_get] and [bf_set]; each macro call is an instance of them
    under the name the C preprocessor gives it. *)

From S2P Require Import Prelude.

(** ** Instruction fields *)

Definition ins_bitfield (start width instr : Z) : Z :=
  Z.land (Z.shiftr instr start) (Z.shiftl 1 width - 1).

Definition ins_opcode : Z -> Z := ins_bitfield 0 7.
Definition ins_rd : Z -> Z := ins_bitfield 7 5.
Definition ins_funct3 : Z -> Z := ins_bitfield 12 3.
Definition ins_rs1 : Z -> Z := ins_bitfield 15 5.
Definition ins_rs2 : Z -> Z := ins_bitfield 20 5.
Definition ins_funct7 : Z -> Z := ins_bitfield 25 7.
Definition ins_csr : Z -> Z := ins_bitfield 20 12.

Definition OPCODE_SYSTEM : Z := 0x73.
Definition OPCODE_LOAD : Z := 3.
Definition OPCODE_STORE : Z := 0x23.
Definition OPCODE_AMO : Z := 0x2f.
Definition FUNCT7_WFI : Z := 8.
Definition RS2_WFI : Z := 5.
Definition FUNCT7_SRET : Z := 8.
Definition RS2_SRET : Z := 2.
Definition FUNCT7_SFENCE_VMA : Z := 9.
Definition FUNCT3_NOT_CSR : Z := 0.
Definition CSR_USE_UIMM : Z := 4.
Definition CSR_OP_MASK : Z := 3.
Definition CSR_OP_RW : Z := 1.
Definition CSR_OP_RS : Z := 2.
Definition CSR_OP_RC : Z := 3.

(** CSR numbers *)
Definition CSR_SSTATUS : Z := 0x100.
Definition CSR_SIE : Z := 0x104.
Definition CSR_STVEC : Z := 0x105.
Definition CSR_SSCRATCH : Z := 0x140.
Definition CSR_SEPC : Z := 0x141.
Definition CSR_SCAUSE : Z := 0x142.
Definition CSR_STVAL : Z := 0x143.
Definition CSR_SIP : Z := 0x144.
Definition CSR_SATP : Z := 0x180.

(** Privilege modes *)
Definition PRIV_U : Z := 0x00.
Definition PRIV_S : Z := 0x10.
Definition PRIV_M : Z := 0x11.

(** stvec and scause *)
Definition STVEC_MODE_MASK : Z := 3.
Definition STVEC_DIRECT : Z := 0.
Definition STVEC_VECTORED : Z := 1.
Definition SCAUSE_IS_INT : Z := shl64 1 63.
Definition SCAUSE_ILLEGAL : Z := 2.
Definition SCAUSE_UECALL : Z := 8.
Definition SCAUSE_INSTR_PF : Z := 12.
Definition SCAUSE_LOAD_PF : Z := 13.
Definition SCAUSE_STORE_PF : Z := 15.
Definition SCAUSE_TIMER : Z := Z.lor SCAUSE_IS_INT 5.

(** ** CSR, page-table and address fields: the [bitfield] macro *)

Definition bf_mask (start width : Z) : Z := shl64 (Z.shiftl 1 width - 1) start.
Definition bf_get (start width data : Z) : Z :=
  Z.land (Z.shiftr data start) (Z.shiftl 1 width - 1).
Definition bf_set (start width data field : Z) : Z :=
  Z.lor (Z.land data (not64 (bf_mask start width))) (shl64 field start).

Definition get_sstatus_sie : Z -> Z := bf_get 1 1.
Definition set_sstatus_sie : Z -> Z -> Z := bf_set 1 1.
Definition get_sstatus_spie : Z -> Z := bf_get 5 1.
Definition set_sstatus_spie : Z -> Z -> Z := bf_set 5 1.
Definition get_sstatus_spp : Z -> Z := bf_get 8 1.
Definition set_sstatus_spp : Z -> Z -> Z := bf_set 8 1.
Definition set_sstatus_fs : Z -> Z -> Z := bf_set 13 2.
Definition set_sstatus_xs : Z -> Z -> Z := bf_set 15 2.
Definition set_sstatus_sd : Z -> Z -> Z := bf_set 63 1.
Definition MASK_sstatus_mxr : Z := bf_mask 19 1.
Definition MASK_sstatus_sum : Z := bf_mask 18 1.
Definition MASK_sstatus_spp : Z := bf_mask 8 1.
Definition MASK_sstatus_spie : Z := bf_mask 5 1.
Definition MASK_sstatus_sie : Z := bf_mask 1 1.

Definition SSTATUS_XS_DIRTY : Z := 3.
Definition SSTATUS_SPP_S : Z := 1.
Definition SSTATUS_SPP_U : Z := 0.

Definition SSTATUS_WRITABLE_MASK : Z :=
  Z.lor (Z.lor (Z.lor (Z.lor MASK_sstatus_mxr MASK_sstatus_sum)
                      MASK_sstatus_spp) MASK_sstatus_spie) MASK_sstatus_sie.

Definition get_six_sti : Z -> Z := bf_get 5 1.
Definition set_six_sti : Z -> Z -> Z := bf_set 5 1.
Definition SIX_WRITABLE_MASK : Z := bf_mask 5 1.

Definition get_satp_ppn : Z -> Z := bf_get 0 44.
Definition set_satp_asid : Z -> Z -> Z := bf_set 44 16.
Definition get_satp_mode : Z -> Z := bf_get 60 4.
Definition SATP_MODE_BARE : Z := 0.
Definition SATP_MODE_SV39 : Z := 8.

Definition get_pte_flags : Z -> Z := bf_get 0 8.
Definition get_pte_ppn : Z -> Z := bf_get 10 44.
Definition PTE_V : Z := Z.shiftl 1 0.
Definition PTE_R : Z := Z.shiftl 1 1.
Definition PTE_W : Z := Z.shiftl 1 2.
Definition PTE_X : Z := Z.shiftl 1 3.
Definition PTE_U : Z := Z.shiftl 1 4.

Definition get_va_ppn0 : Z -> Z := bf_get 30 9.
Definition get_va_ppn1 : Z -> Z := bf_get 21 9.
Definition get_va_ppn2 : Z -> Z := bf_get 12 9.
Definition get_va_off : Z -> Z := bf_get 0 12.

(** ** Compressed loads and stores *)

Definition rvc_looks_like_load (instr : Z) : bool :=
  let op := Z.land instr 3 in
  let funct3 := Z.shiftr instr 13 in
  ((op =? 0) || (op =? 2)) &&
  ((funct3 =? 1) || (funct3 =? 2) || (funct3 =? 3)).

Definition rvc_looks_like_store (instr : Z) : bool :=
  let op := Z.land instr 3 in
  let funct3 := Z.shiftr instr 13 in
  ((op =? 0) || (op =? 2)) &&
  ((funct3 =? 5) || (funct3 =? 6) || (funct3 =? 7)).

(** ** Constants of common.h and urvirt-block.h *)

Definition CONFIG_FD : Z := 64.
Definition RAM_FD : Z := 65.
Definition KERNEL_FD : Z := 66.
Definition BLOCK_FD : Z := 67.
Definition RAM_START : Z := 0x80000000.
Definition RAM_SIZE : Z := Z.shiftl 16 20.
Definition SIGSTACK_SIZE : Z := 4096.
Definition KERNEL_START : Z := 0x80200000.
Definition CONF_SIZE : Z := 4096.

Definition URVIRT_BLOCK : Z := 0x10400000.
Definition URVIRT_BLOCK_COMMAND : Z := 0.
Definition URVIRT_BLOCK_BLOCK_ID : Z := 8.
Definition URVIRT_BLOCK_BUF : Z := 16.
Definition URVIRT_BLOCK_CMD_READ : Z := 1.
Definition URVIRT_BLOCK_CMD_WRITE : Z := 2.
Definition URVIRT_BLOCK_SIZE : Z := 512.

Create HintDb field_names.
#[export] Hint Unfold get_sstatus_sie set_sstatus_sie get_sstatus_spie
  set_sstatus_spie get_sstatus_spp set_sstatus_spp set_sstatus_fs
  set_sstatus_xs set_sstatus_sd get_six_sti set_six_sti get_satp_ppn
  set_satp_asid get_satp_mode get_pte_flags get_pte_ppn get_va_ppn0
  get_va_ppn1 get_va_ppn2 get_va_off : field_names.

Create Rewrite HintDb fields.

(** ** Lemmas on fields *)

Section fields.
Context (s w : Z) (Hs : 0 <= s) (Hw : 0 <= w).

Lemma testbit_bf_get d i :
  0 <= i -> Z.testbit (bf_get s w d) i = (i <? w) && Z.testbit d (i + s).
Proof using Hs Hw.
  intros. unfold bf_get. autorewrite with bits. apply andb_comm.
Qed.

Lemma testbit_bf_mask i :
  0 <= i -> Z.testbit (bf_mask s w) i = (i <? 64) && ((s <=? i) && (i <? s + w)).
Proof using Hs Hw.
  intros. unfold bf_mask. autorewrite with bits. f_equal.
  destruct (Z.leb_spec s i); [|done]. autorewrite with bits. split_cmps.
Qed.

Lemma testbit_bf_set d f i :
  0 <= i -> is_u64 d ->
  Z.testbit (bf_set s w d f) i =
    (i <? 64) && (((negb (s <=? i) || negb (i <? s + w)) && Z.testbit d i)
                  || ((s <=? i) && Z.testbit f (i - s))).
Proof using Hs Hw.
  intros Hi Hd. unfold bf_set.
  rewrite Z.lor_spec, Z.land_spec, testbit_not64, testbit_bf_mask, testbit_shl64 by done.
  split_cmps; by rewrite ?andb_true_r, ?andb_false_r.
Qed.

Lemma bf_get_range d : 0 <= bf_get s w d < 2 ^ w.
Proof using Hs Hw.
  apply bits_range; [done|]. intros. rewrite testbit_bf_get by lia. split_cmps.
Qed.

Lemma bf_set_u64 d f : is_u64 d -> is_u64 (bf_set s w d f).
Proof using. intros. unfold bf_set. auto with words. Qed.

Lemma bf_get_u64 d : is_u64 d -> is_u64 (bf_get s w d).
Proof using Hs Hw. intros. unfold bf_get. auto with words. Qed.

Lemma bf_get_set d f :
  s + w <= 64 -> is_u64 d -> 0 <= f < 2 ^ w -> bf_get s w (bf_set s w d f) = f.
Proof using Hs Hw.
  intros Hsw Hd Hf. apply Z.bits_inj'. intros i Hi.
  rewrite testbit_bf_get, testbit_bf_set by (done || lia).
  destruct (Z.ltb_spec i w).
  - split_cmps. by replace (i + s - s) with i by lia.
  - simpl. by rewrite (testbit_small f w) by lia.
Qed.

Lemma bf_get_set_ne s' w' d f :
  0 <= s' -> 0 <= w' -> s' + w' <= 64 -> is_u64 d -> 0 <= f < 2 ^ w ->
  s' + w' <= s \/ s + w <= s' ->
  bf_get s' w' (bf_set s w d f) = bf_get s' w' d.
Proof using Hs Hw.
  intros Hs' Hw' Hsw Hd Hf Hdisj. apply Z.bits_inj'. intros i Hi.
  unfold bf_get at 1. autorewrite with bits. rewrite testbit_bf_set by (done || lia).
  unfold bf_get. autorewrite with bits. split_cmps;
    rewrite ?andb_false_r, ?andb_true_r; try done.
  all: try (rewrite (testbit_small f w) by lia); by rewrite ?orb_false_r.
Qed.

Lemma bf_set_get d : s + w <= 64 -> is_u64 d -> bf_set s w d (bf_get s w d) = d.
Proof using Hs Hw.
  intros Hsw Hd. apply Z.bits_inj'. intros i Hi. rewrite testbit_bf_set by done.
  destruct (Z.ltb_spec i 64); [|by rewrite is_u64_high].
  destruct (Z.leb_spec s i); simpl; [|by rewrite orb_false_r].
  rewrite testbit_bf_get by lia. replace (i - s + s) with i by lia.
  split_cmps; by rewrite ?orb_false_r.
Qed.

(** Setting a field leaves the bits outside a mask that contains it. *)
Lemma bf_set_outside m d f :
  is_u64 d -> 0 <= f < 2 ^ w ->
  (forall i, s <= i < s + w -> Z.testbit m i = true) ->
  Z.land (bf_set s w d f) (not64 m) = Z.land d (not64 m).
Proof using Hs Hw.
  intros Hd Hf Hm. apply Z.bits_inj'. intros i Hi.
  rewrite !Z.land_spec, testbit_bf_set, testbit_not64 by done.
  destruct (Z.leb_spec s i); [destruct (Z.ltb_spec i (s + w))|];
    rewrite ?Hm by lia; destruct (Z.ltb_spec i 64); simpl;
    rewrite ?andb_false_r, ?orb_false_r; try done.
  by rewrite (testbit_small f w), orb_false_r by lia.
Qed.

Lemma testbit_bf_set_ne d f i :
  0 <= i < 64 -> is_u64 d -> 0 <= f < 2 ^ w -> i < s \/ s + w <= i ->
  Z.testbit (bf_set s w d f) i = Z.testbit d i.
Proof using Hs Hw.
  intros Hi Hd Hf Hne. rewrite testbit_bf_set by (done || lia).
  split_cmps; rewrite ?(testbit_small f w) by lia; by rewrite ?orb_false_r.
Qed.
End fields.

(** One-bit fields: the flags of sstatus, sip and sie. *)
Lemma bf_get_1_range s d : 0 <= s -> 0 <= bf_get s 1 d < 2 ^ 1.
Proof. intros. by apply bf_get_range. Qed.

#[export] Hint Resolve bf_get_1_range : words.
#[export] Hint Resolve bf_set_u64 bf_get_u64 : words.
#[export] Hint Rewrite bf_get_set using (auto with words; lia) : fields.
#[export] Hint Rewrite bf_get_set_ne using (auto with words; lia) : fields.

Lemma bf_get_bool s d : 0 <= s -> bf_get s 1 d = Z.b2z (Z.testbit d s).
Proof.
  intros Hs. apply Z.bits_inj'. intros i Hi. rewrite testbit_bf_get by lia.
  destruct (Z.eq_dec i 0) as [->|]; [by rewrite Z.b2z_bit0|].
  rewrite (testbit_small (Z.b2z _) 1); [split_cmps| |lia].
  rewrite Z.pow_1_r. destruct (Z.testbit d s); simpl; lia.
Qed.
