(* ===== verification/State.v ===== *)
(** * The hypervisor's state: [struct priv_state] and the saved registers

    [priv_state] has the fields of [struct priv_state] (riscv-priv.h) in
    their order; it lives in the memory of [CONFIG_FD].  [gregs] is
    [ucontext->uc_mcontext.__gregs]: 32 words, the program counter in slot 0
    (where x0 would be) and x1 to x31 in the others. *)

From S2P Require Import Prelude Bits.

Record priv_state := mk_priv {
  stub_start : Z;
  stub_size : Z;
  kernel_size : Z;
  timerid : Z;
  priv_mode : Z;
  sstatus : Z;
  sscratch : Z;
  stvec : Z;
  sepc : Z;
  scause : Z;
  stval : Z;
  sip : Z;
  sie : Z;
  satp : Z;
  urvb_block_id : Z;
  urvb_buf : Z;
  should_clear_vm : bool;
  counter_ill : Z;
  counter_segv : Z;
  counter_sret : Z;
  counter_uecall : Z;
  counter_secall : Z;
}.

#[export] Instance eta_priv_state : Eta priv_state := fun p =>
  mk_priv (stub_start p) (stub_size p) (kernel_size p) (timerid p) (priv_mode p)
    (sstatus p) (sscratch p) (stvec p) (sepc p) (scause p) (stval p) (sip p)
    (sie p) (satp p) (urvb_block_id p) (urvb_buf p) (should_clear_vm p)
    (counter_ill p) (counter_segv p) (counter_sret p) (counter_uecall p)
    (counter_secall p).

#[export] Instance priv_state_eq_dec : EqDecision priv_state.
Proof. solve_decision. Defined.

(** [memfd_create] and [ftruncate] give a file of zeroes. *)
Definition zero_priv : priv_state :=
  mk_priv 0 0 0 0 0 0 0 0 0 0 0 0 0 0 0 0 false 0 0 0 0 0.

(** ** Saved registers *)

Abbreviation gregs := (list Z) (only parsing).

(** [regs[i]] and [regs[i] = v]; every index the code uses is the constant 0,
    10, 11, 12, 17 or a five-bit field, so it is in range. *)
Definition reg (r : gregs) (i : Z) : Z := r !!! Z.to_nat i.
Definition set_reg (r : gregs) (i v : Z) : gregs := <[Z.to_nat i := v]> r.

(** The architectural register x[i]: x0 reads as zero and ignores writes. *)
Definition xreg (r : gregs) (i : Z) : Z := if i =? 0 then 0 else reg r i.
Definition set_xreg (r : gregs) (i v : Z) : gregs :=
  if i =? 0 then r else set_reg r i v.
Definition pc (r : gregs) : Z := reg r 0.

Definition gregs_wf (r : gregs) : Prop := length r = 32%nat /\ Forall is_u64 r.

Create HintDb state.
Create Rewrite HintDb regs.

Lemma reg_set_reg r i v : 0 <= i < Z.of_nat (length r) -> reg (set_reg r i v) i = v.
Proof. intros. unfold reg, set_reg. rewrite list_lookup_total_insert_eq; [done|lia]. Qed.

Lemma reg_set_reg_ne r i j v : 0 <= i -> 0 <= j -> i <> j -> reg (set_reg r i v) j = reg r j.
Proof. intros. unfold reg, set_reg. rewrite list_lookup_total_insert_ne; [done|lia]. Qed.

Lemma length_set_reg r i v : length (set_reg r i v) = length r.
Proof. apply length_insert. Qed.

Lemma set_reg_wf r i v : gregs_wf r -> is_u64 v -> gregs_wf (set_reg r i v).
Proof.
  intros [Hl Hf] Hv. split; [by rewrite length_set_reg|]. by apply Forall_insert.
Qed.

Lemma reg_u64 r i : gregs_wf r -> 0 <= i < 32 -> is_u64 (reg r i).
Proof.
  intros [Hl Hf] Hi. unfold reg.
  destruct (lookup_lt_is_Some_2 r (Z.to_nat i)) as [v Hv]; [lia|].
  rewrite (list_lookup_total_correct _ _ _ Hv). by eapply Forall_lookup_1.
Qed.

#[export] Hint Resolve set_reg_wf reg_u64 : words.
#[export] Hint Rewrite length_set_reg : regs.
#[export] Hint Rewrite reg_set_reg_ne using lia : regs.
#[export] Hint Rewrite reg_set_reg using (rewrite ?length_set_reg; lia) : regs.
