(* ===== verification/Machine.v ===== *)
(** * The Linux interface and the monad of the stub

    The stub is freestanding code: what it does besides computing is to make
    system calls ([internal-syscall.h], [urvirt-syscalls.h]), to load and
    store bytes of its own address space, to read the [time] CSR and to
    execute [ebreak].  Linux is not part of the repository, so it is the
    class [Kernel], an argument of every definition; what the proofs rely on
    is the documented behaviour of [mmap(2)], [munmap(2)] and of loads
    through a mapping, stated in the class [KernelLaws]. *)

From S2P Require Import Prelude Bits State.

(** ** System calls *)

Abbreviation bytes := (list Z) (only parsing).

Inductive syscall :=
| SysExitGroup (status : Z)
| SysMunmap (addr length : Z)
| SysMmap (addr length prot flags fd pgoffset : Z)
| SysSigaltstack (ss_sp ss_flags ss_size : Z)
| SysRtSigaction (sig handler flags mask sigsetsize : Z)
| SysWrite (fd : Z) (buf : bytes)
| SysSeccomp (operation flags : Z) (prog : list (Z * Z * Z * Z))
| SysRiscvFlushIcache (start finish flags : Z)
| SysTimerCreate (clockid notify signo value : Z)
| SysTimerSettime (timerid flags interval_sec interval_nsec value_sec value_nsec : Z)
| SysRead (fd count : Z)
| SysFcntl (fd cmd arg : Z)
| SysPread64 (fd buf count offset : Z)
| SysPwrite64 (fd buf count offset : Z)
| SysPrctl (option arg2 arg3 arg4 arg5 : Z)
(* the loader, through the C library *)
| SysOpen (path : bytes) (flags : Z)
| SysFstat (fd : Z)
| SysClose (fd : Z)
| SysDup2 (oldfd newfd : Z)
| SysMemfdCreate (name : bytes) (flags : Z)
| SysFtruncate (fd length : Z).

(** What a call leaves behind: register a0, and the bytes the kernel wrote
    into a buffer of the process ([read], [timer_create]; of the structure
    [fstat] fills, the eight bytes of [st_size]). *)
Record sysret := { sr_val : Z; sr_buf : bytes }.

(** ** Linux *)

Class Kernel := {
  kstate : Type;
  k_syscall : syscall -> kstate -> sysret * kstate;
  k_load : kstate -> Z -> option Z;  (** a byte of the process, [None]: SIGSEGV *)
  k_store : kstate -> Z -> Z -> option kstate;
  k_time : kstate -> Z;              (** the [time] CSR *)
}.

(** ** Outcomes and the monad

    No handler is installed for SIGTRAP, so [ebreak] ends the process, as
    does [exit_group].  At a fault inside the stub the model stops: while
    SIGSEGV is being handled it is blocked and Linux kills the process; from
    the other signals the handler would be entered a second time, for its own
    access, which is not modelled.  [StopUndefined] is C's undefined
    behaviour. *)

Inductive stop :=
| StopEbreak
| StopExit (status : Z)
| StopFault (addr : Z)
| StopUndefined.

#[export] Instance stop_eq_dec : EqDecision stop.
Proof. solve_decision. Defined.

Section machine.
Context `{K : Kernel}.

Record world := mk_world {
  w_priv : priv_state;
  w_regs : gregs;
  w_kern : kstate;
}.

#[export] Instance eta_world : Eta world := fun w =>
  mk_world (w_priv w) (w_regs w) (w_kern w).

Definition M (A : Type) : Type := world -> (stop + A) * world.

#[export] Instance M_ret : MRet M := fun A a w => (inr a, w).
#[export] Instance M_bind : MBind M := fun A B f m w =>
  match m w with
  | (inr a, w') => f a w'
  | (inl s, w') => (inl s, w')
  end.

Definition halt {A} (s : stop) : M A := fun w => (inl s, w).
Definition ebreak {A} : M A := halt StopEbreak.

Definition get_priv : M priv_state := fun w => (inr (w_priv w), w).
Definition mod_priv (f : priv_state -> priv_state) : M unit := fun w =>
  (inr (), w <| w_priv := f (w_priv w) |>).
Definition get_regs : M gregs := fun w => (inr (w_regs w), w).
Definition get_reg (i : Z) : M Z := fun w => (inr (reg (w_regs w) i), w).
Definition put_reg (i v : Z) : M unit := fun w =>
  (inr (), w <| w_regs := set_reg (w_regs w) i v |>).
Definition read_time : M Z := fun w => (inr (k_time (w_kern w)), w).
Definition do_syscall (c : syscall) : M sysret := fun w =>
  let '(r, k) := k_syscall c (w_kern w) in (inr r, w <| w_kern := k |>).

(** Dereferencing a [char] pointer, and the wider little-endian loads. *)
Definition load8 (a : Z) : M Z := fun w =>
  match k_load (w_kern w) a with
  | Some b => (inr b, w)
  | None => (inl (StopFault a), w)
  end.
Fixpoint load_le (n : nat) (a : Z) : M Z :=
  match n with
  | O => mret 0
  | S n => b ← load8 a; r ← load_le n (u64 (a + 1)); mret (Z.lor b (Z.shiftl r 8))
  end.
Definition load16 : Z -> M Z := load_le 2.
Definition load32 : Z -> M Z := load_le 4.
Definition load64 : Z -> M Z := load_le 8.

Definition store8 (a v : Z) : M unit := fun w =>
  match k_store (w_kern w) a v with
  | Some k => (inr (), w <| w_kern := k |>)
  | None => (inl (StopFault a), w)
  end.

(** ** Running a computation *)

Lemma run_bind {A B} (m : M A) (f : A -> M B) w a w' :
  m w = (inr a, w') -> (m ≫= f) w = f a w'.
Proof using. intros H. unfold mbind, M_bind. by rewrite H. Qed.

Lemma run_bind_stop {A B} (m : M A) (f : A -> M B) w s w' :
  m w = (inl s, w') -> (m ≫= f) w = (inl s, w').
Proof using. intros H. unfold mbind, M_bind. by rewrite H. Qed.

Lemma run_bind_inv {A B} (m : M A) (f : A -> M B) w r w' :
  (m ≫= f) w = (r, w') ->
  (exists s, m w = (inl s, w') /\ r = inl s) \/
  (exists a w1, m w = (inr a, w1) /\ f a w1 = (r, w')).
Proof using.
  unfold mbind, M_bind. destruct (m w) as [[s|a] w1]; [|by eauto].
  intros [= <- <-]. eauto.
Qed.

(** ** The wrappers of urvirt-syscalls.h *)

Definition s_exit_group {A} (status : Z) : M A :=
  do_syscall (SysExitGroup status);; halt (StopExit status).
Definition s_munmap (addr length : Z) : M Z :=
  r ← do_syscall (SysMunmap addr length); mret (s32 (sr_val r)).
Definition s_mmap (addr length prot flags fd pgoffset : Z) : M Z :=
  r ← do_syscall (SysMmap addr length prot flags fd pgoffset); mret (sr_val r).
Definition s_write (fd : Z) (buf : bytes) : M Z :=
  r ← do_syscall (SysWrite fd buf); mret (s64 (sr_val r)).
Definition s_read (fd count : Z) : M (Z * bytes) :=
  r ← do_syscall (SysRead fd count); mret (s64 (sr_val r), sr_buf r).
Definition s_timer_settime (id flags isec insec vsec vnsec : Z) : M unit :=
  do_syscall (SysTimerSettime id flags isec insec vsec vnsec);; mret ().
Definition s_pread64 (fd buf count offset : Z) : M Z :=
  r ← do_syscall (SysPread64 fd buf count offset); mret (s64 (sr_val r)).
Definition s_pwrite64 (fd buf count offset : Z) : M Z :=
  r ← do_syscall (SysPwrite64 fd buf count offset); mret (s64 (sr_val r)).

Definition s_sigaltstack (ss_sp ss_flags ss_size : Z) : M Z :=
  r ← do_syscall (SysSigaltstack ss_sp ss_flags ss_size); mret (s32 (sr_val r)).
Definition s_rt_sigaction (sig handler flags mask : Z) : M Z :=
  r ← do_syscall (SysRtSigaction sig handler flags mask 8); mret (s32 (sr_val r)).
Definition s_seccomp (operation flags : Z) (prog : list (Z * Z * Z * Z)) : M Z :=
  r ← do_syscall (SysSeccomp operation flags prog); mret (s32 (sr_val r)).
Definition s_riscv_flush_icache (start finish flags : Z) : M unit :=
  do_syscall (SysRiscvFlushIcache start finish flags);; mret ().
(** Returns what the kernel wrote to [*timerid]; the C function has no
    [return], and its caller uses no result. *)
Definition s_timer_create (clockid notify signo value : Z) : M bytes :=
  r ← do_syscall (SysTimerCreate clockid notify signo value); mret (sr_buf r).
Definition s_fcntl (fd cmd arg : Z) : M Z :=
  r ← do_syscall (SysFcntl fd cmd arg); mret (s32 (sr_val r)).
Definition s_prctl (option arg2 arg3 arg4 arg5 : Z) : M Z :=
  r ← do_syscall (SysPrctl option arg2 arg3 arg4 arg5); mret (s64 (sr_val r)).

(** ** write_log *)

Definition log_line (s : string) : bytes :=
  string_bytes ("[urvirt] " ++ s)%string ++ [10].
Definition write_log (s : string) : M unit := s_write 2 (log_line s);; mret ().
End machine.

(** Computations that end in [ebreak]. *)
Section ebreaks.
Context `{K : Kernel}.

Definition ebreaks {A} (m : M A) (w : world) : Prop := fst (m w) = inl StopEbreak.

Lemma ebreaks_bind {A B} (m : M A) (f : A -> M B) w : ebreaks m w -> ebreaks (m ≫= f) w.
Proof using.
  unfold ebreaks, mbind, M_bind. destruct (m w) as [[s|a] w']; [|done].
  by intros [= ->].
Qed.

Lemma ebreaks_after {A B} (m : M A) (f : A -> M B) w a w' :
  m w = (inr a, w') -> ebreaks (f a) w' -> ebreaks (m ≫= f) w.
Proof using. intros H Hf. unfold ebreaks. by erewrite run_bind by exact H. Qed.

Lemma ebreaks_log {A} s w : ebreaks (write_log s;; ebreak (A := A)) w.
Proof using.
  unfold ebreaks, write_log, s_write, do_syscall, mbind, M_bind.
  by destruct (k_syscall (SysWrite 2 (log_line s)) (w_kern w)).
Qed.
End ebreaks.

(** [run]: equations [m w = (inr a, w')] for the computations that return. *)
Create HintDb run.
Ltac mstep := erewrite run_bind by (eauto with run); cbv beta.
Ltac mrun := repeat mstep; try (solve [eauto with run]).

Lemma run_get_priv `{K : Kernel} w : get_priv w = (inr (w_priv w), w).
Proof. done. Qed.
Lemma run_mod_priv `{K : Kernel} f w :
  mod_priv f w = (inr (), w <| w_priv := f (w_priv w) |>).
Proof. done. Qed.
Lemma run_get_regs `{K : Kernel} w : get_regs w = (inr (w_regs w), w).
Proof. done. Qed.
Lemma run_get_reg `{K : Kernel} i w : get_reg i w = (inr (reg (w_regs w) i), w).
Proof. done. Qed.
Lemma run_put_reg `{K : Kernel} i v w :
  put_reg i v w = (inr (), w <| w_regs := set_reg (w_regs w) i v |>).
Proof. done. Qed.

#[export] Hint Resolve run_get_priv run_mod_priv run_get_regs run_get_reg run_put_reg : run.

(** ** Constants of the Linux headers *)

Definition PROT_READ : Z := 1.
Definition PROT_WRITE : Z := 2.
Definition PROT_EXEC : Z := 4.
Definition MAP_SHARED : Z := 0x01.
Definition MAP_PRIVATE : Z := 0x02.
Definition MAP_FIXED : Z := 0x10.
Definition MAP_ANONYMOUS : Z := 0x20.
Definition MAP_STACK : Z := 0x20000.
Definition MAP_FIXED_NOREPLACE : Z := 0x100000.
Definition SA_SIGINFO : Z := 4.
Definition SA_ONSTACK : Z := 0x08000000.
Definition SIGEV_SIGNAL : Z := 0.
Definition CLOCK_REALTIME : Z := 0.
Definition STDIN_FILENO : Z := 0.
Definition F_SETFL : Z := 4.
Definition O_NONBLOCK : Z := 0x800.
Definition PR_SET_NO_NEW_PRIVS : Z := 38.
Definition SECCOMP_SET_MODE_FILTER : Z := 1.
Definition EWOULDBLOCK : Z := 11.
Definition SIGILL : Z := 4.
Definition SIGSEGV : Z := 11.
Definition SIGALRM : Z := 14.
Definition SIGSYS : Z := 31.
Definition SI_TIMER : Z := -2.
