(* ===== verification/Hoare.v ===== *)
(** * A program logic for the monad

    [triple P m Q]: from a world in [P] the computation [m] stops the process
    or returns a value and a world in [Q].  [stable I m] is the triple of an
    invariant; the files of the components add their rules to the hint
    database [stable], which [stable_auto] applies to a whole computation. *)

From S2P Require Import Prelude Bits State Machine.

Create HintDb stable.

Section hoare.
Context `{K : Kernel}.

Definition triple {A} (P : world -> Prop) (m : M A) (Q : A -> world -> Prop) : Prop :=
  forall w, P w -> match m w with (inr a, w') => Q a w' | (inl _, _) => True end.

Definition stable {A} (I : world -> Prop) (m : M A) : Prop := triple I m (fun _ => I).

Lemma triple_inv {A} P (m : M A) Q w a w' :
  triple P m Q -> P w -> m w = (inr a, w') -> Q a w'.
Proof using. intros H Hw E. specialize (H w Hw). by rewrite E in H. Qed.

Lemma triple_ret {A} P (a : A) (Q : A -> world -> Prop) :
  (forall w, P w -> Q a w) -> triple P (mret a) Q.
Proof using. intros H w Hw. by apply H. Qed.

Lemma triple_bind {A B} P R Q (m : M A) (f : A -> M B) :
  triple P m R -> (forall a, triple (R a) (f a) Q) -> triple P (m ≫= f) Q.
Proof using.
  intros Hm Hf w Hw. unfold mbind, M_bind. specialize (Hm w Hw).
  destruct (m w) as [[s|a] w']; [done|]. by apply Hf.
Qed.

Lemma triple_conseq {A} (P P' : world -> Prop) (m : M A) (Q Q' : A -> world -> Prop) :
  triple P' m Q' -> (forall w, P w -> P' w) -> (forall a w, Q' a w -> Q a w) -> triple P m Q.
Proof using.
  intros H HP HQ w Hw. specialize (H w (HP w Hw)). destruct (m w) as [[s|a] w']; auto.
Qed.

Lemma triple_halt {A} P s (Q : A -> world -> Prop) : triple P (halt s) Q.
Proof using. done. Qed.

(** [yields m P]: every value [m] returns is in [P]. *)
Definition yields {A} (m : M A) (P : A -> Prop) : Prop := triple (fun _ => True) m (fun a _ => P a).

Lemma yields_ret {A} (a : A) (P : A -> Prop) : P a -> yields (mret a) P.
Proof using. by intros H w _. Qed.

Lemma yields_bind {A B} (m : M A) (f : A -> M B) P :
  (forall a, yields (f a) P) -> yields (m ≫= f) P.
Proof using.
  intros H. eapply triple_bind; [|exact H]. intros w _. by destruct (m w) as [[]].
Qed.

Lemma yields_halt {A} s (P : A -> Prop) : yields (halt s) P.
Proof using. done. Qed.

Lemma triple_yields {A B} (I Q : world -> Prop) (m : M A) (f : A -> M B) (P : A -> Prop) :
  stable I m -> yields m P -> (forall a, P a -> triple I (f a) (fun _ => Q)) ->
  triple I (m ≫= f) (fun _ => Q).
Proof using.
  intros Hs Hy Hf. apply triple_bind with (R := fun a w => P a /\ I w).
  - intros w Hw. specialize (Hs w Hw). specialize (Hy w Logic.I).
    by destruct (m w) as [[]].
  - intros a w [Ha Hw]. by apply Hf.
Qed.

(** ** Invariants *)

Context (I : world -> Prop).

Lemma stable_ret {A} (a : A) : stable I (mret a).
Proof using. by intros w Hw. Qed.

Lemma stable_halt {A} s : stable I (halt s : M A).
Proof using. done. Qed.

Lemma stable_ebreak {A} : stable I (ebreak : M A).
Proof using. done. Qed.

Lemma stable_bind {A B} (m : M A) (f : A -> M B) :
  stable I m -> (forall a, stable I (f a)) -> stable I (m ≫= f).
Proof using. apply triple_bind. Qed.

Lemma stable_get_priv : stable I get_priv.
Proof using. by intros w Hw. Qed.

Lemma stable_get_regs : stable I get_regs.
Proof using. by intros w Hw. Qed.

Lemma stable_get_reg i : stable I (get_reg i).
Proof using. by intros w Hw. Qed.

Lemma stable_read_time : stable I read_time.
Proof using. by intros w Hw. Qed.

Lemma stable_load8 a : stable I (load8 a).
Proof using. intros w Hw. unfold load8. by destruct (k_load (w_kern w) a). Qed.

Lemma stable_load_le n a : stable I (load_le n a).
Proof using.
  revert a. induction n as [|n IH]; intros a; [apply stable_ret|].
  cbn [load_le]. apply stable_bind; [apply stable_load8|]. intros b.
  apply stable_bind; [apply IH|]. intros r. apply stable_ret.
Qed.

Lemma stable_mod_priv f :
  (forall w, I w -> I (w <| w_priv := f (w_priv w) |>)) -> stable I (mod_priv f).
Proof using. intros H w Hw. by apply H. Qed.

Lemma stable_put_reg i v :
  (forall w, I w -> I (w <| w_regs := set_reg (w_regs w) i v |>)) -> stable I (put_reg i v).
Proof using. intros H w Hw. by apply H. Qed.

Lemma stable_syscall c :
  (forall w, I w -> I (w <| w_kern := snd (k_syscall c (w_kern w)) |>)) ->
  stable I (do_syscall c).
Proof using.
  intros H w Hw. unfold do_syscall. specialize (H w Hw). by destruct (k_syscall c (w_kern w)).
Qed.
End hoare.

(** ** Outcomes

    [ends F m Q w]: from [w] the computation [m] returns in [Q], or stops in
    [F], which sees the world the process stops in; unlike [triple] it says
    how the process may stop. *)

Section ends.
Context `{K : Kernel} (F : stop -> world -> Prop).

Definition ends {A} (m : M A) (Q : A -> world -> Prop) (w : world) : Prop :=
  match m w with (inr a, w') => Q a w' | (inl st, w') => F st w' end.

Lemma ends_ret {A} (a : A) (Q : A -> world -> Prop) w : Q a w -> ends (mret a) Q w.
Proof using. done. Qed.

Lemma ends_halt {A} st (Q : A -> world -> Prop) w : F st w -> ends (halt st) Q w.
Proof using. done. Qed.

Lemma ends_bind {A B} (m : M A) (f : A -> M B) Q w :
  ends m (fun a => ends (f a) Q) w -> ends (m ≫= f) Q w.
Proof using. unfold ends, mbind, M_bind. by destruct (m w) as [[st|a] w']. Qed.

Lemma ends_conseq {A} (m : M A) (Q Q' : A -> world -> Prop) w :
  ends m Q w -> (forall a w', Q a w' -> Q' a w') -> ends m Q' w.
Proof using. unfold ends. destruct (m w) as [[st|a] w']; auto. Qed.

Lemma ends_inv {A} (m : M A) Q w a w' : ends m Q w -> m w = (inr a, w') -> Q a w'.
Proof using. unfold ends. intros H E. by rewrite E in H. Qed.

Lemma ends_syscall c (Q : sysret -> world -> Prop) w :
  Q (fst (k_syscall c (w_kern w))) (w <| w_kern := snd (k_syscall c (w_kern w)) |>) ->
  ends (do_syscall c) Q w.
Proof using. unfold ends, do_syscall. by destruct (k_syscall c (w_kern w)). Qed.
End ends.

(** ** Invariants of one part of the world *)

Section parts.
Context `{K : Kernel}.

Definition on_guest (J : priv_state -> gregs -> Prop) (w : world) : Prop :=
  J (w_priv w) (w_regs w).
Definition on_kern (J : kstate -> Prop) (w : world) : Prop := J (w_kern w).

Lemma stable_guest_syscall J c : stable (on_guest J) (do_syscall c).
Proof using. by apply stable_syscall. Qed.

Lemma stable_kern_priv J f : stable (on_kern J) (mod_priv f).
Proof using. by apply stable_mod_priv. Qed.

Lemma stable_kern_reg J i v : stable (on_kern J) (put_reg i v).
Proof using. by apply stable_put_reg. Qed.

Lemma stable_guest_priv (J : priv_state -> gregs -> Prop) f :
  (forall p r, J p r -> J (f p) r) -> stable (on_guest J) (mod_priv f).
Proof using. intros H. apply stable_mod_priv. intros w. apply H. Qed.

Lemma stable_guest_reg (J : priv_state -> gregs -> Prop) i v :
  (forall p r, J p r -> J p (set_reg r i v)) -> stable (on_guest J) (put_reg i v).
Proof using. intros H. apply stable_put_reg. intros w. apply H. Qed.
End parts.

#[export] Hint Resolve stable_guest_syscall stable_kern_priv stable_kern_reg : stable.
#[export] Hint Resolve stable_ret stable_halt stable_ebreak stable_get_priv stable_get_regs
  stable_get_reg stable_read_time stable_load8 stable_load_le : stable.
#[export] Hint Extern 1 (stable _ (load16 _)) => apply stable_load_le : stable.
#[export] Hint Extern 1 (stable _ (load32 _)) => apply stable_load_le : stable.
#[export] Hint Extern 1 (stable _ (load64 _)) => apply stable_load_le : stable.

Ltac yields_auto :=
  cbv zeta; repeat match goal with
  | |- yields (mbind _ _) _ => apply yields_bind; intros ?
  | |- yields (mret _) _ => apply yields_ret
  | |- yields (halt _) _ => apply yields_halt
  | |- yields ebreak _ => apply yields_halt
  | |- yields (if ?b then _ else _) _ => destruct b
  end.

(** Works through a computation: binds, conditionals and matches. *)
Ltac stable_step :=
  match goal with
  | |- stable _ (mbind _ _) => apply stable_bind; [|intros ?]
  | |- stable _ (if ?b then _ else _) => destruct b
  | |- stable _ (match ?x with _ => _ end) => destruct x
  | |- stable _ _ => solve [auto with stable nocore | eauto with stable nocore typeclass_instances]
  end.
Ltac stable_auto := cbv zeta; repeat (stable_step; cbv beta zeta).
