(* ===== verification/Csr.v ===== *)
(** * The emulated control and status registers

    Models [sanitize_stvec], [initialize_priv], [read_csr] and [write_csr] of
    riscv-priv.c, and states what they implement: a file of nine registers
    whose writes are legalised field by field (WARL). *)

From S2P Require Import Prelude Bits State Machine.

(** ** The code *)

Definition sanitize_stvec (stvec : Z) : Z :=
  let mode := Z.land stvec STVEC_MODE_MASK in
  if (mode =? STVEC_DIRECT) || (mode =? STVEC_VECTORED) then stvec
  else Z.land stvec (not64 STVEC_MODE_MASK).

Definition initialize_priv (p : priv_state) : priv_state :=
  let p := p <| priv_mode := PRIV_S |> <| sscratch := 0 |> <| stvec := 0 |>
             <| sepc := 0 |> <| scause := 0 |> <| satp := 0 |> <| sip := 0 |>
             <| sie := 0 |> <| sstatus := 0 |> in
  let p := p <| sstatus := set_sstatus_fs (sstatus p) SSTATUS_XS_DIRTY |> in
  let p := p <| sstatus := set_sstatus_xs (sstatus p) SSTATUS_XS_DIRTY |> in
  let p := p <| sstatus := set_sstatus_sd (sstatus p) 1 |> in
  p <| counter_ill := 0 |> <| counter_segv := 0 |> <| counter_sret := 0 |>
    <| counter_uecall := 0 |> <| counter_secall := 0 |>.

Section csr_code.
Context `{K : Kernel}.

Definition read_csr (csr : Z) : M Z :=
  priv ← get_priv;
  if csr =? CSR_SSCRATCH then mret (sscratch priv)
  else if csr =? CSR_STVEC then mret (stvec priv)
  else if csr =? CSR_SEPC then mret (sepc priv)
  else if csr =? CSR_SSTATUS then mret (sstatus priv)
  else if csr =? CSR_SIE then mret (sie priv)
  else if csr =? CSR_SIP then mret (sip priv)
  else if csr =? CSR_SCAUSE then mret (scause priv)
  else if csr =? CSR_STVAL then mret (stval priv)
  else if csr =? CSR_SATP then mret (satp priv)
  else write_log "Unimplemented CSR read";; ebreak.

Definition masked_write (mask old value : Z) : Z :=
  Z.lor (Z.land value mask) (Z.land old (not64 mask)).

Definition write_csr (csr value : Z) : M unit :=
  if csr =? CSR_SSCRATCH then mod_priv (fun p => p <| sscratch := value |>)
  else if csr =? CSR_STVEC then mod_priv (fun p => p <| stvec := sanitize_stvec value |>)
  else if csr =? CSR_SEPC then mod_priv (fun p => p <| sepc := value |>)
  else if csr =? CSR_SSTATUS then
    mod_priv (fun p => p <| sstatus := masked_write SSTATUS_WRITABLE_MASK (sstatus p) value |>)
  else if csr =? CSR_SIE then
    mod_priv (fun p => p <| sie := masked_write SIX_WRITABLE_MASK (sie p) value |>)
  else if csr =? CSR_SIP then
    mod_priv (fun p => p <| sip := masked_write SIX_WRITABLE_MASK (sip p) value |>)
  else if csr =? CSR_SCAUSE then mod_priv (fun p => p <| scause := value |>)
  else if csr =? CSR_STVAL then mod_priv (fun p => p <| stval := value |>)
  else if csr =? CSR_SATP then
    if (get_satp_mode value =? SATP_MODE_SV39) || (get_satp_mode value =? SATP_MODE_BARE)
    then mod_priv (fun p => p <| satp := set_satp_asid value 0 |>
                              <| should_clear_vm := true |>)
    else mret ()
  else write_log "Unimplemented CSR write";; ebreak.
End csr_code.

(** ** The register file it implements *)

Inductive csr_id :=
| Sscratch | Stvec | Sepc | Sstatus | Sie | Sip | Scause | Stval | Satp.

#[export] Instance csr_id_eq_dec : EqDecision csr_id.
Proof. solve_decision. Defined.

Definition csr_number (c : csr_id) : Z :=
  match c with
  | Sscratch => CSR_SSCRATCH | Stvec => CSR_STVEC | Sepc => CSR_SEPC
  | Sstatus => CSR_SSTATUS | Sie => CSR_SIE | Sip => CSR_SIP
  | Scause => CSR_SCAUSE | Stval => CSR_STVAL | Satp => CSR_SATP
  end.

(** The register file as a client of [read_csr] sees it. *)
Definition csr_view (p : priv_state) (c : csr_id) : Z :=
  match c with
  | Sscratch => sscratch p | Stvec => stvec p | Sepc => sepc p
  | Sstatus => sstatus p | Sie => sie p | Sip => sip p
  | Scause => scause p | Stval => stval p | Satp => satp p
  end.

(** The bits a write can change in a register that merges old and new. *)
Definition writable_bits (c : csr_id) : option (list Z) :=
  match c with
  | Sstatus => Some [1; 5; 8; 18; 19]
  | Sie | Sip => Some [5]
  | _ => None
  end.

(** [v] is what the register holds after [value] is written over [old], said
    in the terms of the privileged specification: bit [i] of the result. *)
Definition warl (c : csr_id) (old value v : Z) : Prop :=
  match c with
  | Sscratch | Sepc | Scause | Stval => v = value
  | Stvec =>
      v / 4 = value / 4 /\
      v mod 4 = (if bool_decide (value mod 4 < 2) then value mod 4 else 0)
  | Sstatus | Sie | Sip =>
      forall i, 0 <= i < 64 ->
        Z.testbit v i =
          if bool_decide (i ∈ default [] (writable_bits c))
          then Z.testbit value i else Z.testbit old i
  | Satp =>
      if bool_decide (value / 2 ^ 60 = 8 \/ value / 2 ^ 60 = 0)
      then v mod 2 ^ 44 = value mod 2 ^ 44 /\ v / 2 ^ 44 mod 2 ^ 16 = 0
           /\ v / 2 ^ 60 = value / 2 ^ 60
      else v = old
  end.

(** ** The invariant: every register holds a legal value *)

Definition SSTATUS_FIXED : Z := 0x800000000001E000.

Record csr_wf (p : priv_state) : Prop := {
  wf_words : forall c, is_u64 (csr_view p c);
  wf_mode : priv_mode p = PRIV_U \/ priv_mode p = PRIV_S;
  wf_sstatus : Z.land (sstatus p) (not64 SSTATUS_WRITABLE_MASK) = SSTATUS_FIXED;
  wf_stvec : Z.land (stvec p) STVEC_MODE_MASK = STVEC_DIRECT \/
             Z.land (stvec p) STVEC_MODE_MASK = STVEC_VECTORED;
  wf_sip : Z.land (sip p) (not64 SIX_WRITABLE_MASK) = 0;
  wf_sie : Z.land (sie p) (not64 SIX_WRITABLE_MASK) = 0;
  wf_satp_asid : bf_get 44 16 (satp p) = 0;
  wf_satp_mode : get_satp_mode (satp p) = SATP_MODE_SV39 \/
                 get_satp_mode (satp p) = SATP_MODE_BARE;
}.

(** ** Masks and merges *)

Lemma testbit_writable c i l :
  writable_bits c = Some l -> 0 <= i < 64 ->
  Z.testbit (match c with Sstatus => SSTATUS_WRITABLE_MASK | _ => SIX_WRITABLE_MASK end) i
  = bool_decide (i ∈ l).
Proof.
  intros Hc Hi. destruct c; simplify_eq/=; apply eqb_prop.
  all: pattern i; revert i Hi; apply forall_below; by vm_compute.
Qed.

Lemma testbit_masked_write m old value i :
  0 <= i < 64 ->
  Z.testbit (masked_write m old value) i =
    if Z.testbit m i then Z.testbit value i else Z.testbit old i.
Proof.
  intros. unfold masked_write. autorewrite with bits.
  split_cmps. bit_cases.
Qed.

Lemma masked_write_warl c l old value i :
  writable_bits c = Some l -> 0 <= i < 64 ->
  Z.testbit (masked_write
    (match c with Sstatus => SSTATUS_WRITABLE_MASK | _ => SIX_WRITABLE_MASK end)
    old value) i
  = if bool_decide (i ∈ l) then Z.testbit value i else Z.testbit old i.
Proof.
  intros Hl Hi. rewrite testbit_masked_write, (testbit_writable c i l) by done. done.
Qed.

Lemma masked_write_u64 m old value :
  is_u64 value -> is_u64 (masked_write m old value).
Proof. unfold masked_write. auto with words. Qed.

Lemma masked_write_outside m old value :
  Z.land (masked_write m old value) (not64 m) = Z.land old (not64 m).
Proof.
  unfold masked_write. bitwise.
Qed.

Lemma land_3 v : 0 <= v -> Z.land v STVEC_MODE_MASK = v mod 4.
Proof. intros. change STVEC_MODE_MASK with (Z.ones 2). by apply Z.land_ones. Qed.

Lemma land_not3 v : is_u64 v -> Z.land v (not64 STVEC_MODE_MASK) = 4 * (v / 4).
Proof.
  intros Hv. change 4 with (2 ^ 2). rewrite Z.mul_comm, <- Z.shiftl_mul_pow2,
    <- Z.shiftr_div_pow2 by lia.
  apply Z.bits_inj'. intros i Hi. autorewrite with bits.
  change STVEC_MODE_MASK with (Z.shiftl 1 2 - 1). autorewrite with bits.
  destruct (Z.leb_spec 2 i); split_cmps; rewrite ?andb_false_r; try done;
    rewrite Z.shiftr_spec by lia; replace (i - 2 + 2) with i by lia;
    rewrite ?(is_u64_high v i) by done; bit_cases.
Qed.

Lemma sanitize_stvec_spec v : is_u64 v ->
  sanitize_stvec v = 4 * (v / 4) + (if bool_decide (v mod 4 < 2) then v mod 4 else 0).
Proof.
  intros Hv. unfold sanitize_stvec. rewrite land_3 by apply Hv.
  unfold STVEC_DIRECT, STVEC_VECTORED.
  pose proof (Z.mod_pos_bound v 4 eq_refl). pose proof (Z.div_mod v 4 ltac:(lia)).
  case_bool_decide; destruct (Z.eqb_spec (v mod 4) 0), (Z.eqb_spec (v mod 4) 1);
    simpl; rewrite ?land_not3 by done; lia.
Qed.

Lemma sanitize_stvec_warl v : is_u64 v ->
  sanitize_stvec v / 4 = v / 4 /\
  sanitize_stvec v mod 4 = (if bool_decide (v mod 4 < 2) then v mod 4 else 0).
Proof.
  intros Hv. rewrite sanitize_stvec_spec by done.
  pose proof (Z.mod_pos_bound v 4 eq_refl).
  set (m := if bool_decide _ then _ else _).
  assert (0 <= m < 4) by (subst m; case_bool_decide; lia). split.
  - rewrite Z.mul_comm, Z.div_add_l, (Z.div_small m); lia.
  - rewrite Z.add_comm, Z.mul_comm, Z.mod_add, (Z.mod_small m); lia.
Qed.

Lemma sanitize_stvec_u64 v : is_u64 v -> is_u64 (sanitize_stvec v).
Proof. intros. unfold sanitize_stvec. case_match; auto with words. Qed.

Lemma bf_get_div s w d : 0 <= s -> 0 <= w -> bf_get s w d = d / 2 ^ s mod 2 ^ w.
Proof.
  intros. unfold bf_get. rewrite <- Z.shiftr_div_pow2, <- Z.land_ones by lia.
  by rewrite Z.ones_equiv, Z.shiftl_1_l, Z.sub_1_r.
Qed.

Lemma get_satp_mode_div v : is_u64 v -> get_satp_mode v = v / 2 ^ 60.
Proof.
  intros Hv. unfold get_satp_mode. rewrite bf_get_div by lia.
  apply Z.mod_small. split; [apply Z.div_pos; [apply Hv|lia]|].
  apply Z.div_lt_upper_bound; [lia|]. apply Hv.
Qed.

Lemma set_satp_asid_warl v : is_u64 v ->
  set_satp_asid v 0 mod 2 ^ 44 = v mod 2 ^ 44 /\
  set_satp_asid v 0 / 2 ^ 44 mod 2 ^ 16 = 0 /\
  set_satp_asid v 0 / 2 ^ 60 = v / 2 ^ 60.
Proof.
  intros Hv. assert (is_u64 (set_satp_asid v 0)) by (apply bf_set_u64; done).
  rewrite <- !get_satp_mode_div by done. rewrite <- bf_get_div by lia.
  replace (set_satp_asid v 0 mod 2 ^ 44) with (bf_get 0 44 (set_satp_asid v 0))
    by (rewrite bf_get_div, Z.div_1_r by lia; done).
  replace (v mod 2 ^ 44) with (bf_get 0 44 v)
    by (rewrite bf_get_div, Z.div_1_r by lia; done).
  unfold set_satp_asid, get_satp_mode. by autorewrite with fields.
Qed.

(** ** What the operations do *)

Section csr_spec.
Context `{K : Kernel}.

Lemma run_read_csr c w :
  read_csr (csr_number c) w = (inr (csr_view (w_priv w) c), w).
Proof using. by destruct c. Qed.

(** The new private state after a write, register by register. *)
Definition csr_update (c : csr_id) (v : Z) (p : priv_state) : priv_state :=
  match c with
  | Sscratch => p <| sscratch := v |>
  | Stvec => p <| stvec := sanitize_stvec v |>
  | Sepc => p <| sepc := v |>
  | Sstatus => p <| sstatus := masked_write SSTATUS_WRITABLE_MASK (sstatus p) v |>
  | Sie => p <| sie := masked_write SIX_WRITABLE_MASK (sie p) v |>
  | Sip => p <| sip := masked_write SIX_WRITABLE_MASK (sip p) v |>
  | Scause => p <| scause := v |>
  | Stval => p <| stval := v |>
  | Satp =>
      if (get_satp_mode v =? SATP_MODE_SV39) || (get_satp_mode v =? SATP_MODE_BARE)
      then p <| satp := set_satp_asid v 0 |> <| should_clear_vm := true |> else p
  end.

(** A write to satp either takes effect or is dropped. *)
Lemma csr_update_satp v p :
  csr_update Satp v p = p \/
  csr_update Satp v p = p <| satp := set_satp_asid v 0 |> <| should_clear_vm := true |> /\
  (get_satp_mode v = SATP_MODE_SV39 \/ get_satp_mode v = SATP_MODE_BARE).
Proof using.
  unfold csr_update. destruct (Z.eqb_spec (get_satp_mode v) SATP_MODE_SV39); [by right; auto|].
  destruct (Z.eqb_spec (get_satp_mode v) SATP_MODE_BARE); [right|left]; auto.
Qed.

Lemma csr_satp_ne n : CSR_SATP <> n -> (CSR_SATP =? n) = false.
Proof using. apply Z.eqb_neq. Qed.

Lemma run_write_csr c v w :
  write_csr (csr_number c) v w =
    (inr (), w <| w_priv := csr_update c v (w_priv w) |>).
Proof using.
  destruct c; try reflexivity. unfold write_csr, csr_update.
  change (csr_number Satp) with CSR_SATP. rewrite !csr_satp_ne, Z.eqb_refl by done.
  match goal with |- context [if ?b then _ else _] => destruct b end;
    [reflexivity|by destruct w].
Qed.

Lemma csr_update_other c c' v p :
  c' <> c -> csr_view (csr_update c v p) c' = csr_view p c'.
Proof using.
  intros Hne. destruct c; [destruct c'; done..|].
  destruct (csr_update_satp v p) as [->|[-> _]]; [done|]. by destruct c'.
Qed.

Lemma csr_update_warl c v p :
  is_u64 v -> warl c (csr_view p c) v (csr_view (csr_update c v p) c).
Proof using.
  intros Hv. destruct c; [reflexivity| |reflexivity| | | |reflexivity|reflexivity|].
  - by apply sanitize_stvec_warl.
  - intros i Hi. by apply (masked_write_warl Sstatus).
  - intros i Hi. by apply (masked_write_warl Sie).
  - intros i Hi. by apply (masked_write_warl Sip).
  - unfold warl, csr_update. rewrite get_satp_mode_div by done.
    destruct (Z.eqb_spec (v / 2 ^ 60) SATP_MODE_SV39) as [E|];
      [|destruct (Z.eqb_spec (v / 2 ^ 60) SATP_MODE_BARE) as [E|]]; cbn [orb].
    + rewrite bool_decide_true by (left; exact E). by apply set_satp_asid_warl.
    + rewrite bool_decide_true by (right; exact E). by apply set_satp_asid_warl.
    + rewrite bool_decide_false by (intros [?|?]; contradiction). reflexivity.
Qed.

Lemma csr_update_words c v p c' :
  is_u64 v -> (forall d, is_u64 (csr_view p d)) -> is_u64 (csr_view (csr_update c v p) c').
Proof using.
  intros Hv Hp. destruct (decide (c' = c)) as [->|Hne];
    [|by rewrite csr_update_other].
  destruct c; [simpl; auto using sanitize_stvec_u64, masked_write_u64..|].
  destruct (csr_update_satp v p) as [->|[-> _]]; [apply (Hp Satp)|by apply bf_set_u64].
Qed.

Lemma csr_update_wf c v p : is_u64 v -> csr_wf p -> csr_wf (csr_update c v p).
Proof using.
  intros Hv [Hw Hm Hss Hst Hip Hie Ha Hsm].
  split; [by intros; apply csr_update_words|..]; destruct c; try assumption;
    try (destruct (csr_update_satp v p) as [->|[-> Hmode]]; assumption).
  - cbn. by rewrite masked_write_outside.
  - cbn. destruct (sanitize_stvec_warl v Hv) as [_ Hmod].
    rewrite land_3, Hmod by apply (sanitize_stvec_u64 v Hv).
    unfold STVEC_DIRECT, STVEC_VECTORED. pose proof (Z.mod_pos_bound v 4 eq_refl).
    case_bool_decide; lia.
  - cbn. by rewrite masked_write_outside.
  - cbn. by rewrite masked_write_outside.
  - destruct (csr_update_satp v p) as [->|[-> _]]; [assumption|].
    cbn. unfold set_satp_asid. by autorewrite with fields.
  - destruct (csr_update_satp v p) as [->|[-> Hmode]]; [assumption|].
    cbn. unfold get_satp_mode, set_satp_asid in *. by autorewrite with fields.
Qed.

(** C19. A write to a CSR gives the register the value its WARL rule allows, changes no
    other register or the mode, keeps the CSR file legal, and is what a later read
    returns. *)
Theorem csr_write_refines c v w :
  is_u64 v -> csr_wf (w_priv w) ->
  exists p', write_csr (csr_number c) v w = (inr (), w <| w_priv := p' |>) /\
    (forall c' w', w_priv w' = p' ->
       read_csr (csr_number c') w' = (inr (csr_view p' c'), w')) /\
    warl c (csr_view (w_priv w) c) v (csr_view p' c) /\
    (forall c', c' <> c -> csr_view p' c' = csr_view (w_priv w) c') /\
    priv_mode p' = priv_mode (w_priv w) /\ csr_wf p'.
Proof using.
  intros Hv Hwf. exists (csr_update c v (w_priv w)).
  split_and!; auto using run_write_csr, csr_update_warl, csr_update_other, csr_update_wf.
  - intros c' w' <-. apply run_read_csr.
  - destruct c; try reflexivity. by destruct (csr_update_satp v (w_priv w)) as [->|[-> _]].
Qed.

(** A CSR the code does not implement stops the hypervisor: a line in the
    log, then [ebreak]. *)
Lemma run_csr_unimplemented n v w :
  (forall c, csr_number c <> n) ->
  read_csr n w = (write_log "Unimplemented CSR read";; ebreak) w /\
  write_csr n v w = (write_log "Unimplemented CSR write";; ebreak) w.
Proof using.
  intros Hn.
  assert (forall c, (n =? csr_number c) = false) as E.
  { intros c. apply Z.eqb_neq. apply not_eq_sym, Hn. }
  pose proof (E Sscratch) as E0; pose proof (E Stvec) as E1; pose proof (E Sepc) as E2.
  pose proof (E Sstatus) as E3; pose proof (E Sie) as E4; pose proof (E Sip) as E5.
  pose proof (E Scause) as E6; pose proof (E Stval) as E7; pose proof (E Satp) as E8.
  cbn [csr_number] in *. unfold read_csr, write_csr.
  rewrite E0, E1, E2, E3, E4, E5, E6, E7, E8. split; reflexivity.
Qed.
End csr_spec.

#[export] Hint Resolve run_read_csr run_write_csr : run.

(** ** The pending bit of the timer *)

Definition set_sti (b : bool) (p : priv_state) : priv_state :=
  p <| sip := set_six_sti (sip p) (Z.b2z b) |>.

Lemma b2z_range b : 0 <= Z.b2z b < 2 ^ 1.
Proof. by destruct b. Qed.

#[export] Hint Resolve b2z_range : words.

Lemma set_sti_wf b p : csr_wf p -> csr_wf (set_sti b p).
Proof.
  intros [Hw Hm Hss Hst Hip Hie Ha Hsm]. pose proof (Hw Sip) as Hs. simpl in Hs.
  assert (is_u64 (set_six_sti (sip p) (Z.b2z b))) as Hu by (unfold set_six_sti; auto with words).
  split; try assumption.
  - intros c. destruct c; [apply (Hw Sscratch)|apply (Hw Stvec)|apply (Hw Sepc)|
      apply (Hw Sstatus)|apply (Hw Sie)|exact Hu|apply (Hw Scause)|apply (Hw Stval)|apply (Hw Satp)].
  - unfold set_sti. cbn. rewrite <- Hip. unfold set_six_sti.
    apply bf_set_outside; [done..|auto with words|].
    intros i Hi. replace i with 5 by lia. done.
Qed.

Lemma get_set_sti b p : is_u64 (sip p) -> get_six_sti (sip (set_sti b p)) = Z.b2z b.
Proof.
  intros. unfold set_sti. cbn. autounfold with field_names.
  apply bf_get_set; auto with words; lia.
Qed.

Lemma set_sti_other b p i : is_u64 (sip p) -> 0 <= i < 64 -> i <> 5 ->
  Z.testbit (sip (set_sti b p)) i = Z.testbit (sip p) i.
Proof.
  intros. unfold set_sti. cbn. autounfold with field_names.
  apply testbit_bf_set_ne; auto with words; lia.
Qed.

(** ** The initial state *)

Definition initial_csr (p : priv_state) (c : csr_id) : Z :=
  match c with Sstatus => SSTATUS_FIXED | Stval => stval p | _ => 0 end.

Lemma initialize_priv_view p c : csr_view (initialize_priv p) c = initial_csr p c.
Proof. destruct c; reflexivity. Qed.

Lemma initialize_priv_csr_wf p : is_u64 (stval p) -> csr_wf (initialize_priv p).
Proof.
  intros Hs. split.
  - intros c. rewrite initialize_priv_view. unfold is_u64 in *.
    destruct c; cbn [initial_csr]; unfold SSTATUS_FIXED; lia.
  - by right.
  - pose proof (initialize_priv_view p Sstatus) as E. cbn [csr_view initial_csr] in E. by rewrite E.
  - by left.
  - reflexivity.
  - reflexivity.
  - reflexivity.
  - by right.
Qed.

(** C32. initialize_priv establishes the CSR invariant: S-mode, every register zero but
    sstatus, whose FS, XS and SD read as dirty, and stval, which it does not touch; the
    configuration is kept. *)
Theorem initialize_priv_wf p : is_u64 (stval p) ->
  csr_wf (initialize_priv p) /\ priv_mode (initialize_priv p) = PRIV_S /\
  (forall c, csr_view (initialize_priv p) c = initial_csr p c) /\
  (stub_start (initialize_priv p), stub_size (initialize_priv p), kernel_size (initialize_priv p))
    = (stub_start p, stub_size p, kernel_size p).
Proof.
  intros Hs. split; [by apply initialize_priv_csr_wf|].
  split; [done|split; [apply initialize_priv_view|done]].
Qed.
