(* ===== verification/Trap.v ===== *)
(** * Trap entry and the trap part of the hart

    Models [trap_target] and [enter_trap] of riscv-priv.c, against the
    supervisor trap rules of the RISC-V privileged architecture ([isa_trap],
    [isa_sret]) on the registers a trap involves ([hart]). *)

From S2P Require Import Prelude Bits State Machine Csr.

(** ** The code *)

Definition trap_target (priv : priv_state) (cause : Z) : Z :=
  let base := Z.land (stvec priv) (not64 STVEC_MODE_MASK) in
  let mode := Z.land (stvec priv) STVEC_MODE_MASK in
  if (mode =? STVEC_DIRECT) || negb (truthy (Z.land cause SCAUSE_IS_INT)) then base
  else u64 (base + u64 (cause * 4)).

Section trap_code.
Context `{K : Kernel}.

Definition enter_trap (cause tval : Z) : M unit :=
  pc0 ← get_reg 0;
  mod_priv (fun p => p <| sepc := pc0 |>);;
  mod_priv (fun p => p <| scause := cause |>);;
  mod_priv (fun p => p <| stval := tval |>);;
  priv ← get_priv;
  (if priv_mode priv =? PRIV_S
   then mod_priv (fun p => p <| sstatus := set_sstatus_spp (sstatus p) SSTATUS_SPP_S |>)
   else mod_priv (fun p => p <| sstatus := set_sstatus_spp (sstatus p) SSTATUS_SPP_U |>));;
  mod_priv (fun p => p <| priv_mode := PRIV_S |>);;
  mod_priv (fun p => p <| sstatus :=
    set_sstatus_spie (sstatus p) (get_sstatus_sie (sstatus p)) |>);;
  mod_priv (fun p => p <| sstatus := set_sstatus_sie (sstatus p) 0 |>);;
  priv ← get_priv;
  put_reg 0 (trap_target priv cause);;
  mod_priv (fun p => p <| should_clear_vm := true |>).
End trap_code.

(** ** The architecture *)

Inductive mode := ModeU | ModeS.

#[export] Instance mode_eq_dec : EqDecision mode.
Proof. solve_decision. Defined.

Record hart := mk_hart {
  h_mode : mode;
  h_pc : Z;
  h_sie : bool;
  h_spie : bool;
  h_spp : mode;
  h_sepc : Z;
  h_scause : Z;
  h_stval : Z;
  h_stvec : Z;
}.

(** An interrupt has the top bit of its cause set; the rest is its code. *)
Definition is_interrupt (cause : Z) : bool := 2 ^ 63 <=? cause.

Definition isa_vector (stvec cause : Z) : Z :=
  let base := 4 * (stvec / 4) in
  if bool_decide (stvec mod 4 = 1) && is_interrupt cause
  then u64 (base + 4 * (cause - 2 ^ 63)) else base.

Definition isa_trap (cause tval : Z) (h : hart) : hart :=
  mk_hart ModeS (isa_vector (h_stvec h) cause) false (h_sie h) (h_mode h)
    (h_pc h) cause tval (h_stvec h).

Definition isa_sret (h : hart) : hart :=
  mk_hart (h_spp h) (h_sepc h) (h_spie h) true ModeU
    (h_sepc h) (h_scause h) (h_stval h) (h_stvec h).

Definition mode_of (m : Z) : mode := if m =? PRIV_S then ModeS else ModeU.

Definition hart_of (p : priv_state) (r : gregs) : hart :=
  mk_hart (mode_of (priv_mode p)) (pc r)
    (truthy (get_sstatus_sie (sstatus p))) (truthy (get_sstatus_spie (sstatus p)))
    (if get_sstatus_spp (sstatus p) =? SSTATUS_SPP_U then ModeU else ModeS)
    (sepc p) (scause p) (stval p) (stvec p).

(** What a trap or a return leaves alone: the other registers of the guest,
    the other bits of sstatus and the other fields of the hypervisor. *)
Record trap_frame (p p' : priv_state) (r r' : gregs) : Prop := {
  frame_regs : forall i, 1 <= i < 32 -> reg r' i = reg r i;
  frame_sstatus : forall i, 0 <= i < 64 -> i <> 1 -> i <> 5 -> i <> 8 ->
    Z.testbit (sstatus p') i = Z.testbit (sstatus p) i;
  frame_csrs : forall c, c <> Sepc -> c <> Scause -> c <> Stval -> c <> Sstatus ->
    csr_view p' c = csr_view p c;
  frame_config : (stub_start p', stub_size p', timerid p', urvb_block_id p', urvb_buf p')
    = (stub_start p, stub_size p, timerid p, urvb_block_id p, urvb_buf p);
}.

(** ** The trap vector *)

Lemma land_is_int c : is_u64 c -> truthy (Z.land c SCAUSE_IS_INT) = is_interrupt c.
Proof.
  intros Hc. unfold is_interrupt.
  replace (Z.land c SCAUSE_IS_INT) with (Z.shiftl (Z.b2z (Z.testbit c 63)) 63).
  - rewrite Z.testbit_spec', Z.shiftl_mul_pow2 by lia.
    assert (c / 2 ^ 63 = 0 \/ c / 2 ^ 63 = 1) as Hd.
    { assert (0 <= c / 2 ^ 63 < 2); [|lia].
      split; [apply Z.div_pos|apply Z.div_lt_upper_bound]; unfold is_u64 in Hc; lia. }
    pose proof (Z.div_mod c (2 ^ 63) ltac:(lia)).
    pose proof (Z.mod_pos_bound c (2 ^ 63) ltac:(lia)).
    unfold truthy. destruct Hd as [E|E]; rewrite E in *; [change (0 mod 2) with 0|change (1 mod 2) with 1];
      destruct (Z.leb_spec (2 ^ 63) c); simpl; lia.
  - apply Z.bits_inj'. intros i Hi. rewrite testbit_shiftl, Z.land_spec by lia.
    unfold SCAUSE_IS_INT. rewrite testbit_shl64 by lia.
    destruct (Z.eq_dec i 63) as [->|]; [by destruct (Z.testbit c 63)|].
    assert (forall x, 0 <= x <= 1 -> 63 <= i -> Z.testbit x (i - 63) = false) as Hx.
    { intros. apply (testbit_small x 1); lia. }
    destruct (Z.leb_spec 63 i); [|by rewrite !andb_false_r].
    assert (0 <= Z.b2z (Z.testbit c 63) <= 1) by (destruct (Z.testbit c 63); simpl; lia).
    by rewrite !Hx, !andb_false_r by lia.
Qed.

(** The code multiplies the whole cause, interrupt bit included, by four;
    that bit is lost modulo 2^64. *)
Lemma u64_vector base c : is_interrupt c = true -> is_u64 c ->
  u64 (base + u64 (c * 4)) = u64 (base + 4 * (c - 2 ^ 63)).
Proof.
  intros _ _. unfold u64. rewrite Zplus_mod_idemp_r.
  replace (base + c * 4) with (base + 4 * (c - 2 ^ 63) + 2 * 2 ^ 64) by lia.
  by rewrite Z.mod_add by lia.
Qed.

Lemma trap_target_isa p c : is_u64 (stvec p) -> is_u64 c ->
  Z.land (stvec p) STVEC_MODE_MASK = STVEC_DIRECT \/
  Z.land (stvec p) STVEC_MODE_MASK = STVEC_VECTORED ->
  trap_target p c = isa_vector (stvec p) c.
Proof.
  intros Hs Hc Hm. unfold trap_target, isa_vector.
  rewrite land_is_int, land_not3 by done. rewrite land_3 in * by apply Hs.
  destruct Hm as [-> | ->]; simpl; [done|].
  destruct (is_interrupt c) eqn:E; simpl; [by apply u64_vector|done].
Qed.

(** ** Trap entry *)

Definition trap_sstatus (m s : Z) : Z :=
  let s := set_sstatus_spp s (if m =? PRIV_S then SSTATUS_SPP_S else SSTATUS_SPP_U) in
  set_sstatus_sie (set_sstatus_spie s (get_sstatus_sie s)) 0.

Definition sret_sstatus (s : Z) : Z :=
  set_sstatus_spp (set_sstatus_spie (set_sstatus_sie s (get_sstatus_spie s)) 1) 0.

Definition trap_priv (cause tval pc0 : Z) (p : priv_state) : priv_state :=
  p <| sepc := pc0 |> <| scause := cause |> <| stval := tval |>
    <| sstatus := trap_sstatus (priv_mode p) (sstatus p) |> <| priv_mode := PRIV_S |>
    <| should_clear_vm := true |>.

Lemma run_enter_trap `{K : Kernel} cause tval w :
  enter_trap cause tval w =
    (inr (), mk_world (trap_priv cause tval (pc (w_regs w)) (w_priv w))
               (set_reg (w_regs w) 0 (trap_target (w_priv w) cause)) (w_kern w)).
Proof.
  destruct w as [p r k]. unfold enter_trap, mbind, M_bind. cbn.
  unfold trap_priv, trap_sstatus. by destruct (priv_mode p =? PRIV_S).
Qed.

Definition spp_of (m : Z) : Z := if m =? PRIV_S then SSTATUS_SPP_S else SSTATUS_SPP_U.

Lemma spp_of_range m : 0 <= spp_of m < 2 ^ 1.
Proof. unfold spp_of, SSTATUS_SPP_S, SSTATUS_SPP_U. destruct (m =? PRIV_S); lia. Qed.

#[export] Hint Resolve spp_of_range : words.

Ltac sstatus_fields :=
  autounfold with field_names in *; autorewrite with fields; auto with words.

Section sstatus.
Context (m s : Z) (Hs : is_u64 s).

Lemma trap_sstatus_sie : get_sstatus_sie (trap_sstatus m s) = 0.
Proof using Hs. unfold trap_sstatus. fold (spp_of m). sstatus_fields. Qed.

Lemma trap_sstatus_spie : get_sstatus_spie (trap_sstatus m s) = get_sstatus_sie s.
Proof using Hs. unfold trap_sstatus. fold (spp_of m). sstatus_fields. Qed.

Lemma trap_sstatus_spp : get_sstatus_spp (trap_sstatus m s) = spp_of m.
Proof using Hs. unfold trap_sstatus. fold (spp_of m). sstatus_fields. Qed.

Lemma sret_sstatus_sie : get_sstatus_sie (sret_sstatus s) = get_sstatus_spie s.
Proof using Hs. unfold sret_sstatus. sstatus_fields. Qed.

Lemma sret_sstatus_spie : get_sstatus_spie (sret_sstatus s) = 1.
Proof using Hs. unfold sret_sstatus. sstatus_fields. Qed.

Lemma sret_sstatus_spp : get_sstatus_spp (sret_sstatus s) = 0.
Proof using Hs. unfold sret_sstatus. sstatus_fields. Qed.

Lemma trap_sstatus_u64 : is_u64 (trap_sstatus m s).
Proof using Hs. unfold trap_sstatus. fold (spp_of m). sstatus_fields. Qed.

Lemma sret_sstatus_u64 : is_u64 (sret_sstatus s).
Proof using Hs. unfold sret_sstatus. sstatus_fields. Qed.

Lemma trap_sstatus_frame i :
  0 <= i < 64 -> i <> 1 -> i <> 5 -> i <> 8 ->
  Z.testbit (trap_sstatus m s) i = Z.testbit s i.
Proof using Hs.
  intros. unfold trap_sstatus. fold (spp_of m). autounfold with field_names.
  by rewrite !testbit_bf_set_ne by (auto with words; lia).
Qed.

Lemma sret_sstatus_frame i :
  0 <= i < 64 -> i <> 1 -> i <> 5 -> i <> 8 ->
  Z.testbit (sret_sstatus s) i = Z.testbit s i.
Proof using Hs.
  intros. unfold sret_sstatus. autounfold with field_names.
  by rewrite !testbit_bf_set_ne by (auto with words; lia).
Qed.
End sstatus.

(** The bits a trap or a return changes are writable ones, so the read-only
    part of sstatus is kept. *)
Lemma sstatus_fixed_frame s s' :
  is_u64 s -> is_u64 s' ->
  (forall i, 0 <= i < 64 -> i <> 1 -> i <> 5 -> i <> 8 -> Z.testbit s' i = Z.testbit s i) ->
  Z.land s' (not64 SSTATUS_WRITABLE_MASK) = Z.land s (not64 SSTATUS_WRITABLE_MASK).
Proof.
  intros Hs Hs' Hf. apply Z.bits_inj'. intros i Hi. rewrite !Z.land_spec, testbit_not64 by done.
  destruct (Z.ltb_spec i 64); [|by rewrite !andb_false_r]. simpl.
  rewrite (testbit_writable Sstatus i _ eq_refl) by lia.
  case_bool_decide as Hin; [by rewrite !andb_false_r|].
  rewrite Hf; [done|lia|..]; intros ->; apply Hin; set_solver.
Qed.

(** ** Trap entry refines the architecture *)

Lemma pc_set_reg r v : (0 < length r)%nat -> pc (set_reg r 0 v) = v.
Proof. intros. unfold pc. rewrite reg_set_reg; [done|lia]. Qed.

Lemma set_pc_frame r v i : 1 <= i -> reg (set_reg r 0 v) i = reg r i.
Proof. intros. rewrite reg_set_reg_ne; [done|lia..]. Qed.

Lemma bf_get_1_cases s d : 0 <= s -> bf_get s 1 d = 0 \/ bf_get s 1 d = 1.
Proof. intros. pose proof (bf_get_1_range s d). lia. Qed.

Lemma mode_of_spp m : m = PRIV_U \/ m = PRIV_S ->
  (if spp_of m =? SSTATUS_SPP_U then ModeU else ModeS) = mode_of m.
Proof. by intros [-> | ->]. Qed.

Lemma trap_priv_wf cause tval pc0 p :
  is_u64 cause -> is_u64 tval -> is_u64 pc0 -> csr_wf p ->
  csr_wf (trap_priv cause tval pc0 p).
Proof.
  intros Hc Ht Hp [Hw Hm Hss Hst Hip Hie Ha Hsm].
  pose proof (Hw Sstatus) as Hs. simpl in Hs.
  split; try assumption; simpl; auto.
  - intros []; simpl; try assumption; [apply (Hw Sscratch)|apply (Hw Stvec)| |
      apply (Hw Sie)|apply (Hw Sip)|apply (Hw Satp)].
    by apply trap_sstatus_u64.
  - rewrite <- Hss. apply sstatus_fixed_frame; auto using trap_sstatus_u64.
    intros. by apply trap_sstatus_frame.
Qed.

Lemma trap_priv_frame cause tval pc0 p r v :
  is_u64 (sstatus p) ->
  trap_frame p (trap_priv cause tval pc0 p) r (set_reg r 0 v).
Proof.
  intros Hs. split.
  - intros. apply set_pc_frame. lia.
  - intros. by apply trap_sstatus_frame.
  - intros c. by destruct c.
  - done.
Qed.

Lemma trap_priv_hart cause tval p r :
  is_u64 cause -> csr_wf p -> gregs_wf r ->
  hart_of (trap_priv cause tval (pc r) p) (set_reg r 0 (trap_target p cause)) =
    isa_trap cause tval (hart_of p r).
Proof.
  intros Hc Hwf Hr.
  pose proof (wf_words _ Hwf Sstatus) as Hs. pose proof (wf_words _ Hwf Stvec) as Hv.
  unfold hart_of, isa_trap. rewrite pc_set_reg by (rewrite (proj1 Hr); lia). simpl.
  rewrite (trap_target_isa p cause Hv Hc (wf_stvec _ Hwf)).
  rewrite trap_sstatus_sie, trap_sstatus_spie, trap_sstatus_spp by done.
  by rewrite mode_of_spp by apply (wf_mode _ Hwf).
Qed.

Section trap_spec.
Context `{K : Kernel}.

(** C18. enter_trap implements the trap entry of the supervisor architecture on the mode,
    the program counter, sstatus, sepc, scause, stval and stvec, changes nothing else
    the guest sees, requests a flush and keeps the CSR file legal. *)
Theorem enter_trap_refines cause tval w :
  is_u64 cause -> is_u64 tval -> csr_wf (w_priv w) -> gregs_wf (w_regs w) ->
  exists p' r', enter_trap cause tval w = (inr (), mk_world p' r' (w_kern w)) /\
    hart_of p' r' = isa_trap cause tval (hart_of (w_priv w) (w_regs w)) /\
    trap_frame (w_priv w) p' (w_regs w) r' /\
    should_clear_vm p' = true /\ csr_wf p'.
Proof using.
  intros Hc Ht Hwf Hr. destruct w as [p r k]; simpl in *.
  eexists _, _. split; [apply run_enter_trap|]. simpl.
  split_and!; [by apply trap_priv_hart| |done|].
  - apply trap_priv_frame, (wf_words _ Hwf Sstatus).
  - apply trap_priv_wf; [done..| |done]. apply reg_u64; [done|lia].
Qed.
End trap_spec.
