(* ===== verification/Instr.v ===== *)
(** * Emulation of privileged instructions

    Models [handle_priv_instr] of riscv-priv.c: sfence.vma, wfi, sret and the
    six CSR instructions; anything else stops the hypervisor. *)

From S2P Require Import Prelude Bits State Machine Csr Trap.

Section instr_code.
Context `{K : Kernel}.

(** [ucontext->uc_mcontext.__gregs[0] += n] *)
Definition advance (n : Z) : M unit := pc0 ← get_reg 0; put_reg 0 (u64 (pc0 + n)).

Definition emulate_sret : M unit :=
  mod_priv (fun p => p <| counter_sret := u64 (counter_sret p + 1) |>);;
  priv ← get_priv;
  let spp := get_sstatus_spp (sstatus priv) in
  mod_priv (fun p => p <| sstatus :=
    set_sstatus_sie (sstatus p) (get_sstatus_spie (sstatus p)) |>);;
  mod_priv (fun p => p <| sstatus := set_sstatus_spie (sstatus p) 1 |>);;
  mod_priv (fun p => p <| sstatus := set_sstatus_spp (sstatus p) 0 |>);;
  (if spp =? SSTATUS_SPP_U
   then mod_priv (fun p => p <| priv_mode := PRIV_U |>);;
        mod_priv (fun p => p <| should_clear_vm := true |>)
   else mod_priv (fun p => p <| priv_mode := PRIV_S |>));;
  priv ← get_priv;
  put_reg 0 (sepc priv).

Definition emulate_csr (instr : Z) : M unit :=
  let csr := ins_csr instr in
  let op := Z.land (ins_funct3 instr) CSR_OP_MASK in
  let use_uimm := truthy (Z.land (ins_funct3 instr) CSR_USE_UIMM) in
  regs ← get_regs;
  let write_value :=
    if use_uimm then ins_rs1 instr
    else if ins_rs1 instr =? 0 then 0 else reg regs (ins_rs1 instr) in
  let will_write :=
    if use_uimm then negb (write_value =? 0) else negb (ins_rs1 instr =? 0) in
  (if op =? CSR_OP_RW then
     (if negb (ins_rd instr =? 0)
      then v ← read_csr csr; put_reg (ins_rd instr) v else mret ());;
     write_csr csr write_value
   else if op =? CSR_OP_RS then
     orig ← read_csr csr;
     (if will_write : bool then write_csr csr (Z.lor orig write_value) else mret ());;
     (if negb (ins_rd instr =? 0) then put_reg (ins_rd instr) orig else mret ())
   else if op =? CSR_OP_RC then
     orig ← read_csr csr;
     (if will_write : bool then write_csr csr (Z.land orig (not64 write_value)) else mret ());;
     (if negb (ins_rd instr =? 0) then put_reg (ins_rd instr) orig else mret ())
   else write_log "Invalid csr operation";; ebreak);;
  advance 4.

Definition handle_priv_instr (instr : Z) : M unit :=
  if ins_opcode instr =? OPCODE_SYSTEM then
    if ins_funct3 instr =? FUNCT3_NOT_CSR then
      if (ins_funct7 instr =? FUNCT7_SFENCE_VMA) && (ins_rd instr =? 0) then
        mod_priv (fun p => p <| should_clear_vm := true |>);; advance 4
      else if (ins_funct7 instr =? FUNCT7_WFI) && (ins_rs2 instr =? RS2_WFI)
           && (ins_rs1 instr =? 0) && (ins_rd instr =? 0) then
        advance 4
      else if (ins_funct7 instr =? FUNCT7_SRET) && (ins_rs2 instr =? RS2_SRET)
           && (ins_rs1 instr =? 0) && (ins_rd instr =? 0) then
        emulate_sret
      else write_log "Invalid instruction: non-CSR";; ebreak
    else emulate_csr instr
  else write_log "Invalid instruction: not SYSTEM";; ebreak.
End instr_code.

(** ** Encodings *)

Definition encode_system (hi12 rs1 funct3 rd : Z) : Z :=
  hi12 * 2 ^ 20 + rs1 * 2 ^ 15 + funct3 * 2 ^ 12 + rd * 2 ^ 7 + OPCODE_SYSTEM.

Definition wfi_word : Z := 0x10500073.
Definition sret_word : Z := 0x10200073.
Definition sfence_vma_word (rs1 rs2 : Z) : Z :=
  encode_system (FUNCT7_SFENCE_VMA * 2 ^ 5 + rs2) rs1 0 0.

Lemma ins_bitfield_div s w x :
  0 <= s -> 0 <= w -> ins_bitfield s w x = x / 2 ^ s mod 2 ^ w.
Proof. apply bf_get_div. Qed.

Section encoding.
Context (hi rs1 f3 rd : Z).
Context (Hhi : 0 <= hi < 2 ^ 12) (Hrs1 : 0 <= rs1 < 32) (Hf3 : 0 <= f3 < 8)
  (Hrd : 0 <= rd < 32).
#[local] Abbreviation enc := (encode_system hi rs1 f3 rd).

Ltac field := unfold encode_system, OPCODE_SYSTEM; rewrite ins_bitfield_div by lia;
  rewrite ?Z.pow_0_r, ?Z.div_1_r; Z.div_mod_to_equations; lia.

Lemma ins_opcode_enc : ins_opcode enc = OPCODE_SYSTEM.
Proof using Hhi Hrs1 Hf3 Hrd. unfold ins_opcode. field. Qed.
Lemma ins_rd_enc : ins_rd enc = rd.
Proof using Hhi Hrs1 Hf3 Hrd. unfold ins_rd. field. Qed.
Lemma ins_funct3_enc : ins_funct3 enc = f3.
Proof using Hhi Hrs1 Hf3 Hrd. unfold ins_funct3. field. Qed.
Lemma ins_rs1_enc : ins_rs1 enc = rs1.
Proof using Hhi Hrs1 Hf3 Hrd. unfold ins_rs1. field. Qed.
Lemma ins_csr_enc : ins_csr enc = hi.
Proof using Hhi Hrs1 Hf3 Hrd. unfold ins_csr. field. Qed.
Lemma ins_rs2_enc : ins_rs2 enc = hi mod 32.
Proof using Hhi Hrs1 Hf3 Hrd. unfold ins_rs2. field. Qed.
Lemma ins_funct7_enc : ins_funct7 enc = hi / 32.
Proof using Hhi Hrs1 Hf3 Hrd. unfold ins_funct7. field. Qed.
End encoding.

Create Rewrite HintDb ins.
#[export] Hint Rewrite ins_opcode_enc ins_rd_enc ins_funct3_enc ins_rs1_enc
  ins_csr_enc ins_rs2_enc ins_funct7_enc using lia : ins.

(** ** CSR instructions *)

Inductive csr_op := OpRW | OpRS | OpRC.

Definition op_code (o : csr_op) : Z :=
  match o with OpRW => CSR_OP_RW | OpRS => CSR_OP_RS | OpRC => CSR_OP_RC end.

Definition csr_funct3 (o : csr_op) (imm : bool) : Z :=
  op_code o + if imm then CSR_USE_UIMM else 0.

(** csrrw, csrrs, csrrc and their immediate forms. *)
Definition csr_word (o : csr_op) (imm : bool) (c : csr_id) (rs1 rd : Z) : Z :=
  encode_system (csr_number c) rs1 (csr_funct3 o imm) rd.

Definition csr_operand (imm : bool) (r : gregs) (rs1 : Z) : Z :=
  if imm then rs1 else xreg r rs1.

(** The value the instruction writes, [None] when it does not write. *)
Definition isa_csr (o : csr_op) (rs1 old operand : Z) : option Z :=
  match o with
  | OpRW => Some operand
  | OpRS => if rs1 =? 0 then None else Some (Z.lor old operand)
  | OpRC => if rs1 =? 0 then None else Some (Z.ldiff old operand)
  end.

Lemma csr_number_range c : 0 <= csr_number c < 2 ^ 12.
Proof. destruct c; split; vm_compute; congruence. Qed.

Lemma csr_funct3_range o imm : 1 <= csr_funct3 o imm < 8.
Proof. by destruct o, imm. Qed.

Lemma csr_funct3_op o imm : Z.land (csr_funct3 o imm) CSR_OP_MASK = op_code o.
Proof. by destruct o, imm. Qed.

Lemma csr_funct3_imm o imm : truthy (Z.land (csr_funct3 o imm) CSR_USE_UIMM) = imm.
Proof. by destruct o, imm. Qed.

Lemma land_not64 a b : is_u64 a -> Z.land a (not64 b) = Z.ldiff a b.
Proof.
  intros Ha. apply Z.bits_inj'. intros i Hi. autorewrite with bits.
  destruct (Z.ltb_spec i 64); [done|]. by rewrite is_u64_high.
Qed.

Lemma set_xreg_wf r i v : gregs_wf r -> is_u64 v -> gregs_wf (set_xreg r i v).
Proof. intros. unfold set_xreg. destruct (i =? 0); auto with words. Qed.

Lemma pc_set_xreg r i v : 0 <= i -> pc (set_xreg r i v) = pc r.
Proof.
  intros. unfold set_xreg, pc. destruct (Z.eqb_spec i 0); [done|].
  rewrite reg_set_reg_ne; [done|lia..].
Qed.

Lemma csr_operand_u64 imm r rs1 : gregs_wf r -> 0 <= rs1 < 32 -> is_u64 (csr_operand imm r rs1).
Proof.
  intros. unfold csr_operand, xreg. destruct imm; [unfold is_u64; lia|].
  destruct (rs1 =? 0); [done|]. by apply reg_u64.
Qed.

Lemma isa_csr_u64 o rs1 old operand v :
  is_u64 old -> is_u64 operand -> isa_csr o rs1 old operand = Some v -> is_u64 v.
Proof.
  intros Ho Hp. destruct o; simpl; [by intros [= <-]|..];
    destruct (rs1 =? 0); intros [= <-]; auto with words.
  rewrite <- land_not64 by done. auto with words.
Qed.

Section csr_instr.
Context `{K : Kernel}.

Lemma run_advance n w :
  advance n w = (inr (), w <| w_regs := set_reg (w_regs w) 0 (u64 (pc (w_regs w) + n)) |>).
Proof using. done. Qed.

Definition csr_step (o : csr_op) (imm : bool) (c : csr_id) (rs1 : Z)
    (p : priv_state) (r : gregs) : priv_state :=
  match isa_csr o rs1 (csr_view p c) (csr_operand imm r rs1) with
  | Some v => csr_update c v p
  | None => p
  end.

Lemma csr_step_id o imm c rs1 p r :
  isa_csr o rs1 (csr_view p c) (csr_operand imm r rs1) = None ->
  csr_step o imm c rs1 p r = p.
Proof using. unfold csr_step. by intros ->. Qed.

Lemma csr_wf_step o imm c rs1 p r :
  csr_wf p -> gregs_wf r -> 0 <= rs1 < 32 -> csr_wf (csr_step o imm c rs1 p r).
Proof using.
  intros Hp Hr Hi. unfold csr_step.
  destruct (isa_csr _ _ _ _) as [v|] eqn:E; [|done]. apply csr_update_wf; [|done].
  refine (isa_csr_u64 _ _ _ _ _ _ _ E); [apply (wf_words _ Hp c)|by apply csr_operand_u64].
Qed.

(** The pieces of [emulate_csr]. *)
Lemma run_write_rd rd v w :
  (if negb (rd =? 0) then put_reg rd v else mret ()) w =
    (inr (), w <| w_regs := set_xreg (w_regs w) rd v |>).
Proof using. unfold set_xreg. by destruct (rd =? 0), w. Qed.

Lemma run_read_rd c rd w :
  (if negb (rd =? 0) then v ← read_csr (csr_number c); put_reg rd v else mret ()) w =
    (inr (), w <| w_regs := set_xreg (w_regs w) rd (csr_view (w_priv w) c) |>).
Proof using.
  unfold set_xreg. destruct (rd =? 0); [by destruct w|]. simpl. mrun.
Qed.

Lemma run_maybe_write (b : bool) c v w :
  (if b then write_csr (csr_number c) v else mret ()) w =
    (inr (), w <| w_priv := if b then csr_update c v (w_priv w) else w_priv w |>).
Proof using. destruct b; [apply run_write_csr|by destruct w]. Qed.

#[local] Hint Resolve run_write_rd run_read_rd run_maybe_write run_advance : run.

(** The guard of the set and clear forms is the same for a register and an
    immediate operand. *)
Lemma will_write_rs1 (imm : bool) rs1 v :
  (if imm then negb ((if imm then rs1 else v) =? 0) else negb (rs1 =? 0)) = negb (rs1 =? 0).
Proof using. by destruct imm. Qed.

(** A CSR instruction that decodes. *)
Lemma run_csr_word o imm c rs1 rd w :
  0 <= rs1 < 32 -> 0 <= rd < 32 -> csr_wf (w_priv w) ->
  handle_priv_instr (csr_word o imm c rs1 rd) w =
    (inr (), mk_world (csr_step o imm c rs1 (w_priv w) (w_regs w))
      (set_reg (set_xreg (w_regs w) rd (csr_view (w_priv w) c)) 0
        (u64 (pc (w_regs w) + 4))) (w_kern w)).
Proof using.
  intros Hrs1 Hrd Hwf. pose proof (csr_number_range c). pose proof (csr_funct3_range o imm).
  unfold handle_priv_instr, emulate_csr, csr_word.
  rewrite ins_opcode_enc, ins_funct3_enc, ins_rd_enc, ins_rs1_enc, ins_csr_enc by lia.
  rewrite csr_funct3_op, csr_funct3_imm.
  rewrite (proj2 (Z.eqb_neq (csr_funct3 o imm) FUNCT3_NOT_CSR)) by (unfold FUNCT3_NOT_CSR; lia).
  rewrite <- (pc_set_xreg (w_regs w) rd (csr_view (w_priv w) c)) by lia.
  pose proof (wf_words _ Hwf c) as Hold.
  rewrite Z.eqb_refl. mstep. rewrite will_write_rs1.
  unfold csr_step, csr_operand, xreg. destruct w as [p r k], o; simpl isa_csr.
  - change (op_code OpRW =? CSR_OP_RW) with true. cbv iota.
    erewrite run_bind by (mrun). mrun.
  - change (op_code OpRS =? CSR_OP_RW) with false.
    change (op_code OpRS =? CSR_OP_RS) with true. cbv iota.
    erewrite run_bind by (mrun). rewrite run_advance. simpl. by destruct (rs1 =? 0).
  - change (op_code OpRC =? CSR_OP_RW) with false.
    change (op_code OpRC =? CSR_OP_RS) with false.
    change (op_code OpRC =? CSR_OP_RC) with true. cbv iota.
    erewrite run_bind by (mrun). rewrite run_advance. simpl.
    rewrite land_not64 by done. by destruct (rs1 =? 0).
Qed.

(** C20. The six CSR instructions read the old value into rd, write the new value the
    instruction defines (not at all for csrrs and csrrc with a zero source), and advance
    the program counter. *)
Theorem csr_instr_refines o imm c rs1 rd w :
  0 <= rs1 < 32 -> 0 <= rd < 32 -> csr_wf (w_priv w) -> gregs_wf (w_regs w) ->
  exists p' r', handle_priv_instr (csr_word o imm c rs1 rd) w =
      (inr (), mk_world p' r' (w_kern w)) /\
    pc r' = u64 (pc (w_regs w) + 4) /\
    (forall i, 1 <= i < 32 ->
       xreg r' i = if i =? rd then csr_view (w_priv w) c else xreg (w_regs w) i) /\
    match isa_csr o rs1 (csr_view (w_priv w) c) (csr_operand imm (w_regs w) rs1) with
    | None => p' = w_priv w
    | Some v =>
        warl c (csr_view (w_priv w) c) v (csr_view p' c) /\
        (forall c', c' <> c -> csr_view p' c' = csr_view (w_priv w) c')
    end /\ csr_wf p' /\ gregs_wf r'.
Proof using.
  intros Hrs1 Hrd Hwf Hr. pose proof (proj1 Hr) as Hlen.
  assert (gregs_wf (set_xreg (w_regs w) rd (csr_view (w_priv w) c))) as Hr'.
  { apply set_xreg_wf; [done|]. apply (wf_words _ Hwf). }
  eexists _, _. split; [by apply run_csr_word|]. split_and!.
  - apply pc_set_reg. rewrite (proj1 Hr'). lia.
  - intros i Hi. unfold xreg. rewrite (proj2 (Z.eqb_neq i 0)), set_pc_frame by lia.
    unfold set_xreg. destruct (Z.eqb_spec i rd) as [->|].
    + rewrite (proj2 (Z.eqb_neq rd 0)), reg_set_reg by lia. done.
    + destruct (rd =? 0); [done|]. by rewrite reg_set_reg_ne by lia.
  - unfold csr_step. destruct (isa_csr _ _ _ _) as [v|] eqn:E; [|done].
    split; [|intros; by apply csr_update_other]. apply csr_update_warl.
    refine (isa_csr_u64 _ _ _ _ _ _ _ E); [apply (wf_words _ Hwf c)|by apply csr_operand_u64].
  - by apply csr_wf_step.
  - auto with words.
Qed.
End csr_instr.

(** ** sret *)

Definition sret_priv (p : priv_state) : priv_state :=
  let user := get_sstatus_spp (sstatus p) =? SSTATUS_SPP_U in
  p <| counter_sret := u64 (counter_sret p + 1) |>
    <| sstatus := sret_sstatus (sstatus p) |>
    <| priv_mode := if user then PRIV_U else PRIV_S |>
    <| should_clear_vm := user || should_clear_vm p |>.

Lemma sret_priv_wf p : csr_wf p -> csr_wf (sret_priv p).
Proof.
  intros [Hw Hm Hss Hst Hip Hie Ha Hsm]. pose proof (Hw Sstatus) as Hs. simpl in Hs.
  split; try assumption.
  - intros c. destruct c; [apply (Hw Sscratch)|apply (Hw Stvec)|
      apply (Hw Sepc)|by apply sret_sstatus_u64|apply (Hw Sie)|apply (Hw Sip)|
      apply (Hw Scause)|apply (Hw Stval)|apply (Hw Satp)].
  - unfold sret_priv. simpl. destruct (_ =? _); auto.
  - rewrite <- Hss. apply sstatus_fixed_frame; [done|by apply sret_sstatus_u64|].
    intros. by apply sret_sstatus_frame.
Qed.

Lemma sret_priv_frame p r v :
  is_u64 (sstatus p) -> trap_frame p (sret_priv p) r (set_reg r 0 v).
Proof.
  intros Hs. split.
  - intros. apply set_pc_frame. lia.
  - intros. by apply sret_sstatus_frame.
  - intros c. by destruct c.
  - done.
Qed.

Lemma hart_of_sret p r v : is_u64 (sstatus p) -> (0 < length r)%nat -> v = sepc p ->
  hart_of (sret_priv p) (set_reg r 0 v) = isa_sret (hart_of p r).
Proof.
  intros Hs Hr ->. unfold hart_of, isa_sret. rewrite pc_set_reg by done. simpl.
  rewrite sret_sstatus_sie, sret_sstatus_spie, sret_sstatus_spp by done.
  by destruct (get_sstatus_spp (sstatus p) =? SSTATUS_SPP_U).
Qed.

Section sret.
Context `{K : Kernel}.

Lemma run_emulate_sret w :
  emulate_sret w =
    (inr (), mk_world (sret_priv (w_priv w))
      (set_reg (w_regs w) 0 (sepc (w_priv w))) (w_kern w)).
Proof using.
  destruct w as [p r k]. unfold emulate_sret, mbind, M_bind. cbn.
  unfold sret_priv. by destruct (get_sstatus_spp (sstatus p) =? SSTATUS_SPP_U).
Qed.

Lemma handle_sret : handle_priv_instr sret_word = emulate_sret.
Proof using. reflexivity. Qed.

(** C21. sret implements the return of the supervisor architecture, changes nothing else,
    requests a flush when it returns to U-mode, and keeps the registers legal. *)
Theorem sret_refines w :
  csr_wf (w_priv w) -> gregs_wf (w_regs w) ->
  exists p' r', handle_priv_instr sret_word w = (inr (), mk_world p' r' (w_kern w)) /\
    hart_of p' r' = isa_sret (hart_of (w_priv w) (w_regs w)) /\
    trap_frame (w_priv w) p' (w_regs w) r' /\
    (priv_mode p' = PRIV_U -> should_clear_vm p' = true) /\
    csr_wf p' /\ gregs_wf r'.
Proof using.
  intros Hwf Hr. rewrite handle_sret. pose proof (wf_words _ Hwf Sstatus) as Hs.
  eexists _, _. split; [apply run_emulate_sret|]. split_and!.
  - apply hart_of_sret; [done| |done]. rewrite (proj1 Hr). lia.
  - by apply sret_priv_frame.
  - unfold sret_priv. simpl. by destruct (_ =? _).
  - by apply sret_priv_wf.
  - apply set_reg_wf; [done|]. apply (wf_words _ Hwf Sepc).
Qed.

(** C22. A trap followed by sret resumes at the interrupted instruction, in the interrupted
    mode, with the interrupt enable and all registers restored. *)
Theorem trap_sret_roundtrip cause tval w :
  csr_wf (w_priv w) -> gregs_wf (w_regs w) ->
  exists p' r',
    (enter_trap cause tval;; handle_priv_instr sret_word) w =
      (inr (), mk_world p' r' (w_kern w)) /\
    pc r' = pc (w_regs w) /\
    priv_mode p' = priv_mode (w_priv w) /\
    get_sstatus_sie (sstatus p') = get_sstatus_sie (sstatus (w_priv w)) /\
    (forall i, 1 <= i < 32 -> reg r' i = reg (w_regs w) i) /\
    stvec p' = stvec (w_priv w) /\ satp p' = satp (w_priv w) /\
    should_clear_vm p' = true.
Proof using.
  intros Hwf Hr. rewrite handle_sret. pose proof (wf_words _ Hwf Sstatus) as Hs.
  eexists _, _. split.
  { erewrite run_bind by apply run_enter_trap. rewrite run_emulate_sret. reflexivity. }
  simpl. split_and!; try done.
  - apply pc_set_reg. rewrite length_set_reg, (proj1 Hr). lia.
  - rewrite trap_sstatus_spp by done. by destruct (wf_mode _ Hwf) as [-> | ->].
  - rewrite sret_sstatus_sie, trap_sstatus_spie by (auto using trap_sstatus_u64). done.
  - intros. rewrite !set_pc_frame by lia. done.
  - apply orb_true_r.
Qed.
End sret.

(** ** Fences, wfi and everything else *)

Section other_instr.
Context `{K : Kernel}.

Lemma run_sfence rs1 rs2 w :
  0 <= rs1 < 32 -> 0 <= rs2 < 32 ->
  handle_priv_instr (sfence_vma_word rs1 rs2) w =
    (inr (), mk_world ((w_priv w) <| should_clear_vm := true |>)
               (set_reg (w_regs w) 0 (u64 (pc (w_regs w) + 4))) (w_kern w)).
Proof using.
  intros. unfold handle_priv_instr, sfence_vma_word, FUNCT7_SFENCE_VMA.
  rewrite ins_opcode_enc, ins_funct3_enc, ins_rd_enc, ins_funct7_enc by lia.
  replace ((9 * 2 ^ 5 + rs2) / 32) with 9 by (Z.div_mod_to_equations; lia).
  reflexivity.
Qed.

Lemma run_wfi w :
  handle_priv_instr wfi_word w =
    (inr (), mk_world (w_priv w)
               (set_reg (w_regs w) 0 (u64 (pc (w_regs w) + 4))) (w_kern w)).
Proof using. reflexivity. Qed.

(** The words [handle_priv_instr] emulates. *)
Inductive privileged : Z -> Prop :=
| priv_csr o imm c rs1 rd : 0 <= rs1 < 32 -> 0 <= rd < 32 -> privileged (csr_word o imm c rs1 rd)
| priv_sret : privileged sret_word
| priv_wfi : privileged wfi_word
| priv_sfence rs1 rs2 : 0 <= rs1 < 32 -> 0 <= rs2 < 32 -> privileged (sfence_vma_word rs1 rs2).
End other_instr.

(** ** Every other word stops the hypervisor *)

Lemma decode_system instr :
  0 <= instr < 2 ^ 32 -> ins_opcode instr = OPCODE_SYSTEM ->
  exists hi rs1 f3 rd, 0 <= hi < 2 ^ 12 /\ 0 <= rs1 < 32 /\ 0 <= f3 < 8 /\ 0 <= rd < 32 /\
    instr = encode_system hi rs1 f3 rd.
Proof.
  unfold ins_opcode. rewrite ins_bitfield_div, Z.pow_0_r, Z.div_1_r by lia. intros Hi Ho.
  exists (instr / 2 ^ 20), (instr / 2 ^ 15 mod 32), (instr / 2 ^ 12 mod 8), (instr / 2 ^ 7 mod 32).
  unfold encode_system, OPCODE_SYSTEM in *. split_and!; Z.div_mod_to_equations; lia.
Qed.

Lemma csr_number_dec n : (exists c, csr_number c = n) \/ (forall c, csr_number c <> n).
Proof.
  destruct (decide (n ∈ csr_number <$> [Sscratch; Stvec; Sepc; Sstatus; Sie; Sip; Scause; Stval; Satp]))
    as [H|H].
  - left. apply list_elem_of_fmap in H as (c & -> & _). by exists c.
  - right. intros c <-. apply H. apply list_elem_of_fmap. exists c. split; [done|].
    destruct c; set_solver.
Qed.

Lemma csr_funct3_dec f3 : 0 <= f3 < 8 -> f3 <> 0 ->
  (exists o imm, f3 = csr_funct3 o imm) \/ f3 = 4.
Proof.
  intros H H0. assert (f3 = 1 \/ f3 = 2 \/ f3 = 3 \/ f3 = 4 \/ f3 = 5 \/ f3 = 6 \/ f3 = 7) as Hc by lia.
  destruct Hc as [->|[->|[->|[->|[->|[->| ->]]]]]]; [left..|by right|left|left|left].
  - by exists OpRW, false.
  - by exists OpRS, false.
  - by exists OpRC, false.
  - by exists OpRW, true.
  - by exists OpRS, true.
  - by exists OpRC, true.
Qed.

Section unprivileged.
Context `{K : Kernel}.

Lemma emulate_csr_unknown hi rs1 o imm rd w :
  0 <= hi < 2 ^ 12 -> 0 <= rs1 < 32 -> 0 <= rd < 32 -> (forall c, csr_number c <> hi) ->
  ebreaks (emulate_csr (encode_system hi rs1 (csr_funct3 o imm) rd)) w.
Proof using.
  intros Hhi Hrs1 Hrd Hn. pose proof (csr_funct3_range o imm). unfold emulate_csr.
  rewrite ins_funct3_enc, ins_rd_enc, ins_rs1_enc, ins_csr_enc by lia.
  rewrite csr_funct3_op. cbv zeta. apply ebreaks_after with (a := w_regs w) (w' := w); [done|].
  assert (forall A (f : Z -> M A), ebreaks (read_csr hi ≫= f) w) as Hread.
  { intros A f. apply ebreaks_bind. unfold ebreaks.
    rewrite (proj1 (run_csr_unimplemented hi 0 w Hn)). apply ebreaks_log. }
  destruct o; apply ebreaks_bind.
  - change (op_code OpRW =? CSR_OP_RW) with true. cbv iota.
    destruct (negb (rd =? 0)).
    + apply ebreaks_bind, Hread.
    + apply ebreaks_after with (a := ()) (w' := w); [done|]. unfold ebreaks.
      rewrite (proj2 (run_csr_unimplemented hi _ w Hn)). apply ebreaks_log.
  - apply Hread.
  - apply Hread.
Qed.

Lemma handle_system_word hi rs1 f3 rd w :
  0 <= hi < 2 ^ 12 -> 0 <= rs1 < 32 -> 0 <= f3 < 8 -> 0 <= rd < 32 ->
  privileged (encode_system hi rs1 f3 rd) \/
  ebreaks (handle_priv_instr (encode_system hi rs1 f3 rd)) w.
Proof using.
  intros Hhi Hrs1 Hf3 Hrd. unfold handle_priv_instr.
  rewrite ins_opcode_enc, ins_funct3_enc, ins_rd_enc, ins_rs1_enc, ins_rs2_enc, ins_funct7_enc by lia.
  rewrite Z.eqb_refl. destruct (Z.eqb_spec f3 FUNCT3_NOT_CSR) as [->|Hne].
  - destruct (Z.eqb_spec (hi / 32) FUNCT7_SFENCE_VMA) as [H7|]; cbn [andb];
      [destruct (Z.eqb_spec rd 0) as [->|]|]; cbn [andb].
    1: { left. pose proof (priv_sfence rs1 (hi mod 32) Hrs1 ltac:(apply Z.mod_pos_bound; lia)) as P.
         unfold sfence_vma_word in P. rewrite <- H7 in P.
         replace (hi / 32 * 2 ^ 5 + hi mod 32) with hi in P; [done|].
         Z.div_mod_to_equations; lia. }
    all: destruct (Z.eqb_spec (hi / 32) FUNCT7_WFI) as [H8|]; cbn [andb];
      [|right; destruct (Z.eqb_spec (hi / 32) FUNCT7_SRET); [done|apply ebreaks_log]].
    1: by unfold FUNCT7_WFI, FUNCT7_SFENCE_VMA in *; lia.
    change (hi / 32 =? FUNCT7_SRET) with (hi / 32 =? FUNCT7_WFI). rewrite H8, Z.eqb_refl.
    destruct (Z.eqb_spec rs1 0) as [->|]; [|rewrite !andb_false_r; right; apply ebreaks_log].
    destruct (Z.eqb_spec rd 0) as [->|]; [|rewrite !andb_false_r; right; apply ebreaks_log].
    destruct (Z.eqb_spec (hi mod 32) RS2_WFI) as [H5|]; cbn [andb];
      [|destruct (Z.eqb_spec (hi mod 32) RS2_SRET) as [H2|]; cbn [andb]].
    + left. assert (hi = 8 * 32 + 5) as ->; [|exact priv_wfi].
      unfold FUNCT7_WFI, RS2_WFI in *. Z.div_mod_to_equations; lia.
    + left. assert (hi = 8 * 32 + 2) as ->; [|exact priv_sret].
      unfold FUNCT7_WFI, RS2_SRET in *. Z.div_mod_to_equations; lia.
    + right. apply ebreaks_log.
  - destruct (csr_funct3_dec f3 Hf3 Hne) as [(o & imm & ->)| ->].
    + destruct (csr_number_dec hi) as [[c <-]|Hn]; [left; by apply priv_csr|right].
      by apply emulate_csr_unknown.
    + right. unfold emulate_csr. rewrite ins_funct3_enc by lia.
      apply ebreaks_after with (a := w_regs w) (w' := w); [done|]. apply ebreaks_bind.
      apply ebreaks_log.
Qed.

Lemma priv_instr_cases instr w : 0 <= instr < 2 ^ 32 ->
  privileged instr \/ ebreaks (handle_priv_instr instr) w.
Proof using.
  intros Hi. destruct (Z.eq_dec (ins_opcode instr) OPCODE_SYSTEM) as [Ho|Ho].
  - destruct (decode_system instr Hi Ho) as (hi & rs1 & f3 & rd & Hhi & Hrs1 & Hf3 & Hrd & ->).
    by apply handle_system_word.
  - right. unfold handle_priv_instr. rewrite (proj2 (Z.eqb_neq _ _) Ho). apply ebreaks_log.
Qed.

(** C23. handle_priv_instr returns for every CSR instruction on an implemented CSR, sret,
    wfi and sfence.vma, and for every other 32-bit word it stops with ebreak, where how-
    it-works.md says that the guest gets an exception. *)
Theorem priv_instr_decides instr w :
  0 <= instr < 2 ^ 32 -> csr_wf (w_priv w) ->
  (privileged instr -> exists w', handle_priv_instr instr w = (inr (), w')) /\
  (~ privileged instr -> fst (handle_priv_instr instr w) = inl StopEbreak).
Proof using.
  intros Hi Hwf. split.
  - intros [o imm c rs1 rd Hrs1 Hrd| | |rs1 rs2 Hrs1 Hrs2].
    + eexists. by apply run_csr_word.
    + rewrite handle_sret. eexists. apply run_emulate_sret.
    + eexists. apply run_wfi.
    + eexists. by apply run_sfence.
  - intros Hn. by destruct (priv_instr_cases instr w Hi).
Qed.
End unprivileged.
