(* ===== verification/Linux.v ===== *)
(** * What the proofs assume of Linux

    [KernelView] observes a kernel state: which file page backs a virtual
    page of the process, the bytes of the file a descriptor is open on and
    their number, that file (an inode number), and the calls the process has
    made.  [KernelLaws] states the documented behaviour of mmap(2), munmap(2),
    pread(2), pwrite(2) and of loads and stores through a file mapping.
    [LinuxModel] has an executable kernel that satisfies them.

    Two of the laws also describe the environment.  The standard output and
    error are terminals or pipes, so that what is written to them changes no
    file ([law_keeps_files]).  The process stays below the limit on the number
    of its mappings, so that munmap(2) of an aligned range, which can fail
    only where it would have to split a mapping, succeeds ([law_munmap]). *)

From S2P Require Import Prelude Bits State Machine Hoare.

Definition PAGE : Z := 4096.

(** The upper end of the addresses a user process of Sv39 Linux can map. *)
Definition TASK_SIZE : Z := 2 ^ 38.

(** A mapped page: [vp_off] is the offset of its first byte in [vp_fd]. *)
Record vpage := mk_vpage { vp_fd : Z; vp_off : Z; vp_prot : Z }.

#[export] Instance vpage_eq_dec : EqDecision vpage.
Proof. solve_decision. Defined.

Definition readable (g : vpage) : bool := truthy (Z.land (vp_prot g) PROT_READ).

Definition writable (g : vpage) : bool := truthy (Z.land (vp_prot g) PROT_WRITE).

(** The files the stub maps are RAM and the configuration, shared, and the
    kernel image, private and read-only: what it loads through them is the
    contents of the file. *)
Definition shows_file (g : vpage) : Prop :=
  vp_fd g = RAM_FD \/ vp_fd g = CONFIG_FD \/ (vp_fd g = KERNEL_FD /\ vp_prot g = PROT_READ).

Class KernelView (K : Kernel) := {
  k_page : kstate -> Z -> option vpage;
  k_file : kstate -> Z -> Z -> Z;
  k_len : kstate -> Z -> Z;
  k_fd : kstate -> Z -> option Z;
  k_calls : kstate -> list (syscall * sysret);
}.

(** Page [q] lies in the [len] bytes at [addr]. *)
Definition in_pages (addr len q : Z) : bool :=
  (addr / PAGE <=? q) && (q <? (addr + len) / PAGE).

(** The pages after a mapping of [len] bytes of [fd] from [off] at [addr]. *)
Definition mapped (addr len prot fd off : Z) (pages : Z -> option vpage) (q : Z) : option vpage :=
  if in_pages addr len q
  then Some (mk_vpage fd (off + PAGE * (q - addr / PAGE)) prot) else pages q.

Definition unmapped (addr len : Z) (pages : Z -> option vpage) (q : Z) : option vpage :=
  if in_pages addr len q then None else pages q.

Definition page_aligned (x : Z) : Prop := x mod PAGE = 0.

#[export] Instance page_aligned_dec x : Decision (page_aligned x).
Proof. unfold page_aligned. apply _. Defined.

(** Calls that keep the mappings, and what their descriptors stand for. *)
Definition keeps_pages (c : syscall) : bool :=
  match c with
  | SysMmap _ _ _ _ _ _ | SysMunmap _ _ | SysOpen _ _ | SysClose _ | SysDup2 _ _
  | SysMemfdCreate _ _ => false
  | _ => true
  end.

(** Calls that keep the descriptors, and shorten no file. *)
Definition keeps_fds (c : syscall) : bool :=
  match c with
  | SysOpen _ _ | SysClose _ | SysDup2 _ _ | SysMemfdCreate _ _ | SysFtruncate _ _ => false
  | _ => true
  end.

(** The standard output and error. *)
Definition std_stream (fd : Z) : bool := (fd =? 1) || (fd =? 2).

(** Calls that keep the bytes behind the descriptors; a [pread64] may store to
    a buffer of the guest, whose pages are pages of RAM. *)
Definition keeps_files (c : syscall) : bool :=
  match c with
  | SysPread64 _ _ _ _ | SysPwrite64 _ _ _ _ => false
  | SysWrite fd _ => std_stream fd
  | c => keeps_fds c
  end.

Definition same_files {K : Kernel} {V : KernelView K} (k k' : kstate) : Prop :=
  forall fd o, k_file k' fd o = k_file k fd o.

(** The descriptors are open on the same files, and none has become shorter. *)
Definition same_fds {K : Kernel} {V : KernelView K} (k k' : kstate) : Prop :=
  forall fd, k_fd k' fd = k_fd k fd /\ k_len k fd <= k_len k' fd.

Definition same_pages {K : Kernel} {V : KernelView K} (k k' : kstate) : Prop :=
  forall q, k_page k' q = k_page k q.

Class KernelLaws (K : Kernel) (V : KernelView K) : Prop := {
  (** a0 is a machine word, file contents are bytes *)
  law_ret c k : is_u64 (sr_val (fst (k_syscall c k)));
  law_byte k fd o : 0 <= k_file k fd o < 256;
  law_keeps_pages c k : keeps_pages c = true -> same_pages k (snd (k_syscall c k));
  law_keeps_files c k : keeps_files c = true -> same_files k (snd (k_syscall c k));
  law_keeps_fds c k : keeps_fds c = true -> same_fds k (snd (k_syscall c k));
  (** mmap(2) with a null hint takes free pages; on error nothing changes *)
  law_mmap_free k len prot flags fd off :
    flags = MAP_SHARED \/ flags = MAP_PRIVATE ->
    0 < len -> page_aligned len -> page_aligned off ->
    let a := sr_val (fst (k_syscall (SysMmap 0 len prot flags fd off) k)) in
    let k' := snd (k_syscall (SysMmap 0 len prot flags fd off) k) in
    (s64 a < 0 /\ same_pages k k') \/
    (0 <= a /\ page_aligned a /\ a + len <= TASK_SIZE /\
     (forall q, in_pages a len q = true -> k_page k q = None) /\
     (forall q, k_page k' q = mapped a len prot fd off (k_page k) q));
  (** mmap(2) with MAP_FIXED_NOREPLACE takes exactly the pages it names, and
      fails when one of them is in use *)
  law_mmap_noreplace k addr len prot fd off :
    0 < len -> page_aligned addr -> page_aligned len -> page_aligned off ->
    let flags := Z.lor MAP_SHARED MAP_FIXED_NOREPLACE in
    let a := sr_val (fst (k_syscall (SysMmap addr len prot flags fd off) k)) in
    let k' := snd (k_syscall (SysMmap addr len prot flags fd off) k) in
    (s64 a < 0 /\ same_pages k k') \/
    (a = addr /\ 0 <= addr /\ addr + len <= TASK_SIZE /\
     (forall q, in_pages addr len q = true -> k_page k q = None) /\
     (forall q, k_page k' q = mapped addr len prot fd off (k_page k) q));
  (** mmap(2) with MAP_FIXED replaces what the pages it names held, which an
      error may have removed *)
  law_mmap_fixed k addr len prot flags fd off :
    truthy (Z.land flags MAP_FIXED) = true ->
    0 < len -> page_aligned addr -> page_aligned len -> page_aligned off ->
    let a := sr_val (fst (k_syscall (SysMmap addr len prot flags fd off) k)) in
    let k' := snd (k_syscall (SysMmap addr len prot flags fd off) k) in
    (s64 a < 0 /\ (forall q, k_page k' q = k_page k q \/ k_page k' q = None)) \/
    (a = addr /\ 0 <= addr /\ addr + len <= TASK_SIZE /\
     (forall q, k_page k' q = mapped addr len prot fd off (k_page k) q));
  (** munmap(2) of aligned user addresses; EINVAL for an empty range, which
      changes nothing *)
  law_munmap k addr len :
    0 <= addr -> 0 <= len -> addr + len <= TASK_SIZE ->
    page_aligned addr -> page_aligned len ->
    forall q, k_page (snd (k_syscall (SysMunmap addr len) k)) q
              = unmapped addr len (k_page k) q;
  (** munmap(2) never maps anything *)
  law_munmap_only k addr len q :
    k_page (snd (k_syscall (SysMunmap addr len) k)) q = k_page k q \/
    k_page (snd (k_syscall (SysMunmap addr len) k)) q = None;
  (** a load through a mapping that shows its file reads the file, up to its
      end *)
  law_load k a g :
    0 <= a -> k_page k (a / PAGE) = Some g -> readable g = true -> shows_file g ->
    0 <= vp_off g + a mod PAGE < k_len k (vp_fd g) ->
    k_load k a = Some (k_file k (vp_fd g) (vp_off g + a mod PAGE));
  law_load_unmapped k a : k_page k (a / PAGE) = None -> k_load k a = None;
  (** a store changes neither mappings nor descriptors; through the shared
      mapping of RAM it writes the byte of that file *)
  law_store_pages k a v k' : k_store k a v = Some k' -> same_pages k k' /\ same_fds k k';
  law_store k a v g i :
    0 <= a -> k_page k (a / PAGE) = Some g -> writable g = true ->
    vp_fd g = RAM_FD -> k_fd k RAM_FD = Some i ->
    0 <= vp_off g + a mod PAGE < k_len k RAM_FD ->
    exists k', k_store k a v = Some k' /\
      (forall o, k_file k' RAM_FD o =
         if o =? vp_off g + a mod PAGE then u8 v else k_file k RAM_FD o) /\
      (forall fd o, k_fd k fd <> Some i -> k_file k' fd o = k_file k fd o);
  law_store_denied k a v :
    (forall g, k_page k (a / PAGE) = Some g -> writable g = false) -> k_store k a v = None;
  (** the history of the process *)
  law_calls c k : k_calls (snd (k_syscall c k)) = k_calls k ++ [(c, fst (k_syscall c k))];
  law_store_calls k a v k' : k_store k a v = Some k' -> k_calls k' = k_calls k;
  (** pread(2) changes bytes of the file behind a writable page of the buffer,
      to bytes of the file it reads *)
  law_pread k fd buf n off f o :
    let k' := snd (k_syscall (SysPread64 fd buf n off) k) in
    k_file k' f o = k_file k f o \/
    exists j g, 0 <= j < n /\ k_page k ((buf + j) / PAGE) = Some g /\ writable g = true /\
      k_fd k f = k_fd k (vp_fd g) /\ k_fd k f <> None /\ o = vp_off g + (buf + j) mod PAGE /\
      ((forall i h, 0 <= i < n -> k_page k ((buf + i) / PAGE) = Some h ->
          k_fd k (vp_fd h) <> k_fd k fd) -> k_file k' f o = k_file k fd (off + j));
  (** pwrite(2) changes bytes of the file it writes, to bytes of the buffer *)
  law_pwrite k fd buf n off f o :
    let k' := snd (k_syscall (SysPwrite64 fd buf n off) k) in
    k_file k' f o = k_file k f o \/
    (k_fd k f = k_fd k fd /\ exists j, 0 <= j < n /\ o = off + j /\
      ((forall g, k_page k ((buf + j) / PAGE) = Some g -> k_fd k (vp_fd g) <> k_fd k fd) ->
       k_load k (buf + j) = Some (k_file k' f o)));
}.

(** ** Calls that touch no device of the guest

    The console is descriptors 0 and 1, the disk is read and written with
    pread and pwrite; everything else is the hypervisor's own business. *)

Definition quiet (c : syscall) : bool :=
  match c with
  | SysWrite fd _ => fd =? 2
  | SysRead _ _ | SysPread64 _ _ _ _ | SysPwrite64 _ _ _ _ => false
  | c => keeps_files c
  end.

(** From [k] to [k'] the process has made quiet calls only. *)
Definition calm {K : Kernel} {V : KernelView K} (k k' : kstate) : Prop :=
  same_files k k' /\ same_fds k k' /\
  exists l, k_calls k' = k_calls k ++ l /\ Forall (fun c => quiet (fst c) = true) l.

(** From [k] to [k'] the process made the call [c], which returned [r]. *)
Definition made {K : Kernel} {V : KernelView K} (k k' : kstate) (c : syscall) (r : Z) : Prop :=
  exists l x, k_calls k' = k_calls k ++ l /\ (c, x) ∈ l /\ sr_val x = r.

Section fds.
Context {K : Kernel} {V : KernelView K}.

#[export] Instance same_fds_preorder : PreOrder same_fds.
Proof using.
  split; [done|]. intros k1 k2 k3 H1 H2 fd. destruct (H1 fd) as [E1 G1], (H2 fd) as [E2 G2].
  split; [congruence|lia].
Qed.

Lemma same_fd k k' fd : same_fds k k' -> k_fd k' fd = k_fd k fd.
Proof using. intros H. apply H. Qed.

Lemma same_len k k' fd n : same_fds k k' -> n <= k_len k fd -> n <= k_len k' fd.
Proof using. intros H Hn. destruct (H fd). lia. Qed.
End fds.

Section calm.
Context {K : Kernel} {V : KernelView K} {L : KernelLaws K V}.

#[export] Instance calm_preorder : PreOrder calm.
Proof using.
  split.
  - intros k. split; [done|]. split; [reflexivity|]. exists []. by rewrite app_nil_r.
  - intros k1 k2 k3 (H1 & G1 & l1 & E1 & F1) (H2 & G2 & l2 & E2 & F2).
    split; [intros fd o; by rewrite H2|]. split; [by etrans|]. exists (l1 ++ l2).
    rewrite E2, E1, app_assoc. split; [done|by apply Forall_app].
Qed.

Lemma quiet_keeps c : quiet c = true -> keeps_files c = true /\ keeps_fds c = true.
Proof using.
  destruct c; try done. cbn. intros H%Z.eqb_eq. by subst.
Qed.

Lemma calm_made k1 k2 k3 c r : calm k1 k2 -> made k2 k3 c r -> made k1 k3 c r.
Proof using.
  intros (_ & _ & l & E & _) (l' & x & E' & Hin & Hr). exists (l ++ l'), x.
  split_and!; [by rewrite E', E, app_assoc| |done]. apply elem_of_app. by right.
Qed.

Lemma made_calm k1 k2 k3 c r : made k1 k2 c r -> calm k2 k3 -> made k1 k3 c r.
Proof using.
  intros (l & x & E & Hin & Hr) (_ & _ & l' & E' & _). exists (l ++ l'), x.
  split_and!; [by rewrite E', E, app_assoc| |done]. apply elem_of_app. by left.
Qed.

Lemma made_syscall c k : made k (snd (k_syscall c k)) c (sr_val (fst (k_syscall c k))).
Proof using L.
  eexists _, _. split_and!; [apply law_calls|by apply list_elem_of_singleton|done].
Qed.

Lemma calm_syscall c k : quiet c = true -> calm k (snd (k_syscall c k)).
Proof using L.
  intros Hc. pose proof (quiet_keeps c Hc) as [Hf Hd].
  split; [by apply law_keeps_files|]. split; [by apply law_keeps_fds|].
  exists [(c, fst (k_syscall c k))]. split; [apply law_calls|by repeat constructor].
Qed.

Context (k0 : kstate).

Lemma stable_calm_syscall c : quiet c = true -> stable (on_kern (calm k0)) (do_syscall c).
Proof using L.
  intros Hc. apply stable_syscall. intros w Hw. unfold on_kern in *. rewrite Hw.
  by apply (calm_syscall c).
Qed.

Lemma calm_s_mmap a b c d e f : stable (on_kern (calm k0)) (s_mmap a b c d e f).
Proof using L.
  unfold s_mmap. apply stable_bind; [by apply stable_calm_syscall|intros; apply stable_ret].
Qed.

Lemma calm_s_munmap a b : stable (on_kern (calm k0)) (s_munmap a b).
Proof using L.
  unfold s_munmap. apply stable_bind; [by apply stable_calm_syscall|intros; apply stable_ret].
Qed.

Lemma calm_settime a b c d e f : stable (on_kern (calm k0)) (s_timer_settime a b c d e f).
Proof using L.
  unfold s_timer_settime. apply stable_bind; [by apply stable_calm_syscall|intros; apply stable_ret].
Qed.

Lemma calm_write_log s : stable (on_kern (calm k0)) (write_log s).
Proof using L.
  unfold write_log, s_write. do 2 (apply stable_bind; [|intros; apply stable_ret]).
  by apply stable_calm_syscall.
Qed.
End calm.

#[export] Hint Resolve calm_s_mmap calm_s_munmap calm_settime calm_write_log : stable.

(** ** Consequences *)

Section laws.
Context {K : Kernel} {V : KernelView K} {L : KernelLaws K V}.

Lemma law_mmap_null k len prot fd off :
  0 < len -> page_aligned len -> page_aligned off ->
  let a := sr_val (fst (k_syscall (SysMmap 0 len prot MAP_SHARED fd off) k)) in
  let k' := snd (k_syscall (SysMmap 0 len prot MAP_SHARED fd off) k) in
  (s64 a < 0 /\ same_pages k k') \/
  (0 <= a /\ page_aligned a /\ a + len <= TASK_SIZE /\
   (forall q, in_pages a len q = true -> k_page k q = None) /\
   (forall q, k_page k' q = mapped a len prot fd off (k_page k) q)).
Proof using L. apply law_mmap_free. by left. Qed.

Lemma run_write_log_frame s w :
  exists k', write_log s w = (inr (), w <| w_kern := k' |>) /\
    same_pages (w_kern w) k' /\ same_files (w_kern w) k'.
Proof using L.
  unfold write_log, s_write, do_syscall, mbind, M_bind, mret, M_ret.
  pose proof (law_keeps_pages (SysWrite 2 (log_line s)) (w_kern w) eq_refl) as Hp.
  pose proof (law_keeps_files (SysWrite 2 (log_line s)) (w_kern w) eq_refl) as Hf.
  destruct (k_syscall (SysWrite 2 (log_line s)) (w_kern w)) as [r k'].
  simpl in *. eauto.
Qed.

Lemma in_pages_mod a len x :
  page_aligned a -> page_aligned len -> a <= x < a + len -> in_pages a len (x / PAGE) = true.
Proof using.
  unfold page_aligned, in_pages, PAGE. intros Ha Hl Hx.
  apply andb_true_intro. rewrite Z.leb_le, Z.ltb_lt. Z.div_mod_to_equations. lia.
Qed.

(** A byte of a page mapped by a successful [mmap]. *)
Lemma load_mapped k a len prot fd off pages x :
  page_aligned a -> page_aligned len -> 0 <= a -> a <= x < a + len ->
  (forall q, k_page k q = mapped a len prot fd off pages q) ->
  truthy (Z.land prot PROT_READ) = true -> (forall o, shows_file (mk_vpage fd o prot)) ->
  0 <= off + (x - a) < k_len k fd -> k_load k x = Some (k_file k fd (off + (x - a))).
Proof using L.
  intros Ha Hl Hpos Hx Hk Hr Hfd Hlen.
  assert (off + PAGE * (x / PAGE - a / PAGE) + x mod PAGE = off + (x - a)) as Ho
    by (unfold page_aligned, PAGE in *; Z.div_mod_to_equations; lia).
  erewrite law_load; [| |rewrite Hk; unfold mapped; by rewrite in_pages_mod| | |]; try done;
    cbn; rewrite ?Ho; [done|lia|done].
Qed.
End laws.

(** ** Invariants of the address space *)

Section space.
Context {K : Kernel} {V : KernelView K} {L : KernelLaws K V}.

(** A property of kernel states that only depends on the pages. *)
Class Spatial (J : kstate -> Prop) : Prop :=
  spatial k k' : same_pages k k' -> J k -> J k'.

Definition same_space (k0 : kstate) : world -> Prop := on_kern (same_pages k0).

#[export] Instance spatial_same k0 : Spatial (same_pages k0).
Proof. intros k k' Hk H0 q. by rewrite (Hk q), (H0 q). Qed.

Lemma stable_space_syscall J `{!Spatial J} c :
  keeps_pages c = true -> stable (on_kern J) (do_syscall c).
Proof using L.
  intros Hc. apply stable_syscall. intros w Hw. refine (spatial _ _ _ Hw).
  by apply (law_keeps_pages c).
Qed.
End space.

#[export] Hint Extern 1 (Spatial _) => apply _ : stable.
#[export] Hint Extern 1 (stable (on_kern _) (do_syscall _)) =>
  apply stable_space_syscall; [apply _|reflexivity] : stable.

(** The wrappers of system calls other than mmap and munmap. *)
Section wrappers.
Context {K : Kernel} {V : KernelView K} {L : KernelLaws K V}.

Section spatial_wrappers.
Context (J : kstate -> Prop) `{!Spatial J}.

Lemma stable_space_write_log s : stable (on_kern J) (write_log s).
Proof using L Spatial0. unfold write_log, s_write. stable_auto. Qed.

Lemma stable_space_pread fd b n o : stable (on_kern J) (s_pread64 fd b n o).
Proof using L Spatial0. unfold s_pread64. stable_auto. Qed.

Lemma stable_space_pwrite fd b n o : stable (on_kern J) (s_pwrite64 fd b n o).
Proof using L Spatial0. unfold s_pwrite64. stable_auto. Qed.

Lemma stable_space_write fd b : stable (on_kern J) (s_write fd b).
Proof using L Spatial0. unfold s_write. stable_auto. Qed.

Lemma stable_space_read fd n : stable (on_kern J) (s_read fd n).
Proof using L Spatial0. unfold s_read. stable_auto. Qed.

Lemma stable_space_settime a b c d e f : stable (on_kern J) (s_timer_settime a b c d e f).
Proof using L Spatial0. unfold s_timer_settime. stable_auto. Qed.

Lemma stable_space_exit {A} n : stable (on_kern J) (s_exit_group n : M A).
Proof using L Spatial0. unfold s_exit_group. stable_auto. Qed.
End spatial_wrappers.
End wrappers.

#[export] Hint Resolve stable_space_write_log stable_space_pread stable_space_pwrite
  stable_space_write stable_space_read stable_space_settime stable_space_exit : stable.

Section guest_wrappers.
Context `{K : Kernel} (J : priv_state -> gregs -> Prop).

Lemma stable_guest_write_log s : stable (on_guest J) (write_log s).
Proof using. unfold write_log, s_write. stable_auto. Qed.

Lemma stable_guest_mmap a b c d e f : stable (on_guest J) (s_mmap a b c d e f).
Proof using. unfold s_mmap. stable_auto. Qed.

Lemma stable_guest_munmap a b : stable (on_guest J) (s_munmap a b).
Proof using. unfold s_munmap. stable_auto. Qed.

Lemma stable_guest_pread fd b n o : stable (on_guest J) (s_pread64 fd b n o).
Proof using. unfold s_pread64. stable_auto. Qed.

Lemma stable_guest_pwrite fd b n o : stable (on_guest J) (s_pwrite64 fd b n o).
Proof using. unfold s_pwrite64. stable_auto. Qed.

Lemma stable_guest_write fd b : stable (on_guest J) (s_write fd b).
Proof using. unfold s_write. stable_auto. Qed.

Lemma stable_guest_read fd n : stable (on_guest J) (s_read fd n).
Proof using. unfold s_read. stable_auto. Qed.

Lemma stable_guest_settime a b c d e f : stable (on_guest J) (s_timer_settime a b c d e f).
Proof using. unfold s_timer_settime. stable_auto. Qed.

Lemma stable_guest_exit {A} n : stable (on_guest J) (s_exit_group n : M A).
Proof using. unfold s_exit_group. stable_auto. Qed.
End guest_wrappers.

#[export] Hint Resolve stable_guest_write_log stable_guest_mmap stable_guest_munmap
  stable_guest_pread stable_guest_pwrite stable_guest_write stable_guest_read
  stable_guest_settime stable_guest_exit : stable.
