(* ===== verification/LinuxModel.v ===== *)
(** * An executable kernel that satisfies [KernelLaws]

    Files are sparse maps of bytes behind inode numbers, the address space is
    a map of pages; a null-hint [mmap] takes the pages above every mapped one.  The witnesses of
    the development run on it. *)

From S2P Require Import Prelude Bits State Machine Linux.

Record lk := mk_lk {
  lk_pages : gmap Z vpage;
  lk_files : gmap (Z * Z) Z;           (** inode, offset *)
  lk_fds : gmap Z Z;                   (** descriptor, inode *)
  lk_sizes : gmap Z Z;                 (** inode, size *)
  lk_paths : gmap (list Z) Z;          (** path, inode *)
  lk_in : list Z;
  lk_time : Z;
  lk_calls : list (syscall * sysret);
}.

#[export] Instance eta_lk : Eta lk := fun k =>
  mk_lk (lk_pages k) (lk_files k) (lk_fds k) (lk_sizes k) (lk_paths k) (lk_in k) (lk_time k) (lk_calls k).

Definition lk_data (k : lk) (i o : Z) : Z := u8 (default 0 (lk_files k !! (i, o))).

Definition lk_byte (k : lk) (fd o : Z) : Z :=
  match lk_fds k !! fd with Some i => lk_data k i o | None => 0 end.

Definition lk_size (k : lk) (i : Z) : Z := default 0 (lk_sizes k !! i) mod 2 ^ 63.

Definition lk_len (k : lk) (fd : Z) : Z :=
  match lk_fds k !! fd with Some i => lk_size k i | None => 0 end.

Definition lk_put (k : lk) (fd o v : Z) : lk :=
  match lk_fds k !! fd with
  | Some i => k <| lk_files := <[(i, o) := u8 v]> (lk_files k) |>
  | None => k
  end.

Definition lk_load (k : lk) (a : Z) : option Z :=
  match lk_pages k !! (a / PAGE) with
  | Some g => if readable g then Some (lk_byte k (vp_fd g) (vp_off g + a mod PAGE)) else None
  | None => None
  end.

Definition lk_store (k : lk) (a v : Z) : option lk :=
  match lk_pages k !! (a / PAGE) with
  | Some g =>
      if writable g
      then Some (lk_put k (vp_fd g) (vp_off g + a mod PAGE) v)
      else None
  | None => None
  end.

(** ** Mapping and unmapping *)

Fixpoint map_pages (n : nat) (p fd off prot : Z) (m : gmap Z vpage) : gmap Z vpage :=
  match n with
  | O => m
  | S n => <[p := mk_vpage fd off prot]> (map_pages n (p + 1) fd (off + PAGE) prot m)
  end.

Definition unmap_pages (addr len : Z) (m : gmap Z vpage) : gmap Z vpage :=
  filter (fun kv => in_pages addr len kv.1 = false) m.

Definition top_page (m : gmap Z vpage) : Z :=
  foldr (fun kv t => Z.max (kv.1 + 1) t) 0 (map_to_list m).

Definition pages_of (len : Z) : nat := Z.to_nat (len / PAGE).

Definition free_pages (addr len : Z) (m : gmap Z vpage) : bool :=
  forallb (fun kv => negb (in_pages addr len kv.1)) (map_to_list m).

Definition ENOMEM : Z := 12.
Definition EEXIST : Z := 17.

Definition fixed (flags : Z) : bool :=
  truthy (Z.land flags (Z.lor MAP_FIXED MAP_FIXED_NOREPLACE)).

Definition lk_base (addr flags : Z) (k : lk) : Z :=
  if (addr =? 0) && negb (fixed flags)
  then PAGE * top_page (lk_pages k) else addr.

Definition lk_mmap (addr len prot flags fd off : Z) (k : lk) : Z * lk :=
  let base := lk_base addr flags k in
  if bool_decide (0 < len /\ 0 <= base /\ base + len <= TASK_SIZE /\ page_aligned base)
     && (truthy (Z.land flags MAP_FIXED) || free_pages base len (lk_pages k))
  then (base, k <| lk_pages := map_pages (pages_of len) (base / PAGE) fd off prot (lk_pages k) |>)
  else (u64 (- ENOMEM), k).

(** ** System calls *)

Definition ret0 (k : lk) : sysret * lk := ({| sr_val := 0; sr_buf := [] |}, k).

(** [count] bytes between a file and the memory at [buf]; pages that are not
    mapped are skipped. *)
Definition copy_in (fd buf count offset : Z) (k : lk) : lk :=
  foldl (fun k i => default k (lk_store k (buf + i) (lk_byte k fd (offset + i))))
    k (seqZ 0 count).

Definition copy_out (fd buf count offset : Z) (k : lk) : lk :=
  foldl (fun k i =>
    match lk_load k (buf + i) with
    | Some b => lk_put k fd (offset + i) b
    | None => k
    end) k (seqZ 0 count).

(** The lowest free descriptor of 1024. *)
Definition lowest_fd (k : lk) : option Z :=
  head (filter (fun fd => lk_fds k !! fd = None) (seqZ 0 1024)).

(** An inode number above those in use. *)
Definition fresh_inode (k : lk) : Z :=
  1 + foldr Z.max 0 (map snd (map_to_list (lk_fds k)) ++ map snd (map_to_list (lk_paths k))
        ++ map (fun e => fst (fst e)) (map_to_list (lk_files k))).

Fixpoint le_split (n : nat) (v : Z) : list Z :=
  match n with O => [] | S n => v mod 256 :: le_split n (v / 256) end.

Definition cut (i len : Z) (files : gmap (Z * Z) Z) : gmap (Z * Z) Z :=
  filter (fun e => e.1.1 = i -> 0 <= e.1.2 < len) files.

Definition lk_error (e : Z) (k : lk) : sysret * lk := ({| sr_val := u64 (- e); sr_buf := [] |}, k).

Definition lk_fd_step (c : syscall) (k : lk) : sysret * lk :=
  match c with
  | SysOpen path flags =>
      match lk_paths k !! path, lowest_fd k with
      | Some i, Some fd => ({| sr_val := u64 fd; sr_buf := [] |}, k <| lk_fds := <[fd := i]> (lk_fds k) |>)
      | _, _ => lk_error 2 k
      end
  | SysMemfdCreate name flags =>
      match lowest_fd k with
      | Some fd =>
          let i := fresh_inode k in
          ({| sr_val := u64 fd; sr_buf := [] |},
           k <| lk_fds := <[fd := i]> (lk_fds k) |> <| lk_sizes := <[i := 0]> (lk_sizes k) |>)
      | None => lk_error 24 k
      end
  | SysClose fd => ret0 (k <| lk_fds := delete fd (lk_fds k) |>)
  | SysDup2 oldfd newfd =>
      match lk_fds k !! oldfd with
      | Some i => ({| sr_val := u64 newfd; sr_buf := [] |}, k <| lk_fds := <[newfd := i]> (lk_fds k) |>)
      | None => lk_error 9 k
      end
  | SysFstat fd =>
      match lk_fds k !! fd with
      | Some i => ({| sr_val := 0; sr_buf := le_split 8 (lk_size k i) |}, k)
      | None => lk_error 9 k
      end
  | SysFtruncate fd len =>
      match lk_fds k !! fd with
      | Some i => ret0 (k <| lk_files := cut i (len `min` lk_size k i) (lk_files k) |>
                          <| lk_sizes := <[i := len]> (lk_sizes k) |>)
      | None => lk_error 9 k
      end
  | _ => ret0 k
  end.

Definition lk_step (c : syscall) (k : lk) : sysret * lk :=
  match c with
  | SysMmap addr len prot flags fd off =>
      let '(a, k) := lk_mmap addr len prot flags fd off k in
      ({| sr_val := a; sr_buf := [] |}, k)
  | SysMunmap addr len => ret0 (k <| lk_pages := unmap_pages addr len (lk_pages k) |>)
  | SysRead fd count =>
      match lk_in k with
      | b :: rest => ({| sr_val := 1; sr_buf := [b] |}, k <| lk_in := rest |>)
      | [] => ({| sr_val := u64 (- EWOULDBLOCK); sr_buf := [] |}, k)
      end
  | SysPread64 fd buf count offset =>
      ({| sr_val := u64 count; sr_buf := [] |}, copy_in fd buf count offset k)
  | SysPwrite64 fd buf count offset =>
      ({| sr_val := u64 count; sr_buf := [] |}, copy_out fd buf count offset k)
  | c => lk_fd_step c k
  end.

(** Every call is recorded. *)
Definition lk_syscall (c : syscall) (k : lk) : sysret * lk :=
  let '(r, k) := lk_step c k in (r, k <| lk_calls := lk_calls k ++ [(c, r)] |>).

#[export] Instance model_kernel : Kernel := {|
  kstate := lk;
  k_syscall := lk_syscall;
  k_load := lk_load;
  k_store := lk_store;
  k_time := lk_time;
|}.

#[export] Instance model_view : KernelView model_kernel := {|
  k_page := fun k q => lk_pages k !! q;
  k_file := lk_byte;
  k_len := lk_len;
  k_fd := fun k fd => lk_fds k !! fd;
  k_calls := lk_calls;
|}.

(** ** The laws *)

Lemma lookup_map_pages n p fd off prot m q :
  map_pages n p fd off prot m !! q =
    if (p <=? q) && (q <? p + Z.of_nat n)
    then Some (mk_vpage fd (off + PAGE * (q - p)) prot) else m !! q.
Proof.
  revert p off. induction n as [|n IH]; intros p off; simpl.
  - destruct (Z.leb_spec p q), (Z.ltb_spec q (p + Z.of_nat 0)); simpl; done || lia.
  - rewrite lookup_insert. case_decide as Hpq; [subst q|rewrite IH].
    + rewrite (proj2 (Z.leb_le p p)), (proj2 (Z.ltb_lt p _)) by lia. simpl.
      do 2 f_equal. lia.
    + destruct (Z.leb_spec (p + 1) q), (Z.leb_spec p q),
        (Z.ltb_spec q (p + 1 + Z.of_nat n)), (Z.ltb_spec q (p + Z.of_nat (S n)));
        simpl; try done; try lia. do 2 f_equal. unfold PAGE. lia.
Qed.

Lemma lookup_unmap_pages addr len m q :
  unmap_pages addr len m !! q = unmapped addr len (fun q => m !! q) q.
Proof.
  apply option_eq. intros g. unfold unmap_pages, unmapped.
  rewrite map_lookup_filter_Some. simpl. destruct (in_pages addr len q); intuition congruence.
Qed.

Lemma top_page_spec m q : top_page m <= q -> m !! q = None.
Proof.
  unfold top_page. intros Hq. destruct (m !! q) as [g|] eqn:E; [|done].
  apply elem_of_map_to_list in E. revert E Hq.
  generalize (map_to_list m). intros l Hl. induction l as [|kv l IH].
  - by apply elem_of_nil in Hl.
  - simpl. apply elem_of_cons in Hl as [<-|Hl]; simpl; [lia|].
    intros. apply IH; [done|lia].
Qed.

Lemma top_page_pos m : 0 <= top_page m.
Proof. unfold top_page. induction (map_to_list m); simpl; lia. Qed.

Lemma in_pages_spec addr len q : page_aligned addr -> page_aligned len ->
  in_pages addr len q = true <-> addr / PAGE <= q < addr / PAGE + len / PAGE.
Proof.
  unfold in_pages, page_aligned, PAGE. intros Ha Hl.
  rewrite andb_true_iff, Z.leb_le, Z.ltb_lt.
  replace ((addr + len) / 4096) with (addr / 4096 + len / 4096); [lia|].
  Z.div_mod_to_equations; lia.
Qed.

Lemma free_pages_spec addr len m q :
  page_aligned addr -> page_aligned len -> free_pages addr len m = true ->
  in_pages addr len q = true -> m !! q = None.
Proof.
  unfold free_pages. rewrite forallb_forall. intros _ _ H Hq.
  destruct (m !! q) as [g|] eqn:E; [|done]. specialize (H (q, g)). cbn in H.
  rewrite Hq in H. discriminate H. by apply list_elem_of_In, elem_of_map_to_list.
Qed.

Lemma lk_base_fixed addr flags k : fixed flags = true -> lk_base addr flags k = addr.
Proof. unfold lk_base. intros ->. by rewrite andb_false_r. Qed.

Lemma fixed_map_fixed flags : truthy (Z.land flags MAP_FIXED) = true -> fixed flags = true.
Proof.
  unfold fixed, truthy, MAP_FIXED. rewrite !negb_true_iff, !Z.eqb_neq. intros H E. apply H.
  rewrite Z.land_lor_distr_r in E. by apply Z.lor_eq_0_l in E.
Qed.

Lemma lk_mmap_pages addr len prot flags fd off k :
  0 < len -> page_aligned len ->
  let base := lk_base addr flags k in
  (lk_mmap addr len prot flags fd off k = (u64 (- ENOMEM), k)) \/
  (exists k', lk_mmap addr len prot flags fd off k = (base, k') /\
   0 <= base /\ page_aligned base /\ base + len <= TASK_SIZE /\
   (truthy (Z.land flags MAP_FIXED) = false ->
    forall q, in_pages base len q = true -> lk_pages k !! q = None) /\
   (forall q, lk_pages k' !! q = mapped base len prot fd off (fun q => lk_pages k !! q) q)).
Proof.
  intros Hlen Hal base. unfold lk_mmap. fold base.
  case_bool_decide as Hb; [|by left]. destruct Hb as (_ & Hb1 & Hb2 & Hb3). simpl.
  destruct (truthy (Z.land flags MAP_FIXED) || free_pages base len (lk_pages k)) eqn:Hfree;
    [|by left].
  right. eexists. split; [done|]. split_and!; try done.
  - intros Hf. rewrite Hf in Hfree. intros. by apply (free_pages_spec base len).
  - intros q. simpl. rewrite lookup_map_pages. unfold mapped, in_pages, pages_of.
    assert (0 <= len / PAGE) by (apply Z.div_pos; unfold PAGE; lia).
    replace ((base + len) / PAGE) with (base / PAGE + len / PAGE).
    + by rewrite Z2Nat.id by done.
    + unfold page_aligned, PAGE in *. Z.div_mod_to_equations; lia.
Qed.

(** Recording the call changes nothing that is observed. *)
Lemma lk_syscall_split c k :
  fst (lk_syscall c k) = fst (lk_step c k) /\
  exists l, snd (lk_syscall c k) = (snd (lk_step c k)) <| lk_calls := l |>.
Proof. unfold lk_syscall. destruct (lk_step c k). by eauto. Qed.

(** [copy_in] and [copy_out] only write into files. *)
Lemma lk_put_frame k fd o v :
  lk_pages (lk_put k fd o v) = lk_pages k /\ lk_fds (lk_put k fd o v) = lk_fds k.
Proof. unfold lk_put. by destruct (lk_fds k !! fd). Qed.

Lemma lk_store_frame k a v k' :
  lk_store k a v = Some k' -> lk_pages k' = lk_pages k /\ lk_fds k' = lk_fds k.
Proof.
  unfold lk_store. destruct (lk_pages k !! (a / PAGE)); [|done]. destruct (writable _); [|done].
  intros [= <-]. apply lk_put_frame.
Qed.

Lemma lk_put_sizes k fd o v : lk_sizes (lk_put k fd o v) = lk_sizes k.
Proof. unfold lk_put. by destruct (lk_fds k !! fd). Qed.

Lemma lk_store_sizes k a v k' : lk_store k a v = Some k' -> lk_sizes k' = lk_sizes k.
Proof.
  unfold lk_store. destruct (lk_pages k !! (a / PAGE)); [|done]. destruct (writable _); [|done].
  intros [= <-]. apply lk_put_sizes.
Qed.

Lemma copy_in_frame fd buf count offset k :
  lk_pages (copy_in fd buf count offset k) = lk_pages k /\
  lk_fds (copy_in fd buf count offset k) = lk_fds k.
Proof.
  unfold copy_in. generalize (seqZ 0 count). intros l. revert k.
  induction l as [|i l IH]; intros k; simpl; [done|].
  destruct (IH (default k (lk_store k (buf + i) (lk_byte k fd (offset + i))))) as [-> ->].
  destruct (lk_store _ _ _) eqn:E; [|done]. by apply lk_store_frame in E.
Qed.

Lemma copy_out_frame fd buf count offset k :
  lk_pages (copy_out fd buf count offset k) = lk_pages k /\
  lk_fds (copy_out fd buf count offset k) = lk_fds k.
Proof.
  unfold copy_out. generalize (seqZ 0 count). intros l. revert k.
  induction l as [|i l IH]; intros k; simpl; [done|].
  destruct (lk_load k (buf + i)) as [b|]; [|apply IH].
  destruct (IH (lk_put k fd (offset + i) b)) as [-> ->]. apply lk_put_frame.
Qed.

Lemma lk_byte_range k fd o : 0 <= lk_byte k fd o < 256.
Proof. unfold lk_byte. case_match; [|lia]. by apply (Z.mod_pos_bound _ (2 ^ 8)). Qed.

Lemma lk_byte_put k fd o v f o' :
  lk_byte (lk_put k fd o v) f o' = lk_byte k f o' \/
  (lk_fds k !! f = lk_fds k !! fd /\ lk_fds k !! f <> None /\ o' = o /\
   lk_byte (lk_put k fd o v) f o' = u8 v).
Proof.
  unfold lk_put, lk_byte, lk_data. destruct (lk_fds k !! fd) as [i|] eqn:Ei; [|by left]. cbn.
  destruct (lk_fds k !! f) as [i'|] eqn:Ef; [|by left].
  destruct (decide ((i, o) = (i', o'))) as [E|E]; [injection E as -> ->|].
  - right. split_and!; [done..|]. rewrite lookup_insert_eq. cbn. apply Z.mod_mod. lia.
  - left. by rewrite lookup_insert_ne.
Qed.

Lemma u8_byte k fd o : u8 (lk_byte k fd o) = lk_byte k fd o.
Proof. apply Z.mod_small, lk_byte_range. Qed.

(** The pages and descriptors of [k] are those of [k0]. *)
Definition same_tables (k0 k : lk) : Prop := lk_pages k = lk_pages k0 /\ lk_fds k = lk_fds k0.

Lemma foldl_inv {A} (I : lk -> Prop) (f : lk -> A -> lk) l k :
  (forall k x, x ∈ l -> I k -> I (f k x)) -> I k -> I (foldl f k l).
Proof.
  revert k. induction l as [|x l IH]; intros k Hf Hk; [done|]. cbn. apply IH.
  - intros k' y Hy. apply Hf. by apply list_elem_of_further.
  - apply Hf; [apply list_elem_of_here|done].
Qed.

(** What [copy_in] has done to the byte [o] of [f]. *)
Definition read_into (k0 : lk) (fd buf count off : Z) (k : lk) (f o : Z) : Prop :=
  lk_byte k f o = lk_byte k0 f o \/
  exists j g, 0 <= j < count /\ lk_pages k0 !! ((buf + j) / PAGE) = Some g /\ writable g = true /\
    lk_fds k0 !! f = lk_fds k0 !! vp_fd g /\ lk_fds k0 !! f <> None /\
    o = vp_off g + (buf + j) mod PAGE /\
    ((forall i h, 0 <= i < count -> lk_pages k0 !! ((buf + i) / PAGE) = Some h ->
        lk_fds k0 !! vp_fd h <> lk_fds k0 !! fd) -> lk_byte k f o = lk_byte k0 fd (off + j)).

Lemma copy_in_reads fd buf count off k0 f o :
  read_into k0 fd buf count off (copy_in fd buf count off k0) f o.
Proof.
  set (I k := same_tables k0 k /\ forall f o, read_into k0 fd buf count off k f o).
  cut (I (copy_in fd buf count off k0)); [by intros [_ H]|].
  apply (foldl_inv I); [|split; [done|by left]].
  intros k j Hj%elem_of_seqZ [[Hp Hd] Hk]. unfold lk_store. rewrite Hp.
  destruct (lk_pages k0 !! ((buf + j) / PAGE)) as [g|] eqn:Eg; [|by split].
  destruct (writable g) eqn:Ew; [|by split]. cbn [default from_option id].
  destruct (lk_put_frame k (vp_fd g) (vp_off g + (buf + j) mod PAGE) (lk_byte k fd (off + j))) as [Hp' Hd'].
  split; [split; congruence|]. intros f' o'.
  destruct (lk_byte_put k (vp_fd g) (vp_off g + (buf + j) mod PAGE) (lk_byte k fd (off + j)) f' o')
    as [E|(E1 & E2 & -> & E3)]; [unfold read_into; rewrite E; apply Hk|].
  right. exists j, g. rewrite Hd in *. split_and!; try done; [lia|lia|]. intros Hapart.
  rewrite E3, u8_byte. destruct (Hk fd (off + j)) as [E|(j' & g' & Hj' & Hg' & _ & Hfd & _)]; [done|].
  by destruct (Hapart j' g' Hj' Hg').
Qed.

Lemma copy_out_writes fd buf count off k0 f o :
  let k := copy_out fd buf count off k0 in
  lk_byte k f o = lk_byte k0 f o \/
  (lk_fds k0 !! f = lk_fds k0 !! fd /\ exists j, 0 <= j < count /\ o = off + j /\
    ((forall g, lk_pages k0 !! ((buf + j) / PAGE) = Some g -> lk_fds k0 !! vp_fd g <> lk_fds k0 !! fd) ->
     lk_load k0 (buf + j) = Some (lk_byte k f o))).
Proof.
  intros k. subst k.
  set (P k := forall f o, lk_byte k f o = lk_byte k0 f o \/
    (lk_fds k0 !! f = lk_fds k0 !! fd /\ exists j, 0 <= j < count /\ o = off + j /\
      ((forall g, lk_pages k0 !! ((buf + j) / PAGE) = Some g -> lk_fds k0 !! vp_fd g <> lk_fds k0 !! fd) ->
       lk_load k0 (buf + j) = Some (lk_byte k f o)))).
  set (I k := same_tables k0 k /\ P k).
  cut (I (copy_out fd buf count off k0)); [by intros [_ H]|].
  apply (foldl_inv I); [|split; [done|by left]].
  intros k j Hj%elem_of_seqZ [[Hp Hd] Hk]. destruct (lk_load k (buf + j)) as [b|] eqn:Eb; [|by split].
  destruct (lk_put_frame k fd (off + j) b) as [Hp' Hd'].
  split; [split; congruence|]. intros f' o'.
  destruct (lk_byte_put k fd (off + j) b f' o') as [E|(E1 & E2 & -> & E3)]; [rewrite E; apply Hk|].
  right. rewrite Hd in E1. split; [done|]. exists j. split_and!; [lia|lia|done|]. intros Hapart.
  rewrite E3. revert Eb Hapart. unfold lk_load. rewrite Hp.
  destruct (lk_pages k0 !! ((buf + j) / PAGE)) as [g|]; [|done].
  destruct (readable g); [|done]. intros [= <-] Hapart. rewrite u8_byte.
  destruct (Hk (vp_fd g) (vp_off g + (buf + j) mod PAGE)) as [->|[E _]]; [done|].
  by destruct (Hapart g eq_refl).
Qed.

Lemma lk_step_calls c k : lk_calls (snd (lk_step c k)) = lk_calls k.
Proof.
  assert (forall k fd o v, lk_calls (lk_put k fd o v) = lk_calls k) as Hput.
  { intros k0 fd o v. unfold lk_put. by case_match. }
  destruct c; simpl; try done; try (by repeat case_match).
  - unfold lk_mmap. by destruct (_ && _).
  - unfold copy_in. apply (foldl_inv (fun k' => lk_calls k' = lk_calls k)); [|done].
    intros k' i _ E. unfold lk_store.
    repeat case_match; simplify_eq/=; try done. by rewrite Hput.
  - unfold copy_out. apply (foldl_inv (fun k' => lk_calls k' = lk_calls k)); [|done].
    intros k' i _ E. case_match; [by rewrite Hput|done].
Qed.

Lemma lk_mmap_ret addr len prot flags fd off k :
  is_u64 (fst (lk_mmap addr len prot flags fd off k)).
Proof.
  unfold lk_mmap. case_bool_decide as Hb; simpl; [|apply u64_range].
  destruct (_ || free_pages _ _ _); simpl; [|apply u64_range].
  unfold is_u64, TASK_SIZE in *. lia.
Qed.

Lemma lk_step_ret c k : is_u64 (sr_val (fst (lk_step c k))).
Proof.
  destruct c; simpl; try (unfold is_u64; lia); try apply u64_range.
  - pose proof (lk_mmap_ret addr length prot flags fd pgoffset k).
    by destruct (lk_mmap _ _ _ _ _ _ _).
  - destruct (lk_in k); simpl; [apply u64_range|unfold is_u64; lia].
  - repeat case_match; apply u64_range.
  - case_match; [unfold is_u64; simpl; lia|apply u64_range].
  - case_match; apply u64_range.
  - case_match; apply u64_range.
  - case_match; [unfold is_u64; simpl; lia|apply u64_range].
Qed.

Lemma lk_mmap_frame addr len prot flags fd off k :
  lk_files (snd (lk_mmap addr len prot flags fd off k)) = lk_files k /\
  lk_fds (snd (lk_mmap addr len prot flags fd off k)) = lk_fds k.
Proof. unfold lk_mmap. by destruct (_ && _). Qed.

Lemma lk_step_pages c k : keeps_pages c = true -> lk_pages (snd (lk_step c k)) = lk_pages k.
Proof.
  intros Hc. destruct c; simplify_eq/=; try done.
  - by destruct (lk_in k).
  - apply copy_in_frame.
  - apply copy_out_frame.
  - by case_match.
  - by case_match.
Qed.

Lemma lk_step_fds c k : keeps_fds c = true -> lk_fds (snd (lk_step c k)) = lk_fds k.
Proof.
  intros Hc. destruct c; simplify_eq/=; try done.
  - pose proof (lk_mmap_frame addr length prot flags fd pgoffset k) as [_ Hf].
    by destruct (lk_mmap _ _ _ _ _ _ _).
  - by destruct (lk_in k).
  - apply copy_in_frame.
  - apply copy_out_frame.
  - by case_match.
Qed.

Lemma lk_step_sizes c k : keeps_fds c = true -> lk_sizes (snd (lk_step c k)) = lk_sizes k.
Proof.
  intros Hc. destruct c; simplify_eq/=; try done; try (by repeat case_match).
  - unfold lk_mmap. by destruct (_ && _).
  - apply (foldl_inv (fun k' => lk_sizes k' = lk_sizes k)); [|done].
    intros k' i _ E. destruct (lk_store _ _ _) eqn:Es; [|done]. cbn. by rewrite (lk_store_sizes _ _ _ _ Es).
  - apply (foldl_inv (fun k' => lk_sizes k' = lk_sizes k)); [|done].
    intros k' i _ E. case_match; [by rewrite lk_put_sizes|done].
Qed.

Lemma same_tables_fds k k' :
  lk_fds k' = lk_fds k -> lk_sizes k' = lk_sizes k -> same_fds (K := model_kernel) k k'.
Proof.
  intros Hf Hs fd. cbn. rewrite Hf. split; [done|]. unfold lk_len, lk_size. by rewrite Hf, Hs.
Qed.

Lemma lk_step_files c k : keeps_files c = true -> lk_files (snd (lk_step c k)) = lk_files k.
Proof.
  intros Hc. destruct c; simplify_eq/=; try done.
  - pose proof (lk_mmap_frame addr length prot flags fd pgoffset k) as [Hf _].
    by destruct (lk_mmap _ _ _ _ _ _ _).
  - by destruct (lk_in k).
  - by case_match.
Qed.

Lemma keeps_files_fds c : keeps_files c = true -> keeps_fds c = true.
Proof. destruct c; done. Qed.

#[export] Instance model_laws : KernelLaws model_kernel model_view.
Proof.
  split.
  - intros c k. simpl. rewrite (proj1 (lk_syscall_split c k)). apply lk_step_ret.
  - intros k fd o. apply lk_byte_range.
  - intros c k Hc q. simpl. destruct (proj2 (lk_syscall_split c k)) as [l ->].
    simpl. by rewrite lk_step_pages.
  - intros c k Hc fd o. simpl. destruct (proj2 (lk_syscall_split c k)) as [l ->].
    unfold lk_byte, lk_data. simpl. by rewrite lk_step_files, lk_step_fds by auto using keeps_files_fds.
  - intros c k Hc. simpl. destruct (proj2 (lk_syscall_split c k)) as [l ->].
    by apply same_tables_fds; [apply lk_step_fds|apply lk_step_sizes].
  - intros k len prot flags fd off Hfl Hlen Hal Hao. simpl.
    pose proof (lk_mmap_pages 0 len prot flags fd off k Hlen Hal) as Hm. simpl in Hm.
    unfold lk_syscall, lk_step.
    destruct Hm as [->|(k' & -> & Hm)]; simpl; [by left|right].
    assert (lk_base 0 flags k = PAGE * top_page (lk_pages k)) as Hb by (by destruct Hfl as [->| ->]).
    assert (truthy (Z.land flags MAP_FIXED) = false) as Hx by (by destruct Hfl as [->| ->]).
    destruct Hm as (? & ? & ? & Hf & ?). specialize (Hf Hx). done.
  - intros k addr len prot fd off Hlen Haa Hal Hao. simpl.
    pose proof (lk_mmap_pages addr len prot (Z.lor MAP_SHARED MAP_FIXED_NOREPLACE)
      fd off k Hlen Hal) as Hm. rewrite lk_base_fixed in Hm by done.
    unfold lk_syscall, lk_step.
    destruct Hm as [->|(k' & -> & ? & ? & ? & Hf & ?)]; simpl; [by left|right].
    specialize (Hf eq_refl). done.
  - intros k addr len prot flags fd off Hfl Hlen Haa Hal Hao. simpl.
    pose proof (lk_mmap_pages addr len prot flags fd off k Hlen Hal) as Hm.
    rewrite lk_base_fixed in Hm by (by apply fixed_map_fixed).
    unfold lk_syscall, lk_step.
    destruct Hm as [->|(k' & -> & ? & ? & ? & _ & ?)]; simpl; [left|right]; split_and!; try done.
    intros q. by left.
  - intros k addr len _ _ _ _ _ q. simpl. apply lookup_unmap_pages.
  - intros k addr len q. simpl. rewrite lookup_unmap_pages. unfold unmapped.
    destruct (in_pages addr len q); [by right|by left].
  - intros k a g _ Hg Hr _ _. simpl in *. unfold lk_load. by rewrite Hg, Hr.
  - intros k a Ha. simpl in *. unfold lk_load. by rewrite Ha.
  - intros k a v k' Hs. simpl in *. pose proof (lk_store_sizes _ _ _ _ Hs) as Hz.
    apply lk_store_frame in Hs as [Hp Hf].
    split; [intros q; simpl; by rewrite Hp|by apply same_tables_fds].
  - intros k a v g i _ Hg Hw Hfd Hi _. simpl in *. unfold lk_store. rewrite Hg, Hw, Hfd.
    eexists. split; [done|]. unfold lk_put. rewrite Hi. split.
    + intros o. unfold lk_byte, lk_data. simpl. rewrite Hi, lookup_insert.
      destruct (Z.eqb_spec o (vp_off g + a mod PAGE)) as [->|].
      * rewrite decide_True by done. apply Z.mod_mod. lia.
      * by rewrite decide_False by congruence.
    + intros fd o Hne. unfold lk_byte, lk_data. simpl. destruct (lk_fds k !! fd) as [j|]; [|done].
      by rewrite lookup_insert_ne by congruence.
  - intros k a v Ha. simpl in *. unfold lk_store.
    destruct (lk_pages k !! (a / PAGE)) as [g|]; [|done]. by rewrite (Ha g).
  - intros c k. cbn. pose proof (lk_step_calls c k) as H. unfold lk_syscall.
    destruct (lk_step c k) as [r k']. cbn in *. by rewrite H.
  - intros k a v k' H. cbn in *. revert H. unfold lk_store, lk_put.
    repeat case_match; intros [= <-]; done.
  - intros k fd buf n off f o. apply copy_in_reads.
  - intros k fd buf n off f o. apply copy_out_writes.
Qed.
