(* ===== verification/PageWalk.v ===== *)
(** * The Sv39 page-table walker

    Models [lookup_pa_in_ram] and [lookup_pa] of riscv-priv.c.  The walker
    runs in the monad and reads the guest's tables through a temporary mapping
    of [RAM_FD]; [sv39] is the translation algorithm of the privileged
    specification on the bytes of RAM. *)

From S2P Require Import Prelude Bits State Machine Hoare Csr Linux.

(** ** The code *)

(** [fl(f)]: [get_pte_flags(entry) & PTE_f] as a condition. *)
Definition fl (f entry : Z) : bool := truthy (Z.land (get_pte_flags entry) f).

(** [va_signed == (va_signed << (63 - 39) >> (63 - 39))] *)
Definition sign_extended (va : Z) : bool :=
  let va_signed := s64 va in
  va_signed =? Z.shiftr (s64 (Z.shiftl va_signed (63 - 39))) (63 - 39).

Section walker_code.
Context `{K : Kernel}.

(** The loop from level [level], with [n] iterations left.  [Some (pa, pte)]
    is [return true] with the two out-parameters set; running out of
    iterations is the end of the function, which returns nothing. *)
Fixpoint walk (n : nat) (level : nat) (ram va : Z) (vpn : list Z) (pt_addr : Z)
    : M (option (Z * Z)) :=
  match n with
  | O => halt StopUndefined
  | S n =>
      if (pt_addr <? RAM_START) || (RAM_START + RAM_SIZE <=? pt_addr) then
        write_log "pt address out of range";; ebreak
      else
        entry ← load64 (u64 (ram + (pt_addr - RAM_START) + (vpn !!! level) * 8));
        if negb (fl PTE_V entry) then mret None
        else if negb (fl PTE_R entry) && fl PTE_W entry then mret None
        else if (level <? 2)%nat then
          if fl PTE_R entry || fl PTE_W entry || fl PTE_X entry then
            write_log "Unimplemented large pages";; ebreak
          else walk n (S level) ram va vpn (shl64 (get_pte_ppn entry) 12)
        else if fl PTE_W entry && negb (fl PTE_R entry) then mret None
        else mret (Some (Z.lor (shl64 (get_pte_ppn entry) 12) (get_va_off va), entry))
  end.

Definition lookup_pa_in_ram (ram va : Z) : M (option (Z * Z)) :=
  priv ← get_priv;
  if get_satp_mode (satp priv) =? SATP_MODE_BARE then mret (Some (va, 0))
  else if negb (sign_extended va) then mret None
  else
    let vpn := [get_va_ppn0 va; get_va_ppn1 va; get_va_ppn2 va] in
    walk 3 0 ram va vpn (shl64 (get_satp_ppn (satp priv)) 12).

Definition lookup_pa (va : Z) : M (option (Z * Z)) :=
  ram ← s_mmap 0 RAM_SIZE (Z.lor (Z.lor PROT_READ PROT_WRITE) PROT_EXEC)
               MAP_SHARED RAM_FD 0;
  res ← lookup_pa_in_ram ram va;
  s_munmap ram RAM_SIZE;;
  mret res.
End walker_code.

(** ** The specification

    The translation algorithm of section "Sv39" of the privileged architecture
    (1.11), up to the leaf: the permissions of the leaf are [permits] of
    [PageFault], its U, A and D bits are not modelled.  Only RAM can hold
    tables. *)

(** Why there is no leaf. *)
Inductive fault_reason :=
| NonCanonical                  (** bits 63 to 39 of the address differ from bit 38 *)
| Invalid                       (** V is clear, or W is set without R *)
| NoLeaf (pa pte : Z)           (** a pointer in the last table; it points to the page of [pa] *)
| Misaligned.                   (** a superpage with page-number bits below its size *)

Inductive translation :=
| TFault (why : fault_reason)   (** page fault *)
| TPage (pa pte : Z)            (** a 4 KiB leaf *)
| TSuper (pa pte : Z)           (** a leaf of 2 MiB or 1 GiB *)
| TAccess.                      (** access fault: the table is not in memory *)

Definition pte_ppn (pte : Z) : Z := pte / 2 ^ 10 mod 2 ^ 44.
Definition pte_v (pte : Z) : bool := Z.testbit pte 0.
Definition pte_r (pte : Z) : bool := Z.testbit pte 1.
Definition pte_w (pte : Z) : bool := Z.testbit pte 2.
Definition pte_x (pte : Z) : bool := Z.testbit pte 3.
Definition pte_u (pte : Z) : bool := Z.testbit pte 4.

(** The virtual page number for the table of level [i], 2 being the root. *)
Definition va_vpn (i : nat) (va : Z) : Z := va / 2 ^ (12 + 9 * Z.of_nat i) mod 2 ^ 9.

(** Eight little-endian bytes of RAM. *)
Fixpoint ram_le (n : nat) (ram : Z -> Z) (o : Z) : Z :=
  match n with
  | O => 0
  | S n => ram o + 2 ^ 8 * ram_le n ram (o + 1)
  end.

Definition ram_pte (ram : Z -> Z) (pa : Z) : Z := ram_le 8 ram (pa - RAM_START).

Fixpoint sv39_walk (ram : Z -> Z) (i : nat) (table va : Z) : translation :=
  if bool_decide (RAM_START <= table < RAM_START + RAM_SIZE) then
    let pte := ram_pte ram (table + va_vpn i va * 8) in
    if negb (pte_v pte) || (negb (pte_r pte) && pte_w pte) then TFault Invalid
    else if pte_r pte || pte_x pte then
      match i with
      | O => TPage (pte_ppn pte * 2 ^ 12 + va mod 2 ^ 12) pte
      | S _ =>
          let pages := 2 ^ (9 * Z.of_nat i) in
          if pte_ppn pte mod pages =? 0
          then TSuper (pte_ppn pte * 2 ^ 12 + va mod (2 ^ 12 * pages)) pte
          else TFault Misaligned
      end
    else
      match i with
      | O => TFault (NoLeaf (pte_ppn pte * 2 ^ 12 + va mod 2 ^ 12) pte)
      | S i => sv39_walk ram i (pte_ppn pte * 2 ^ 12) va
      end
  else TAccess.

(** Bits 63 to 39 of an Sv39 address equal bit 38. *)
Definition sv39_canonical (va : Z) : Prop := - 2 ^ 38 <= s64 va < 2 ^ 38.

#[export] Instance sv39_canonical_dec va : Decision (sv39_canonical va).
Proof. unfold sv39_canonical. apply _. Defined.

(** The root table of satp. *)
Definition satp_root (satp : Z) : Z := satp mod 2 ^ 44 * 2 ^ 12.

Definition sv39 (ram : Z -> Z) (satp va : Z) : translation :=
  if decide (sv39_canonical va) then sv39_walk ram 2 (satp_root satp) va else TFault NonCanonical.

(** ** Fields *)

Lemma fl_bit b entry : 0 <= b < 8 -> fl (Z.shiftl 1 b) entry = Z.testbit entry b.
Proof.
  intros Hb. unfold fl, get_pte_flags. rewrite truthy_land_bit, testbit_bf_get by lia.
  rewrite Z.add_0_r. by rewrite (proj2 (Z.ltb_lt b 8)) by lia.
Qed.

Lemma fl_v e : fl PTE_V e = pte_v e. Proof. by apply fl_bit. Qed.
Lemma fl_r e : fl PTE_R e = pte_r e. Proof. by apply fl_bit. Qed.
Lemma fl_w e : fl PTE_W e = pte_w e. Proof. by apply fl_bit. Qed.
Lemma fl_x e : fl PTE_X e = pte_x e. Proof. by apply fl_bit. Qed.

Lemma pte_ppn_range e : 0 <= pte_ppn e < 2 ^ 44.
Proof. apply Z.mod_pos_bound. lia. Qed.

Lemma shl_ppn e : shl64 (get_pte_ppn e) 12 = pte_ppn e * 2 ^ 12.
Proof.
  unfold get_pte_ppn, shl64. rewrite bf_get_div, Z.shiftl_mul_pow2 by lia.
  fold (pte_ppn e). pose proof (pte_ppn_range e). apply u64_id. unfold is_u64. lia.
Qed.

Lemma va_off_mod va : get_va_off va = va mod 2 ^ 12.
Proof. unfold get_va_off. by rewrite bf_get_div, Z.div_1_r by lia. Qed.

Lemma leaf_pa e va : Z.lor (shl64 (get_pte_ppn e) 12) (get_va_off va)
  = pte_ppn e * 2 ^ 12 + va mod 2 ^ 12.
Proof.
  rewrite shl_ppn, va_off_mod, <- Z.shiftl_mul_pow2 by lia.
  rewrite lor_add; [|lia|apply Z.mod_pos_bound; lia]. by rewrite Z.shiftl_mul_pow2 by lia.
Qed.

Lemma satp_root_shl s : shl64 (get_satp_ppn s) 12 = satp_root s.
Proof.
  unfold get_satp_ppn, shl64, satp_root. rewrite bf_get_div, Z.shiftl_mul_pow2, Z.div_1_r by lia.
  pose proof (Z.mod_pos_bound s (2 ^ 44) ltac:(lia)). apply u64_id. unfold is_u64. lia.
Qed.

Lemma va_vpn_range i va : 0 <= va_vpn i va < 2 ^ 9.
Proof. apply Z.mod_pos_bound. lia. Qed.

(** The array [vpn] of the code, indexed from the root. *)
Lemma vpn_lookup va i : (i <= 2)%nat ->
  [get_va_ppn0 va; get_va_ppn1 va; get_va_ppn2 va] !!! (2 - i)%nat = va_vpn i va.
Proof.
  intros Hi. unfold get_va_ppn0, get_va_ppn1, get_va_ppn2. rewrite !bf_get_div by lia.
  destruct i as [|[|[|]]]; [done..|lia].
Qed.

(** The code's test accepts 40-bit sign-extended addresses, one bit more than
    Sv39 has. *)
Lemma sign_extended_spec va : sign_extended va = bool_decide (- 2 ^ 39 <= s64 va < 2 ^ 39).
Proof.
  unfold sign_extended. change (63 - 39) with 24.
  destruct (s64_spec (Z.shiftl (s64 va) 24)) as [Hr [q Hq]].
  rewrite Z.shiftl_mul_pow2 in Hq by lia. rewrite Z.shiftl_mul_pow2 in Hr |- * by lia.
  rewrite Hq in Hr |- *.
  replace (s64 va * 2 ^ 24 + 2 ^ 64 * q) with ((s64 va + 2 ^ 40 * q) * 2 ^ 24) in * by lia.
  rewrite Z.shiftr_div_pow2, Z.div_mul by lia.
  case_bool_decide; [apply Z.eqb_eq|apply Z.eqb_neq]; lia.
Qed.

(** ** Reading an entry through the mapping *)

Lemma ram_le_range n ram o : (forall i, 0 <= ram i < 256) ->
  0 <= ram_le n ram o < 2 ^ (8 * Z.of_nat n).
Proof.
  intros Hram. revert o. induction n as [|n IH]; intros o; [simpl; lia|].
  replace (8 * Z.of_nat (S n)) with (8 + 8 * Z.of_nat n) by lia.
  rewrite Z.pow_add_r by lia. simpl. specialize (IH (o + 1)). pose proof (Hram o). nia.
Qed.

Section walker.
Context {K : Kernel} {V : KernelView K} {L : KernelLaws K V}.

Lemma run_load_le n a ram o w :
  (forall i, 0 <= ram i < 256) -> 0 <= a -> a + Z.of_nat n <= 2 ^ 63 ->
  (forall i, 0 <= i < Z.of_nat n -> k_load (w_kern w) (a + i) = Some (ram (o + i))) ->
  load_le n a w = (inr (ram_le n ram o), w).
Proof using.
  intros Hram. revert a o. induction n as [|n IH]; intros a o Ha Hn Hl; [done|].
  cbn [load_le ram_le]. assert (load8 a w = (inr (ram o), w)) as H8.
  { unfold load8. pose proof (Hl 0 ltac:(lia)) as H0. rewrite !Z.add_0_r in H0. by rewrite H0. }
  erewrite run_bind by exact H8. rewrite u64_id by (unfold is_u64; lia).
  erewrite run_bind.
  2: { apply (IH (a + 1) (o + 1)); [lia..|]. intros i Hi.
       rewrite <- !Z.add_assoc. apply Hl. lia. }
  unfold mret, M_ret. rewrite Z.lor_comm, lor_add; [|lia|apply Hram].
  do 2 f_equal. lia.
Qed.

(** How the walker reports a translation: a page fault as not found, except
    that a pointer in the last table is reported as if it were a leaf; at a
    superpage, aligned or not, and at a table outside RAM it stops. *)
Definition walk_reports (t : translation) (w : world)
    (out : (stop + option (Z * Z)) * world) : Prop :=
  match t with
  | TFault NonCanonical | TFault Invalid => out = (inr None, w)
  | TPage pa pte | TFault (NoLeaf pa pte) => out = (inr (Some (pa, pte)), w)
  | TFault Misaligned | TSuper _ _ | TAccess =>
      exists k, out = (inl StopEbreak, w <| w_kern := k |>) /\
        same_pages (w_kern w) k /\ same_files (w_kern w) k
  end.

Lemma log_ebreak {A} s w :
  exists k, (write_log s;; ebreak (A := A)) w = (inl StopEbreak, w <| w_kern := k |>) /\
    same_pages (w_kern w) k /\ same_files (w_kern w) k.
Proof using L.
  destruct (run_write_log_frame s w) as (k & Hl & Hp & Hf).
  exists k. split; [|done]. by erewrite run_bind by exact Hl.
Qed.

(** RAM is mapped at [base]. *)
Definition ram_at (base : Z) (k : kstate) : Prop :=
  page_aligned base /\ 0 <= base /\ base + RAM_SIZE <= TASK_SIZE /\ RAM_SIZE <= k_len k RAM_FD /\
  exists prot pages, truthy (Z.land prot PROT_READ) = true /\
    forall q, k_page k q = mapped base RAM_SIZE prot RAM_FD 0 pages q.

Lemma ram_at_load base k o : ram_at base k -> 0 <= o < RAM_SIZE ->
  k_load k (base + o) = Some (k_file k RAM_FD o).
Proof using L.
  intros (Ha & Hb & _ & Hlen & prot & pages & Hr & Hp) Ho.
  erewrite (load_mapped _ base RAM_SIZE prot RAM_FD 0 pages); try done; [|lia|by left|lia].
  by replace (0 + (base + o - base)) with o by lia.
Qed.

(** Reading the entry at [table + index * 8] stays inside RAM when [table] is
    a page of RAM. *)
Lemma run_load_pte base table va i w :
  ram_at base (w_kern w) -> page_aligned table ->
  RAM_START <= table < RAM_START + RAM_SIZE ->
  load64 (u64 (base + (table - RAM_START) + va_vpn i va * 8)) w =
    (inr (ram_pte (k_file (w_kern w) RAM_FD) (table + va_vpn i va * 8)), w).
Proof using L.
  intros Hram Ha Ht. pose proof (va_vpn_range i va) as Hv. pose proof Hram as (_ & Hb & Hsz & _).
  unfold page_aligned, PAGE in Ha.
  assert (0 <= table - RAM_START + va_vpn i va * 8 <= RAM_SIZE - 8) as Ho.
  { unfold RAM_START in *. change RAM_SIZE with (4096 * 4096) in *.
    Z.div_mod_to_equations. lia. }
  unfold load64, ram_pte. change RAM_SIZE with (4096 * 4096) in *. unfold TASK_SIZE in Hsz.
  rewrite u64_id by (unfold is_u64; lia).
  apply run_load_le; [intros; apply law_byte|lia|lia|]. intros j Hj.
  replace (base + (table - RAM_START) + va_vpn i va * 8 + j)
    with (base + (table - RAM_START + va_vpn i va * 8 + j)) by lia.
  rewrite ram_at_load; [|done|change RAM_SIZE with (4096 * 4096); lia].
  do 2 f_equal. lia.
Qed.

Lemma walk_refines i base va table w :
  (i <= 2)%nat -> ram_at base (w_kern w) -> page_aligned table ->
  walk_reports (sv39_walk (k_file (w_kern w) RAM_FD) i table va) w
    (walk (S i) (2 - i) base va [get_va_ppn0 va; get_va_ppn1 va; get_va_ppn2 va] table w).
Proof using L.
  intros Hi Hram. revert table Hi. induction i as [|i IH]; intros table Hi Ha.
  all: cbn [walk sv39_walk]; rewrite vpn_lookup by lia.
  all: case_bool_decide as Ht;
    [rewrite (proj2 (Z.ltb_ge table _)), (proj2 (Z.leb_gt _ table)) by lia; cbn [orb]
    |replace ((table <? RAM_START) || (RAM_START + RAM_SIZE <=? table)) with true
      by (destruct (Z.ltb_spec table RAM_START), (Z.leb_spec (RAM_START + RAM_SIZE) table);
          done || lia); apply log_ebreak].
  all: erewrite run_bind by (apply run_load_pte; done).
  all: set (e := ram_pte _ _); rewrite fl_v, fl_r, fl_w, fl_x.
  all: destruct (pte_v e); [|done]; cbn [negb orb].
  - destruct (pte_r e), (pte_w e), (pte_x e); cbn; try done; by rewrite leaf_pa.
  - replace (2 - S i <? 2)%nat with true by (symmetry; apply Nat.ltb_lt; lia).
    replace (S (2 - S i))%nat with (2 - i)%nat by lia.
    destruct (pte_r e), (pte_w e), (pte_x e); cbn [negb andb orb]; try done;
      try (destruct (_ =? 0); apply log_ebreak).
    rewrite shl_ppn. apply IH; [lia|]. unfold page_aligned, PAGE.
    change (2 ^ 12) with 4096. by rewrite Z.mod_mul.
Qed.
End walker.

(** A translation depends on the bytes of RAM only. *)
#[export] Instance ram_le_proper n : Proper (pointwise_relation Z eq ==> eq ==> eq) (ram_le n).
Proof.
  intros ram ram' Hram o _ <-. revert o.
  induction n as [|n IH]; intros o; simpl; [done|]. by rewrite Hram, IH.
Qed.

#[export] Instance sv39_walk_proper :
  Proper (pointwise_relation Z eq ==> eq ==> eq ==> eq ==> eq) sv39_walk.
Proof.
  intros ram ram' Hram i _ <- table _ <- va _ <-. revert table.
  induction i as [|i IH]; intros table; cbn [sv39_walk]; unfold ram_pte.
  - by rewrite (ram_le_proper 8 ram ram' Hram _ _ eq_refl).
  - rewrite (ram_le_proper 8 ram ram' Hram _ _ eq_refl). by rewrite IH.
Qed.

(** ** The whole lookup *)

Section lookup.
Context {K : Kernel} {V : KernelView K} {L : KernelLaws K V}.

Definition ram_mmap : syscall :=
  SysMmap 0 RAM_SIZE (Z.lor (Z.lor PROT_READ PROT_WRITE) PROT_EXEC) MAP_SHARED RAM_FD 0.

(** Linux grants the temporary mapping of RAM, a file of [RAM_SIZE] bytes. *)
Definition ram_mmap_ok (k : kstate) : Prop :=
  0 <= s64 (sr_val (fst (k_syscall ram_mmap k))) /\ RAM_SIZE <= k_len k RAM_FD.

Definition lookup_reports (t : translation) (w : world)
    (out : (stop + option (Z * Z)) * world) : Prop :=
  match t with
  | TFault NonCanonical | TFault Invalid =>
      exists k, out = (inr None, w <| w_kern := k |>) /\
        same_pages (w_kern w) k /\ same_files (w_kern w) k
  | TPage pa pte | TFault (NoLeaf pa pte) =>
      exists k, out = (inr (Some (pa, pte)), w <| w_kern := k |>) /\
        same_pages (w_kern w) k /\ same_files (w_kern w) k
  | TFault Misaligned | TSuper _ _ | TAccess => fst out = inl StopEbreak
  end.

(** The translation of the code: the walk of the specification behind the
    code's own test of the address. *)
Definition code_sv39 (ram : Z -> Z) (satp va : Z) : translation :=
  if bool_decide (- 2 ^ 39 <= s64 va < 2 ^ 39)
  then sv39_walk ram 2 (satp_root satp) va else TFault NonCanonical.

Lemma code_sv39_canonical ram satp va :
  sv39_canonical va \/ ~ (- 2 ^ 39 <= s64 va < 2 ^ 39) ->
  code_sv39 ram satp va = sv39 ram satp va.
Proof using.
  unfold code_sv39, sv39, sv39_canonical. intros H.
  case_bool_decide; case_decide; done || lia.
Qed.

Lemma lookup_in_ram_refines base va w :
  ram_at base (w_kern w) -> get_satp_mode (satp (w_priv w)) <> SATP_MODE_BARE ->
  walk_reports (code_sv39 (k_file (w_kern w) RAM_FD) (satp (w_priv w)) va) w
    (lookup_pa_in_ram base va w).
Proof using L.
  intros Hram Hm. unfold lookup_pa_in_ram, code_sv39. erewrite run_bind by done.
  rewrite (proj2 (Z.eqb_neq _ _) Hm), sign_extended_spec.
  case_bool_decide; [|done]. cbn [negb]. rewrite satp_root_shl.
  apply walk_refines; [lia|done|]. unfold page_aligned, PAGE, satp_root.
  change (2 ^ 12) with 4096. by rewrite Z.mod_mul.
Qed.

(** The mapping is there for the walk and gone after it. *)
Lemma run_ram_mmap k : ram_mmap_ok k ->
  let a := sr_val (fst (k_syscall ram_mmap k)) in
  let k1 := snd (k_syscall ram_mmap k) in
  ram_at a k1 /\ same_files k k1 /\
  forall k2, same_pages k1 k2 -> same_pages k (snd (k_syscall (SysMunmap a RAM_SIZE) k2)).
Proof using L.
  intros [Hok Hlen] a k1.
  destruct (law_mmap_null k RAM_SIZE (Z.lor (Z.lor PROT_READ PROT_WRITE) PROT_EXEC) RAM_FD 0)
    as [[Herr _]|(Ha & Hal & Hsz & Hfree & Hpages)]; [reflexivity..|exfalso|].
  { unfold ram_mmap in Hok. lia. }
  fold ram_mmap in *. fold a in Ha, Hal, Hsz, Hfree, Hpages. fold k1 in Hpages.
  split; [|split].
  - split; [exact Hal|]. split; [exact Ha|]. split; [exact Hsz|].
    split; [refine (same_len _ _ _ _ _ Hlen); by apply (law_keeps_fds ram_mmap)|].
    eexists _, _. split; [|exact Hpages]. reflexivity.
  - by apply law_keeps_files.
  - intros k2 Hk2 q. rewrite (law_munmap k2 a RAM_SIZE); [|assumption|by vm_compute|assumption..|reflexivity].
    unfold unmapped. rewrite (Hk2 q), Hpages. unfold mapped.
    destruct (in_pages a RAM_SIZE q) eqn:E; [|done]. by rewrite Hfree.
Qed.

Lemma code_sv39_ext ram ram' satp va :
  (forall o, ram o = ram' o) -> code_sv39 ram satp va = code_sv39 ram' satp va.
Proof using.
  intros Hram. unfold code_sv39. case_bool_decide; [|reflexivity].
  by apply sv39_walk_proper.
Qed.

Lemma calm_walk k0 n level ram va vpn pt :
  stable (on_kern (calm k0)) (walk n level ram va vpn pt).
Proof using L.
  revert level pt. induction n as [|n IH]; intros level pt; cbn [walk]; [done|]. stable_auto.
Qed.

#[local] Hint Resolve calm_walk : stable.

Lemma calm_lookup k0 va : stable (on_kern (calm k0)) (lookup_pa va).
Proof using L. unfold lookup_pa, lookup_pa_in_ram. stable_auto. Qed.

Lemma lookup_pa_code va w :
  ram_mmap_ok (w_kern w) -> get_satp_mode (satp (w_priv w)) <> SATP_MODE_BARE ->
  lookup_reports (code_sv39 (k_file (w_kern w) RAM_FD) (satp (w_priv w)) va) w
    (lookup_pa va w).
Proof using L.
  intros Hok Hm. destruct (run_ram_mmap (w_kern w) Hok) as (Hram & Hf1 & Hback).
  pose (w1 := w <| w_kern := snd (k_syscall ram_mmap (w_kern w)) |>).
  assert (s_mmap 0 RAM_SIZE (Z.lor (Z.lor PROT_READ PROT_WRITE) PROT_EXEC)
            MAP_SHARED RAM_FD 0 w = (inr (sr_val (fst (k_syscall ram_mmap (w_kern w)))), w1))
    as Hmmap.
  { unfold s_mmap, do_syscall, mbind, M_bind. fold ram_mmap. subst w1.
    by destruct (k_syscall ram_mmap (w_kern w)). }
  unfold lookup_pa. erewrite run_bind by exact Hmmap. cbv beta.
  set (base := sr_val _) in *.
  pose proof (lookup_in_ram_refines base va w1 Hram Hm) as Hwalk.
  rewrite (code_sv39_ext _ (k_file (w_kern w) RAM_FD)) in Hwalk by (intros; apply Hf1).
  change (satp (w_priv w1)) with (satp (w_priv w)) in Hwalk.
  assert (forall x, lookup_pa_in_ram base va w1 = (inr x, w1) ->
    exists k, (res ← lookup_pa_in_ram base va; s_munmap base RAM_SIZE;; mret res) w1
      = (inr x, w <| w_kern := k |>) /\ same_pages (w_kern w) k /\ same_files (w_kern w) k)
    as Hfin.
  { intros x Hx. erewrite run_bind by exact Hx. cbv beta.
    specialize (Hback (w_kern w1) (fun q => eq_refl)).
    pose proof (law_keeps_files (SysMunmap base RAM_SIZE) (w_kern w1) eq_refl) as Hf2.
    unfold s_munmap, do_syscall, mbind, M_bind.
    destruct (k_syscall (SysMunmap base RAM_SIZE) (w_kern w1)) as [r2 k2].
    exists k2. split; [reflexivity|]. split; [exact Hback|].
    intros fd o. simpl in Hf2. by rewrite Hf2. }
  destruct (code_sv39 _ _ _) as [[]| | |]; cbn [walk_reports lookup_reports] in *;
    try (by apply Hfin); destruct Hwalk as (k & Hk & _); by erewrite run_bind_stop by exact Hk.
Qed.

Lemma lookup_pa_bare va w :
  ram_mmap_ok (w_kern w) -> get_satp_mode (satp (w_priv w)) = SATP_MODE_BARE ->
  exists w', lookup_pa va w = (inr (Some (va, 0)), w').
Proof using.
  intros _ Hm. unfold lookup_pa, lookup_pa_in_ram, s_mmap, s_munmap, do_syscall.
  unfold mbind, M_bind. destruct (k_syscall _ _) as [r k1]. cbn.
  rewrite (proj2 (Z.eqb_eq _ _) Hm). cbn. destruct (k_syscall _ _) as [r2 k2]. cbn. eauto.
Qed.

(** C10. lookup_pa implements the Sv39 algorithm of the privileged specification on the
    bytes of RAM as far as the hypervisor supports it: a leaf of 4 KiB is reported with
    its physical address and entry, and a non-canonical address (beyond the 40 bits the
    code tests) or an invalid entry as not found, mappings and files being as before. In
    two cases it departs from the specification: a pointer in the last table, a page
    fault, is reported as if it were a leaf, and superpages and tables outside RAM stop. *)
Theorem lookup_pa_refines va w :
  ram_mmap_ok (w_kern w) -> get_satp_mode (satp (w_priv w)) <> SATP_MODE_BARE ->
  sv39_canonical va \/ ~ (- 2 ^ 39 <= s64 va < 2 ^ 39) ->
  lookup_reports (sv39 (k_file (w_kern w) RAM_FD) (satp (w_priv w)) va) w (lookup_pa va w).
Proof using L.
  intros Hok Hm Hva. rewrite <- code_sv39_canonical by done. by apply lookup_pa_code.
Qed.

(** The walker accepts addresses that are 40-bit but not 39-bit sign-extended: the
    specification faults on them, the code translates them through the tables. *)
Theorem lookup_pa_40_bits va w :
  ram_mmap_ok (w_kern w) -> get_satp_mode (satp (w_priv w)) <> SATP_MODE_BARE ->
  - 2 ^ 39 <= s64 va < 2 ^ 39 -> ~ sv39_canonical va ->
  sv39 (k_file (w_kern w) RAM_FD) (satp (w_priv w)) va = TFault NonCanonical /\
  lookup_reports (sv39_walk (k_file (w_kern w) RAM_FD) 2 (satp_root (satp (w_priv w))) va) w
    (lookup_pa va w).
Proof using L.
  intros Hok Hm Hr Hva. split; [unfold sv39; by rewrite decide_False|].
  pose proof (lookup_pa_code va w Hok Hm) as H. unfold code_sv39 in H.
  by rewrite bool_decide_true in H.
Qed.
End lookup.
