(* ===== verification/Double.v ===== *)
(** * C doubles

    [double] is binary64: the floating-point numbers of the Standard Library's
    specification, each operation rounded to nearest even on its own (no
    contraction to fused operations).  This file adds what printf.c uses beside
    arithmetic: conversions to and from integers, decimal constants and the
    encoding in a [uint64_t]; and the lemmas on rounding. *)

From Stdlib Require Import Floats.SpecFloat.
From S2P Require Import Prelude.

Abbreviation double := spec_float (only parsing).

Definition dprec : Z := 53.
Definition demax : Z := 1024.

Declare Scope double_scope.
Delimit Scope double_scope with D.
Notation "x + y" := (SFadd dprec demax x y) : double_scope.
Notation "x - y" := (SFsub dprec demax x y) : double_scope.
Notation "x * y" := (SFmul dprec demax x y) : double_scope.
Notation "x / y" := (SFdiv dprec demax x y) : double_scope.
Notation "x <? y" := (SFltb x y) : double_scope.
Notation "x =? y" := (SFeqb x y) : double_scope.

(** [(double)n] *)
Definition of_Z (n : Z) : double := binary_normalize dprec demax n 0 false.

(** The constant [n / 10^k], rounded once when [n] and [10^k] are doubles. *)
Definition decimal (n k : Z) : double := (of_Z n / of_Z (10 ^ k))%D.

(** Truncation towards zero, of the finite doubles. *)
Definition truncate (x : double) : option Z :=
  match x with
  | S754_zero _ => Some 0
  | S754_finite s m e =>
      let n := Z.shiftl (Zpos m) e in Some (if s then - n else n)
  | _ => None
  end.

(** [(int)x] and [(unsigned long)x]; undefined out of the type's range. *)
Definition to_int (x : double) : option Z :=
  n ← truncate x; if bool_decide (- 2 ^ 31 <= n < 2 ^ 31) then Some n else None.
Definition to_ulong (x : double) : option Z :=
  n ← truncate x; if bool_decide (0 <= n < 2 ^ 64) then Some n else None.

(** ** The encoding *)

Definition bits_of (x : double) : Z :=
  let sign (s : bool) := if s then 2 ^ 63 else 0 in
  match x with
  | S754_zero s => sign s
  | S754_infinity s => sign s + 2047 * 2 ^ 52
  | S754_nan => 2047 * 2 ^ 52 + 2 ^ 51
  | S754_finite s m e =>
      sign s + (if Zpos m <? 2 ^ 52 then Zpos m else (e + 1075) * 2 ^ 52 + (Zpos m - 2 ^ 52))
  end.

Definition of_bits (u : Z) : double :=
  let s := Z.testbit u 63 in
  let f := u mod 2 ^ 52 in
  let ex := (u / 2 ^ 52) mod 2 ^ 11 in
  if ex =? 2047 then if f =? 0 then S754_infinity s else S754_nan
  else if ex =? 0 then match f with Zpos m => S754_finite s m (-1074) | _ => S754_zero s end
  else match f + 2 ^ 52 with Zpos m => S754_finite s m (ex - 1075) | _ => S754_nan end.

Definition valid (x : double) : bool := valid_binary dprec demax x.

(** ** Digits and shifts *)

Lemma digits2_pos_spec m :
  2 ^ (Zpos (digits2_pos m) - 1) <= Zpos m < 2 ^ Zpos (digits2_pos m).
Proof.
  induction m as [m IH|m IH|]; cbn [digits2_pos]; [| |by vm_compute].
  all: rewrite Pos2Z.inj_succ; replace (Z.succ (Zpos (digits2_pos m)) - 1) with
    (Z.succ (Zpos (digits2_pos m) - 1)) by lia.
  all: rewrite !Z.pow_succ_r by lia; lia.
Qed.

Lemma Zdigits2_spec m : 0 < m -> 2 ^ (Zdigits2 m - 1) <= m < 2 ^ Zdigits2 m /\ 0 < Zdigits2 m.
Proof. destruct m as [|m|m]; intros Hm; [lia| |lia]. split; [apply digits2_pos_spec|done]. Qed.

(** [d] is determined by the powers of two around the number. *)
Lemma Zdigits2_unique m d : 2 ^ (d - 1) <= m < 2 ^ d -> 0 < d -> Zdigits2 m = d.
Proof.
  intros Hm Hd. assert (0 < m) as H0 by (pose proof (Z.pow_pos_nonneg 2 (d - 1)); lia).
  destruct (Zdigits2_spec m H0) as [Hs Hp].
  destruct (Z.lt_trichotomy (Zdigits2 m) d) as [H|[H|H]]; [|done|].
  - pose proof (Z.pow_le_mono_r 2 (Zdigits2 m) (d - 1)). lia.
  - pose proof (Z.pow_le_mono_r 2 d (Zdigits2 m - 1)). lia.
Qed.

Lemma Zdigits2_le m d : 0 < m -> 0 <= d -> m < 2 ^ d -> Zdigits2 m <= d.
Proof.
  intros Hm Hd H. destruct (Zdigits2_spec m Hm) as [Hs Hp].
  destruct (Z.le_gt_cases (Zdigits2 m) d); [done|].
  pose proof (Z.pow_le_mono_r 2 d (Zdigits2 m - 1)). lia.
Qed.

Lemma iter_pos_nat {A} (f : A -> A) n x : SpecFloat.iter_pos f n x = Nat.iter (Pos.to_nat n) f x.
Proof.
  revert x. induction n as [n IH|n IH|]; intros x; cbn [SpecFloat.iter_pos]; [..|done].
  - rewrite !IH, <- Nat.iter_add, <- Nat.iter_succ_r. f_equal. lia.
  - rewrite !IH, <- Nat.iter_add. f_equal. lia.
Qed.

Lemma shr_1_spec r : 0 <= shr_m r -> shr_m (shr_1 r) = shr_m r / 2.
Proof.
  destruct r as [[|[m|m|]|m] r s]; cbn [shr_1 shr_m]; intros Hm; try lia; try done.
  - by rewrite <- (Z.div2_div (Zpos m~1)).
  - by rewrite <- (Z.div2_div (Zpos m~0)).
Qed.

Lemma shr_1_exact r : shr_r r = false -> shr_s r = false -> Z.even (shr_m r) = true ->
  shr_r (shr_1 r) = false /\ shr_s (shr_1 r) = false.
Proof. by destruct r as [[|[m|m|]|[m|m|]] [] []]. Qed.

Lemma shr_iter n r : 0 <= shr_m r -> shr_m (Nat.iter n shr_1 r) = shr_m r / 2 ^ Z.of_nat n.
Proof.
  intros Hr. induction n as [|n IH]; [by rewrite Z.div_1_r|].
  rewrite Nat2Z.inj_succ, Z.pow_succ_r, Z.mul_comm, <- Z.div_div by lia. cbn [Nat.iter nat_rect].
  rewrite shr_1_spec; unfold Nat.iter in IH; rewrite IH; [done|]. apply Z.div_pos; lia.
Qed.

Lemma shr_iter_exact n r q : shr_r r = false -> shr_s r = false ->
  0 <= q -> shr_m r = q * 2 ^ Z.of_nat n ->
  shr_r (Nat.iter n shr_1 r) = false /\ shr_s (Nat.iter n shr_1 r) = false.
Proof.
  revert q. induction n as [|n IH]; intros q Hr Hs Hq Hm; [done|].
  rewrite Nat2Z.inj_succ, Z.pow_succ_r in Hm by lia.
  destruct (IH (2 * q)) as [H1 H2]; [done|done|lia|lia|]. cbn [Nat.iter nat_rect].
  apply shr_1_exact; [done|done|]. fold (Nat.iter n shr_1 r).
  rewrite shr_iter by (rewrite Hm; lia). rewrite Hm.
  replace (q * (2 * 2 ^ Z.of_nat n)) with (2 * q * 2 ^ Z.of_nat n) by lia.
  rewrite Z.div_mul by lia. by rewrite Z.even_mul.
Qed.

(** Shifting right by the positive part of [n]. *)
Lemma shr_spec m l e n : 0 <= m ->
  let '(r, e') := shr (shr_record_of_loc m l) e n in
  shr_m r = m / 2 ^ (n `max` 0) /\ e' = e + n `max` 0 /\
  (l = loc_Exact -> m = (m / 2 ^ (n `max` 0)) * 2 ^ (n `max` 0) -> loc_of_shr_record r = loc_Exact).
Proof.
  intros Hm. assert (shr_m (shr_record_of_loc m l) = m) as Hr by (by destruct l as [|[]]).
  destruct n as [|n|n]; cbn [shr].
  1,3: rewrite Z.max_r by lia; rewrite Z.div_1_r, Z.add_0_r, Hr; split_and!; [done..|];
    by intros ->.
  rewrite Z.max_l, iter_pos_nat by lia. rewrite shr_iter, positive_nat_Z, Hr by lia.
  split_and!; [done..|]. intros -> Hex. rewrite <- (positive_nat_Z n) in Hex.
  destruct (shr_iter_exact (Pos.to_nat n) (shr_record_of_loc m loc_Exact)
    (m / 2 ^ Z.of_nat (Pos.to_nat n))) as [H1 H2]; [done|done|by apply Z.div_pos; lia|done|].
  revert H1 H2. by destruct (Nat.iter _ _ _) as [? [] []].
Qed.

(** ** Rounding *)

Definition emin : Z := -1074.

Lemma fexp_max e : fexp dprec demax e = (e - 53) `max` emin.
Proof. done. Qed.

(** The double of mantissa [m] and exponent [e], when that is one. *)
Definition fin (s : bool) (m e : Z) : double :=
  match m with
  | Zpos p => if e <=? 971 then S754_finite s p e else S754_infinity s
  | _ => S754_zero s
  end.

(** The exponent of the rounded number. *)
Definition rexp (m e : Z) : Z := e `max` fexp dprec demax (Zdigits2 m + e).

Lemma rexp_div m e : 0 <= m -> 0 <= m / 2 ^ (rexp m e - e) < 2 ^ 53.
Proof.
  intros Hm. unfold rexp. rewrite fexp_max. set (n := _ - e). assert (0 <= n) by lia.
  split; [by apply Z.div_pos; lia|]. apply Z.div_lt_upper_bound; [lia|].
  rewrite <- Z.pow_add_r by lia. destruct (decide (m = 0)) as [->|Hne]; [lia|].
  destruct (Zdigits2_spec m) as [[_ Hd] Hp]; [lia|].
  pose proof (Z.pow_le_mono_r 2 (Zdigits2 m) (n + 53)). lia.
Qed.

Lemma round_nearest_even_cases m l :
  (round_nearest_even m l = m \/ round_nearest_even m l = m + 1) /\
  (l = loc_Exact -> round_nearest_even m l = m).
Proof.
  destruct l as [|[]]; cbn; [tauto|destruct (Z.even m)|..]; (split; [tauto|done]).
Qed.

(** A mantissa that has been rounded needs at most one more shift. *)
Lemma shr_rounded mr e : 0 <= mr <= 2 ^ 53 -> emin <= e ->
  let '(r, e') := shr_fexp dprec demax mr e loc_Exact in
  (shr_m r, e') = if mr =? 2 ^ 53 then (2 ^ 52, e + 1) else (mr, e).
Proof.
  intros Hm He. unfold shr_fexp.
  pose proof (shr_spec mr loc_Exact e (fexp dprec demax (Zdigits2 mr + e) - e) (proj1 Hm)) as H.
  destruct (shr _ e _) as [r e']. destruct H as (-> & -> & _). rewrite fexp_max.
  destruct (Z.eqb_spec mr (2 ^ 53)) as [->|Hne].
  - change (Zdigits2 (2 ^ 53)) with 54. rewrite !Z.max_l by lia.
    by replace (54 + e - 53 - e) with 1 by lia.
  - assert (Zdigits2 mr <= 53).
    { destruct (decide (mr = 0)) as [->|]; [done|]. apply Zdigits2_le; lia. }
    rewrite (Z.max_r _ 0), Z.add_0_r by lia. by rewrite Z.div_1_r.
Qed.

Lemma round_aux_spec s m e l : 0 <= m ->
  exists mr, (mr = m / 2 ^ (rexp m e - e) \/ mr = m / 2 ^ (rexp m e - e) + 1) /\
    (l = loc_Exact -> m = m / 2 ^ (rexp m e - e) * 2 ^ (rexp m e - e) ->
     mr = m / 2 ^ (rexp m e - e)) /\
    binary_round_aux dprec demax s m e l =
      if mr =? 2 ^ 53 then fin s (2 ^ 52) (rexp m e + 1) else fin s mr (rexp m e).
Proof.
  intros Hm. pose proof (rexp_div m e Hm) as Hd. unfold binary_round_aux.
  pose proof (shr_spec m l e (fexp dprec demax (Zdigits2 m + e) - e) Hm) as H.
  unfold shr_fexp at 1. destruct (shr _ e _) as [r e']. destruct H as (Hr & -> & Hex).
  assert (e + (fexp dprec demax (Zdigits2 m + e) - e) `max` 0 = rexp m e) as E
    by (unfold rexp; lia).
  replace ((fexp dprec demax (Zdigits2 m + e) - e) `max` 0) with (rexp m e - e) in Hr, Hex by lia.
  rewrite E. destruct (round_nearest_even_cases (shr_m r) (loc_of_shr_record r)) as [Hc He].
  set (mr := round_nearest_even _ _) in *. rewrite Hr in Hc, He. exists mr.
  split; [done|]. split; [by intros -> Hm'; apply He, Hex|].
  pose proof (shr_rounded mr (rexp m e)) as H. destruct (shr_fexp _ _ mr _ _) as [r' e''].
  specialize (H ltac:(lia) ltac:(unfold rexp; rewrite fexp_max; lia)).
  destruct (mr =? 2 ^ 53); injection H as -> ->; [done|].
  destruct mr; [done|done|lia].
Qed.

(** ** Magnitudes *)

(** Finite and at most [2^b]. *)
Definition upto (b : Z) (x : double) : Prop :=
  match x with
  | S754_zero _ => True
  | S754_finite _ m e => emin <= e <= b /\ Zpos m <= 2 ^ (b - e)
  | _ => False
  end.

Definition nonneg (x : double) : bool :=
  match x with S754_zero _ | S754_finite false _ _ => true | _ => false end.

Lemma upto_le a b x : a <= b -> upto a x -> upto b x.
Proof.
  destruct x as [| | |s m e]; try done. cbn. intros Hab [He Hm]. split; [lia|].
  pose proof (Z.pow_le_mono_r 2 (a - e) (b - e)). lia.
Qed.

Lemma upto_opp b x : upto b (SFopp x) <-> upto b x.
Proof. by destruct x. Qed.

Lemma fin_upto s m e b : 0 <= m <= 2 ^ (b - e) -> emin <= e <= b -> b <= 971 -> upto b (fin s m e).
Proof.
  intros Hm He Hb. destruct m as [|m|m]; [exact I| |lia]. cbn.
  rewrite (proj2 (Z.leb_le e 971)) by lia. cbn. lia.
Qed.

Lemma fin_sign s m e : nonneg (fin s m e) = false -> s = true \/ (0 < m /\ 971 < e).
Proof.
  destruct m as [|m|m]; [intros [=]| |intros [=]]. destruct s; [by left|]. unfold fin.
  destruct (Z.leb_spec e 971); [intros [=]|]. right. lia.
Qed.

Lemma Zdigits2_upto m d : 0 <= m <= 2 ^ d -> 0 <= d -> Zdigits2 m <= d + 1.
Proof.
  intros Hm Hd. destruct (decide (m = 0)) as [->|]; [cbn; lia|].
  apply Zdigits2_le; [lia..|]. rewrite Z.pow_add_r; lia.
Qed.

(** What is rounded is at most [2^b], with no remainder if it is [2^b]. *)
Definition rounds_upto (m d : Z) (l : location) : Prop :=
  0 <= m < 2 ^ d \/ (l = loc_Exact /\ 0 <= m <= 2 ^ d).

Lemma rounds_upto_spec s m e l b : rounds_upto m (b - e) l -> e <= b -> emin + 1 <= b < 971 ->
  exists mr, binary_round_aux dprec demax s m e l =
      (if mr =? 2 ^ 53 then fin s (2 ^ 52) (rexp m e + 1) else fin s mr (rexp m e)) /\
    0 <= mr <= 2 ^ (b - rexp m e) /\ e <= rexp m e <= b /\ emin <= rexp m e /\
    (mr = m / 2 ^ (rexp m e - e) \/ mr = m / 2 ^ (rexp m e - e) + 1) /\
    rexp m e <= e `max` ((b - 52) `max` emin) /\
    (l = loc_Exact -> rexp m e = e -> mr = m).
Proof.
  intros Hm He Hb. assert (0 <= m <= 2 ^ (b - e)) as Hm' by (destruct Hm as [|[_ ?]]; lia).
  destruct (round_aux_spec s m e l (proj1 Hm')) as (mr & Hmr & Hex & ->).
  pose proof (rexp_div m e (proj1 Hm')) as Hd.
  pose proof (Zdigits2_upto m (b - e) Hm' ltac:(lia)) as Hdig.
  assert (rexp m e <= e `max` ((b - 52) `max` emin)) as Hr
    by (unfold rexp; rewrite fexp_max; lia).
  assert (e <= rexp m e <= b /\ emin <= rexp m e) as He1
    by (unfold rexp in *; rewrite fexp_max in *; lia).
  exists mr. split_and!; try lia; try done; clear Hdig;
    set (r := rexp m e) in *; clearbody r;
    [|intros -> ->; rewrite Z.sub_diag, Z.div_1_r in Hex; apply Hex; lia || done].
  assert (2 ^ (b - e) = 2 ^ (b - r) * 2 ^ (r - e)) as Hpow.
  { rewrite <- Z.pow_add_r by lia. f_equal. lia. }
  assert (0 < 2 ^ (r - e)) as Hp by (apply Z.pow_pos_nonneg; lia).
  destruct (decide (m = 2 ^ (b - e))) as [Em|Hne].
  - destruct Hm as [?|[-> _]]; [lia|].
    assert (m / 2 ^ (r - e) = 2 ^ (b - r)) as Hq by (rewrite Em, Hpow; apply Z.div_mul; lia).
    rewrite Hq in Hex. rewrite (Hex eq_refl) by lia. lia.
  - assert (m / 2 ^ (r - e) < 2 ^ (b - r)); [|lia].
    apply Z.div_lt_upper_bound; lia.
Qed.

Lemma round_upto s m e l b : rounds_upto m (b - e) l -> e <= b -> emin + 1 <= b < 971 ->
  upto b (binary_round_aux dprec demax s m e l) /\
  (s = false -> nonneg (binary_round_aux dprec demax s m e l) = true).
Proof.
  intros Hm He Hb. destruct (rounds_upto_spec s m e l b Hm He Hb) as (mr & -> & Hmr & Hr & Hmin & _).
  destruct (Z.eqb_spec mr (2 ^ 53)) as [E|E].
  - assert (53 <= b - rexp m e) as Hr'.
    { destruct (Z.le_gt_cases 53 (b - rexp m e)); [done|].
      pose proof (Z.pow_lt_mono_r 2 (b - rexp m e) 53). lia. }
    split.
    + apply fin_upto; [|lia..]. split; [lia|]. apply Z.pow_le_mono_r; lia.
    + intros ->. apply not_false_iff_true. intros [|[_ ?]]%fin_sign; [done|lia].
  - split; [apply fin_upto; lia|]. intros ->. apply not_false_iff_true.
    intros [|[_ ?]]%fin_sign; [done|lia].
Qed.

Lemma upto_mul a b x y : upto a x -> upto b y -> emin + 1 <= a + b < 971 ->
  upto (a + b) (x * y)%D /\ (nonneg x = true -> nonneg y = true -> nonneg (x * y)%D = true).
Proof.
  intros Hx Hy Hab. destruct x as [sx| | |sx mx ex], y as [sy| | |sy my ey]; try done.
  cbn in Hx, Hy. cbn [SFmul].
  destruct (round_upto (xorb sx sy) (Zpos (mx * my)) (ex + ey) loc_Exact (a + b)) as [H1 H2];
    [|lia|done|].
  - right. split; [done|]. rewrite Pos2Z.inj_mul.
    replace (a + b - (ex + ey)) with ((a - ex) + (b - ey)) by lia.
    rewrite Z.pow_add_r by lia. nia.
  - split; [done|]. intros Hsx Hsy. apply H2. cbn in Hsx, Hsy. by destruct sx, sy.
Qed.

(** Aligning to an exponent keeps the value. *)
Lemma shl_align_spec m e e' :
  let '(m1, e1) := shl_align m e e' in e1 = e `min` e' /\ Zpos m1 = Zpos m * 2 ^ (e - e1).
Proof.
  unfold shl_align. destruct (e' - e) as [|d|d] eqn:E.
  - rewrite Z.min_l, Z.sub_diag by lia. cbn. lia.
  - rewrite Z.min_l, Z.sub_diag by lia. cbn. lia.
  - rewrite Z.min_r by lia. split; [done|]. replace (e - e') with (Zpos d) by lia. clear.
    induction d as [|d IH] using Pos.peano_ind; [cbn; lia|].
    rewrite Pos.iter_succ, Pos2Z.inj_succ, Z.pow_succ_r by lia.
    change (Zpos (Pos.iter xO m d)~0) with (2 * Zpos (Pos.iter xO m d)). lia.
Qed.

Lemma round_normal s m e : exists ez, ez <= e /\
  binary_round dprec demax s m e =
    binary_round_aux dprec demax s (Zpos m * 2 ^ (e - ez)) ez loc_Exact /\
  (emin <= e -> emin <= ez).
Proof.
  unfold binary_round. pose proof (shl_align_spec m e (fexp dprec demax (Zpos (digits2_pos m) + e))) as H.
  destruct (shl_align _ _ _) as [mz ez]. destruct H as [E Hmz].
  exists ez. rewrite <- Hmz. split; [lia|]. split; [done|]. rewrite fexp_max in E. lia.
Qed.

Lemma normalize_upto m e z b : Z.abs m <= 2 ^ (b - e) -> e <= b -> emin + 1 <= b < 971 ->
  upto b (binary_normalize dprec demax m e z) /\
  (0 <= m -> nonneg (binary_normalize dprec demax m e z) = true).
Proof.
  intros Hm He Hb.
  assert (forall s p, Zpos p <= 2 ^ (b - e) -> upto b (binary_round dprec demax s p e) /\
    (s = false -> nonneg (binary_round dprec demax s p e) = true)) as H.
  { intros s p Hp. destruct (round_normal s p e) as (ez & Hez & -> & _). apply round_upto; [|lia..].
    right. split; [done|]. replace (b - ez) with ((b - e) + (e - ez)) by lia.
    rewrite Z.pow_add_r by lia. pose proof (Z.pow_pos_nonneg 2 (e - ez)). nia. }
  destruct m as [|m|m]; cbn [binary_normalize].
  - by destruct z.
  - destruct (H false m) as [H1 H2]; [lia|]. split; [done|by intros; apply H2].
  - destruct (H true m) as [H1 H2]; [lia|]. split; [done|lia].
Qed.

Lemma truncate_upto b x : 0 <= b -> upto b x -> exists n, truncate x = Some n /\ - 2 ^ b <= n <= 2 ^ b /\
  (nonneg x = true -> 0 <= n).
Proof.
  intros Hb. destruct x as [s| | |s m e]; try done.
  - intros _. exists 0. pose proof (Z.pow_pos_nonneg 2 b). split_and!; [done|lia..|lia].
  - cbn [upto truncate nonneg]. intros [He Hm].
    assert (0 <= Z.shiftl (Zpos m) e <= 2 ^ b) as Hn.
    { destruct (Z.le_gt_cases 0 e).
      - rewrite Z.shiftl_mul_pow2 by done. replace b with ((b - e) + e) by lia.
        rewrite Z.pow_add_r by lia. pose proof (Z.pow_pos_nonneg 2 e). nia.
      - replace e with (- - e) at 1 2 by lia. rewrite Z.shiftl_opp_r, Z.shiftr_div_pow2 by lia.
        split; [apply Z.div_pos; lia|]. apply Z.div_le_upper_bound; [lia|].
        rewrite <- Z.pow_add_r by lia. by replace (- e + b) with (b - e) by lia. }
    eexists. split; [done|]. destruct s; split_and!; lia || done.
Qed.

(** ** Exact results *)

Lemma round_exact s m e : 0 <= m < 2 ^ 53 -> rexp m e = e ->
  binary_round_aux dprec demax s m e loc_Exact = fin s m e.
Proof.
  intros Hm He. destruct (round_aux_spec s m e loc_Exact (proj1 Hm)) as (mr & _ & Hex & ->).
  rewrite He, Z.sub_diag, Z.div_1_r in Hex. rewrite (Hex eq_refl) by lia.
  by rewrite (proj2 (Z.eqb_neq m (2 ^ 53))), He by lia.
Qed.

Lemma pow_scale a x b k : 0 <= k -> a <= x < b -> a * 2 ^ k <= x * 2 ^ k < b * 2 ^ k.
Proof.
  intros Hk Hx. pose proof (Z.pow_pos_nonneg 2 k).
  split; [apply Z.mul_le_mono_nonneg_r|apply Z.mul_lt_mono_pos_r]; lia.
Qed.

(** Integers below [2^53] are doubles, with a mantissa of 53 bits. *)
Lemma of_Z_fin n : 0 < n < 2 ^ 53 ->
  of_Z n = fin false (n * 2 ^ (53 - Zdigits2 n)) (Zdigits2 n - 53) /\ Zdigits2 n <= 53.
Proof.
  intros Hn. pose proof (Zdigits2_le n 53 ltac:(lia) ltac:(lia) (proj2 Hn)) as Hd.
  destruct (Zdigits2_spec n (proj1 Hn)) as [Hs Hp]. split; [|done].
  unfold of_Z. destruct n as [|n|n]; [lia| |lia]. cbn [binary_normalize]. unfold binary_round.
  change (Zpos (digits2_pos n)) with (Zdigits2 (Zpos n)).
  rewrite fexp_max, Z.add_0_r, Z.max_l by (unfold emin; lia).
  pose proof (shl_align_spec n 0 (Zdigits2 (Zpos n) - 53)) as H.
  destruct (shl_align _ _ _) as [mz ez]. destruct H as [-> Hmz]. rewrite Z.min_r in * by lia.
  replace (0 - (Zdigits2 (Zpos n) - 53)) with (53 - Zdigits2 (Zpos n)) in Hmz by lia.
  rewrite <- Hmz. assert (2 ^ 52 <= Zpos mz < 2 ^ 53) as Hr.
  { rewrite Hmz. set (d := Zdigits2 (Zpos n)) in *.
    pose proof (pow_scale _ _ _ (53 - d) ltac:(lia) Hs) as H. rewrite <- !Z.pow_add_r in H by lia.
    replace (d - 1 + (53 - d)) with 52 in H by lia. replace (d + (53 - d)) with 53 in H by lia. exact H. }
  apply round_exact; [lia|]. unfold rexp. rewrite (Zdigits2_unique (Zpos mz) 53) by (change (53 - 1) with 52; lia).
  rewrite fexp_max. unfold emin. lia.
Qed.

Lemma of_Z_upto n b : 0 <= n < 2 ^ 53 -> n <= 2 ^ b -> 0 <= b <= 53 ->
  upto b (of_Z n) /\ nonneg (of_Z n) = true.
Proof.
  intros Hn Hb Hb'. destruct (normalize_upto n 0 false b) as [H1 H2]; [|unfold emin; lia..|].
  - rewrite Z.sub_0_r. lia.
  - split; [done|]. apply H2. lia.
Qed.

Lemma shiftl_split m e : exists r, 0 <= r < 2 ^ (- (e `min` 0)) /\
  m * 2 ^ (e - e `min` 0) = Z.shiftl m e * 2 ^ (- (e `min` 0)) + r.
Proof.
  destruct (Z.le_gt_cases 0 e).
  - exists 0. rewrite Z.min_r, Z.sub_0_r, Z.shiftl_mul_pow2 by lia. cbn. lia.
  - exists (m mod 2 ^ (- e)). rewrite Z.min_l, Z.sub_diag by lia. split; [apply Z.mod_pos_bound; lia|].
    replace (Z.shiftl m e) with (m / 2 ^ (- e)).
    + rewrite Z.mul_1_r, Z.mul_comm. apply Z.div_mod. lia.
    + rewrite <- Z.shiftr_div_pow2, <- Z.shiftl_opp_r by lia. by rewrite Z.opp_involutive.
Qed.

(** The fraction of a number that is not negative. *)
Lemma fraction_upto x n : nonneg x = true -> upto 52 x -> truncate x = Some n ->
  upto 0 (x - of_Z n)%D /\ nonneg (x - of_Z n)%D = true.
Proof.
  intros Hx Hb Ht. destruct (truncate_upto 52 x) as (n' & Ht' & Hn & Hn0); [done..|].
  rewrite Ht in Ht'. injection Ht' as <-. specialize (Hn0 Hx).
  destruct x as [s| | |[] m e]; try done.
  { cbn in Ht. injection Ht as <-. by destruct s. }
  cbn in Ht, Hb. injection Ht as <-. destruct (shiftl_split (Zpos m) e) as (r & Hr & Hs).
  destruct (decide (Z.shiftl (Zpos m) e = 0)) as [E|E].
  { rewrite E in *. cbn. split; [|done].
    destruct (Z.le_gt_cases 0 e); [rewrite Z.shiftl_mul_pow2 in E by done; lia|].
    rewrite Z.min_l, Z.sub_diag in * by lia.
    split; [lia|]. replace (0 - e) with (- e) by lia. lia. }
  set (n := Z.shiftl (Zpos m) e) in *. destruct (of_Z_fin n) as [-> Hd]; [lia|].
  destruct (Zdigits2_spec n) as [Hs' Hp]; [lia|].
  assert (0 < n * 2 ^ (53 - Zdigits2 n)) as Hpos by lia.
  destruct (n * 2 ^ (53 - Zdigits2 n)) as [|mw|] eqn:Emw; [lia| |lia]. unfold fin.
  rewrite (proj2 (Z.leb_le _ 971)) by lia. cbn [SFsub cond_Zopp].
  set (ew := Zdigits2 n - 53) in *. set (ez := e `min` ew).
  pose proof (shl_align_spec m e ez) as H1. destruct (shl_align m e ez) as [m1 e1].
  pose proof (shl_align_spec mw ew ez) as H2. destruct (shl_align mw ew ez) as [m2 e2].
  destruct H1 as [-> H1], H2 as [-> H2]. cbn [fst].
  rewrite (Z.min_r e ez) in H1 by lia. rewrite (Z.min_r ew ez) in H2 by lia.
  assert (0 <= Zpos m1 - Zpos m2 <= 2 ^ (0 - ez)) as HS;
    [|by destruct (normalize_upto (Zpos m1 - Zpos m2) ez false 0) as [? Hn2]; [lia|unfold emin; lia..|];
      split; [|apply Hn2; lia]].
  assert (Zpos m1 = (n * 2 ^ (- (e `min` 0)) + r) * 2 ^ (e `min` 0 - ez)) as ->.
  { rewrite H1, <- Hs, <- Z.mul_assoc, <- Z.pow_add_r by lia. do 2 f_equal. lia. }
  assert (Zpos m2 = n * 2 ^ (- (e `min` 0)) * 2 ^ (e `min` 0 - ez)) as ->.
  { rewrite H2, <- Emw, <- !Z.mul_assoc, <- !Z.pow_add_r by lia. do 2 f_equal. lia. }
  replace (2 ^ (0 - ez)) with (2 ^ (- (e `min` 0)) * 2 ^ (e `min` 0 - ez)) by
    (rewrite <- Z.pow_add_r by lia; f_equal; lia).
  pose proof (Z.pow_pos_nonneg 2 (e `min` 0 - ez)). nia.
Qed.

(** ** Rounded numbers are doubles *)

Lemma valid_fin s m e : fexp dprec demax (Zdigits2 m + e) = e -> valid (fin s m e) = true.
Proof.
  intros He. destruct m as [|m|m]; [done| |done]. cbn. destruct (Z.leb_spec e 971); [|done].
  unfold valid, valid_binary, bounded, canonical_mantissa.
  change (Zpos (digits2_pos m)) with (Zdigits2 (Zpos m)). rewrite He, Z.eqb_refl.
  apply Z.leb_le. by change (demax - dprec) with 971.
Qed.

Lemma round_valid s m e l : 0 <= m -> e <= fexp dprec demax (Zdigits2 m + e) ->
  valid (binary_round_aux dprec demax s m e l) = true.
Proof.
  intros Hm He. destruct (round_aux_spec s m e l Hm) as (mr & Hmr & _ & ->).
  pose proof (rexp_div m e Hm) as Hd. assert (rexp m e = fexp dprec demax (Zdigits2 m + e)) as Hr
    by (unfold rexp; lia). rewrite fexp_max in Hr, He.
  destruct (Z.eqb_spec mr (2 ^ 53)) as [E|E].
  - apply valid_fin. change (Zdigits2 (2 ^ 52)) with 53. rewrite fexp_max. lia.
  - destruct (decide (mr = 0)) as [->|Hne]; [done|]. apply valid_fin. rewrite fexp_max.
    pose proof (Zdigits2_le mr 53 ltac:(lia) ltac:(lia) ltac:(lia)).
    destruct (Z.le_gt_cases (Zdigits2 m + e - 53) emin); [unfold emin in *; lia|].
    assert (2 ^ 52 <= m / 2 ^ (rexp m e - e)).
    { destruct (decide (m = 0)) as [->|]; [change (Zdigits2 0) with 0 in *; lia|].
      destruct (Zdigits2_spec m) as [[Hs _] _]; [lia|].
      apply Z.div_le_lower_bound; [apply Z.pow_pos_nonneg; lia|].
      rewrite <- Z.pow_add_r by lia.
      by replace (rexp m e - e + 52) with (Zdigits2 m - 1) by lia. }
    rewrite (Zdigits2_unique mr 53) by (change (53 - 1) with 52; lia). lia.
Qed.

(** ** Quotients *)

(** At least [2^g]. *)
Definition above (g : Z) (x : double) : Prop :=
  match x with S754_finite _ m e => 2 ^ (g - e) <= Zpos m /\ e <= g | _ => False end.

Lemma div_core_spec m1 e1 m2 e2 : 0 < m1 -> 0 < m2 ->
  let D := Zdigits2 m1 + e1 - (Zdigits2 m2 + e2) in
  let e' := fexp dprec demax D `min` (e1 - e2) in
  exists l, SFdiv_core_binary dprec demax m1 e1 m2 e2 = (m1 * 2 ^ (e1 - e2 - e') / m2, e', l).
Proof.
  intros H1 H2. cbn zeta. unfold SFdiv_core_binary. set (e' := _ `min` _).
  assert (match e1 - e2 - e' with 0 => m1 | Zpos _ => Z.shiftl m1 (e1 - e2 - e') | Zneg _ => 0 end
    = m1 * 2 ^ (e1 - e2 - e')) as ->.
  { assert (0 <= e1 - e2 - e') by lia. destruct (e1 - e2 - e') eqn:E; [lia| |lia].
    by rewrite Z.shiftl_mul_pow2 by lia. }
  unfold Z.div. destruct (Z.div_eucl _ m2) as [q r]. by eexists.
Qed.

(** A quotient has the digits the exponents say, or one more. *)
Lemma quotient_digits m1 e1 m2 e2 : 0 < m1 -> 0 < m2 ->
  let D := Zdigits2 m1 + e1 - (Zdigits2 m2 + e2) in
  let e' := fexp dprec demax D `min` (e1 - e2) in
  let q := m1 * 2 ^ (e1 - e2 - e') / m2 in
  0 <= q /\ e' <= fexp dprec demax (Zdigits2 q + e').
Proof.
  intros H1 H2. cbn zeta. set (D := _ + e1 - _). set (e' := _ `min` _).
  set (q := _ / m2).
  destruct (Zdigits2_spec m1 H1) as [Hs1 Hp1]. destruct (Zdigits2_spec m2 H2) as [Hs2 Hp2].
  assert (0 <= q) as Hq by (apply Z.div_pos; lia). split; [done|].
  assert (e' = ((D - 53) `max` emin) `min` (e1 - e2)) as He by (unfold e'; by rewrite fexp_max).
  rewrite fexp_max. destruct (Z.le_gt_cases (D - e') (Zdigits2 q)); [lia|].
  destruct (Z.le_gt_cases e' emin); [lia|]. exfalso.
  assert (D - e' <= Zdigits2 q); [|lia]. destruct (Z.le_gt_cases (D - e') 0) as [Hn|Hn].
  { destruct (decide (q = 0)) as [E|E]; [rewrite E; done|].
    destruct (Zdigits2_spec q) as [_ ?]; lia. }
  assert (2 ^ (D - e' - 1) <= q) as Hlow.
  { apply Z.div_le_lower_bound; [done|].
    apply Z.le_trans with (2 ^ (Zdigits2 m2) * 2 ^ (D - e' - 1)).
    - apply Z.mul_le_mono_nonneg_r; lia.
    - rewrite <- Z.pow_add_r by lia.
      replace (Zdigits2 m2 + (D - e' - 1)) with ((Zdigits2 m1 - 1) + (e1 - e2 - e')) by lia.
      rewrite Z.pow_add_r by lia. apply Z.mul_le_mono_nonneg_r; lia. }
  assert (0 < q) as Hq0 by (pose proof (Z.pow_pos_nonneg 2 (D - e' - 1)); lia).
  destruct (Zdigits2_spec q Hq0) as [Hs Hp].
  destruct (Z.le_gt_cases (D - e') (Zdigits2 q)); [done|].
  pose proof (Z.pow_le_mono_r 2 (Zdigits2 q) (D - e' - 1)). lia.
Qed.

Lemma div_valid g x y : nonneg x = true -> above g y -> valid (x / y)%D = true.
Proof.
  destruct x as [sx| | |sx m1 e1], y as [| | |sy m2 e2]; try done. intros _ _. cbn [SFdiv].
  destruct (div_core_spec (Zpos m1) e1 (Zpos m2) e2) as [l ->]; [done..|].
  destruct (quotient_digits (Zpos m1) e1 (Zpos m2) e2) as [Hq He]; [done..|]. by apply round_valid.
Qed.

Lemma div_upto a g x y : nonneg x = true -> nonneg y = true -> upto a x -> above g y ->
  emin + 1 <= a - g < 970 -> upto (a - g + 1) (x / y)%D /\ nonneg (x / y)%D = true.
Proof.
  destruct x as [sx| | |[] m1 e1], y as [| | |[] m2 e2]; try done.
  intros _ _ [He1 H1] [H2 He2] Hag. cbn [SFdiv].
  destruct (div_core_spec (Zpos m1) e1 (Zpos m2) e2) as [l ->]; [done..|].
  destruct (quotient_digits (Zpos m1) e1 (Zpos m2) e2) as [Hq _]; [done..|].
  set (D := _ + e1 - _) in *. set (e' := _ `min` _) in *.
  destruct (Zdigits2_spec (Zpos m2)) as [Hs2 Hp2]; [done|].
  pose proof (Zdigits2_upto (Zpos m1) (a - e1) ltac:(lia) ltac:(lia)).
  assert (g - e2 <= Zdigits2 (Zpos m2) - 1).
  { destruct (Z.le_gt_cases (g - e2) (Zdigits2 (Zpos m2) - 1)); [done|].
    pose proof (Z.pow_le_mono_r 2 (Zdigits2 (Zpos m2)) (g - e2)). lia. }
  assert (e' <= a - g) as Hea by (unfold e'; rewrite fexp_max; lia).
  destruct (round_upto false (Zpos m1 * 2 ^ (e1 - e2 - e') / Zpos m2) e' l (a - g + 1))
    as [R1 R2]; [left|lia..|by split; [|apply R2]].
  split; [done|]. apply Z.div_lt_upper_bound; [done|].
  apply Z.le_lt_trans with (2 ^ (g - e2) * 2 ^ (a - g - e')).
  - rewrite <- Z.pow_add_r by lia.
    replace (g - e2 + (a - g - e')) with ((a - e1) + (e1 - e2 - e')) by lia.
    rewrite Z.pow_add_r by lia. apply Z.mul_le_mono_nonneg_r; [apply Z.pow_nonneg; lia|done].
  - replace (a - g + 1 - e') with (Z.succ (a - g - e')) by lia. rewrite Z.pow_succ_r by lia.
    pose proof (Z.pow_pos_nonneg 2 (a - g - e')). nia.
Qed.

(** ** Comparisons *)

Lemma ltb_opp x y : (SFopp y <? SFopp x)%D = (x <? y)%D.
Proof.
  unfold SFltb. destruct x as [[]|[]| |[] m e], y as [[]|[]| |[] n f]; try done.
  all: cbn [SFcompare SFopp negb]; rewrite (Z.compare_antisym e f).
  all: rewrite !Pos.compare_cont_spec, (Pos.compare_antisym m n).
  all: by destruct (e ?= f), (m ?= n)%positive.
Qed.

Lemma valid_finite s m e : valid (S754_finite s m e) = true ->
  emin <= e <= 971 /\ Zdigits2 (Zpos m) <= 53 /\ (emin < e -> Zdigits2 (Zpos m) = 53).
Proof.
  unfold valid, valid_binary, bounded, canonical_mantissa. rewrite andb_true_iff, Z.eqb_eq, Z.leb_le.
  rewrite fexp_max. change (Zpos (digits2_pos m)) with (Zdigits2 (Zpos m)).
  change (demax - dprec) with 971. lia.
Qed.

(** A constant with a mantissa of 53 bits, and a number on one side of it. *)
Lemma upto_not_lt b s m e x : valid x = true -> upto b x -> nonneg x = true ->
  2 ^ 52 < Zpos m -> b <= e + 52 -> emin <= e -> (S754_finite s m e <? x)%D = s.
Proof.
  destruct x as [sx| | |[] mx ex]; try done; [by destruct s|].
  intros Hv%valid_finite [He Hm] _ H52 Hb Hmin. destruct s; [done|]. unfold SFltb. cbn [SFcompare].
  pose proof (Zdigits2_upto (Zpos mx) (b - ex) ltac:(lia) ltac:(lia)).
  destruct (Z.compare_spec e ex) as [E|E|E]; [|lia|done].
  subst ex. rewrite Pos.compare_cont_spec. cbn.
  assert (mx < m)%positive as Hlt.
  { apply Pos2Z.pos_lt_pos. pose proof (Z.pow_le_mono_r 2 (b - e) 52). lia. }
  apply Pos.compare_gt_iff in Hlt. by rewrite Hlt.
Qed.

Lemma not_lt_upto m e x : valid x = true -> nonneg x = true -> emin <= e ->
  (S754_finite false m e <? x)%D = false -> upto (e + 53) x.
Proof.
  destruct x as [sx| | |[] mx ex]; try done. intros Hv%valid_finite _ He.
  unfold SFltb. cbn [SFcompare upto].
  destruct (Zdigits2_spec (Zpos mx)) as [[_ Hs] _]; [done|].
  pose proof (Z.pow_le_mono_r 2 (Zdigits2 (Zpos mx)) (e + 53 - ex)).
  destruct (Z.compare_spec e ex) as [E|E|E]; [|done|]; intros _; lia.
Qed.

Lemma lt_upto m e x : valid x = true -> nonneg x = true -> emin <= e ->
  (x <? S754_finite false m e)%D = true -> upto (e + 53) x.
Proof.
  destruct x as [sx| | |[] mx ex]; try done. intros Hv%valid_finite _ He.
  unfold SFltb. cbn [SFcompare upto].
  destruct (Zdigits2_spec (Zpos mx)) as [[_ Hs] _]; [done|].
  pose proof (Z.pow_le_mono_r 2 (Zdigits2 (Zpos mx)) (e + 53 - ex)).
  destruct (Z.compare_spec ex e) as [E|E|E]; [| |done]; intros _; lia.
Qed.

(** ** Sums

    A finite double is a multiple of [2^emin]. *)

Definition scaled (x : double) : Z :=
  match x with S754_finite s m e => cond_Zopp s (Zpos m * 2 ^ (e - emin)) | _ => 0 end.

Lemma truncate_scaled b x : upto b x -> truncate x = Some (Z.quot (scaled x) (2 ^ (- emin))).
Proof.
  destruct x as [s| | |s m e]; try done. intros [He _]. unfold truncate, scaled. f_equal.
  assert (Z.quot (Zpos m * 2 ^ (e - emin)) (2 ^ (- emin)) = Z.shiftl (Zpos m) e) as Hq.
  { rewrite Z.quot_div_nonneg by (try apply Z.mul_nonneg_nonneg; unfold emin in *; lia).
    destruct (Z.le_gt_cases 0 e).
    - rewrite Z.shiftl_mul_pow2 by lia.
      replace (e - emin) with (e + - emin) by lia. rewrite Z.pow_add_r by (unfold emin; lia).
      rewrite Z.mul_assoc. apply Z.div_mul. unfold emin. lia.
    - replace e with (- - e) at 2 by lia. rewrite Z.shiftl_opp_r, Z.shiftr_div_pow2 by lia.
      replace (2 ^ (- emin)) with (2 ^ (- e) * 2 ^ (e - emin)) by
        (rewrite <- Z.pow_add_r by (unfold emin in *; lia); f_equal; lia).
      apply Z.div_mul_cancel_r; apply Z.pow_nonzero; lia. }
  destruct s; cbn [cond_Zopp]; [|done]. by rewrite Z.quot_opp_l, Hq by (unfold emin; lia).
Qed.

Lemma scaled_fin s m e : 0 <= m -> e <= 971 -> scaled (fin s m e) = cond_Zopp s (m * 2 ^ (e - emin)).
Proof.
  intros Hm He. destruct m as [|m|m]; [by destruct s| |lia]. unfold fin.
  by rewrite (proj2 (Z.leb_le e 971)) by lia.
Qed.

(** The error of rounding is at most one in the last place. *)
Lemma round_scaled s m e b : 0 <= m <= 2 ^ (b - e) -> emin <= e <= b -> emin + 52 <= b < 900 ->
  Z.abs (scaled (binary_round_aux dprec demax s m e loc_Exact) - cond_Zopp s (m * 2 ^ (e - emin)))
    <= 2 ^ (b - 52 - emin).
Proof.
  intros Hm He Hb.
  destruct (rounds_upto_spec s m e loc_Exact b) as (mr & -> & Hmr & Hr & Hmin & Hq & Hrb & Hex);
    [by right|lia..|]. set (r := rexp m e) in *. clearbody r.
  assert (scaled (if mr =? 2 ^ 53 then fin s (2 ^ 52) (r + 1) else fin s mr r) =
    cond_Zopp s (mr * 2 ^ (r - emin))) as ->.
  { destruct (Z.eqb_spec mr (2 ^ 53)) as [->|]; rewrite scaled_fin by lia; [|done].
    replace (r + 1 - emin) with (1 + (r - emin)) by lia. by rewrite Z.pow_add_r, Z.mul_assoc by lia. }
  assert (2 ^ (r - emin) = 2 ^ (r - e) * 2 ^ (e - emin)) as Hpow.
  { rewrite <- Z.pow_add_r by lia. f_equal. lia. }
  assert (Z.abs (mr * 2 ^ (r - emin) - m * 2 ^ (e - emin)) <= 2 ^ (b - 52 - emin)) as H.
  { pose proof (Z.pow_pos_nonneg 2 (e - emin)) as Hp1. pose proof (Z.pow_pos_nonneg 2 (r - e)) as Hp2.
    destruct (decide (r = e)) as [->|Hne].
    - rewrite (Hex eq_refl eq_refl), Z.sub_diag. apply Z.pow_nonneg. lia.
    - apply Z.le_trans with (2 ^ (r - emin)); [|apply Z.pow_le_mono_r; lia].
      rewrite Hpow. pose proof (Z.div_mod m (2 ^ (r - e)) ltac:(lia)).
      pose proof (Z.mod_pos_bound m (2 ^ (r - e)) ltac:(lia)).
      replace (mr * (2 ^ (r - e) * 2 ^ (e - emin)) - m * 2 ^ (e - emin)) with
        ((mr * 2 ^ (r - e) - m) * 2 ^ (e - emin)) by lia.
      rewrite Z.abs_mul, (Z.abs_eq (2 ^ (e - emin))) by lia.
      apply Z.mul_le_mono_nonneg_r; [lia|]. destruct Hq as [-> | ->]; lia. }
  destruct s; cbn [cond_Zopp]; lia.
Qed.

Lemma normalize_scaled m e z b : Z.abs m <= 2 ^ (b - e) -> emin <= e <= b -> emin + 52 <= b < 900 ->
  Z.abs (scaled (binary_normalize dprec demax m e z) - m * 2 ^ (e - emin)) <= 2 ^ (b - 52 - emin).
Proof.
  intros Hm He Hb.
  assert (forall s p, Zpos p <= 2 ^ (b - e) ->
    Z.abs (scaled (binary_round dprec demax s p e) - cond_Zopp s (Zpos p * 2 ^ (e - emin)))
      <= 2 ^ (b - 52 - emin)) as H.
  { intros s p Hp. destruct (round_normal s p e) as (ez & Hez & -> & Hmin). specialize (Hmin (proj1 He)).
    replace (Zpos p * 2 ^ (e - emin)) with (Zpos p * 2 ^ (e - ez) * 2 ^ (ez - emin))
      by (rewrite <- Z.mul_assoc, <- Z.pow_add_r by lia; do 2 f_equal; lia).
    apply round_scaled; [|lia..]. replace (b - ez) with ((b - e) + (e - ez)) by lia.
    rewrite Z.pow_add_r by lia. pose proof (Z.pow_pos_nonneg 2 (e - ez)). nia. }
  destruct m as [|m|m]; cbn [binary_normalize].
  - cbn. apply Z.pow_nonneg. lia.
  - apply (H false). lia.
  - replace (Zneg m * _) with (cond_Zopp true (Zpos m * 2 ^ (e - emin))) by (cbn [cond_Zopp]; lia).
    apply H. lia.
Qed.

Lemma sub_add_opp x y : (x - y)%D = (x + SFopp y)%D.
Proof.
  destruct x as [[]|[]| |[] ? ?], y as [[]|[]| |[] ? ?]; try done; cbn [SFsub SFadd SFopp negb cond_Zopp].
  all: by rewrite <- ?Z.sub_opp_r, ?Z.opp_involutive.
Qed.

Lemma upto_add_scaled b x y : upto b x -> upto b y -> emin + 52 <= b < 899 ->
  upto (b + 1) (x + y)%D /\
  Z.abs (scaled (x + y)%D - (scaled x + scaled y)) <= 2 ^ (b - 51 - emin).
Proof.
  intros Hx Hy Hb. pose proof (Z.pow_nonneg 2 (b - 51 - emin) ltac:(lia)) as Hp.
  destruct x as [sx| | |sx mx ex], y as [sy| | |sy my ey]; try done.
  - by destruct sx, sy.
  - split; [by apply (upto_le b); [lia|]|]. cbn [SFadd]. cbn [scaled]. rewrite Z.add_0_l. lia.
  - split; [by apply (upto_le b); [lia|]|]. cbn [SFadd scaled]. lia.
  - cbn [SFadd]. destruct Hx as [He1 H1], Hy as [He2 H2]. set (ez := ex `min` ey).
    pose proof (shl_align_spec mx ex ez) as Ha. destruct (shl_align mx ex ez) as [m1 e1].
    pose proof (shl_align_spec my ey ez) as Hc. destruct (shl_align my ey ez) as [m2 e2].
    destruct Ha as [E1 Ha], Hc as [E2 Hc]. cbn [fst].
    assert (e1 = ez) as -> by lia. assert (e2 = ez) as -> by lia.
    assert (Zpos m1 <= 2 ^ (b - ez)) as Hm1.
    { rewrite Ha. replace (b - ez) with ((b - ex) + (ex - ez)) by lia. rewrite Z.pow_add_r by lia.
      apply Z.mul_le_mono_nonneg_r; lia. }
    assert (Zpos m2 <= 2 ^ (b - ez)) as Hm2.
    { rewrite Hc. replace (b - ez) with ((b - ey) + (ey - ez)) by lia. rewrite Z.pow_add_r by lia.
      apply Z.mul_le_mono_nonneg_r; lia. }
    assert (Z.abs (cond_Zopp sx (Zpos m1) + cond_Zopp sy (Zpos m2)) <= 2 ^ (b + 1 - ez)) as HS.
    { replace (b + 1 - ez) with (Z.succ (b - ez)) by lia. rewrite Z.pow_succ_r by lia.
      destruct sx, sy; cbn [cond_Zopp]; lia. }
    split; [by apply normalize_upto; lia|].
    replace (b - 51 - emin) with (b + 1 - 52 - emin) by lia.
    pose proof (normalize_scaled _ ez false (b + 1) HS ltac:(lia) ltac:(lia)) as H.
    cbn [scaled]. replace (_ * 2 ^ (ez - emin)) with
      (cond_Zopp sx (Zpos mx * 2 ^ (ex - emin)) + cond_Zopp sy (Zpos my * 2 ^ (ey - emin))) in H; [done|].
    assert (Zpos mx * 2 ^ (ex - emin) = Zpos m1 * 2 ^ (ez - emin)) as ->
      by (rewrite Ha, <- Z.mul_assoc, <- Z.pow_add_r by lia; do 2 f_equal; lia).
    assert (Zpos my * 2 ^ (ey - emin) = Zpos m2 * 2 ^ (ez - emin)) as ->
      by (rewrite Hc, <- Z.mul_assoc, <- Z.pow_add_r by lia; do 2 f_equal; lia).
    destruct sx, sy; cbn [cond_Zopp]; lia.
Qed.

(** A small summand moves the integer part by what it can. *)
Lemma truncate_add b x y d : upto b x -> upto b y -> 0 <= b < 899 ->
  Z.abs (scaled y) + 2 ^ (b - 51 - emin) <= d -> exists n, truncate (x + y)%D = Some n /\
  Z.quot (scaled x - d) (2 ^ (- emin)) <= n <= Z.quot (scaled x + d) (2 ^ (- emin)).
Proof.
  intros Hx Hy Hb Hd. destruct (upto_add_scaled b x y Hx Hy) as [H1 H2]; [unfold emin; lia|].
  eexists. split; [by apply (truncate_scaled (b + 1))|].
  split; apply Z.quot_le_mono; unfold emin in *; lia.
Qed.

(** ** Integers *)

Lemma truncate_of_Z n : 0 <= n < 2 ^ 53 -> truncate (of_Z n) = Some n.
Proof.
  intros Hn. destruct (decide (n = 0)) as [->|]; [done|].
  destruct (of_Z_fin n) as [-> Hd]; [lia|]. set (d := Zdigits2 n) in *.
  assert (0 < n * 2 ^ (53 - d)) as Hp by (pose proof (Z.pow_pos_nonneg 2 (53 - d)); nia).
  destruct (n * 2 ^ (53 - d)) as [|m|m] eqn:Em; [lia| |lia]. unfold fin.
  rewrite (proj2 (Z.leb_le _ 971)) by lia. cbn [truncate]. f_equal.
  replace (d - 53) with (- (53 - d)) by lia. rewrite Z.shiftl_opp_r, Z.shiftr_div_pow2 by lia.
  rewrite <- Em. apply Z.div_mul. lia.
Qed.

Lemma sub_diag x b : nonneg x = true -> upto b x -> (x - x)%D = S754_zero false.
Proof.
  destruct x as [[]| | |[] m e]; try done. intros _ _. cbn [SFsub cond_Zopp].
  by rewrite Z.sub_diag.
Qed.

Lemma of_Z_finite n : 0 < n < 2 ^ 53 -> exists m, of_Z n = S754_finite false m (Zdigits2 n - 53) /\
  Zpos m = n * 2 ^ (53 - Zdigits2 n) /\ Zdigits2 n <= 53.
Proof.
  intros Hn. destruct (of_Z_fin n Hn) as [-> Hd].
  assert (0 < n * 2 ^ (53 - Zdigits2 n)) as Hp.
  { pose proof (Z.pow_pos_nonneg 2 (53 - Zdigits2 n)). nia. }
  destruct (n * 2 ^ (53 - Zdigits2 n)) as [|m|m]; [lia| |lia]. exists m. unfold fin.
  by rewrite (proj2 (Z.leb_le _ 971)) by lia.
Qed.

Lemma ltb_of_Z a b : 0 < a < 2 ^ 53 -> 0 <= b < 2 ^ 53 -> (of_Z a <? of_Z b)%D = (a <? b).
Proof.
  intros Ha Hb. destruct (of_Z_finite a Ha) as (m & -> & Hm & Hda).
  destruct (decide (b = 0)) as [->|Hb0]; [symmetry; apply Z.ltb_ge; lia|].
  destruct (of_Z_finite b) as (n & -> & Hn & Hdb); [lia|].
  destruct (Zdigits2_spec a) as [Hsa Hpa]; [lia|]. destruct (Zdigits2_spec b) as [Hsb Hpb]; [lia|].
  unfold SFltb. cbn [SFcompare]. rewrite Pos.compare_cont_spec.
  destruct (Z.compare_spec (Zdigits2 a - 53) (Zdigits2 b - 53)) as [E|E|E].
  - assert (Zdigits2 a = Zdigits2 b) as E' by lia. rewrite E' in Hm.
    assert (0 < 2 ^ (53 - Zdigits2 b)) as Hp by (apply Z.pow_pos_nonneg; lia).
    cbn. change (m ?= n)%positive with (Zpos m ?= Zpos n). rewrite Hm, Hn.
    destruct (Z.compare_spec (a * 2 ^ (53 - Zdigits2 b)) (b * 2 ^ (53 - Zdigits2 b)));
      symmetry; apply Z.ltb_lt || apply Z.ltb_ge; nia.
  - pose proof (Z.pow_le_mono_r 2 (Zdigits2 a) (Zdigits2 b - 1)). symmetry. apply Z.ltb_lt. lia.
  - pose proof (Z.pow_le_mono_r 2 (Zdigits2 b) (Zdigits2 a - 1)). symmetry. apply Z.ltb_ge. lia.
Qed.
