(* ===== verification/Ntoa.v ===== *)
(** * The number formatter of printf

    Models the constants and helpers of printf.c and the formatter of
    integers: [_out_rev], [_ntoa_format], [_ntoa_long].  An output function
    receives a character, the sink, the index and the bound, as
    [out_fct_type] does; the sink's type is a parameter.  On RV64 [long],
    [long long], [size_t] and [intmax_t] are 64 bits wide, so
    [_ntoa_long_long] is [_ntoa_long]. *)

From Stdlib Require Import Ascii.
From S2P Require Import Prelude.

(** ** Characters and flags *)

Definition ch (a : Ascii.ascii) : Z := Z.of_N (Ascii.N_of_ascii a).
Arguments ch a%_char.

Definition PRINTF_NTOA_BUFFER_SIZE : Z := 32.

Definition FLAGS_ZEROPAD : Z := Z.shiftl 1 0.
Definition FLAGS_LEFT : Z := Z.shiftl 1 1.
Definition FLAGS_PLUS : Z := Z.shiftl 1 2.
Definition FLAGS_SPACE : Z := Z.shiftl 1 3.
Definition FLAGS_HASH : Z := Z.shiftl 1 4.
Definition FLAGS_UPPERCASE : Z := Z.shiftl 1 5.
Definition FLAGS_CHAR : Z := Z.shiftl 1 6.
Definition FLAGS_SHORT : Z := Z.shiftl 1 7.
Definition FLAGS_LONG : Z := Z.shiftl 1 8.
Definition FLAGS_LONG_LONG : Z := Z.shiftl 1 9.
Definition FLAGS_PRECISION : Z := Z.shiftl 1 10.
Definition FLAGS_ADAPT_EXP : Z := Z.shiftl 1 11.

Definition has (flags f : Z) : bool := truthy (Z.land flags f).

(** [flags &= ~f] *)
Definition clear (flags f : Z) : Z := Z.ldiff flags f.

(** ** Helpers *)

Definition _is_digit (c : Z) : bool := (ch "0" <=? c) && (c <=? ch "9").

(** [_atoi] returns the number and the advanced format pointer. *)
Fixpoint _atoi_loop (i : Z) (str : list Z) : Z * list Z :=
  match str with
  | c :: rest => if _is_digit c then _atoi_loop (u32 (i * 10 + (c - ch "0"))) rest else (i, str)
  | [] => (i, str)
  end.
Definition _atoi : list Z -> Z * list Z := _atoi_loop 0.

(** Length of a string, limited by [maxsize]; the list is the string without
    its terminating zero. *)
Fixpoint _strnlen_s (str : list Z) (maxsize : Z) : Z :=
  match str with
  | [] => 0
  | c :: rest => if (c =? 0) || (maxsize =? 0) then 0 else u32 (1 + _strnlen_s rest (maxsize - 1))
  end.

(** ** Output *)

Section out.
Context {S : Type} (out : Z -> S -> Z -> Z -> S) (maxlen : Z).

(** [out(c, buffer, idx++, maxlen)] *)
Definition put (c : Z) (st : S * Z) : S * Z :=
  let '(s, idx) := st in (out c s idx maxlen, u64 (idx + 1)).

(** [n] times the same character. *)
Fixpoint pad (n : nat) (c : Z) (st : S * Z) : S * Z :=
  match n with
  | O => st
  | Datatypes.S n => pad n c (put c st)
  end.

Definition put_all (l : list Z) (st : S * Z) : S * Z := foldl (fun st c => put c st) st l.

(** [buf] is the array up to [len]. *)
Definition _out_rev (buf : list Z) (width flags : Z) (st : S * Z) : S * Z :=
  let start_idx := st.2 in
  let len := Z.of_nat (length buf) in
  let st := if negb (has flags FLAGS_LEFT) && negb (has flags FLAGS_ZEROPAD)
            then pad (Z.to_nat (width - len)) (ch " ") st else st in
  let st := put_all (rev buf) st in
  if has flags FLAGS_LEFT
  then pad (Z.to_nat (width - u64 (st.2 - start_idx))) (ch " ") st else st.

(** [while (len < bound && len < PRINTF_NTOA_BUFFER_SIZE) buf[len++] = '0'] *)
Definition zeros (bound : Z) (buf : list Z) : list Z :=
  buf ++ replicate (Z.to_nat (bound `min` PRINTF_NTOA_BUFFER_SIZE) - length buf) (ch "0").

(** [if (len < PRINTF_NTOA_BUFFER_SIZE) buf[len++] = c] *)
Definition push (c : Z) (buf : list Z) : list Z :=
  if Z.of_nat (length buf) <? PRINTF_NTOA_BUFFER_SIZE then buf ++ [c] else buf.

(** The hash prefix: [len--] drops the last character. *)
Definition ntoa_hash (base prec width flags : Z) (buf : list Z) : list Z :=
  let len := Z.of_nat (length buf) in
  let buf :=
    if negb (has flags FLAGS_PRECISION) && negb (len =? 0)
       && ((len =? prec) || (len =? width)) then
      let buf := removelast buf in
      if negb (Z.of_nat (length buf) =? 0) && (base =? 16) then removelast buf else buf
    else buf in
  let room := Z.of_nat (length buf) <? PRINTF_NTOA_BUFFER_SIZE in
  let buf :=
    if (base =? 16) && negb (has flags FLAGS_UPPERCASE) && room then buf ++ [ch "x"]
    else if (base =? 16) && has flags FLAGS_UPPERCASE && room then buf ++ [ch "X"]
    else if (base =? 2) && room then buf ++ [ch "b"]
    else buf in
  push (ch "0") buf.

Definition ntoa_sign (negative : bool) (flags : Z) (buf : list Z) : list Z :=
  if Z.of_nat (length buf) <? PRINTF_NTOA_BUFFER_SIZE then
    if negative then buf ++ [ch "-"]
    else if has flags FLAGS_PLUS then buf ++ [ch "+"]
    else if has flags FLAGS_SPACE then buf ++ [ch " "]
    else buf
  else buf.

(** The digits and padding of a number, and the width left for spaces. *)
Definition ntoa_buf (buf : list Z) (negative : bool) (base prec width flags : Z)
    : list Z * Z :=
  let '(buf, width) :=
    if negb (has flags FLAGS_LEFT) then
      let width :=
        if negb (width =? 0) && has flags FLAGS_ZEROPAD
           && (negative || has flags (Z.lor FLAGS_PLUS FLAGS_SPACE))
        then width - 1 else width in
      let buf := zeros prec buf in
      (if has flags FLAGS_ZEROPAD then zeros width buf else buf, width)
    else (buf, width) in
  let buf := if has flags FLAGS_HASH then ntoa_hash base prec width flags buf else buf in
  (ntoa_sign negative flags buf, width).

Definition _ntoa_format (buf : list Z) (negative : bool) (base prec width flags : Z)
    (st : S * Z) : S * Z :=
  let '(buf, width) := ntoa_buf buf negative base prec width flags in
  _out_rev buf width flags st.

Definition ntoa_digit (flags digit : Z) : Z :=
  if digit <? 10 then ch "0" + digit
  else (if has flags FLAGS_UPPERCASE then ch "A" else ch "a") + digit - 10.

(** The do-while loop, with the room left in the buffer. *)
Fixpoint ntoa_digits (room : nat) (base flags value : Z) : list Z :=
  match room with
  | O => []
  | Datatypes.S room =>
      ntoa_digit flags (value mod base) ::
      (if value / base =? 0 then [] else ntoa_digits room base flags (value / base))
  end.

Definition _ntoa_long (value : Z) (negative : bool) (base prec width flags : Z)
    (st : S * Z) : S * Z :=
  let flags := if value =? 0 then clear flags FLAGS_HASH else flags in
  let buf := if negb (has flags FLAGS_PRECISION) || negb (value =? 0)
             then ntoa_digits (Z.to_nat PRINTF_NTOA_BUFFER_SIZE) base flags value else [] in
  _ntoa_format buf negative base prec width flags st.

(** The same text for [unsigned long long], as wide as [unsigned long]. *)
Definition _ntoa_long_long : Z -> bool -> Z -> Z -> Z -> Z -> S * Z -> S * Z := _ntoa_long.
End out.

(** ** The text does not depend on where it goes *)

Lemma put_all_app {S} (out : Z -> S -> Z -> Z -> S) maxlen l1 l2 st :
  put_all out maxlen (l1 ++ l2) st = put_all out maxlen l2 (put_all out maxlen l1 st).
Proof. apply foldl_app. Qed.

Lemma pad_put_all {S} (out : Z -> S -> Z -> Z -> S) maxlen n c st :
  pad out maxlen n c st = put_all out maxlen (replicate n c) st.
Proof. revert st. induction n as [|n IH]; intros st; [done|]. simpl. apply IH. Qed.

Lemma put_put_all {S} (out : Z -> S -> Z -> Z -> S) maxlen c st :
  put out maxlen c st = put_all out maxlen [c] st.
Proof. done. Qed.

Lemma put_all_idx {S} (out : Z -> S -> Z -> Z -> S) maxlen l st :
  is_u64 st.2 -> (put_all out maxlen l st).2 = u64 (st.2 + Z.of_nat (length l)).
Proof.
  revert st. induction l as [|c l IH]; intros [s idx] Hi; simpl in *.
  - rewrite Z.add_0_r. symmetry. by apply u64_id.
  - rewrite IH by apply u64_range. simpl. unfold u64. rewrite Zplus_mod_idemp_l. f_equal. lia.
Qed.

(** A step of the formatter that only appends characters, whatever the sink. *)
Definition appends (f : forall S, (Z -> S -> Z -> Z -> S) -> Z -> S * Z -> S * Z) (l : list Z) :=
  forall S out maxlen st, is_u64 st.2 -> f S out maxlen st = put_all out maxlen l st.

(** The same, or undefined on every sink. *)
Definition appends_or_not
    (f : forall S, (Z -> S -> Z -> Z -> S) -> Z -> S * Z -> option (S * Z)) : Prop :=
  (forall S out maxlen st, is_u64 st.2 -> f S out maxlen st = None) \/
  exists l, forall S out maxlen st, is_u64 st.2 -> f S out maxlen st = Some (put_all out maxlen l st).

Lemma put_all_u64 {S} (out : Z -> S -> Z -> Z -> S) maxlen l st :
  is_u64 st.2 -> is_u64 (put_all out maxlen l st).2.
Proof. intros. rewrite put_all_idx by done. apply u64_range. Qed.

Lemma appends_rev buf width flags : is_u64 width ->
  exists l, appends (fun S out maxlen => _out_rev out maxlen buf width flags) l.
Proof.
  intros Hw. set (n := Z.to_nat (width - Z.of_nat (length buf))).
  exists ((if negb (has flags FLAGS_LEFT) && negb (has flags FLAGS_ZEROPAD)
           then replicate n (ch " ") else []) ++ rev buf ++
          (if has flags FLAGS_LEFT
           then replicate (Z.to_nat (width - u64 (Z.of_nat (length buf)))) (ch " ") else [])).
  intros S out maxlen st Hst. unfold _out_rev. rewrite !put_all_app.
  destruct (has flags FLAGS_LEFT); cbn [negb andb put_all foldl].
  - rewrite pad_put_all, put_all_idx, length_rev by done.
    replace (u64 (u64 _ - _)) with (u64 (Z.of_nat (length buf))); [done|].
    unfold u64. rewrite Zminus_mod_idemp_l. f_equal. lia.
  - destruct (negb (has flags FLAGS_ZEROPAD)); [by rewrite pad_put_all|done].
Qed.

Definition wide (width : Z) : Prop := 0 <= width < 2 ^ 32.

Lemma ntoa_buf_width buf negative base prec width flags :
  wide width -> is_u64 (ntoa_buf buf negative base prec width flags).2.
Proof.
  unfold wide, ntoa_buf, is_u64. intros Hw.
  destruct (has flags FLAGS_LEFT); simpl; [lia|].
  destruct (Z.eqb_spec width 0); simpl; [lia|].
  destruct (_ && _); simpl; lia.
Qed.

Lemma appends_ntoa_long value negative base prec width flags : wide width ->
  exists l, appends (fun S out maxlen =>
    _ntoa_long out maxlen value negative base prec width flags) l.
Proof.
  intros Hw. unfold _ntoa_long, _ntoa_format.
  pose proof (ntoa_buf_width
    (if negb (has (if value =? 0 then clear flags FLAGS_HASH else flags) FLAGS_PRECISION)
        || negb (value =? 0)
     then ntoa_digits (Z.to_nat PRINTF_NTOA_BUFFER_SIZE) base
       (if value =? 0 then clear flags FLAGS_HASH else flags) value else [])
    negative base prec width (if value =? 0 then clear flags FLAGS_HASH else flags) Hw) as Hb.
  destruct (ntoa_buf _ _ _ _ _ _) as [b wd]. by apply appends_rev.
Qed.

(** ** Numerals *)

Lemma _is_digit_digit d : 0 <= d < 10 -> _is_digit (ch "0" + d) = true.
Proof. intros. unfold _is_digit. change (ch "0") with 48. change (ch "9") with 57. lia. Qed.

Lemma atoi_digits room v i rest :
  (0 < room)%nat -> 0 <= v < 10 ^ Z.of_nat room ->
  _atoi_loop i (rev (ntoa_digits room 10 0 v) ++ rest) =
    _atoi_loop (u32 (i * 10 ^ Z.of_nat (length (ntoa_digits room 10 0 v)) + v)) rest.
Proof.
  revert v i rest. induction room as [|room IH]; intros v i rest Hr Hv; [lia|].
  cbn [ntoa_digits].
  assert (ntoa_digit 0 (v mod 10) = ch "0" + v mod 10) as ->.
  { unfold ntoa_digit. pose proof (Z.mod_pos_bound v 10 ltac:(lia)).
    by rewrite (proj2 (Z.ltb_lt _ 10)) by lia. }
  assert (forall i, _atoi_loop i ([ch "0" + v mod 10] ++ rest)
            = _atoi_loop (u32 (i * 10 + v mod 10)) rest) as Hd.
  { intros i'. cbn [app _atoi_loop]. rewrite _is_digit_digit by (apply Z.mod_pos_bound; lia).
    do 2 f_equal. lia. }
  destruct (Z.eqb_spec (v / 10) 0) as [E|E].
  - cbn [rev app length]. rewrite Hd. change (10 ^ Z.of_nat 1) with 10.
    pose proof (Z.div_mod v 10 ltac:(lia)). do 2 f_equal. lia.
  - cbn [rev length]. rewrite <- app_assoc. rewrite IH.
    2: { destruct room; [|lia]. change (10 ^ Z.of_nat 1) with 10 in Hv.
         exfalso. apply E. apply Z.div_small. lia. }
    2: { split; [apply Z.div_pos; lia|]. apply Z.div_lt_upper_bound; [lia|].
         rewrite Nat2Z.inj_succ, Z.pow_succ_r in Hv by lia. lia. }
    rewrite Hd. f_equal. unfold u32. rewrite <- (Zplus_mod_idemp_l (_ mod _ * 10)).
    rewrite Zmult_mod_idemp_l, Zplus_mod_idemp_l. f_equal.
    rewrite Nat2Z.inj_succ, Z.pow_succ_r by lia.
    pose proof (Z.div_mod v 10 ltac:(lia)). lia.
Qed.

(** No flags, width or precision: the digits, most significant first. *)
Lemma ntoa_long_plain {S} (out : Z -> S -> Z -> Z -> S) maxlen value base st :
  _ntoa_long out maxlen value false base 0 0 0 st =
    put_all out maxlen (rev (ntoa_digits 32 base 0 value)) st.
Proof.
  unfold _ntoa_long. replace (if value =? 0 then clear 0 FLAGS_HASH else 0) with 0
    by (by destruct (value =? 0)).
  change (negb (has 0 FLAGS_PRECISION)) with true. cbn [orb].
  unfold _ntoa_format, ntoa_buf, ntoa_sign, zeros.
  change (negb (has 0 FLAGS_LEFT)) with true. change (has 0 FLAGS_HASH) with false.
  change (has 0 FLAGS_ZEROPAD) with false. change (negb (0 =? 0)) with false.
  change (Z.to_nat PRINTF_NTOA_BUFFER_SIZE) with 32%nat.
  change (Z.to_nat (0 `min` PRINTF_NTOA_BUFFER_SIZE)) with 0%nat. cbn [andb Nat.sub replicate].
  rewrite app_nil_r. change (has 0 FLAGS_PLUS) with false. change (has 0 FLAGS_SPACE) with false.
  assert (forall b : bool, (if b then ntoa_digits 32 base 0 value else ntoa_digits 32 base 0 value)
            = ntoa_digits 32 base 0 value) as -> by (by intros []).
  unfold _out_rev. change (negb (has 0 FLAGS_LEFT) && negb (has 0 FLAGS_ZEROPAD)) with true.
  change (has 0 FLAGS_LEFT) with false. cbv iota.
  by rewrite Z2Nat.nonpos by lia.
Qed.
