(* ===== verification/Ftoa.v ===== *)
(** * The floating-point formatters of printf

    Models [_ftoa] and [_etoa] of printf.c, which call each other: [_ftoa]
    hands a number above [PRINTF_MAX_FLOAT] to [_etoa], which prints a scaled
    number with [_ftoa].  A computation is [None] where C has undefined
    behaviour: a conversion to an integer out of range, or a precision that
    indexes [pow10] out of bounds. *)

From Stdlib Require Import Floats.SpecFloat Ascii.
From S2P Require Import Prelude Double Ntoa.

Definition PRINTF_FTOA_BUFFER_SIZE : Z := 32.
Definition PRINTF_DEFAULT_FLOAT_PRECISION : Z := 6.
Definition PRINTF_MAX_FLOAT : double := of_Z (10 ^ 9).
Definition DBL_MAX : double := SFmax_float dprec demax.

(** The array; [None] out of bounds. *)
Definition pow10 (prec : Z) : option double :=
  if bool_decide (0 <= prec < 10) then Some (of_Z (10 ^ prec)) else None.

Definition is_nan (x : double) : bool := negb (x =? x)%D.
Definition above_max (x : double) : bool := (DBL_MAX <? x)%D.
Definition below_min (x : double) : bool := (x <? SFopp DBL_MAX)%D.

(** The texts of the special values, reversed. *)
Definition special_text (value : double) (flags : Z) : list Z :=
  if is_nan value then [ch "n"; ch "a"; ch "n"]
  else if below_min value then [ch "f"; ch "n"; ch "i"; ch "-"]
  else if has flags FLAGS_PLUS then [ch "f"; ch "n"; ch "i"; ch "+"]
  else [ch "f"; ch "n"; ch "i"].

Definition is_special (value : double) : bool :=
  is_nan value || below_min value || above_max value.

(** ** Fixed notation *)

Definition half : double := decimal 5 1.

(** [frac] and [whole] after rounding the fraction at the last digit. *)
Definition round_frac (p10 diff : double) (frac whole : Z) : Z * Z :=
  if (half <? diff)%D then
    let frac := u64 (frac + 1) in
    if (p10 <? of_Z frac)%D || (p10 =? of_Z frac)%D then (0, whole + 1) else (frac, whole)
  else if (diff <? half)%D then (frac, whole)
  else if (frac =? 0) || Z.odd frac then (u64 (frac + 1), whole)
  else (frac, whole).

(** With no decimals the number itself is rounded, a half to even. *)
Definition round_whole (value : double) (whole : Z) : Z :=
  let diff := (value - of_Z whole)%D in
  if (negb (diff <? half)%D || (half <? diff)%D) && Z.odd whole then whole + 1 else whole.

(** [while (len < size) { buf[len++] = 48 + v % 10; if (!(v /= 10)) break; }] *)
Fixpoint dec_digits (room : nat) (v : Z) : list Z :=
  match room with
  | O => []
  | S room => (48 + v mod 10) :: (if v / 10 =? 0 then [] else dec_digits room (v / 10))
  end.

Definition room (buf : list Z) : nat := Z.to_nat PRINTF_FTOA_BUFFER_SIZE - length buf.

(** The decimals, the zeros that [count] asks for, and the point. *)
Definition ftoa_decimals (prec frac : Z) (buf : list Z) : list Z :=
  let digits := dec_digits (room buf) frac in
  let buf := buf ++ digits in
  let count := u32 (prec - Z.of_nat (length digits)) in
  let buf := buf ++ replicate (Z.to_nat (count `min` Z.of_nat (room buf))) (ch "0") in
  push (ch ".") buf.

(** The reversed text of a number, and the width left for spaces. *)
Definition ftoa_buf (value : double) (prec width flags : Z) : option (list Z * Z) :=
  let negative := (value <? of_Z 0)%D in
  let value := if negative then (of_Z 0 - value)%D else value in
  let prec := if has flags FLAGS_PRECISION then prec else PRINTF_DEFAULT_FLOAT_PRECISION in
  let excess := Z.to_nat ((prec - 9) `min` PRINTF_FTOA_BUFFER_SIZE) in
  let buf := replicate excess (ch "0") in
  let prec := prec - Z.of_nat excess in
  whole ← to_int value;
  p10 ← pow10 prec;
  let tmp := ((value - of_Z whole) * p10)%D in
  frac ← to_ulong tmp;
  let diff := (tmp - of_Z frac)%D in
  let '(frac, whole) := round_frac p10 diff frac whole in
  let '(buf, whole) :=
    if prec =? 0 then (buf, round_whole value whole)
    else (ftoa_decimals prec frac buf, whole) in
  let buf := buf ++ dec_digits (room buf) whole in
  let width :=
    if negb (has flags FLAGS_LEFT) && has flags FLAGS_ZEROPAD && negb (width =? 0)
       && (negative || has flags (Z.lor FLAGS_PLUS FLAGS_SPACE))
    then width - 1 else width in
  let buf := if negb (has flags FLAGS_LEFT) && has flags FLAGS_ZEROPAD
             then zeros width buf else buf in
  Some (ntoa_sign negative flags buf, width).

(** ** Exponential notation *)

Definition log10_of_3_2 : double := decimal 1760912590558 13.
Definition log10_of_2 : double := decimal 301029995663981 15.
Definition log10_slope : double := decimal 289529654602168 15.
Definition log2_of_10 : double := decimal 3321928094887362 15.
Definition ln_of_10 : double := decimal 2302585092994046 15.
Definition ln_of_2 : double := decimal 6931471805599453 16.

(** The decimal exponent of a positive number, estimated from its binary one. *)
Definition est_base (exp2 : Z) : double := (log10_of_3_2 + of_Z exp2 * log10_of_2)%D.

(** For the fraction [F], between 1 and 2. *)
Definition est_correction (F : double) : double := ((F - decimal 15 1) * log10_slope)%D.

Definition exp_estimate (value : double) : option Z :=
  let U := bits_of value in
  let exp2 := Z.land (Z.shiftr U 52) 0x7FF - 1023 in
  let F := of_bits (Z.lor (Z.land U (2 ^ 52 - 1)) (Z.shiftl 1023 52)) in
  to_int (est_base exp2 + est_correction F)%D.

(** The power of ten it stands for. *)
Definition exp_scale (expval : Z) : option double :=
  exp2 ← to_int (of_Z expval * log2_of_10 + half)%D;
  let z := (of_Z expval * ln_of_10 - of_Z exp2 * ln_of_2)%D in
  let z2 := (z * z)%D in
  let F := of_bits (u64 (Z.shiftl (u64 (exp2 + 1023)) 52)) in
  Some (F * (of_Z 1 + of_Z 2 * z / (of_Z 2 - z
         + z2 / (of_Z 6 + z2 / (of_Z 10 + z2 / of_Z 14)))))%D.

Definition exp_of (value : double) : option (Z * double) :=
  expval ← exp_estimate value;
  F ← exp_scale expval;
  Some (if (value <? F)%D then (expval - 1, (F / of_Z 10)%D) else (expval, F)).

(** The precision, the flags, the exponent and its width in %g. *)
Definition adapt_exp (value : double) (prec flags expval minwidth : Z) : option (Z * Z * Z * Z) :=
  if has flags FLAGS_ADAPT_EXP then
    if negb (value <? decimal 1 4)%D && (value <? of_Z (10 ^ 6))%D then
      prec ← (if expval <? s32 prec then
                let p := s32 prec - expval in
                if p <? 2 ^ 31 then Some (u32 (p - 1)) else None
              else Some 0);
      Some (prec, Z.lor flags FLAGS_PRECISION, 0, 0)
    else Some (if (0 <? prec) && has flags FLAGS_PRECISION then prec - 1 else prec,
               flags, expval, minwidth)
  else Some (prec, flags, expval, minwidth).

(** What the exponential form prints: the scaled number, with its precision,
    width and flags, the exponent, and the exponent's width (zero: none). *)
Record etoa_plan := {
  ep_value : double; ep_prec : Z; ep_width : Z; ep_flags : Z; ep_exp : Z; ep_minwidth : Z;
}.

Definition etoa_plan_of (value : double) (prec width flags : Z) : option etoa_plan :=
  let negative := (value <? of_Z 0)%D in
  let value := if negative then SFopp value else value in
  let prec := if has flags FLAGS_PRECISION then prec else PRINTF_DEFAULT_FLOAT_PRECISION in
  '(expval, F) ← exp_of value;
  let minwidth := if (expval <? 100) && (-100 <? expval) then 4 else 5 in
  '(prec, flags, expval, minwidth) ← adapt_exp value prec flags expval minwidth;
  let fwidth := if minwidth <? width then width - minwidth else 0 in
  let fwidth := if has flags FLAGS_LEFT && negb (minwidth =? 0) then 0 else fwidth in
  let value := if expval =? 0 then value else (value / F)%D in
  Some {| ep_value := if negative then SFopp value else value; ep_prec := prec;
          ep_width := fwidth; ep_flags := flags; ep_exp := expval; ep_minwidth := minwidth |}.

Section out.
Context {S : Type} (out : Z -> S -> Z -> Z -> S) (maxlen : Z).
#[local] Abbreviation formatter := (double -> Z -> Z -> Z -> S * Z -> option (S * Z)).

(** The exponent and the padding behind it. *)
Definition etoa_exponent (p : etoa_plan) (width start_idx : Z) (st : S * Z) : S * Z :=
  if ep_minwidth p =? 0 then st
  else
    let st := put out maxlen (if has (ep_flags p) FLAGS_UPPERCASE then ch "E" else ch "e") st in
    let e := ep_exp p in
    let st := _ntoa_long out maxlen (if e <? 0 then - e else e) (e <? 0) 10 0
                (ep_minwidth p - 1) (Z.lor FLAGS_ZEROPAD FLAGS_PLUS) st in
    if has (ep_flags p) FLAGS_LEFT
    then pad out maxlen (Z.to_nat (width - u64 (st.2 - start_idx))) (ch " ") st else st.

(** [_etoa], with the [_ftoa] it calls. *)
Definition etoa_with (ftoa : formatter) : formatter := fun value prec width flags st =>
  if is_special value then ftoa value prec width flags st
  else
    p ← etoa_plan_of value prec width flags;
    st' ← ftoa (ep_value p) (ep_prec p) (ep_width p) (clear (ep_flags p) FLAGS_ADAPT_EXP) st;
    Some (etoa_exponent p width st.2 st').

(** [fuel] bounds the depth of the calls. *)
Fixpoint _ftoa (fuel : nat) : formatter := fun value prec width flags st =>
  match fuel with
  | O => None
  | Datatypes.S fuel =>
      if is_special value
      then Some (_out_rev out maxlen (special_text value flags) width flags st)
      else if (PRINTF_MAX_FLOAT <? value)%D || (value <? SFopp PRINTF_MAX_FLOAT)%D
      then etoa_with (_ftoa fuel) value prec width flags st
      else
        '(buf, width) ← ftoa_buf value prec width flags;
        Some (_out_rev out maxlen buf width flags st)
  end.

Definition _etoa (fuel : nat) : formatter := etoa_with (_ftoa fuel).
End out.

(** Enough for every call: a scaled number is at most [PRINTF_MAX_FLOAT]. *)
Definition FTOA_DEPTH : nat := 2.

(** ** The text does not depend on where it goes *)

Lemma ftoa_buf_width value prec width flags b w : wide width ->
  ftoa_buf value prec width flags = Some (b, w) -> is_u64 w.
Proof.
  unfold wide, is_u64, ftoa_buf. intros Hw.
  destruct (to_int _) as [n|]; [|done]. cbn [mbind option_bind].
  destruct (pow10 _) as [p10|]; [|done]. cbn [mbind option_bind].
  destruct (to_ulong _) as [f|]; [|done]. cbn [mbind option_bind].
  destruct (round_frac _ _ _ _) as [f' n']. destruct (if _ =? 0 then _ else _) as [b' n''].
  intros [= _ <-]. destruct (Z.eqb_spec width 0); [subst; rewrite andb_false_r; cbn; lia|].
  destruct (negb _ && _ && _ && _); lia.
Qed.

Lemma appends_special value width flags : wide width -> appends_or_not (fun S out maxlen st =>
  Some (_out_rev out maxlen (special_text value flags) width flags st)).
Proof.
  intros Hw. right. destruct (appends_rev (special_text value flags) width flags) as [l Hl].
  { unfold wide, is_u64 in *. lia. }
  exists l. intros. by rewrite Hl.
Qed.

Lemma appends_exponent p width l0 : wide (ep_minwidth p) -> exists l,
  forall S (out : Z -> S -> Z -> Z -> S) maxlen st, is_u64 st.2 ->
    etoa_exponent out maxlen p width st.2 (put_all out maxlen l0 st) = put_all out maxlen (l0 ++ l) st.
Proof.
  intros Hw. unfold etoa_exponent. destruct (Z.eqb_spec (ep_minwidth p) 0) as [|Hne].
  { exists []. intros. by rewrite app_nil_r. }
  destruct (appends_ntoa_long (if ep_exp p <? 0 then - ep_exp p else ep_exp p) (ep_exp p <? 0) 10 0
    (ep_minwidth p - 1) (Z.lor FLAGS_ZEROPAD FLAGS_PLUS)) as [l1 Hl1]; [unfold wide in *; lia|].
  set (c := if has (ep_flags p) FLAGS_UPPERCASE then ch "E" else ch "e").
  exists (c :: l1 ++ (if has (ep_flags p) FLAGS_LEFT
    then replicate (Z.to_nat (width - u64 (Z.of_nat (length (l0 ++ c :: l1))))) (ch " ") else [])).
  intros S out maxlen st Hst.
  assert (_ntoa_long out maxlen (if ep_exp p <? 0 then - ep_exp p else ep_exp p) (ep_exp p <? 0) 10 0
    (ep_minwidth p - 1) (Z.lor FLAGS_ZEROPAD FLAGS_PLUS) (put out maxlen c (put_all out maxlen l0 st))
    = put_all out maxlen (l0 ++ c :: l1) st) as ->.
  { rewrite Hl1; [|by destruct (put_all out maxlen l0 st); apply u64_range].
    by rewrite put_put_all, <- !put_all_app. }
  rewrite app_comm_cons, app_assoc, (put_all_app _ _ (l0 ++ c :: l1)).
  destruct (has (ep_flags p) FLAGS_LEFT); [|done]. rewrite pad_put_all, put_all_idx by done.
  do 4 f_equal. unfold u64. rewrite Zminus_mod_idemp_l. f_equal. lia.
Qed.

Lemma etoa_plan_width value prec width flags p : wide width ->
  etoa_plan_of value prec width flags = Some p -> wide (ep_width p) /\ wide (ep_minwidth p).
Proof.
  unfold etoa_plan_of, adapt_exp. intros Hw.
  destruct (exp_of _) as [[k F]|]; [|done]. cbn [mbind option_bind].
  set (m := if (k <? 100) && _ then 4 else 5).
  assert (wide m) as Hm by (unfold m, wide; destruct (_ && _); lia). clearbody m.
  assert (forall f m', wide m' -> wide (if has f FLAGS_LEFT && negb (m' =? 0) then 0
    else if m' <? width then width - m' else 0)) as H.
  { unfold wide in *. intros f m' Hm'. destruct (_ && _); [lia|]. destruct (Z.ltb_spec m' width); lia. }
  destruct (has flags FLAGS_ADAPT_EXP); [destruct (_ && _)|].
  2,3: cbn [mbind option_bind]; intros [= <-]; split; [exact (H _ _ Hm)|exact Hm].
  assert (wide 0) as H0 by by vm_compute.
  destruct (if k <? _ then _ else _) as [q|]; [|done]. cbn [mbind option_bind]. intros [= <-].
  split; [exact (H _ _ H0)|exact H0].
Qed.

Definition formatters : Type :=
  forall S, (Z -> S -> Z -> Z -> S) -> Z -> double -> Z -> Z -> Z -> S * Z -> option (S * Z).

Lemma appends_etoa_with (f : formatters) value prec width flags : wide width ->
  (forall v p w g, wide w -> appends_or_not (fun S out maxlen => f S out maxlen v p w g)) ->
  appends_or_not (fun S out maxlen => etoa_with out maxlen (f S out maxlen) value prec width flags).
Proof.
  intros Hw Hf. unfold etoa_with. destruct (is_special value); [by apply Hf|].
  destruct (etoa_plan_of value prec width flags) as [p|] eqn:E; [cbn [mbind option_bind]|by left].
  destruct (etoa_plan_width value prec width flags p Hw E) as [Hpw Hmw].
  destruct (Hf (ep_value p) (ep_prec p) (ep_width p) (clear (ep_flags p) FLAGS_ADAPT_EXP) Hpw)
    as [H|[l0 H]]; [left; intros; by rewrite H|right].
  destruct (appends_exponent p width l0 Hmw) as [l Hl]. exists (l0 ++ l).
  intros S out maxlen st Hst. rewrite H by done. cbn [mbind option_bind]. by rewrite Hl.
Qed.

Lemma appends_ftoa fuel value prec width flags : wide width ->
  appends_or_not (fun S out maxlen => _ftoa out maxlen fuel value prec width flags).
Proof.
  revert value prec width flags. induction fuel as [|fuel IH]; intros value prec width flags Hw;
    [by left|].
  cbn [_ftoa]. destruct (is_special value); [by apply appends_special|].
  destruct (_ || _); [by apply (appends_etoa_with (fun S out maxlen => _ftoa out maxlen fuel))|].
  destruct (ftoa_buf value prec width flags) as [[b w]|] eqn:E; [right|by left].
  destruct (appends_rev b w flags) as [l Hl]; [by eapply ftoa_buf_width|].
  exists l. intros. cbn. by rewrite Hl.
Qed.

Lemma appends_etoa fuel value prec width flags : wide width ->
  appends_or_not (fun S out maxlen => _etoa out maxlen fuel value prec width flags).
Proof.
  intros Hw. apply (appends_etoa_with (fun S out maxlen => _ftoa out maxlen fuel)); [done|].
  intros. by apply appends_ftoa.
Qed.
