(* ===== verification/FtoaTotal.v ===== *)
(** * The floating-point formatters return

    [_ftoa] and [_etoa] call each other, and convert floating-point numbers
    to integers.  This file proves that neither goes wrong: the scaled number
    that [_etoa] hands to [_ftoa] never needs [_etoa] again, and every
    conversion is in range.  The decimal exponents and the powers of ten come
    from a formula with rounding errors; they are bounded by evaluating the
    formula at all binary exponents ([est_table]) and at all decimal ones
    ([scale_table]). *)

From Stdlib Require Import Floats.SpecFloat Ascii.
From S2P Require Import Prelude Double Ntoa Ftoa.

(** ** Fixed notation *)

Lemma to_int_upto b x : 0 <= b <= 30 -> upto b x ->
  exists n, to_int x = Some n /\ truncate x = Some n.
Proof.
  intros Hb Hx. destruct (truncate_upto b x) as (n & Ht & Hn & _); [lia|done|]. exists n.
  unfold to_int. rewrite Ht. pose proof (Z.pow_le_mono_r 2 b 30).
  cbn [mbind option_bind]. by rewrite bool_decide_eq_true_2 by lia.
Qed.

Lemma to_ulong_upto b x : 0 <= b <= 63 -> upto b x -> nonneg x = true ->
  exists n, to_ulong x = Some n.
Proof.
  intros Hb Hx Hp. destruct (truncate_upto b x) as (n & Ht & Hn & H0); [lia|done|]. exists n.
  unfold to_ulong. rewrite Ht. pose proof (Z.pow_le_mono_r 2 b 63). specialize (H0 Hp).
  cbn [mbind option_bind]. by rewrite bool_decide_eq_true_2 by lia.
Qed.

Lemma pow10_upto prec : 0 <= prec < 10 ->
  exists p, pow10 prec = Some p /\ upto 30 p /\ nonneg p = true.
Proof.
  intros Hp. exists (of_Z (10 ^ prec)). unfold pow10. rewrite bool_decide_eq_true_2 by done.
  pose proof (Z.pow_le_mono_r 10 prec 9). pose proof (Z.pow_pos_nonneg 10 prec).
  split; [done|]. apply of_Z_upto; lia.
Qed.

(** Clearing the sign. *)
Lemma positive_part b x : upto b x ->
  let y := if (x <? of_Z 0)%D then (of_Z 0 - x)%D else x in upto b y /\ nonneg y = true.
Proof. destruct x as [[]|[]| |[] m e]; cbn; try done. Qed.

Definition prec_ok (bound prec flags : Z) : Prop :=
  has flags FLAGS_PRECISION = true -> 0 <= prec < bound.

Lemma ftoa_buf_total value prec width flags : upto 30 value -> prec_ok 42 prec flags ->
  is_Some (ftoa_buf value prec width flags).
Proof.
  intros Hv Hp. unfold ftoa_buf. destruct (positive_part 30 value Hv) as [Hu Hs].
  set (v := if (value <? of_Z 0)%D then _ else _) in *. clearbody v.
  set (p := if has flags FLAGS_PRECISION then prec else _).
  assert (0 <= p < 42) as Hp' by (subst p; unfold prec_ok in Hp; destruct (has flags _); [auto|by vm_compute]).
  clearbody p. set (excess := Z.to_nat _).
  destruct (to_int_upto 30 v) as (n & -> & Ht); [lia|done|]. cbn [mbind option_bind].
  destruct (pow10_upto (p - Z.of_nat excess)) as (p10 & -> & Hp10 & Hs10);
    [unfold excess, PRINTF_FTOA_BUFFER_SIZE; lia|]. cbn [mbind option_bind].
  destruct (fraction_upto v n) as [Hf Hsf]; [done|by apply (upto_le 30)|done|].
  destruct (upto_mul 0 30 (v - of_Z n)%D p10) as [Hm Hsm]; [done|done|unfold emin; lia|].
  destruct (to_ulong_upto (0 + 30) ((v - of_Z n) * p10)%D) as [f ->]; [lia|done|by apply Hsm|].
  cbn [mbind option_bind]. destruct (round_frac _ _ _ _) as [f' n'].
  destruct (p - Z.of_nat excess =? 0); by eexists.
Qed.

(** Numbers that [_ftoa] prints itself. *)
Definition small (value : double) : bool :=
  negb (is_special value) && negb (PRINTF_MAX_FLOAT <? value)%D
  && negb (value <? SFopp PRINTF_MAX_FLOAT)%D.

Lemma max_float_fin : PRINTF_MAX_FLOAT = S754_finite false 8388608000000000 (-23).
Proof. by vm_compute. Qed.

Lemma small_upto value : valid value = true -> small value = true -> upto 30 value.
Proof.
  unfold small. rewrite max_float_fin. rewrite !andb_true_iff, !negb_true_iff. intros Hv [[Hs H1] H2].
  destruct value as [s|s| |[] m e]; [exact I|exfalso..| |].
  - by destruct s; vm_compute in Hs.
  - by vm_compute in Hs.
  - apply upto_opp. apply (not_lt_upto 8388608000000000 (-23) (S754_finite false m e));
      [exact Hv|reflexivity|by vm_compute|].
    by rewrite <- ltb_opp.
  - by apply (not_lt_upto 8388608000000000 (-23)); [exact Hv|reflexivity|vm_compute|exact H1].
Qed.

(** A number up to [2^b] is between a larger constant and its opposite. *)
Lemma upto_between b m e value : valid value = true -> upto b value -> 2 ^ 52 < Zpos m ->
  b <= e + 52 -> emin <= e ->
  (S754_finite false m e <? value)%D = false /\ (value <? SFopp (S754_finite false m e))%D = false.
Proof.
  intros Hv Hu Hm Hb He. destruct value as [s| | |[] n f]; try done.
  - split; [reflexivity|]. rewrite <- ltb_opp. cbn [SFopp negb].
    by apply (upto_not_lt b); [exact Hv|exact Hu|..].
  - split; [by apply (upto_not_lt b)|reflexivity].
Qed.

Lemma upto_not_special b value : valid value = true -> upto b value -> b <= 1023 ->
  is_special value = false.
Proof.
  intros Hv Hu Hb. unfold is_special, above_max, below_min.
  destruct (upto_between b (2 ^ 53 - 1) 971 value Hv Hu) as [H1 H2]; [done|lia|done|].
  change DBL_MAX with (S754_finite false (2 ^ 53 - 1) 971). rewrite H1, H2, !orb_false_r.
  unfold is_nan, SFeqb. destruct value as [[]| | |[] m e]; try done; cbn [SFcompare];
    by rewrite Z.compare_refl, Pos.compare_cont_spec, Pos.compare_refl.
Qed.

Lemma upto_small value : valid value = true -> upto 29 value -> small value = true.
Proof.
  intros Hv Hu. unfold small. rewrite max_float_fin.
  destruct (upto_between 29 8388608000000000 (-23) value Hv Hu) as [-> ->]; [done..|].
  by rewrite (upto_not_special 29).
Qed.

(** ** The decimal exponent *)

(** A number with exponent zero and fraction [f]. *)
Definition fraction (f : Z) : double := S754_finite false (Z.to_pos (f + 2 ^ 52)) (-52).

(** The fields of the encoding of [x], in the two words [_etoa] makes of it. *)
Lemma encoding_fields u ex f : u mod 2 ^ 63 = ex * 2 ^ 52 + f -> 0 <= f < 2 ^ 52 -> 0 <= ex < 2048 ->
  Z.land (Z.shiftr u 52) 0x7FF = ex /\ Z.land u (2 ^ 52 - 1) = f /\
  of_bits (Z.lor f (Z.shiftl 1023 52)) = fraction f.
Proof.
  intros Hu Hf Hex. change 0x7FF with (Z.ones 11). change (2 ^ 52 - 1) with (Z.ones 52).
  rewrite !Z.land_ones, Z.shiftr_div_pow2, Z.lor_comm, lor_add by lia.
  assert (u mod 2 ^ 52 = f /\ (u / 2 ^ 52) mod 2 ^ 11 = ex) as [-> ->].
  { Z.div_mod_to_equations. lia. }
  split; [done|]. split; [done|]. unfold of_bits.
  assert ((1023 * 2 ^ 52 + f) mod 2 ^ 52 = f) as -> by (rewrite Z.add_comm, Z.mod_add by lia; by apply Z.mod_small).
  assert ((1023 * 2 ^ 52 + f) / 2 ^ 52 = 1023) as -> by (Z.div_mod_to_equations; lia).
  change (1023 mod 2 ^ 11) with 1023. change (1023 =? 2047) with false. change (1023 =? 0) with false.
  cbv iota. unfold fraction.
  destruct (f + 2 ^ 52) as [|p|p] eqn:E; [lia| |lia]. f_equal.
  assert (0 <= 1023 * 2 ^ 52 + f < 2 ^ 63) as Hr by lia.
  apply (testbit_small _ 63 63); lia.
Qed.

(** The binary exponent [E] and the fraction [f] of a positive double. *)
Lemma exponent_spec value : valid value = true -> nonneg value = true -> exists E f,
  -1023 <= E <= 1023 /\ 0 <= f < 2 ^ 52 /\ upto (E + 1) value /\
  bits_of value mod 2 ^ 63 = (E + 1023) * 2 ^ 52 + f /\
  (forall m e, value = S754_finite false m e -> e <= E - 52 \/ E = -1023).
Proof.
  destruct value as [s| | |[] m e]; try done; intros Hv _.
  - exists (-1023), 0. split_and!; try lia; try exact I; try (by destruct s); intros ? ? [=].
  - apply valid_finite in Hv as (He & Hd & Hn). unfold emin in *.
    destruct (Zdigits2_spec (Zpos m)) as [Hm Hp]; [done|].
    pose proof (Z.pow_le_mono_r 2 (Zdigits2 (Zpos m)) 53 ltac:(lia) Hd) as H53.
    unfold bits_of. rewrite Z.add_0_l. destruct (Z.ltb_spec (Zpos m) (2 ^ 52)) as [Hs|Hs].
    + assert (e = -1074) as ->.
      { destruct (decide (e = -1074)); [done|]. rewrite Hn in Hm by lia.
        change (53 - 1) with 52 in Hm. lia. }
      exists (-1023), (Zpos m). split_and!; try lia; [|by rewrite Z.mod_small by lia].
      cbn [upto]. split; [unfold emin; lia|]. change (-1023 + 1 - -1074) with 52. lia.
    + exists (e + 52), (Zpos m - 2 ^ 52). split_and!; try lia.
      * cbn [upto]. split; [unfold emin; lia|]. replace (e + 52 + 1 - e) with 53 by lia. lia.
      * rewrite Z.mod_small by lia. f_equal; lia.
      * intros ? ? [= <- <-]. lia.
Qed.

(** The correction is a quarter at most. *)
Lemma correction_upto f : 0 <= f < 2 ^ 52 -> upto (-2) (est_correction (fraction f)).
Proof.
  intros Hf. unfold est_correction.
  assert (upto (-1) (fraction f - decimal 15 1)%D) as H1.
  { unfold fraction. assert (decimal 15 1 = S754_finite false 6755399441055744 (-52)) as -> by (by vm_compute).
    assert (Zpos (Z.to_pos (f + 2 ^ 52)) = f + 2 ^ 52) as Hp by (apply Z2Pos.id; lia).
    set (p := Z.to_pos _) in *. cbn [SFsub cond_Zopp].
    change (shl_align p (-52) ((-52) `min` (-52))) with (p, -52).
    change (shl_align 6755399441055744 (-52) ((-52) `min` (-52))) with (6755399441055744%positive, -52).
    change ((-52) `min` (-52)) with (-52). cbn [fst]. rewrite Hp.
    apply normalize_upto; [|unfold emin; lia..]. change (-1 - -52) with 51. lia. }
  assert (upto (-1) log10_slope) as H2 by (vm_compute; split; [split|]; congruence).
  destruct (upto_mul (-1) (-1) _ _ H1 H2) as [H _]; [unfold emin; lia|done].
Qed.

Lemma scaled_upto b x : upto b x -> emin <= b -> Z.abs (scaled x) <= 2 ^ (b - emin).
Proof.
  destruct x as [s| | |s m e]; try done; intros Hx Hb.
  - cbn. apply Z.pow_nonneg. lia.
  - destruct Hx as [He Hm]. cbn [scaled].
    assert (0 <= Zpos m * 2 ^ (e - emin) <= 2 ^ (b - emin)) as H.
    { replace (b - emin) with ((b - e) + (e - emin)) by lia. rewrite Z.pow_add_r by lia.
      pose proof (Z.pow_pos_nonneg 2 (e - emin)). split; [lia|].
      apply Z.mul_le_mono_nonneg_r; lia. }
    destruct s; cbn [cond_Zopp]; lia.
Qed.

(** [x] in units of [2^-60], and its integer part after adding [d] units. *)
Definition units (x : double) : Z :=
  match x with S754_finite s m e => cond_Zopp s (Zpos m * 2 ^ (e + 60)) | _ => 0 end.
Definition bound (x : double) (d : Z) : Z := Z.quot (units x + d) (2 ^ 60).

Lemma bound_scaled x d : match x with S754_finite _ _ e => -60 <= e | _ => True end ->
  Z.quot (scaled x + d * 2 ^ 1014) (2 ^ (- emin)) = bound x d.
Proof.
  intros Hx. unfold bound. change (2 ^ (- emin)) with (2 ^ 60 * 2 ^ 1014).
  assert (scaled x = units x * 2 ^ 1014) as ->.
  { destruct x as [| | |s m e]; try done. cbn [scaled units].
    replace (e - emin) with ((e + 60) + 1014) by (unfold emin; lia).
    rewrite Z.pow_add_r by lia. destruct s; cbn [cond_Zopp]; lia. }
  rewrite <- Z.mul_add_distr_r. apply Z.quot_mul_cancel_r; lia.
Qed.

Definition upto_check (b : Z) (x : double) : bool :=
  match x with
  | S754_zero _ => true
  | S754_finite _ m e => (emin <=? e) && (e <=? b) && (Zpos m <=? 2 ^ (b - e))
  | _ => false
  end.

Lemma upto_check_spec b x : upto_check b x = true -> upto b x.
Proof. destruct x; try done. cbn. rewrite !andb_true_iff, !Z.leb_le. lia. Qed.

Definition above_check (g : Z) (x : double) : bool :=
  match x with
  | S754_finite false m e => (2 ^ (g - e) <=? Zpos m) && (e <=? g)
  | _ => false
  end.

Lemma above_check_spec g x : above_check g x = true -> above g x /\ nonneg x = true.
Proof. destruct x as [| | |[] m e]; try done. cbn. rewrite !andb_true_iff, !Z.leb_le. done. Qed.

(** The exponents of ten and of two: [10^k] is at least [2^(log2_floor k)]. *)
Definition log2_floor (k : Z) : Z := (3322 * k) / 1000 - 2.

Lemma log2_floor_mono k l : k <= l -> log2_floor k <= log2_floor l.
Proof. intros H. unfold log2_floor. pose proof (Z.div_le_mono (3322 * k) (3322 * l) 1000). lia. Qed.

(** At a binary exponent: the estimates, and what the scaled number is. *)
Definition est_check (E : Z) : bool :=
  let x := est_base E in
  let lo := bound x (- 2 ^ 59) in
  let hi := bound x (2 ^ 59) in
  upto_check 10 x && match x with S754_finite _ _ e => -60 <=? e | _ => true end &&
  (-308 <=? lo) && (hi <=? 308) && (E + 6 - log2_floor lo <=? 29) &&
  (-1000 <=? E + 1 - log2_floor hi) && ((1 <? lo) || (E <=? 28)) && ((E <? -14) || (-5 <=? lo)).

Lemma est_table : forallb est_check (seqZ (-1023) 2047) = true.
Proof. vm_compute. reflexivity. Qed.

(** At a decimal exponent: the power of ten, and the next lower one. *)
Definition scale_check (k : Z) : bool :=
  match exp_scale k with
  | Some F => above_check (log2_floor k) F && above_check (log2_floor k - 4) (F / of_Z 10)%D
  | None => false
  end.

Lemma scale_table : forallb scale_check (seqZ (-308) 617) = true.
Proof. vm_compute. reflexivity. Qed.

Lemma table_lookup f a n k : forallb f (seqZ a n) = true -> a <= k < a + n -> f k = true.
Proof. rewrite forallb_forall. intros H Hk. apply H, list_elem_of_In, elem_of_seqZ. lia. Qed.

Lemma estimate_spec value : valid value = true -> nonneg value = true ->
  exists E k, exp_estimate value = Some k /\ upto (E + 1) value /\ -1023 <= E <= 1023 /\
    -308 <= k <= 308 /\ E + 6 - log2_floor k <= 29 /\ -1000 <= E + 1 - log2_floor k /\
    (k <= 1 -> E <= 28) /\ (-14 <= E -> -5 <= k) /\
    (forall m e, value = S754_finite false m e -> e <= E - 52 \/ E = -1023).
Proof.
  intros Hv Hn. destruct (exponent_spec value Hv Hn) as (E & f & HE & Hf & Hu & Hb & He).
  pose proof (table_lookup _ _ _ E est_table ltac:(lia)) as Ht. unfold est_check in Ht.
  rewrite !andb_true_iff, !orb_true_iff, !Z.leb_le, !Z.ltb_lt in Ht.
  destruct Ht as (((((((H10 & Hu60) & Hlo) & Hhi) & Hq) & Hq') & Hone) & H14).
  apply upto_check_spec in H10. exists E.
  destruct (encoding_fields (bits_of value) (E + 1023) f Hb Hf ltac:(lia)) as (E1 & E2 & E3).
  unfold exp_estimate. rewrite E1, E2, E3. replace (E + 1023 - 1023) with E by lia.
  pose proof (correction_upto f Hf) as Hc.
  destruct (truncate_add 10 (est_base E) (est_correction (fraction f)) (2 ^ 59 * 2 ^ 1014)) as (n & Ht & Hn').
  - exact H10.
  - apply (upto_le (-2)); [lia|exact Hc].
  - lia.
  - pose proof (scaled_upto (-2) _ Hc). unfold emin in *. lia.
  - assert (match est_base E with S754_finite _ _ e => -60 <= e | _ => True end) as H60.
    { clear -Hu60. destruct (est_base E); [exact I..|by apply Z.leb_le]. }
    rewrite (bound_scaled _ (2 ^ 59)) in Hn' by done.
    replace (scaled (est_base E) - 2 ^ 59 * 2 ^ 1014) with
      (scaled (est_base E) + - 2 ^ 59 * 2 ^ 1014) in Hn' by lia.
    rewrite (bound_scaled _ (- 2 ^ 59)) in Hn' by done.
    exists n. unfold to_int. rewrite Ht. cbn [mbind option_bind].
    rewrite bool_decide_eq_true_2 by lia.
    pose proof (log2_floor_mono (bound (est_base E) (- 2 ^ 59)) n).
    pose proof (log2_floor_mono n (bound (est_base E) (2 ^ 59))).
    split; [reflexivity|]. split; [exact Hu|]. split_and!; try exact He; lia.
Qed.

Lemma scale_spec k : -308 <= k <= 308 -> exists F, exp_scale k = Some F /\
  (above (log2_floor k) F /\ nonneg F = true) /\
  (above (log2_floor k - 4) (F / of_Z 10)%D /\ nonneg (F / of_Z 10)%D = true).
Proof.
  intros Hk. pose proof (table_lookup _ _ _ k scale_table ltac:(lia)) as Ht. unfold scale_check in Ht.
  destruct (exp_scale k) as [F|]; [|done]. apply andb_true_iff in Ht as [H1 H2].
  exists F. split; [done|]. split; by apply above_check_spec.
Qed.

(** ** Exponential notation *)

(** The scaled number is a double up to [2^29], and the exponent is near the
    binary one. *)
Lemma exp_of_spec value : valid value = true -> nonneg value = true ->
  exists k F, exp_of value = Some (k, F) /\ -309 <= k <= 308 /\
    valid (value / F)%D = true /\ upto 29 (value / F)%D /\ (k = 0 -> upto 29 value) /\
    (forall m e, value = S754_finite false m e -> -66 <= e -> -6 <= k).
Proof.
  intros Hv Hn. destruct (estimate_spec value Hv Hn) as
    (E & k & Hk & Hu & HE & Hr & Hq & Hq' & H1 & H14 & He).
  destruct (scale_spec k Hr) as (F & HF & [Ha Hs] & [Ha' Hs']).
  unfold exp_of. rewrite Hk. cbn [mbind option_bind]. rewrite HF. cbn [mbind option_bind].
  assert (forall g G, above g G -> nonneg G = true -> log2_floor k - 4 <= g <= log2_floor k ->
    valid (value / G)%D = true /\ upto 29 (value / G)%D) as Hdiv.
  { intros g G HG HsG Hg.
    destruct (div_upto (E + 1) g value G Hn HsG Hu HG) as [Hd _]; [unfold emin; lia|].
    split; [exact (div_valid g _ _ Hn HG)|]. apply (upto_le (E + 1 - g + 1)); [lia|exact Hd]. }
  assert (forall m e, value = S754_finite false m e -> -66 <= e -> -5 <= k) as H66.
  { intros m e Hval Hme. apply H14. destruct (He m e Hval) as [|HE']; [lia|].
    rewrite Hval, HE' in Hu. destruct Hu as [? _]. lia. }
  assert (k <= 1 -> upto 29 value) as H29.
  { intros Hk1. apply (upto_le (E + 1)); [lia|exact Hu]. }
  destruct (value <? F)%D.
  - exists (k - 1), (F / of_Z 10)%D. destruct (Hdiv _ _ Ha' Hs') as [? ?]; [lia|].
    split; [reflexivity|]. split; [lia|]. split; [assumption|]. split; [assumption|].
    split; [intros ?; apply H29; lia|]. intros m e Hval Hme. specialize (H66 m e Hval Hme). lia.
  - exists k, F. destruct (Hdiv _ _ Ha Hs) as [? ?]; [lia|].
    split; [reflexivity|]. split; [lia|]. split; [assumption|]. split; [assumption|].
    split; [intros ?; apply H29; lia|]. intros m e Hval Hme. specialize (H66 m e Hval Hme). lia.
Qed.

(** [clear] leaves the other flags. *)
Lemma has_clear flags f g : Z.land f g = 0 -> has (clear flags g) f = has flags f.
Proof.
  intros H. unfold has, clear. f_equal. apply Z.bits_inj'. intros i Hi.
  rewrite !Z.land_spec, Z.ldiff_spec. apply (f_equal (fun z => Z.testbit z i)) in H.
  rewrite Z.land_spec, Z.bits_0 in H. destruct (Z.testbit flags i), (Z.testbit f i), (Z.testbit g i); done.
Qed.

Lemma valid_opp x : valid (SFopp x) = valid x.
Proof. by destruct x. Qed.

(** The magnitude of a finite double. *)
Lemma magnitude_spec value : valid value = true -> is_special value = false ->
  let v := if (value <? of_Z 0)%D then SFopp value else value in valid v = true /\ nonneg v = true.
Proof.
  intros Hv Hs. assert (exists b, upto b value) as [b Hb].
  { destruct value as [s|s| |s m e]; [by exists 0|destruct s; by vm_compute in Hs|by vm_compute in Hs|].
    exists (e + Zpos m). cbn. apply valid_finite in Hv as [He _]. split; [lia|].
    replace (e + Zpos m - e) with (Zpos m) by lia. apply Z.lt_le_incl, Z.pow_gt_lin_r; lia. }
  destruct value as [s|s| |[] m e]; cbn; try done.
Qed.

(** What %g does to the precision. *)
Definition prec_limit (flags : Z) : Z := if has flags FLAGS_ADAPT_EXP then 36 else 42.

Lemma s32_small z : 0 <= z < 2 ^ 31 -> s32 z = z.
Proof.
  intros Hz. unfold s32, sext. rewrite Z.mod_small by lia. by rewrite (proj2 (Z.ltb_lt _ _)) by lia.
Qed.

Lemma adapt_exp_spec value prec flags k minwidth : valid value = true -> nonneg value = true ->
  -309 <= k <= 308 -> (k = 0 -> upto 29 value) ->
  (forall m e, value = S754_finite false m e -> -66 <= e -> -6 <= k) ->
  0 <= prec < prec_limit flags ->
  exists prec' flags' k' w, adapt_exp value prec flags k minwidth = Some (prec', flags', k', w) /\
    0 <= prec' < 42 /\ (k' = 0 -> upto 29 value) /\ (k' = 0 \/ k' = k).
Proof.
  unfold adapt_exp, prec_limit. intros Hv Hn Hk H0 H66 Hp.
  destruct (has flags FLAGS_ADAPT_EXP); [|by exists prec, flags, k, minwidth; split_and!; try lia; auto].
  set (p1 := if (0 <? prec) && has flags FLAGS_PRECISION then prec - 1 else prec).
  assert (0 <= p1 < 42) as Hp1.
  { subst p1. destruct (Z.ltb_spec 0 prec), (has flags FLAGS_PRECISION); cbn [andb]; lia. }
  destruct (negb (value <? decimal 1 4)%D && (value <? of_Z (10 ^ 6))%D) eqn:E;
    [|exists p1, flags, k, minwidth; split_and!; try lia; auto].
  rewrite andb_true_iff, negb_true_iff in E. destruct E as [E4 E6].
  assert (decimal 1 4 = S754_finite false 7378697629483821 (-66)) as E1 by (by vm_compute).
  assert (of_Z (10 ^ 6) = S754_finite false 8589934592000000 (-33)) as E2 by (by vm_compute).
  rewrite E1 in E4. rewrite E2 in E6. clear E1 E2.
  assert (upto 29 value) as Hu.
  { apply (upto_le 20); [lia|]. by apply (lt_upto 8589934592000000 (-33)); [..|exact E6]. }
  assert (-6 <= k) as Hk6.
  { destruct value as [s| | |[] m e]; [discriminate E4|destruct Hu..|discriminate Hn|].
    apply (H66 m e eq_refl). destruct (Z.le_gt_cases (-66) e); [assumption|]. exfalso.
    unfold SFltb in E4. cbn [SFcompare] in E4.
    rewrite (proj2 (Z.compare_lt_iff e (-66))) in E4 by lia. discriminate E4. }
  rewrite s32_small by lia. destruct (Z.ltb_spec k prec).
  - rewrite (proj2 (Z.ltb_lt (prec - k) _)) by lia. cbn [mbind option_bind].
    eexists _, _, _, _. split; [reflexivity|]. unfold u32. rewrite Z.mod_small by lia.
    split; [lia|]. auto.
  - eexists _, _, _, _. split; [reflexivity|]. split; [lia|]. auto.
Qed.

(** What [_etoa] hands to [_ftoa] is printed in fixed notation. *)
Lemma etoa_plan_spec value prec width flags : valid value = true -> is_special value = false ->
  prec_ok (prec_limit flags) prec flags ->
  exists p, etoa_plan_of value prec width flags = Some p /\
    valid (ep_value p) = true /\ small (ep_value p) = true /\ 0 <= ep_prec p < 42.
Proof.
  intros Hv Hs Hp. destruct (magnitude_spec value Hv Hs) as [Hv' Hn]. unfold etoa_plan_of.
  set (negative := (value <? of_Z 0)%D) in *. set (v := if negative then _ else _) in *.
  set (p := if has flags FLAGS_PRECISION then prec else _).
  assert (0 <= p < prec_limit flags) as Hp'.
  { unfold p, prec_limit in *. unfold prec_ok in Hp. destruct (has flags FLAGS_PRECISION); [by apply Hp|].
    destruct (has flags FLAGS_ADAPT_EXP); by vm_compute. }
  clearbody p v negative. destruct (exp_of_spec v Hv' Hn) as (k & F & -> & Hk & HvF & HuF & H0 & H66).
  cbn [mbind option_bind].
  destruct (adapt_exp_spec v p flags k (if (k <? 100) && (-100 <? k) then 4 else 5)) as
    (p' & f' & k' & w & -> & Hp'' & H0' & _); try assumption. cbn [mbind option_bind].
  eexists. split; [reflexivity|]. cbn [ep_value ep_prec].
  assert (valid (if k' =? 0 then v else (v / F)%D) = true /\
    upto 29 (if k' =? 0 then v else (v / F)%D)) as [Hval Hu].
  { destruct (Z.eqb_spec k' 0); [split; [assumption|by apply H0']|split; assumption]. }
  destruct negative; rewrite ?valid_opp; (split; [assumption|split; [|assumption]]);
    apply upto_small; rewrite ?valid_opp, ?upto_opp; assumption.
Qed.

Section totality.
Context {S : Type} (out : Z -> S -> Z -> Z -> S) (maxlen : Z).

Lemma ftoa_small fuel value prec width flags st :
  valid value = true -> small value = true -> prec_ok 42 prec flags ->
  is_Some (_ftoa out maxlen (Datatypes.S fuel) value prec width flags st).
Proof.
  intros Hv Hs Hp. cbn [_ftoa]. pose proof (small_upto value Hv Hs) as Hu. unfold small in Hs.
  rewrite !andb_true_iff, !negb_true_iff in Hs. destruct Hs as [[-> ->] ->]. cbn [orb].
  destruct (ftoa_buf_total value prec width flags Hu Hp) as [[b w] ->]. by eexists.
Qed.

(** C37. The floating-point formatters return on every double, for precisions below 42 (36
    with %g): the mutual recursion of _ftoa and _etoa ends within two calls, because the
    number _etoa scales is at most 2^29, and no conversion to an integer is out of
    range. *)
Theorem float_total value prec width flags st :
  valid value = true -> prec_ok (prec_limit flags) prec flags ->
  is_Some (_ftoa out maxlen FTOA_DEPTH value prec width flags st) /\
  is_Some (_etoa out maxlen FTOA_DEPTH value prec width flags st).
Proof.
  intros Hv Hp.
  assert (forall fuel, is_Some (_etoa out maxlen (Datatypes.S fuel) value prec width flags st)) as He.
  { intros fuel. unfold _etoa, etoa_with. destruct (is_special value) eqn:Hs.
    - cbn [_ftoa]. rewrite Hs. by eexists.
    - destruct (etoa_plan_spec value prec width flags Hv Hs Hp) as (p & -> & Hvp & Hsp & Hpp).
      cbn [mbind option_bind].
      destruct (ftoa_small fuel (ep_value p) (ep_prec p) (ep_width p)
        (clear (ep_flags p) FLAGS_ADAPT_EXP) st Hvp Hsp) as [st' ->]; [by intros _|].
      by eexists. }
  split; [|apply He]. destruct (small value) eqn:Hs.
  - apply ftoa_small; [assumption..|]. intros Hf. specialize (Hp Hf). unfold prec_limit in Hp.
    destruct (has flags FLAGS_ADAPT_EXP); lia.
  - unfold FTOA_DEPTH. cbn [_ftoa]. destruct (is_special value) eqn:Hsp; [by eexists|].
    destruct ((PRINTF_MAX_FLOAT <? value)%D || (value <? SFopp PRINTF_MAX_FLOAT)%D) eqn:Hbig.
    + exact (He 0%nat).
    + exfalso. unfold small in Hs. rewrite Hsp in Hs. cbn [negb andb] in Hs.
      rewrite <- negb_orb, Hbig in Hs. discriminate Hs.
Qed.
End totality.
