(* ===== verification/Printf.v ===== *)
(** * printf

    Models the directive interpreter [_vsnprintf] of printf.c and its front
    ends.  A computation is [None] where C has undefined behaviour: an
    argument that is missing or of the wrong kind, a format read past its
    terminating zero, a floating-point conversion [Ftoa] rejects. *)

From Stdlib Require Import Floats.SpecFloat Ascii.
From S2P Require Import Prelude Double Ntoa Ftoa.

(** ** Directives *)

(** A variadic argument: a 64-bit slot, a pointer to a string, or a double. *)
Inductive va := VInt (z : Z) | VStr (s : list Z) | VDouble (d : double).

Definition va_int (args : list va) : option (Z * list va) :=
  match args with VInt z :: rest => Some (z, rest) | _ => None end.
Definition va_str (args : list va) : option (list Z * list va) :=
  match args with VStr s :: rest => Some (s, rest) | _ => None end.
Definition va_double (args : list va) : option (double * list va) :=
  match args with VDouble d :: rest => Some (d, rest) | _ => None end.

Fixpoint parse_flags (flags : Z) (fmt : list Z) : Z * list Z :=
  match fmt with
  | c :: rest =>
      if c =? ch "0" then parse_flags (Z.lor flags FLAGS_ZEROPAD) rest
      else if c =? ch "-" then parse_flags (Z.lor flags FLAGS_LEFT) rest
      else if c =? ch "+" then parse_flags (Z.lor flags FLAGS_PLUS) rest
      else if c =? ch " " then parse_flags (Z.lor flags FLAGS_SPACE) rest
      else if c =? ch "#" then parse_flags (Z.lor flags FLAGS_HASH) rest
      else (flags, fmt)
  | [] => (flags, fmt)
  end.

(** [*format], zero at the end of the string. *)
Definition cur (fmt : list Z) : Z := default 0 (head fmt).

Definition parse_width (flags : Z) (fmt : list Z) (args : list va)
    : option (Z * Z * list Z * list va) :=
  if _is_digit (cur fmt) then let '(w, fmt) := _atoi fmt in Some (w, flags, fmt, args)
  else if cur fmt =? ch "*" then
    '(z, args) ← va_int args;
    let w := s32 z in
    Some (if w <? 0 then (u32 (- w), Z.lor flags FLAGS_LEFT, tail fmt, args)
          else (w, flags, tail fmt, args))
  else Some (0, flags, fmt, args).

Definition parse_precision (flags : Z) (fmt : list Z) (args : list va)
    : option (Z * Z * list Z * list va) :=
  if cur fmt =? ch "." then
    let flags := Z.lor flags FLAGS_PRECISION in
    let fmt := tail fmt in
    if _is_digit (cur fmt) then let '(p, fmt) := _atoi fmt in Some (p, flags, fmt, args)
    else if cur fmt =? ch "*" then
      '(z, args) ← va_int args;
      let prec := s32 z in
      Some (if 0 <? prec then prec else 0, flags, tail fmt, args)
    else Some (0, flags, fmt, args)
  else Some (0, flags, fmt, args).

Definition parse_length (flags : Z) (fmt : list Z) : Z * list Z :=
  if cur fmt =? ch "l" then
    let flags := Z.lor flags FLAGS_LONG in
    let fmt := tail fmt in
    if cur fmt =? ch "l" then (Z.lor flags FLAGS_LONG_LONG, tail fmt) else (flags, fmt)
  else if cur fmt =? ch "h" then
    let flags := Z.lor flags FLAGS_SHORT in
    let fmt := tail fmt in
    if cur fmt =? ch "h" then (Z.lor flags FLAGS_CHAR, tail fmt) else (flags, fmt)
  else if (cur fmt =? ch "t") || (cur fmt =? ch "j") || (cur fmt =? ch "z") then
    (Z.lor flags FLAGS_LONG, tail fmt)
  else (flags, fmt).

Definition is_signed_spec (c : Z) : bool := (c =? ch "i") || (c =? ch "d").
Definition is_int_spec (c : Z) : bool :=
  is_signed_spec c || (c =? ch "u") || (c =? ch "x") || (c =? ch "X")
  || (c =? ch "o") || (c =? ch "b").
Definition is_fixed_spec (c : Z) : bool := (c =? ch "f") || (c =? ch "F").
Definition is_exp_spec (c : Z) : bool :=
  (c =? ch "e") || (c =? ch "E") || (c =? ch "g") || (c =? ch "G").

(** The flags of the floating-point conversions. *)
Definition float_flags (c flags : Z) : Z :=
  if is_fixed_spec c then
    if c =? ch "F" then Z.lor flags FLAGS_UPPERCASE else flags
  else
    let flags := if (c =? ch "g") || (c =? ch "G") then Z.lor flags FLAGS_ADAPT_EXP else flags in
    if (c =? ch "E") || (c =? ch "G") then Z.lor flags FLAGS_UPPERCASE else flags.

(** The integer conversions: magnitude and sign of the argument. *)
Definition int_arg (c flags z : Z) : Z * bool :=
  if is_signed_spec c then
    if has flags FLAGS_LONG_LONG || has flags FLAGS_LONG then
      let value := s64 z in (u64 (if 0 <? value then value else 0 - value), value <? 0)
    else
      let value := if has flags FLAGS_CHAR then u8 (s32 z)
                   else if has flags FLAGS_SHORT then sext 16 (s32 z) else s32 z in
      (u32 (if 0 <? value then value else 0 - value), value <? 0)
  else if has flags FLAGS_LONG_LONG || has flags FLAGS_LONG then (u64 z, false)
  else if has flags FLAGS_CHAR then (u8 z, false)
  else if has flags FLAGS_SHORT then (u16 z, false)
  else (u32 z, false).

Definition int_base (c : Z) : Z :=
  if (c =? ch "x") || (c =? ch "X") then 16
  else if c =? ch "o" then 8 else if c =? ch "b" then 2 else 10.

Definition int_flags (c flags : Z) : Z :=
  let flags := if int_base c =? 10 then clear flags FLAGS_HASH else flags in
  let flags := if c =? ch "X" then Z.lor flags FLAGS_UPPERCASE else flags in
  let flags := if negb (is_signed_spec c)
               then clear flags (Z.lor FLAGS_PLUS FLAGS_SPACE) else flags in
  if has flags FLAGS_PRECISION then clear flags FLAGS_ZEROPAD else flags.

Section vsnprintf.
Context {S : Type} (out : Z -> S -> Z -> Z -> S) (maxlen : Z).
#[local] Abbreviation put := (put out maxlen).
#[local] Abbreviation pad := (pad out maxlen).

(** The string a %s prints: up to its zero byte, or to the precision. *)
Fixpoint str_prefix (limited : bool) (precision : Z) (p : list Z) : list Z :=
  match p with
  | [] => []
  | c :: rest =>
      if (c =? 0) || (limited && (precision =? 0)) then []
      else c :: str_prefix limited (precision - 1) rest
  end.

(** One directive, after its '%': the specifier [c] has been read. *)
Definition directive (c flags width precision : Z) (args : list va) (st : S * Z)
    : option (list va * (S * Z)) :=
  if is_int_spec c then
    '(z, args) ← va_int args;
    let flags := int_flags c flags in
    let '(value, negative) := int_arg c flags z in
    Some (args, _ntoa_long out maxlen value negative (int_base c) precision width flags st)
  else if is_fixed_spec c then
    '(value, args) ← va_double args;
    st ← _ftoa out maxlen FTOA_DEPTH value precision width (float_flags c flags) st;
    Some (args, st)
  else if is_exp_spec c then
    '(value, args) ← va_double args;
    st ← _etoa out maxlen FTOA_DEPTH value precision width (float_flags c flags) st;
    Some (args, st)
  else if c =? ch "c" then
    let spaces := Z.to_nat (width - 1) in
    '(z, args) ← va_int args;
    let st := if negb (has flags FLAGS_LEFT) then pad spaces (ch " ") st else st in
    let st := put (u8 z) st in
    Some (args, if has flags FLAGS_LEFT then pad spaces (ch " ") st else st)
  else if c =? ch "s" then
    '(p, args) ← va_str args;
    let l := _strnlen_s p (if precision =? 0 then 2 ^ 64 - 1 else precision) in
    let l := if has flags FLAGS_PRECISION then l `min` precision else l in
    let st := if negb (has flags FLAGS_LEFT)
              then pad (Z.to_nat (width - l)) (ch " ") st else st in
    let st := put_all out maxlen (str_prefix (has flags FLAGS_PRECISION) precision p) st in
    Some (args, if has flags FLAGS_LEFT then pad (Z.to_nat (width - l)) (ch " ") st else st)
  else if c =? ch "p" then
    '(z, args) ← va_int args;
    let flags := Z.lor flags (Z.lor FLAGS_ZEROPAD FLAGS_UPPERCASE) in
    Some (args, _ntoa_long_long out maxlen (u64 z) false 16 precision 16 flags st)
  else Some (args, put c st).

(** The main loop; an iteration consumes at least one character, so the
    length of the format bounds the iterations. *)
Fixpoint vsn_loop (fuel : nat) (fmt : list Z) (args : list va) (st : S * Z)
    : option (S * Z) :=
  match fuel, fmt with
  | _, [] => Some st
  | O, _ => None
  | Datatypes.S fuel, c :: fmt =>
      if negb (c =? ch "%") then vsn_loop fuel fmt args (put c st)
      else
        let '(flags, fmt) := parse_flags 0 fmt in
        '(width, flags, fmt, args) ← parse_width flags fmt args;
        '(precision, flags, fmt, args) ← parse_precision flags fmt args;
        let '(flags, fmt) := parse_length flags fmt in
        match fmt with
        | [] => None (* [format++] leaves the string *)
        | c :: fmt =>
            '(args, st) ← directive c flags width precision args st;
            vsn_loop fuel fmt args st
        end
  end.

(** The terminator; [idx] is where the text ended. *)
Definition terminate (st : S * Z) : Z * S :=
  let '(s, idx) := st in
  (s32 idx, out 0 s (if idx <? maxlen then idx else u64 (maxlen - 1)) maxlen).

Definition _vsnprintf (buffer : S) (fmt : list Z) (args : list va) : option (Z * S) :=
  st ← vsn_loop (length fmt) fmt args (buffer, 0); Some (terminate st).
End vsnprintf.

(** ** Output functions and front ends *)

(** The memory at [buffer]; [None] after a write outside of it. *)
Abbreviation cbuf := (option (list Z)) (only parsing).

Definition _out_buffer (c : Z) (buffer : cbuf) (idx maxlen : Z) : cbuf :=
  if idx <? maxlen then
    b ← buffer; if idx <? Z.of_nat (length b) then Some (<[Z.to_nat idx := c]> b) else None
  else buffer.

Definition _out_null {S} (c : Z) (s : S) (idx maxlen : Z) : S := s.

(** [_vsnprintf] replaces the output function when the buffer is null. *)
Definition vsnprintf_ (buffer : cbuf) (count : Z) (fmt : list Z) (args : list va)
    : option (Z * list Z) :=
  match buffer with
  | None => '(n, _) ← _vsnprintf _out_null count () fmt args; Some (n, [])
  | Some _ => '(n, b) ← _vsnprintf _out_buffer count buffer fmt args; b ← b; Some (n, b)
  end.

Definition SIZE_MAX : Z := 2 ^ 64 - 1.

Definition snprintf_ := vsnprintf_.
Definition sprintf_ (buffer : cbuf) (fmt : list Z) (args : list va) : option (Z * list Z) :=
  vsnprintf_ buffer SIZE_MAX fmt args.

(** [fctprintf]: the caller's function receives every character but zeroes. *)
Definition _out_fct {S} (fct : Z -> S -> S) (c : Z) (s : S) (idx maxlen : Z) : S :=
  if truthy c then fct c s else s.
Definition fctprintf {S} (fct : Z -> S -> S) (arg : S) (fmt : list Z) (args : list va)
    : option (Z * S) := _vsnprintf (_out_fct fct) SIZE_MAX arg fmt args.

(** ** The text does not depend on where it goes *)

(** An operation of the formatter that fails on every sink, or appends the
    same text to every sink. *)
Definition uniform {R} (f : forall S, (Z -> S -> Z -> Z -> S) -> Z -> S * Z -> option (R * (S * Z)))
  : Prop :=
  (forall S out maxlen st, is_u64 st.2 -> f S out maxlen st = None) \/
  exists r l, forall S out maxlen st, is_u64 st.2 ->
    f S out maxlen st = Some (r, put_all out maxlen l st).

Lemma uniform_directive c flags width precision args : wide width ->
  uniform (fun S out maxlen => directive out maxlen c flags width precision args).
Proof.
  intros Hw. unfold uniform, directive, _ntoa_long_long.
  destruct (is_int_spec c).
  { destruct (va_int args) as [[z args']|]; [right|by left]. cbn.
    destruct (int_arg c (int_flags c flags) z) as [v neg].
    destruct (appends_ntoa_long v neg (int_base c) precision width (int_flags c flags) Hw) as [l Hl].
    exists args', l. intros. by rewrite Hl. }
  destruct (is_fixed_spec c).
  { destruct (va_double args) as [[d args']|]; [cbn [mbind option_bind]|by left].
    destruct (appends_ftoa FTOA_DEPTH d precision width (float_flags c flags) Hw) as [H|[l H]];
      [left; intros; by rewrite H|right; exists args', l; intros; by rewrite H]. }
  destruct (is_exp_spec c).
  { destruct (va_double args) as [[d args']|]; [cbn [mbind option_bind]|by left].
    destruct (appends_etoa FTOA_DEPTH d precision width (float_flags c flags) Hw) as [H|[l H]];
      [left; intros; by rewrite H|right; exists args', l; intros; by rewrite H]. }
  destruct (c =? ch "c").
  { destruct (va_int args) as [[z args']|]; [right|by left]. cbn.
    destruct (has flags FLAGS_LEFT); cbn [negb]; eexists args', _; intros;
      rewrite !pad_put_all, !put_put_all, <- put_all_app; reflexivity. }
  destruct (c =? ch "s").
  { destruct (va_str args) as [[p args']|]; [right|by left]. cbn.
    destruct (has flags FLAGS_LEFT); cbn [negb]; eexists args', _; intros;
      rewrite !pad_put_all, <- put_all_app; reflexivity. }
  destruct (c =? ch "p").
  { destruct (va_int args) as [[z args']|]; [right|by left]. cbn.
    destruct (appends_ntoa_long (u64 z) false 16 precision 16
      (Z.lor flags (Z.lor FLAGS_ZEROPAD FLAGS_UPPERCASE))) as [l Hl]; [by vm_compute|].
    exists args', l. intros. by rewrite Hl. }
  right. exists args, [c]. done.
Qed.

Lemma _atoi_wide str : wide (fst (_atoi str)).
Proof.
  unfold _atoi. assert (wide 0) as H by (unfold wide; lia). revert H. generalize 0.
  induction str as [|c str IH]; intros i Hi; simpl; [done|].
  destruct (_is_digit c); [|done]. apply IH. unfold wide, u32. apply Z.mod_pos_bound. lia.
Qed.

Lemma s32_range z : - 2 ^ 31 <= s32 z < 2 ^ 31.
Proof.
  unfold s32, sext. pose proof (Z.mod_pos_bound z (2 ^ 32) ltac:(lia)).
  destruct (Z.ltb_spec (z mod 2 ^ 32) (2 ^ (32 - 1))); lia.
Qed.

Lemma parse_width_wide flags fmt args w flags' fmt' args' :
  parse_width flags fmt args = Some (w, flags', fmt', args') -> wide w.
Proof.
  unfold parse_width. destruct (_is_digit (cur fmt)).
  { pose proof (_atoi_wide fmt). destruct (_atoi fmt). by intros [= <- <- <- <-]. }
  destruct (cur fmt =? ch "*"); [|intros [= <- <- <- <-]; unfold wide; lia].
  destruct (va_int args) as [[z rest]|]; [|done]. cbn. pose proof (s32_range z).
  destruct (Z.ltb_spec (s32 z) 0); intros [= <- <- <- <-]; unfold wide, u32; [|lia].
  apply Z.mod_pos_bound. lia.
Qed.

Lemma uniform_vsn_loop fuel fmt args :
  uniform (R := unit) (fun S out maxlen st =>
    st ← vsn_loop out maxlen fuel fmt args st; Some ((), st)).
Proof.
  revert fmt args. induction fuel as [|fuel IH]; intros [|c fmt] args; cbn.
  1,3: by right; exists (), []. 1: by left.
  destruct (negb (c =? ch "%")).
  { destruct (IH fmt args) as [H|(r & l & H)];
      [left; intros S out maxlen [s idx] Hi; apply H, u64_range|right].
    exists r, (c :: l). intros S out maxlen [s idx] Hi. apply H. apply u64_range. }
  destruct (parse_flags 0 fmt) as [flags fmt1].
  destruct (parse_width flags fmt1 args) as [[[[width flags2] fmt2] args2]|] eqn:Hw;
    [cbn|by left].
  destruct (parse_precision flags2 fmt2 args2) as [[[[prec flags3] fmt3] args3]|]; [cbn|by left].
  destruct (parse_length flags3 fmt3) as [flags4 [|c' fmt4]]; [by left|].
  destruct (uniform_directive c' flags4 width prec args3) as [H|(args4 & l & H)].
  { by eapply parse_width_wide. }
  { left. intros. by rewrite H. }
  destruct (IH fmt4 args4) as [H2|(r & l2 & H2)].
  - left. intros S out maxlen st Hi. rewrite H by done. by apply H2, put_all_u64.
  - right. exists r, (l ++ l2). intros S out maxlen st Hi. rewrite H by done. cbn.
    rewrite put_all_app. by apply H2, put_all_u64.
Qed.

(** C36. A call of the formatter is undefined on every sink, or it returns on every sink,
    and the text it produces and its length do not depend on the output function, the
    bound or the buffer. *)
Theorem vsnprintf_text fmt args :
  (forall S (out : Z -> S -> Z -> Z -> S) maxlen buffer,
    _vsnprintf out maxlen buffer fmt args = None) \/
  exists text, forall S (out : Z -> S -> Z -> Z -> S) maxlen buffer,
    _vsnprintf out maxlen buffer fmt args
      = Some (terminate out maxlen (put_all out maxlen text (buffer, 0))).
Proof.
  assert (is_u64 0) as H0 by (unfold is_u64; lia). unfold _vsnprintf.
  destruct (uniform_vsn_loop (length fmt) fmt args) as [H|([] & l & H)]; [left|right; exists l];
    intros S out maxlen buffer; specialize (H S out maxlen (buffer, 0) H0); revert H.
  - by destruct (vsn_loop out maxlen (length fmt) fmt args (buffer, 0)).
  - destruct (vsn_loop out maxlen (length fmt) fmt args (buffer, 0)); [|done].
    cbn. by intros [= ->].
Qed.

(** The text of a format, collected in a list. *)
Definition text_of (fmt : list Z) (args : list va) : option (list Z) :=
  st ← vsn_loop (fun c s _ _ => s ++ [c]) 0 (length fmt) fmt args ([], 0); Some st.1.

Lemma put_all_collect maxlen l s i :
  (put_all (fun c s _ _ => s ++ [c]) maxlen l (s, i)).1 = s ++ l.
Proof.
  revert s i. induction l as [|c l IH]; intros s i; simpl; [by rewrite app_nil_r|].
  rewrite IH. by rewrite <- app_assoc.
Qed.

Lemma vsnprintf_text_of fmt args S (out : Z -> S -> Z -> Z -> S) maxlen buffer :
  _vsnprintf out maxlen buffer fmt args =
    text ← text_of fmt args;
    Some (terminate out maxlen (put_all out maxlen text (buffer, 0))).
Proof.
  assert (is_u64 0) as H0 by (unfold is_u64; lia). unfold _vsnprintf, text_of.
  destruct (uniform_vsn_loop (length fmt) fmt args) as [H|([] & l & H)];
    pose proof (H S out maxlen (buffer, 0) H0) as H1;
    pose proof (H _ (fun c s _ _ => s ++ [c]) 0 ([], 0) H0) as H2; revert H1 H2.
  - do 2 destruct (vsn_loop _ _ _ _ _ _); done.
  - do 2 destruct (vsn_loop _ _ _ _ _ _); try done. cbn. intros [= ->] [= ->].
    by rewrite put_all_collect.
Qed.

(** ** Which calls are defined

    Without doubles, whether a call is defined depends on the kinds of its
    arguments only. *)

Definition blank (a : va) : va :=
  match a with VInt _ => VInt 0 | VStr _ => VStr [] | VDouble d => VDouble d end.

Definition plain (args : list va) : bool :=
  forallb (fun a => match a with VDouble _ => false | _ => true end) args.

Lemma plain_double args : plain args = true -> va_double (blank <$> args) = None.
Proof. by destruct args as [|[] args]. Qed.

Lemma blank_int args z rest : plain args = true ->
  va_int (blank <$> args) = Some (z, rest) ->
  exists z' args', va_int args = Some (z', args') /\ rest = blank <$> args' /\ plain args' = true.
Proof. destruct args as [|[]]; try done. intros Hp [= <- <-]. eexists _, _. done. Qed.

Lemma blank_str args p rest : plain args = true ->
  va_str (blank <$> args) = Some (p, rest) ->
  exists p' args', va_str args = Some (p', args') /\ rest = blank <$> args' /\ plain args' = true.
Proof. destruct args as [|[]]; try done. intros Hp [= <- <-]. eexists _, _. done. Qed.

Lemma parse_width_blank flags flags' fmt args w f fmt' rest :
  plain args = true ->
  parse_width flags fmt (blank <$> args) = Some (w, f, fmt', rest) ->
  exists w' f' args', parse_width flags' fmt args = Some (w', f', fmt', args') /\
    rest = blank <$> args' /\ plain args' = true.
Proof.
  intros Hp. unfold parse_width. destruct (_is_digit (cur fmt)).
  { destruct (_atoi fmt). intros [= <- <- <- <-]. eauto 10. }
  destruct (cur fmt =? ch "*"); [|intros [= <- <- <- <-]; eauto 10].
  destruct (va_int (blank <$> args)) as [[z rest']|] eqn:E; [|done].
  apply blank_int in E as (z' & args' & -> & -> & Hp'); [|exact Hp]. cbn.
  destruct (s32 z <? 0), (s32 z' <? 0); intros [= <- <- <- <-]; eauto 10.
Qed.

Lemma parse_precision_blank flags flags' fmt args w f fmt' rest :
  plain args = true ->
  parse_precision flags fmt (blank <$> args) = Some (w, f, fmt', rest) ->
  exists w' f' args', parse_precision flags' fmt args = Some (w', f', fmt', args') /\
    rest = blank <$> args' /\ plain args' = true.
Proof.
  intros Hp. unfold parse_precision. destruct (cur fmt =? ch ".");
    [|intros [= <- <- <- <-]; eauto 10].
  destruct (_is_digit (cur (tail fmt))).
  { destruct (_atoi (tail fmt)). intros [= <- <- <- <-]. eauto 10. }
  destruct (cur (tail fmt) =? ch "*"); [|intros [= <- <- <- <-]; eauto 10].
  destruct (va_int (blank <$> args)) as [[z rest']|] eqn:E; [|done].
  apply blank_int in E as (z' & args' & -> & -> & Hp'); [|exact Hp]. cbn. intros [= <- <- <- <-]. eauto 10.
Qed.

Lemma parse_length_flags flags flags' fmt :
  (parse_length flags' fmt).2 = (parse_length flags fmt).2.
Proof. unfold parse_length. by repeat case_match. Qed.

Lemma directive_blank {S} (out : Z -> S -> Z -> Z -> S) maxlen c f f' w w' p p' args rest st st' s :
  plain args = true ->
  directive out maxlen c f w p (blank <$> args) st = Some (rest, s) ->
  exists args' s', directive out maxlen c f' w' p' args st' = Some (args', s') /\
    rest = blank <$> args' /\ plain args' = true.
Proof.
  intros Hp. unfold directive. destruct (is_int_spec c).
  { destruct (va_int (blank <$> args)) as [[z rest']|] eqn:E; [|done].
    apply blank_int in E as (z' & args' & -> & -> & Hp'); [|exact Hp]. cbn.
    destruct (int_arg c (int_flags c f) z), (int_arg c (int_flags c f') z').
    intros [= <- <-]. eauto. }
  rewrite (plain_double args Hp). destruct (is_fixed_spec c); [done|].
  destruct (is_exp_spec c); [done|].
  destruct (c =? ch "c").
  { destruct (va_int (blank <$> args)) as [[z rest']|] eqn:E; [|done].
    apply blank_int in E as (z' & args' & -> & -> & Hp'); [|exact Hp]. cbn. intros [= <- <-]. eauto. }
  destruct (c =? ch "s").
  { destruct (va_str (blank <$> args)) as [[z rest']|] eqn:E; [|done].
    apply blank_str in E as (z' & args' & -> & -> & Hp'); [|exact Hp]. cbn. intros [= <- <-]. eauto. }
  destruct (c =? ch "p"); [|intros [= <- <-]; eauto].
  destruct (va_int (blank <$> args)) as [[z rest']|] eqn:E; [|done].
  apply blank_int in E as (z' & args' & -> & -> & Hp'); [|exact Hp]. cbn. intros [= <- <-]. eauto.
Qed.

Lemma vsn_loop_blank {S} (out : Z -> S -> Z -> Z -> S) maxlen fuel fmt args st st' :
  plain args = true ->
  is_Some (vsn_loop out maxlen fuel fmt (blank <$> args) st) ->
  is_Some (vsn_loop out maxlen fuel fmt args st').
Proof.
  revert fmt args st st'. induction fuel as [|fuel IH]; intros [|c fmt] args st st' Hp; cbn;
    [by eauto|by intros [? [=]]|by eauto|].
  destruct (negb (c =? ch "%")); [by apply IH|].
  destruct (parse_flags 0 fmt) as [flags fmt1].
  destruct (parse_width flags fmt1 (blank <$> args)) as [[[[w f] fmt2] rest]|] eqn:E;
    [|by intros [? [=]]].
  apply (parse_width_blank _ flags) in E as (w' & f' & args2 & -> & -> & Hp2); [|exact Hp]. cbn.
  destruct (parse_precision f fmt2 _) as [[[[p g] fmt3] rest]|] eqn:E; [|by intros [? [=]]].
  apply (parse_precision_blank _ f') in E as (p' & g' & args3 & -> & -> & Hp3); [|exact Hp2]. cbn.
  pose proof (parse_length_flags g g' fmt3) as Hl.
  destruct (parse_length g fmt3) as [h fmt4], (parse_length g' fmt3) as [h' fmt4'].
  cbn in Hl. subst fmt4'. destruct fmt4 as [|c' fmt4]; [done|].
  destruct (directive _ _ c' h w p _ _) as [[rest s]|] eqn:E; [|by intros [? [=]]].
  apply (directive_blank _ _ _ _ h' _ w' _ p' _ _ _ st') in E as (args4 & s' & -> & -> & Hp4);
    [|exact Hp3].
  by apply IH.
Qed.

(** Decides that a call is defined from the kinds of its arguments. *)
Lemma text_of_defined fmt args :
  bool_decide (is_Some (text_of fmt (blank <$> args))) && plain args = true ->
  is_Some (text_of fmt args).
Proof.
  rewrite andb_true_iff, bool_decide_eq_true. intros [Hd Hp]. revert Hd. unfold text_of.
  pose proof (vsn_loop_blank (fun c s _ _ => s ++ [c]) 0 (length fmt) fmt args ([], 0) ([], 0) Hp) as H.
  destruct (vsn_loop _ _ _ _ (blank <$> args) _); [|by intros [? [=]]].
  destruct H as [st ->]; [by eauto|]. cbn. eauto.
Qed.

(** ** Bounds of snprintf *)

(** [count] bytes of [text] from index [i], over [b]. *)
Definition overlay (text : list Z) (i count : Z) (b : list Z) (j : nat) : option Z :=
  if bool_decide (i <= Z.of_nat j < count `min` (i + Z.of_nat (length text)))
  then text !! (j - Z.to_nat i)%nat else b !! j.

Lemma out_buffer_in c b i count : 0 <= i -> count <= Z.of_nat (length b) ->
  exists b', _out_buffer c (Some b) i count = Some b' /\ length b' = length b /\
    forall j, b' !! j = if bool_decide (Z.of_nat j = i /\ i < count) then Some c else b !! j.
Proof.
  intros Hi Hc. unfold _out_buffer. destruct (Z.ltb_spec i count); cbn.
  - rewrite (proj2 (Z.ltb_lt i _)) by lia. eexists. split; [done|].
    split; [apply length_insert|]. intros j. case_bool_decide as Hj.
    + replace (Z.to_nat i) with j by lia. apply list_lookup_insert_eq. lia.
    + apply list_lookup_insert_ne. lia.
  - exists b. split_and!; [done..|]. intros j. case_bool_decide; [lia|done].
Qed.

Lemma put_all_buffer text count b i :
  0 <= i -> i + Z.of_nat (length text) < 2 ^ 64 -> count <= Z.of_nat (length b) ->
  exists b', put_all _out_buffer count text (Some b, i) =
      (Some b', i + Z.of_nat (length text)) /\ length b' = length b /\
    forall j, b' !! j = overlay text i count b j.
Proof.
  revert b i. induction text as [|c text IH]; intros b i Hi Hl Hc.
  - exists b. cbn. rewrite Z.add_0_r. split_and!; [done..|]. intros j.
    unfold overlay. case_bool_decide; [simpl in *; lia|done].
  - destruct (out_buffer_in c b i count Hi Hc) as (b1 & H1 & Hl1 & Hb1).
    cbn [put_all foldl put]. rewrite H1. simpl in Hl. rewrite u64_id by (unfold is_u64; lia).
    destruct (IH b1 (i + 1)) as (b' & H' & Hl' & Hb'); [lia..|].
    exists b'. split; [|split].
    + unfold put_all in H'. rewrite H'. f_equal. simpl. lia.
    + congruence.
    + intros j. rewrite Hb'. unfold overlay. rewrite Hb1. simpl length.
      repeat case_bool_decide; try lia; try done.
      * replace (j - Z.to_nat i)%nat with (S (j - Z.to_nat (i + 1))) by lia. done.
      * replace (j - Z.to_nat i)%nat with 0%nat by lia. done.
Qed.

(** C35. snprintf_ into a buffer of at least count bytes writes no byte at or after count,
    ends the text with a zero inside the buffer, keeps every byte behind it, writes
    nothing when count is zero, and returns the length of the whole text. *)
Theorem snprintf_spec b count fmt args :
  0 <= count <= Z.of_nat (length b) ->
  match text_of fmt args with
  | None => snprintf_ (Some b) count fmt args = None
  | Some text => Z.of_nat (length text) < 2 ^ 63 ->
      exists b', snprintf_ (Some b) count fmt args = Some (s32 (Z.of_nat (length text)), b') /\
        length b' = length b /\
        forall j, b' !! j =
          if bool_decide (Z.of_nat j < (count - 1) `min` Z.of_nat (length text)) then text !! j
          else if bool_decide (0 < count /\ Z.of_nat j = (count - 1) `min` Z.of_nat (length text))
          then Some 0 else b !! j
  end.
Proof.
  intros Hc. unfold snprintf_, vsnprintf_. rewrite vsnprintf_text_of.
  destruct (text_of fmt args) as [text|]; [|done]. intros Hl. cbn.
  destruct (put_all_buffer text count b 0) as (b1 & H1 & Hl1 & Hb1); [lia..|].
  rewrite H1. cbn [terminate]. rewrite Z.add_0_l.
  set (n := Z.of_nat (length text)) in *.
  set (at0 := if n <? count then n else u64 (count - 1)).
  assert (0 <= at0 /\ (0 < count -> at0 = (count - 1) `min` n) /\ (count = 0 -> count <= at0))
    as (H0 & Hpos & Hzero).
  { subst at0. destruct (Z.ltb_spec n count); [lia|]. destruct (decide (count = 0)) as [->|].
    - by vm_compute.
    - assert (count < 2 ^ 64) by lia. rewrite u64_id by (unfold is_u64; lia). lia. }
  destruct (out_buffer_in 0 b1 at0 count) as (b2 & H2 & Hl2 & Hb2); [lia..|].
  rewrite H2. exists b2. split; [done|]. split; [congruence|].
  intros j. rewrite Hb2, Hb1. unfold overlay. fold n. change (Z.to_nat 0) with 0%nat.
  rewrite Nat.sub_0_r. repeat case_bool_decide; try done; lia.
Qed.

(** ** Numerals *)

Lemma text_of_u v : 0 <= v < 2 ^ 32 ->
  text_of [ch "%"; ch "u"] [VInt v] = Some (rev (ntoa_digits 32 10 0 v)).
Proof.
  intros Hv. unfold text_of. cbn [length vsn_loop].
  change (negb (ch "%" =? ch "%")) with false. cbv iota.
  change (parse_flags 0 [ch "u"]) with (0, [ch "u"]). cbv beta iota.
  change (parse_width 0 [ch "u"] [VInt v]) with (Some (0, 0, [ch "u"], [VInt v])).
  cbn [mbind option_bind].
  change (parse_precision 0 [ch "u"] [VInt v]) with (Some (0, 0, [ch "u"], [VInt v])).
  cbn [mbind option_bind].
  change (parse_length 0 [ch "u"]) with (0, [ch "u"]). cbv beta iota.
  unfold directive. change (is_int_spec (ch "u")) with true. cbv iota.
  cbn [va_int mbind option_bind].
  change (int_arg (ch "u") (int_flags (ch "u") 0) v) with (u32 v, false).
  cbn [mbind option_bind]. change (int_base (ch "u")) with 10.
  change (int_flags (ch "u") 0) with 0.
  rewrite ntoa_long_plain. cbn [mbind option_bind]. rewrite put_all_collect.
  unfold u32. by rewrite Z.mod_small.
Qed.

(** C39. The decimal digits %u prints for a 32-bit number are read back by _atoi as that
    number, up to the first character that is no digit. *)
Theorem printf_atoi_roundtrip v rest :
  0 <= v < 2 ^ 32 -> _is_digit (cur rest) = false ->
  exists digits, text_of [ch "%"; ch "u"] [VInt v] = Some digits /\
    _atoi (digits ++ rest) = (v, rest).
Proof.
  intros Hv Hrest. eexists. split; [by apply text_of_u|].
  unfold _atoi. rewrite atoi_digits by lia. rewrite Z.mul_0_l, Z.add_0_l.
  unfold u32. rewrite Z.mod_small by done.
  destruct rest as [|c rest]; [done|]. cbn in *. by rewrite Hrest.
Qed.

(** The 32-byte buffer is too short for a 64-bit number in base 2. *)
Lemma printf_binary_truncated :
  text_of [ch "%"; ch "l"; ch "b"] [VInt (2 ^ 32)] = Some (replicate 32 (ch "0")).
Proof. by vm_compute. Qed.


(** ** Doubles *)

Lemma dec_digits_ntoa room v : 0 <= v -> dec_digits room v = ntoa_digits room 10 0 v.
Proof.
  revert v. induction room as [|room IH]; intros v Hv; [done|]. cbn [dec_digits ntoa_digits].
  unfold ntoa_digit. pose proof (Z.mod_pos_bound v 10 ltac:(lia)).
  rewrite (proj2 (Z.ltb_lt _ 10)) by lia. f_equal.
  destruct (v / 10 =? 0); [done|]. apply IH, Z.div_pos; lia.
Qed.

Lemma finite_not_special m e : e < 971 -> is_special (S754_finite false m e) = false.
Proof.
  intros He. unfold is_special, is_nan, below_min, above_max, SFeqb, SFltb.
  change DBL_MAX with (S754_finite false (2 ^ 53 - 1) 971). cbn [SFcompare SFopp negb].
  rewrite Z.compare_refl, Pos.compare_cont_spec, Pos.compare_refl.
  by rewrite (proj2 (Z.compare_gt_iff 971 e)) by lia.
Qed.

(** An integer has no fraction to round. *)
Lemma ftoa_buf_of_Z n : 0 <= n <= 10 ^ 9 ->
  ftoa_buf (of_Z n) 0 0 FLAGS_PRECISION = Some (dec_digits 32 n, 0).
Proof.
  intros Hn. destruct (of_Z_upto n 30) as [Hu Hs]; [lia..|]. unfold ftoa_buf.
  assert ((of_Z n <? of_Z 0)%D = false) as ->.
  { change (of_Z 0) with (S754_zero false). by destruct (of_Z n) as [[]| | |[]]. }
  assert (to_int (of_Z n) = Some n) as ->.
  { unfold to_int. rewrite truncate_of_Z by lia. cbn. by rewrite bool_decide_eq_true_2 by lia. }
  cbn [mbind option_bind].
  change (has FLAGS_PRECISION FLAGS_PRECISION) with true. cbv iota.
  change (0 - Z.of_nat (Z.to_nat ((0 - 9) `min` PRINTF_FTOA_BUFFER_SIZE))) with 0.
  change (pow10 0) with (Some (of_Z 1)). cbn [mbind option_bind].
  rewrite (sub_diag _ 30) by done. change (0 =? 0) with true. cbv iota.
  assert (round_whole (of_Z n) n = n) as Hw.
  { unfold round_whole. rewrite (sub_diag _ 30) by done. by vm_compute. }
  change (S754_zero false * of_Z 1)%D with (S754_zero false). change (to_ulong (S754_zero false)) with (Some 0).
  cbn [mbind option_bind]. change (S754_zero false - of_Z 0)%D with (S754_zero false).
  change (round_frac (of_Z 1) (S754_zero false) 0 n) with (0, n). cbv iota.
  rewrite Hw. cbn [replicate app].
  change (replicate (Z.to_nat ((0 - 9) `min` PRINTF_FTOA_BUFFER_SIZE)) (ch "0")) with (@nil Z).
  change (room []) with 32%nat. cbn [app].
  change (negb (has FLAGS_PRECISION FLAGS_LEFT) && has FLAGS_PRECISION FLAGS_ZEROPAD) with false.
  cbn [andb]. unfold ntoa_sign. change (has FLAGS_PRECISION FLAGS_PLUS) with false.
  change (has FLAGS_PRECISION FLAGS_SPACE) with false. by destruct (_ <? _).
Qed.

Abbreviation collect := (fun (c : Z) (s : list Z) (_ _ : Z) => s ++ [c]).

Lemma text_of_f d :
  text_of (string_bytes "%.0f") [VDouble d] =
    st ← _ftoa collect 0 FTOA_DEPTH d 0 0 FLAGS_PRECISION ([], 0); Some st.1.
Proof.
  destruct (_ftoa collect 0 FTOA_DEPTH d 0 0 FLAGS_PRECISION ([], 0)) as [st|] eqn:E;
    lazy -[_ftoa FTOA_DEPTH] in E |- *; by rewrite E.
Qed.

(** C38. %.0f prints a double that is an integer between 0 and 10^9 with the digits %u
    prints for that integer. *)
Theorem printf_float_int n : 0 <= n <= 10 ^ 9 ->
  text_of (string_bytes "%.0f") [VDouble (of_Z n)] = text_of (string_bytes "%u") [VInt n].
Proof.
  intros Hn. change (string_bytes "%u") with [ch "%"; ch "u"]. rewrite text_of_u, text_of_f by lia.
  assert (is_special (of_Z n) = false /\ (PRINTF_MAX_FLOAT <? of_Z n)%D = false
    /\ (of_Z n <? SFopp PRINTF_MAX_FLOAT)%D = false) as (H1 & H2 & H3).
  { destruct (decide (n = 0)) as [->|]; [by vm_compute|].
    assert (forall m e, 0 < m < 2 ^ 53 -> of_Z m = e -> n <= m ->
      (e <? of_Z n)%D = false /\ (of_Z n <? SFopp e)%D = false) as H.
    { intros m e Hm <- Hle. rewrite ltb_of_Z, (proj2 (Z.ltb_ge m n)) by lia. split; [done|].
      destruct (of_Z_finite n) as (x & -> & _); [lia|]. by destruct (of_Z_finite m) as (y & -> & _). }
    destruct (H (10 ^ 9) PRINTF_MAX_FLOAT) as [-> ->]; [lia|done|lia|].
    split; [|done]. destruct (of_Z_finite n) as (x & -> & _ & Hd); [lia|]. apply finite_not_special. lia. }
  unfold FTOA_DEPTH. cbn [_ftoa]. rewrite H1, H2, H3. cbn [orb].
  rewrite ftoa_buf_of_Z by done. cbn [mbind option_bind]. unfold _out_rev.
  rewrite dec_digits_ntoa by lia. change (has FLAGS_PRECISION FLAGS_LEFT) with false.
  change (has FLAGS_PRECISION FLAGS_ZEROPAD) with false. cbn [negb andb].
  rewrite Z2Nat.nonpos by lia. cbn [pad]. by rewrite put_all_collect.
Qed.

(** A fraction that rounds up to a power of ten at a half overflows into the
    digit count, and fills the buffer with zeros. *)
Lemma printf_half_up :
  text_of (string_bytes "%.1f") [VDouble (decimal 95 2)] =
    Some (replicate 30 (ch "0") ++ [ch "1"; ch "0"]).
Proof. by vm_compute. Qed.

(** Zero gets the smallest exponent. *)
Lemma printf_exp_zero :
  text_of (string_bytes "%e") [VDouble (of_Z 0)] = Some (string_bytes "0.000000e-308").
Proof. by vm_compute. Qed.

(** Zeros beyond the tenth decimal push the number out of the buffer, and with
    42 decimals [pow10] is read out of bounds. *)
Lemma printf_precision_32 :
  text_of (string_bytes "%.41f") [VDouble (of_Z 1)] = Some (replicate 32 (ch "0")) /\
  text_of (string_bytes "%.42f") [VDouble (of_Z 1)] = None.
Proof. split; by vm_compute. Qed.
