(* ===== verification/Console.v ===== *)
(** * The console of the stub

    Models [_putchar] of urvirt-stub.c and [printf_] of printf.c: the
    formatter of [Printf] on the sink that writes each character to standard
    error, one write(2) per character. *)

From S2P Require Import Prelude Bits State Machine Hoare Linux Ntoa Printf.

Section console.
Context `{K : Kernel}.

Definition _putchar (character : Z) : M unit := s_write 2 [character];; mret ().

(** The terminating zero is not printed; [_putchar] always returns. *)
Definition _out_char (character : Z) (w : world) (idx maxlen : Z) : world :=
  if truthy character then snd (_putchar character w) else w.

Definition printf_ (fmt : list Z) (args : list va) : M Z := fun w =>
  match _vsnprintf _out_char SIZE_MAX w fmt args with
  | Some (n, w') => (inr n, w')
  | None => (inl StopUndefined, w)
  end.

(** The same on an argument list. *)
Definition vprintf_ (fmt : list Z) (args : list va) : M Z := fun w =>
  match _vsnprintf _out_char SIZE_MAX w fmt args with
  | Some (n, w') => (inr n, w')
  | None => (inl StopUndefined, w)
  end.

(** A line of the stub's messages. *)
Definition printf (s : string) (args : list va) : M unit :=
  printf_ (string_bytes s ++ [10]) args;; mret ().

Definition write_char (k : kstate) (c : Z) : kstate := snd (k_syscall (SysWrite 2 [c]) k).

Lemma run_putchar c w : _putchar c w = (inr (), w <| w_kern := write_char (w_kern w) c |>).
Proof using.
  unfold _putchar, s_write, do_syscall, write_char, mbind, M_bind, mret, M_ret.
  by destruct (k_syscall (SysWrite 2 [c]) (w_kern w)).
Qed.

Definition write_text (k : kstate) (text : list Z) : kstate :=
  foldl write_char k (filter (fun c => c <> 0) text).

Lemma write_text_cons k c text :
  write_text k (c :: text) = write_text (write_text k [c]) text.
Proof using.
  unfold write_text. rewrite !filter_cons, filter_nil. by destruct (decide (c <> 0)).
Qed.

Lemma out_char_world c w idx maxlen :
  _out_char c w idx maxlen = w <| w_kern := write_text (w_kern w) [c] |>.
Proof using.
  unfold _out_char, write_text, truthy. rewrite filter_cons, filter_nil.
  destruct (Z.eqb_spec c 0) as [->|]; cbn [negb].
  - by destruct w.
  - rewrite decide_True by done. by rewrite run_putchar.
Qed.

Lemma put_all_char maxlen text w i :
  (put_all _out_char maxlen text (w, i)).1 = w <| w_kern := write_text (w_kern w) text |>.
Proof using.
  revert w i. induction text as [|c text IH]; intros w i; [by destruct w|].
  cbn [put_all foldl put]. unfold put_all in IH. rewrite IH, out_char_world.
  by rewrite (write_text_cons _ c text).
Qed.

Lemma run_printf_ fmt args w :
  match text_of fmt args with
  | None => printf_ fmt args w = (inl StopUndefined, w)
  | Some text => exists n, printf_ fmt args w =
      (inr n, w <| w_kern := write_text (w_kern w) text |>)
  end.
Proof using.
  unfold printf_. rewrite vsnprintf_text_of. destruct (text_of fmt args) as [text|]; [|done].
  cbn. pose proof (put_all_char SIZE_MAX text w 0) as H.
  destruct (put_all _ _ _ _) as [w' i]. cbn in *. subst w'. eauto.
Qed.

Lemma run_printf s args w : is_Some (text_of (string_bytes s ++ [10]) args) ->
  exists text, printf s args w = (inr (), w <| w_kern := write_text (w_kern w) text |>).
Proof using.
  intros [text Ht]. exists text. unfold printf.
  pose proof (run_printf_ (string_bytes s ++ [10]) args w) as H. rewrite Ht in H.
  destruct H as [n H]. by erewrite run_bind by exact H.
Qed.

(** C40. printf_ writes the text of its format to standard error, one write per character
    and none for a zero, and touches nothing else. *)
Theorem printf_writes fmt args w :
  match text_of fmt args with
  | None => printf_ fmt args w = (inl StopUndefined, w)
  | Some text => exists n, printf_ fmt args w =
      (inr n, w <| w_kern := write_text (w_kern w) text |>)
  end.
Proof using. apply run_printf_. Qed.
End console.

Section console_frame.
Context {K : Kernel} {V : KernelView K} {L : KernelLaws K V}.

Lemma write_text_frame k text :
  same_pages k (write_text k text) /\ same_files k (write_text k text).
Proof using L.
  unfold write_text. revert k. induction (filter _ text) as [|c l IH]; intros k; [done|].
  cbn [foldl]. destruct (IH (write_char k c)) as [Hp Hf]. unfold write_char in *.
  pose proof (law_keeps_pages (SysWrite 2 [c]) k eq_refl) as Hp1.
  pose proof (law_keeps_files (SysWrite 2 [c]) k eq_refl) as Hf1.
  split; [intros q; by rewrite Hp|intros fd o; by rewrite Hf].
Qed.

Lemma run_printf_frame s args w : is_Some (text_of (string_bytes s ++ [10]) args) ->
  exists k', printf s args w = (inr (), w <| w_kern := k' |>) /\
    same_pages (w_kern w) k' /\ same_files (w_kern w) k'.
Proof using L.
  intros H. destruct (run_printf s args w H) as [text Ht]. eexists. split; [exact Ht|].
  apply write_text_frame.
Qed.

Lemma stable_space_printf J `{!Spatial J} s args : stable (on_kern J) (printf s args).
Proof using L.
  unfold printf. apply stable_bind; [|intros; apply stable_ret].
  intros w Hw. pose proof (run_printf_ (string_bytes s ++ [10]) args w) as H.
  destruct (text_of _ args) as [text|]; [destruct H as [n H]|]; rewrite H; [|done].
  refine (spatial _ _ _ Hw). apply write_text_frame.
Qed.

Lemma calm_write_text k text : calm k (write_text k text).
Proof using L.
  unfold write_text. revert k. induction (filter _ text) as [|c l IH]; intros k; [done|].
  cbn [foldl]. rewrite <- IH. by apply (calm_syscall (SysWrite 2 [c])).
Qed.

Lemma calm_printf k0 s args : stable (on_kern (calm k0)) (printf s args).
Proof using L.
  unfold printf. apply stable_bind; [|intros; apply stable_ret].
  intros w Hw. pose proof (run_printf_ (string_bytes s ++ [10]) args w) as H.
  destruct (text_of _ args) as [text|]; [destruct H as [n H]|]; rewrite H; [|done].
  unfold on_kern in *. cbn. rewrite Hw. apply calm_write_text.
Qed.

Lemma stable_guest_printf J s args : stable (on_guest J) (printf s args).
Proof using.
  unfold printf. apply stable_bind; [|intros; apply stable_ret].
  intros w Hw. pose proof (run_printf_ (string_bytes s ++ [10]) args w) as H.
  destruct (text_of _ args) as [text|]; [destruct H as [n H]|]; by rewrite H.
Qed.
End console_frame.

#[export] Hint Resolve stable_space_printf stable_guest_printf calm_printf : stable.
