(* ===== verification/PageFault.v ===== *)
(** * Page faults: demand mapping and the block device

    Models [decode_sd], [get_store_data] and [handle_page_fault] of
    riscv-priv.c.  A fault whose address translates to RAM maps one page of
    [RAM_FD] into the guest with the permissions of the page-table entry; one
    that translates to the block device performs the device's operation;
    every other one is the guest's. *)

From S2P Require Import Prelude Bits State Machine Hoare Csr Trap Instr Linux PageWalk Printf.
From S2P Require Import Console.

(** ** The code *)

Section fault_code.
Context `{K : Kernel}.

(** [( *pc) & 0b11 == 0b11]: [==] binds tighter than [&]. *)
Definition low_bits_11 (b : Z) : bool := truthy (Z.land b (Z.b2z (3 =? 3))).

(** Where the 32-bit instruction is not a store the function ends without
    a [return], and its callers use the result. *)
Definition decode_sd (pc : Z) : M Z :=
  b ← load8 pc;
  if low_bits_11 b then
    instr ← load32 pc;
    if ins_opcode instr =? OPCODE_STORE then
      if ins_funct3 instr =? 3 then mret (ins_rs2 instr) else mret (-1)
    else halt StopUndefined
  else
    instr ← load16 pc;
    let op := Z.land instr 3 in
    let funct3 := Z.shiftr instr 13 in
    if (op =? 0) && (funct3 =? 7) then mret (Z.lor (Z.land (Z.shiftr instr 2) 7) 8)
    else if (op =? 2) && (funct3 =? 3) then mret (Z.land (Z.shiftr instr 2) 31)
    else mret (-1).

Definition get_store_data : M (option Z) :=
  pc ← get_reg 0;
  rs2 ← decode_sd pc;
  if 0 <=? rs2 then data ← get_reg rs2; mret (Some data) else mret None.

(** The condition under which the entry forbids the access. *)
Definition denied (scause pte : Z) : bool :=
  ((scause =? SCAUSE_INSTR_PF) && negb (fl PTE_X pte))
  || ((scause =? SCAUSE_LOAD_PF) && negb (fl PTE_R pte))
  || ((scause =? SCAUSE_STORE_PF) && negb (fl PTE_W pte)).

Definition pte_prot (pte : Z) : Z :=
  let flags := 0 in
  let flags := if fl PTE_R pte then Z.lor flags PROT_READ else flags in
  let flags := if fl PTE_W pte then Z.lor flags PROT_WRITE else flags in
  if fl PTE_X pte then Z.lor flags PROT_EXEC else flags.

Definition page_base (va : Z) : Z := Z.land va (not64 (Z.shiftl 1 12 - 1)).

(** The pa is in RAM. *)
Definition fault_in_ram (scause stval pte : Z) : M unit :=
  if denied scause pte then
    priv ← get_priv;
    (if priv_mode priv =? PRIV_S
     then write_log "page permission denied in s mode";; ebreak
     else write_log "page permission denied in u mode");;
    enter_trap scause stval
  else
    res ← s_mmap (page_base stval) 4096 (pte_prot pte)
            (Z.lor MAP_SHARED MAP_FIXED_NOREPLACE)
            RAM_FD (u64 (shl64 (get_pte_ppn pte) 12 - RAM_START));
    if s64 res <? 0 then
      printf "[urvirt] Trying to mmap failed, addr=0x%zx, errno=%d"
        [VInt stval; VInt (- s32 res)];;
      ebreak
    else mret ().

(** Step over the store that accessed the device. *)
Definition skip_store (pc : Z) : M unit :=
  b ← load8 pc;
  if low_bits_11 b then advance 4 else advance 2.

Definition block_command (store_data : Z) : M unit :=
  priv ← get_priv;
  printf "[urvirt] urvirt block command %zd, block_id=%zd, buf=0x%zx"
    [VInt store_data; VInt (urvb_block_id priv); VInt (urvb_buf priv)];;
  (if store_data =? URVIRT_BLOCK_CMD_READ then
     s_pread64 BLOCK_FD (urvb_buf priv) URVIRT_BLOCK_SIZE
       (u64 (URVIRT_BLOCK_SIZE * urvb_block_id priv));; mret ()
   else if store_data =? URVIRT_BLOCK_CMD_WRITE then
     s_pwrite64 BLOCK_FD (urvb_buf priv) URVIRT_BLOCK_SIZE
       (u64 (URVIRT_BLOCK_SIZE * urvb_block_id priv));; mret ()
   else ebreak).

(** The pa is not in RAM.  [store_data] has no value, and is not used, when
    the access is not a store. *)
Definition fault_in_mmio (scause stval pa : Z) : M unit :=
  pc ← get_reg 0;
  store_data ←
    (if scause =? SCAUSE_STORE_PF then
       d ← get_store_data;
       match d with
       | Some d => mret d
       | None => printf "[urvirt] Failed to get MMIO store data" [];; ebreak
       end
     else mret 0);
  if (pa =? URVIRT_BLOCK + URVIRT_BLOCK_COMMAND) && (scause =? SCAUSE_STORE_PF) then
    block_command store_data;; skip_store pc
  else if (pa =? URVIRT_BLOCK + URVIRT_BLOCK_BLOCK_ID) && (scause =? SCAUSE_STORE_PF) then
    mod_priv (fun p => p <| urvb_block_id := store_data |>);; skip_store pc
  else if (pa =? URVIRT_BLOCK + URVIRT_BLOCK_BUF) && (scause =? SCAUSE_STORE_PF) then
    mod_priv (fun p => p <| urvb_buf := store_data |>);; skip_store pc
  else
    rs2 ← decode_sd pc;
    printf "[urvirt] Page fault, sepc=0x%zx, rs2=x%d, va=0x%zx, pa=0x%zx, scause=%d cannot handle"
      [VInt pc; VInt rs2; VInt stval; VInt pa; VInt scause];;
    ebreak.

Definition handle_page_fault (scause stval : Z) : M unit :=
  found ← lookup_pa stval;
  match found with
  | Some (pa, pte) =>
      if pte =? 0 then write_log "someone turned off translation";; ebreak
      else if (RAM_START <=? pa) && (pa <? RAM_START + RAM_SIZE)
      then fault_in_ram scause stval pte
      else fault_in_mmio scause stval pa
  | None => enter_trap scause stval
  end.
End fault_code.

(** ** Pages of RAM *)

Lemma page_base_spec va : is_u64 va -> page_base va = PAGE * (va / PAGE).
Proof.
  intros Hva. unfold page_base. rewrite land_not64 by done.
  change (Z.shiftl 1 12 - 1) with (Z.ones 12). rewrite Z.ldiff_ones_r by lia.
  rewrite Z.shiftl_mul_pow2, Z.shiftr_div_pow2 by lia. change (2 ^ 12) with PAGE. lia.
Qed.

Definition in_ram (pa : Z) : bool := (RAM_START <=? pa) && (pa <? RAM_START + RAM_SIZE).

Lemma in_ram_spec pa : in_ram pa = true <-> RAM_START <= pa < RAM_START + RAM_SIZE.
Proof. unfold in_ram. rewrite andb_true_iff, Z.leb_le, Z.ltb_lt. done. Qed.

(** The offset in the RAM file of the page of [pa]. *)
Definition ram_page (pa : Z) : Z := PAGE * (pa / PAGE) - RAM_START.

Lemma ram_page_bounds pa : in_ram pa = true ->
  0 <= ram_page pa /\ ram_page pa + PAGE <= RAM_SIZE /\ page_aligned (ram_page pa) /\
  ram_page pa + pa mod PAGE = pa - RAM_START.
Proof.
  rewrite in_ram_spec. unfold ram_page, page_aligned, PAGE, RAM_START.
  change RAM_SIZE with (4096 * 4096). intros. Z.div_mod_to_equations. lia.
Qed.

(** The file offset the code computes from the entry of a RAM leaf. *)
Lemma leaf_offset pte va :
  let pa := pte_ppn pte * 2 ^ 12 + va mod 2 ^ 12 in
  in_ram pa = true ->
  u64 (shl64 (get_pte_ppn pte) 12 - RAM_START) = ram_page pa /\ pa mod PAGE = va mod PAGE.
Proof.
  intros pa Hpa. pose proof (ram_page_bounds pa Hpa) as (H0 & H1 & _ & _).
  change (2 ^ 12) with PAGE in *. pose proof (Z.mod_pos_bound va PAGE eq_refl) as Hm.
  assert (pa / PAGE = pte_ppn pte) as Hd.
  { unfold pa. rewrite Z.div_add_l by done. rewrite (Z.div_small (va mod PAGE)) by done. lia. }
  assert (pa mod PAGE = va mod PAGE) as Hmod.
  { unfold pa. rewrite Z.add_comm, Z.mod_add by done. by rewrite Z.mod_small. }
  split; [|done]. rewrite shl_ppn. change (2 ^ 12) with PAGE. unfold ram_page in *.
  rewrite Hd in *. rewrite (Z.mul_comm (pte_ppn pte)). apply u64_id.
  unfold is_u64. change RAM_SIZE with (4096 * 4096) in H1. lia.
Qed.

(** ** Permissions *)

Inductive access := Fetch | Load | Store.

#[export] Instance access_eq_dec : EqDecision access.
Proof. solve_decision. Defined.

Definition pf_cause (a : access) : Z :=
  match a with Fetch => SCAUSE_INSTR_PF | Load => SCAUSE_LOAD_PF | Store => SCAUSE_STORE_PF end.

(** The permission bit of the entry an access needs. *)
Definition permits (a : access) (pte : Z) : bool :=
  match a with Fetch => pte_x pte | Load => pte_r pte | Store => pte_w pte end.

Lemma denied_permits a pte : denied (pf_cause a) pte = negb (permits a pte).
Proof. unfold denied. rewrite fl_x, fl_r, fl_w. by destruct a; cbn; rewrite ?orb_false_r. Qed.

Lemma pte_prot_bits pte :
  truthy (Z.land (pte_prot pte) PROT_READ) = pte_r pte /\
  truthy (Z.land (pte_prot pte) PROT_WRITE) = pte_w pte /\
  truthy (Z.land (pte_prot pte) PROT_EXEC) = pte_x pte.
Proof.
  unfold pte_prot. rewrite fl_x, fl_r, fl_w.
  by destruct (pte_r pte), (pte_w pte), (pte_x pte).
Qed.

(** A leaf the walk finds has one of the three permissions unless it is a
    pointer. *)
Lemma sv39_walk_leaf ram i table va pa pte :
  sv39_walk ram i table va = TPage pa pte \/ sv39_walk ram i table va = TFault (NoLeaf pa pte) ->
  pa = pte_ppn pte * 2 ^ 12 + va mod 2 ^ 12 /\ pte <> 0.
Proof.
  revert table. induction i as [|i IH]; intros table; cbn [sv39_walk].
  all: case_bool_decide; [|by intros [|]]; set (e := ram_pte _ _);
    destruct (pte_v e) eqn:Hv; [|by intros [|]]; cbn [negb orb];
    destruct (negb (pte_r e) && pte_w e); [by intros [|]|];
    destruct (pte_r e || pte_x e); try apply IH; try (destruct (_ =? 0); by intros [|]);
    intros [|]; simplify_eq; (split; [done|intros E; rewrite E in Hv; done]).
Qed.

Lemma code_sv39_leaf ram satp va pa pte :
  code_sv39 ram satp va = TPage pa pte \/ code_sv39 ram satp va = TFault (NoLeaf pa pte) ->
  pa = pte_ppn pte * 2 ^ 12 + va mod 2 ^ 12 /\ pte <> 0.
Proof. unfold code_sv39. case_bool_decide; [apply sv39_walk_leaf|by intros [|]]. Qed.

(** ** Outcomes *)

Section fault_spec.
Context {K : Kernel} {V : KernelView K} {L : KernelLaws K V}.

(** The translation the code finds for a fault of the guest. *)
Definition fault_translation (w : world) (va : Z) : translation :=
  code_sv39 (k_file (w_kern w) RAM_FD) (satp (w_priv w)) va.

(** Translation is on, and Linux grants the temporary mapping of RAM. *)
Definition walkable (w : world) : Prop :=
  ram_mmap_ok (w_kern w) /\ get_satp_mode (satp (w_priv w)) <> SATP_MODE_BARE.

Lemma run_fault_found cause va pa pte w :
  walkable w ->
  fault_translation w va = TPage pa pte \/ fault_translation w va = TFault (NoLeaf pa pte) ->
  exists k, same_pages (w_kern w) k /\ same_files (w_kern w) k /\ calm (w_kern w) k /\
    handle_page_fault cause va w =
      (if in_ram pa then fault_in_ram cause va pte else fault_in_mmio cause va pa)
        (w <| w_kern := k |>).
Proof using L.
  intros [Hok Hm] Ht. pose proof (code_sv39_leaf _ _ _ _ _ Ht) as [_ Hpte].
  pose proof (lookup_pa_code va w Hok Hm) as H. fold (fault_translation w va) in H.
  assert (exists k, lookup_pa va w = (inr (Some (pa, pte)), w <| w_kern := k |>) /\
    same_pages (w_kern w) k /\ same_files (w_kern w) k) as (k & Hk & Hp & Hf).
  { destruct Ht as [E|E]; rewrite E in H; exact H. }
  assert (calm (w_kern w) k) as Hcalm.
  { apply (triple_inv _ _ _ _ _ _ (calm_lookup (w_kern w) va) (reflexivity _ : on_kern _ w) Hk). }
  exists k. split_and!; [done..|]. unfold handle_page_fault. erewrite run_bind by exact Hk.
  cbv beta iota. rewrite (proj2 (Z.eqb_neq pte 0) Hpte). fold (in_ram pa).
  by destruct (in_ram pa).
Qed.

Lemma run_fault_real cause va w :
  walkable w -> fault_translation w va = TFault NonCanonical \/ fault_translation w va = TFault Invalid ->
  exists k, same_pages (w_kern w) k /\ calm (w_kern w) k /\
    handle_page_fault cause va w = enter_trap cause va (w <| w_kern := k |>).
Proof using L.
  intros [Hok Hm] Ht. pose proof (lookup_pa_code va w Hok Hm) as H.
  fold (fault_translation w va) in H.
  assert (exists k, lookup_pa va w = (inr None, w <| w_kern := k |>) /\ same_pages (w_kern w) k)
    as (k & Hk & Hp) by (destruct Ht as [E|E]; rewrite E in H; destruct H as (k & Hk & Hp & _); by exists k).
  exists k. split_and!; [done| |].
  - apply (triple_inv _ _ _ _ _ _ (calm_lookup (w_kern w) va) (reflexivity _ : on_kern _ w) Hk).
  - unfold handle_page_fault. by erewrite run_bind by exact Hk.
Qed.

Lemma calm_fault_in_ram k0 cause va pte : stable (on_kern (calm k0)) (fault_in_ram cause va pte).
Proof using L. unfold fault_in_ram, enter_trap. stable_auto. Qed.

(** An access to RAM the entry forbids. *)
Lemma run_fault_denied a va pa pte w :
  walkable w ->
  fault_translation w va = TPage pa pte \/ fault_translation w va = TFault (NoLeaf pa pte) ->
  in_ram pa = true -> permits a pte = false ->
  if priv_mode (w_priv w) =? PRIV_S
  then exists k, handle_page_fault (pf_cause a) va w = (inl StopEbreak, w <| w_kern := k |>)
  else exists k, same_pages (w_kern w) k /\ calm (w_kern w) k /\
    handle_page_fault (pf_cause a) va w = enter_trap (pf_cause a) va (w <| w_kern := k |>).
Proof using L.
  intros Hw Ht Hram Hperm.
  destruct (run_fault_found (pf_cause a) va pa pte w Hw Ht) as (k1 & Hp1 & _ & Hc1 & ->).
  rewrite Hram. unfold fault_in_ram. rewrite denied_permits, Hperm. cbn [negb].
  rewrite run_bind with (a := w_priv w) (w' := w <| w_kern := k1 |>) by done.
  destruct (priv_mode (w_priv w) =? PRIV_S).
  - destruct (run_write_log_frame "page permission denied in s mode" (w <| w_kern := k1 |>))
      as (k2 & H2 & _). exists k2. erewrite run_bind_stop; [reflexivity|].
    by erewrite run_bind by exact H2.
  - destruct (run_write_log_frame "page permission denied in u mode" (w <| w_kern := k1 |>))
      as (k2 & H2 & Hp2 & _). exists k2. erewrite run_bind by exact H2. split_and!; [| |done].
    + intros q. etrans; [apply Hp2|apply Hp1].
    + rewrite Hc1. refine (triple_inv _ _ _ _ _ _ (calm_write_log k1 _) _ H2). exact (reflexivity _).
Qed.

(** What the hypervisor does not support. *)
Definition unsupported (t : translation) : bool :=
  match t with TFault Misaligned | TSuper _ _ | TAccess => true | _ => false end.

(** What the handler makes of a translation. *)
Lemma translation_cases t :
  (t = TFault NonCanonical \/ t = TFault Invalid) \/
  (exists pa pte, t = TPage pa pte \/ t = TFault (NoLeaf pa pte)) \/ unsupported t = true.
Proof using. destruct t as [[]|pa pte| |]; cbn; eauto 6. Qed.

Lemma run_fault_unsupported cause va w :
  walkable w -> unsupported (fault_translation w va) = true ->
  fst (handle_page_fault cause va w) = inl StopEbreak.
Proof using L.
  intros [Hok Hm] Ht. pose proof (lookup_pa_code va w Hok Hm) as H.
  fold (fault_translation w va) in H.
  assert (fst (lookup_pa va w) = inl StopEbreak) as Hs
    by (destruct (fault_translation w va) as [[]| | |]; done). clear H.
  unfold handle_page_fault. destruct (lookup_pa va w) as [r w'] eqn:E. cbn in Hs. subst r.
  by erewrite run_bind_stop by exact E.
Qed.

(** The page of [va] shows the RAM page of [pa] with the permissions of
    [pte]; every other page is as before. *)
Definition page_mapped (k k' : kstate) (va pa pte : Z) : Prop :=
  k_page k (va / PAGE) = None /\
  (forall q, k_page k' q =
     if q =? va / PAGE then Some (mk_vpage RAM_FD (ram_page pa) (pte_prot pte))
     else k_page k q).

(** The request for that page. *)
Definition page_mmap (va pa pte : Z) : syscall :=
  SysMmap (PAGE * (va / PAGE)) 4096 (pte_prot pte) (Z.lor MAP_SHARED MAP_FIXED_NOREPLACE)
    RAM_FD (ram_page pa).

(** Between [k] and [k'] Linux was asked for the page and refused. *)
Definition page_refused (k k' : kstate) (va pa pte : Z) : Prop :=
  exists e, made k k' (page_mmap va pa pte) e /\ s64 e < 0.

(** The [mmap] of one page of RAM at the page of [va]. *)
Lemma run_page_mmap va pa pte w :
  is_u64 va -> in_ram pa = true ->
  exists res k, same_files (w_kern w) k /\ calm (w_kern w) k /\
    made (w_kern w) k (page_mmap va pa pte) res /\
    s_mmap (PAGE * (va / PAGE)) 4096 (pte_prot pte) (Z.lor MAP_SHARED MAP_FIXED_NOREPLACE)
      RAM_FD (ram_page pa) w = (inr res, w <| w_kern := k |>) /\
    ((0 <= s64 res /\ page_mapped (w_kern w) k va pa pte) \/
     (s64 res < 0 /\ same_pages (w_kern w) k)).
Proof using L.
  intros Hva Hram. pose proof (ram_page_bounds pa Hram) as (_ & _ & Hal & _).
  unfold s_mmap. set (c := SysMmap _ _ _ _ _ _).
  exists (sr_val (fst (k_syscall c (w_kern w)))), (snd (k_syscall c (w_kern w))).
  split; [by apply law_keeps_files|]. split; [by apply calm_syscall|].
  split; [apply made_syscall|]. split.
  { unfold do_syscall, mbind, M_bind. by destruct (k_syscall c (w_kern w)). }
  assert (page_aligned (PAGE * (va / PAGE))) as Hbase.
  { unfold page_aligned. by rewrite Z.mul_comm, Z.mod_mul. }
  destruct (law_mmap_noreplace (w_kern w) (PAGE * (va / PAGE)) 4096 (pte_prot pte) RAM_FD
    (ram_page pa)) as [H|(Hret & Hb & Hsz & Hfree & Hpages)]; [done..|by right|left].
  fold c in Hret, Hpages. rewrite Hret.
  split; [rewrite s64_small; unfold TASK_SIZE in Hsz; lia|]. split.
  - apply Hfree. unfold in_pages. rewrite Z.mul_comm, Z.div_mul by done.
    rewrite Z.leb_refl. cbn. apply Z.ltb_lt. unfold PAGE. Z.div_mod_to_equations. lia.
  - intros q. rewrite Hpages. unfold mapped, in_pages.
    rewrite (Z.mul_comm PAGE), Z.div_mul by done.
    replace ((va / PAGE * PAGE + 4096) / PAGE) with (va / PAGE + 1)
      by (unfold PAGE; Z.div_mod_to_equations; lia).
    destruct (Z.eqb_spec q (va / PAGE)) as [->|].
    + rewrite Z.leb_refl, (proj2 (Z.ltb_lt _ _)) by lia. cbn. do 2 f_equal. lia.
    + destruct (Z.leb_spec (va / PAGE) q), (Z.ltb_spec q (va / PAGE + 1)); done || lia.
Qed.

Lemma run_fault_map a va pa pte w :
  is_u64 va -> pa = pte_ppn pte * 2 ^ 12 + va mod 2 ^ 12 -> in_ram pa = true ->
  permits a pte = true ->
  exists k, calm (w_kern w) k /\
    ((fault_in_ram (pf_cause a) va pte w = (inr (), w <| w_kern := k |>) /\
      page_mapped (w_kern w) k va pa pte) \/
     (fault_in_ram (pf_cause a) va pte w = (inl StopEbreak, w <| w_kern := k |>) /\
      same_pages (w_kern w) k /\ page_refused (w_kern w) k va pa pte)).
Proof using L.
  intros Hva Hpa Hram Hperm. unfold fault_in_ram. rewrite denied_permits, Hperm. cbn [negb].
  destruct (leaf_offset pte va) as [Hoff _]; [by rewrite <- Hpa|]. rewrite <- Hpa in Hoff.
  rewrite Hoff, page_base_spec by done.
  destruct (run_page_mmap va pa pte w Hva Hram) as (res & k & _ & Hc & Hmade & Hk & [[Hr Hm]|[Hr Hp]]).
  all: erewrite run_bind by exact Hk; cbv beta.
  - exists k. split; [done|left]. by rewrite (proj2 (Z.ltb_ge _ 0) Hr).
  - rewrite (proj2 (Z.ltb_lt _ 0) Hr).
    destruct (run_printf_frame "[urvirt] Trying to mmap failed, addr=0x%zx, errno=%d"
      [VInt va; VInt (- s32 res)] (w <| w_kern := k |>)) as (k2 & Hk2 & Hp2 & Hf2).
    { apply text_of_defined. by vm_compute. }
    assert (calm k k2) as Hc2.
    { refine (triple_inv _ _ _ _ _ _ (calm_printf k _ _) _ Hk2). exact (reflexivity _). }
    exists k2. split; [by etrans|right].
    split; [by erewrite run_bind by exact Hk2|]. split.
    + intros q. etrans; [apply Hp2|apply Hp].
    + exists res. split; [by eapply made_calm|done].
Qed.

(** A load through the mapped page. *)
Lemma load_ram_page k va pa pte :
  is_u64 va -> pa = pte_ppn pte * 2 ^ 12 + va mod 2 ^ 12 -> in_ram pa = true ->
  k_page k (va / PAGE) = Some (mk_vpage RAM_FD (ram_page pa) (pte_prot pte)) ->
  pte_r pte = true -> RAM_SIZE <= k_len k RAM_FD ->
  k_load k va = Some (k_file k RAM_FD (pa - RAM_START)).
Proof using L.
  intros Hva Hpa Hram Hk Hr Hlen.
  destruct (leaf_offset pte va) as [_ Hmod]; [by rewrite <- Hpa|]. rewrite <- Hpa in Hmod.
  destruct (ram_page_bounds pa Hram) as (H0 & H1 & _ & Ho).
  pose proof (Z.mod_pos_bound va PAGE eq_refl) as Hb.
  erewrite law_load; [|apply Hva|exact Hk| |by left|]; cbn [vp_fd vp_off]; rewrite <- ?Hmod, ?Ho.
  - done.
  - unfold readable. cbn. by rewrite (proj1 (pte_prot_bits pte)).
  - rewrite <- Ho, Hmod. lia.
Qed.

(** A trap of the guest, taken in a world that differs in the kernel only. *)
Lemma run_fault_trap cause va w k :
  is_u64 cause -> is_u64 va -> csr_wf (w_priv w) -> gregs_wf (w_regs w) ->
  exists p' r', enter_trap cause va (w <| w_kern := k |>) = (inr (), mk_world p' r' k) /\
    hart_of p' r' = isa_trap cause va (hart_of (w_priv w) (w_regs w)) /\
    trap_frame (w_priv w) p' (w_regs w) r' /\ should_clear_vm p' = true /\ csr_wf p'.
Proof using.
  intros Hc Hva Hp Hr. destruct w as [p r k0]. rewrite run_enter_trap. cbn in *.
  eexists _, _. split; [reflexivity|]. split_and!.
  - by apply trap_priv_hart.
  - apply trap_priv_frame, (wf_words _ Hp Sstatus).
  - done.
  - apply trap_priv_wf; [done..| |done]. apply reg_u64; [done|lia].
Qed.

(** C11. A permitted access to a page whose leaf is in RAM is answered by mapping exactly
    that page, with the permissions of the entry, at the RAM file offset of the physical
    page, so that a load then reads the byte of RAM at the translated address; the
    hypervisor stops only when Linux was asked for that page and refused. *)
Theorem page_fault_maps a va pa pte w :
  walkable w -> is_u64 va -> fault_translation w va = TPage pa pte ->
  in_ram pa = true -> permits a pte = true ->
  exists k, same_files (w_kern w) k /\
    ((handle_page_fault (pf_cause a) va w = (inr (), w <| w_kern := k |>) /\
      page_mapped (w_kern w) k va pa pte /\
      (pte_r pte = true -> k_load k va = Some (k_file (w_kern w) RAM_FD (pa - RAM_START)))) \/
     (handle_page_fault (pf_cause a) va w = (inl StopEbreak, w <| w_kern := k |>) /\
      same_pages (w_kern w) k /\ page_refused (w_kern w) k va pa pte)).
Proof using L.
  intros Hw Hva Ht Hram Hperm. pose proof (code_sv39_leaf _ _ _ _ _ (or_introl Ht)) as [Hpa _].
  destruct (run_fault_found (pf_cause a) va pa pte w Hw (or_introl Ht)) as (k1 & Hp1 & _ & Hc1 & ->).
  rewrite Hram.
  destruct (run_fault_map a va pa pte (w <| w_kern := k1 |>) Hva Hpa Hram Hperm)
    as (k & Hc & [[-> [Hfree Hm]]|(-> & Hp & e & Hmade & He)]); cbn in *; exists k.
  all: assert (calm (w_kern w) k) as (Hff & Hfds & _) by (by etrans).
  all: split; [done|].
  - left. split; [done|]. split; [split; [by rewrite <- Hp1|]|].
    + intros q. rewrite Hm. by destruct (q =? va / PAGE).
    + intros Hr. rewrite <- (Hff RAM_FD). apply (load_ram_page k va pa pte); [done..| |exact Hr|].
      * by rewrite Hm, Z.eqb_refl.
      * exact (same_len _ _ _ _ Hfds (proj2 (proj1 Hw))).
  - right. split; [done|]. split; [intros q; etrans; [apply Hp|apply Hp1]|].
    exists e. split; [by eapply calm_made|done].
Qed.

(** What the guest sees of a trap: the architecture's trap, and nothing else
    but the kernel state [k] changes. *)
Definition guest_trap (cause va : Z) (w : world) (out : (stop + unit) * world) : Prop :=
  exists p' r' k, out = (inr (), mk_world p' r' k) /\
    hart_of p' r' = isa_trap cause va (hart_of (w_priv w) (w_regs w)) /\
    trap_frame (w_priv w) p' (w_regs w) r' /\ should_clear_vm p' = true /\ csr_wf p' /\
    same_pages (w_kern w) k /\ same_files (w_kern w) k.

Lemma pf_cause_u64 a : is_u64 (pf_cause a).
Proof using. by destruct a; vm_compute. Qed.



(** ** Isolation *)

(** From [k] to [k'] the address space only gains pages of RAM, each inside
    the file, on addresses that were free. *)
Definition gains_ram (k k' : kstate) : Prop :=
  forall q, k_page k' q = k_page k q \/
    (k_page k q = None /\ exists g, k_page k' q = Some g /\ vp_fd g = RAM_FD /\
      0 <= vp_off g /\ vp_off g + PAGE <= RAM_SIZE).

Lemma gains_ram_same k k' : same_pages k k' -> gains_ram k k'.
Proof using. intros H q. by left. Qed.

Lemma page_mapped_gains k k' va pa pte :
  in_ram pa = true -> page_mapped k k' va pa pte -> gains_ram k k'.
Proof using.
  intros Hram [Hfree Hm] q. rewrite Hm. destruct (Z.eqb_spec q (va / PAGE)) as [->|]; [right|by left].
  destruct (ram_page_bounds pa Hram) as (H0 & H1 & _). split; [done|]. by eexists.
Qed.

Lemma stable_decode_sd I pc : stable I (decode_sd pc).
Proof using. unfold decode_sd. stable_auto. Qed.

Lemma stable_space_enter_trap J cause tval : stable (on_kern J) (enter_trap cause tval).
Proof using. unfold enter_trap. stable_auto. Qed.

#[local] Hint Resolve stable_decode_sd stable_space_enter_trap : stable.

Lemma stable_fault_in_mmio J `{!Spatial J} cause va pa :
  stable (on_kern J) (fault_in_mmio cause va pa).
Proof using L.
  unfold fault_in_mmio, get_store_data, block_command, skip_store, advance. stable_auto.
Qed.

Lemma stable_fault_denied J `{!Spatial J} cause va pte :
  denied cause pte = true -> stable (on_kern J) (fault_in_ram cause va pte).
Proof using L. intros H. unfold fault_in_ram. rewrite H. stable_auto. Qed.

(** C27. When handling a page fault returns, the address space has at most gained pages that
    were free, each backed by a page inside the RAM file. *)
Theorem page_fault_isolation a va w w' :
  ram_mmap_ok (w_kern w) -> is_u64 va ->
  handle_page_fault (pf_cause a) va w = (inr (), w') -> gains_ram (w_kern w) (w_kern w').
Proof using L.
  intros Hok Hva Hrun.
  destruct (decide (get_satp_mode (satp (w_priv w)) = SATP_MODE_BARE)) as [Hb|Hm].
  { destruct (lookup_pa_bare va w Hok Hb) as [w1 H1]. unfold handle_page_fault in Hrun.
    erewrite run_bind in Hrun by exact H1. cbv beta iota in Hrun. rewrite Z.eqb_refl in Hrun.
    destruct (run_write_log_frame "someone turned off translation" w1) as (k2 & H2 & _).
    by erewrite run_bind in Hrun by exact H2. }
  assert (walkable w) as Hw by done.
  assert (forall pa pte, fault_translation w va = TPage pa pte \/
    fault_translation w va = TFault (NoLeaf pa pte) -> gains_ram (w_kern w) (w_kern w')) as Hfound.
  { intros pa pte Ht. pose proof (code_sv39_leaf _ _ _ _ _ Ht) as [Hpa _].
    destruct (run_fault_found (pf_cause a) va pa pte w Hw Ht) as (k1 & Hp1 & Hf1 & _ & E).
    rewrite E in Hrun. destruct (in_ram pa) eqn:Hram.
    - destruct (permits a pte) eqn:Hperm.
      + destruct (run_fault_map a va pa pte (w <| w_kern := k1 |>) Hva Hpa Hram Hperm)
          as (k & Hf & [[E2 Hm2]|[E2 _]]); rewrite E2 in Hrun; simplify_eq; cbn in *.
        intros q. rewrite <- (Hp1 q). by eapply page_mapped_gains.
      + apply gains_ram_same.
        refine (triple_inv _ _ _ _ _ _ (stable_fault_denied (same_pages (w_kern w)) (pf_cause a) va pte _) _ Hrun);
          [by rewrite denied_permits, Hperm|exact Hp1].
    - apply gains_ram_same.
      refine (triple_inv _ _ _ _ _ _ (stable_fault_in_mmio (same_pages (w_kern w)) (pf_cause a) va pa) _ Hrun).
      exact Hp1. }
  destruct (translation_cases (fault_translation w va)) as [Ht|[(pa & pte & Ht)|Ht]]; [|by eauto|].
  - destruct (run_fault_real (pf_cause a) va w Hw Ht) as (k1 & Hp1 & _ & E). rewrite E in Hrun.
    apply gains_ram_same.
    refine (triple_inv _ _ _ _ _ _ (stable_space_enter_trap (same_pages (w_kern w)) (pf_cause a) va) _ Hrun).
    exact Hp1.
  - pose proof (run_fault_unsupported (pf_cause a) va w Hw Ht) as E. by rewrite Hrun in E.
Qed.
End fault_spec.

#[export] Hint Resolve stable_decode_sd stable_space_enter_trap stable_fault_in_mmio : stable.
