(* ===== verification/Block.v ===== *)
(** * The paravirtual block device

    The guest drives the device with 64-bit stores to three registers that
    are not backed by memory; [handle_page_fault] decodes the faulting store
    ([decode_sd]) and performs it.  [block_write] is the device's contract,
    with the registers and commands of urvirt-block.h; how-it-works.md has the
    same registers, but 0 for the write command, and an access fault where the
    code stops. *)

From S2P Require Import Prelude Bits State Machine Hoare Csr Trap Instr Linux PageWalk Printf.
From S2P Require Import Console PageFault.

(** ** Code of the guest in memory *)

Section code.
Context {K : Kernel} {V : KernelView K} {L : KernelLaws K V}.

(** The [n] bytes of [v] are at [pc], in readable pages of RAM. *)
Definition code_at (k : kstate) (n : nat) (pc v : Z) : Prop :=
  0 <= pc /\ pc + Z.of_nat n <= 2 ^ 63 /\ RAM_SIZE <= k_len k RAM_FD /\
  forall i, 0 <= i < Z.of_nat n -> exists g, k_page k ((pc + i) / PAGE) = Some g /\
    readable g = true /\ vp_fd g = RAM_FD /\
    0 <= vp_off g + (pc + i) mod PAGE < RAM_SIZE /\
    k_file k RAM_FD (vp_off g + (pc + i) mod PAGE) = v / 2 ^ (8 * i) mod 2 ^ 8.

Lemma code_at_same k k' n pc v :
  same_pages k k' -> same_files k k' -> same_fds k k' -> code_at k n pc v -> code_at k' n pc v.
Proof using.
  intros Hp Hf Hd (H0 & Hn & Hlen & H). split_and!; [done..|by eapply same_len|]. intros i Hi.
  destruct (H i Hi) as (g & Hg & Hr & Hfd & Ho & Hb). exists g. by rewrite Hp, Hf.
Qed.

Lemma code_at_load k n pc v i : code_at k n pc v -> 0 <= i < Z.of_nat n ->
  k_load k (pc + i) = Some (v / 2 ^ (8 * i) mod 2 ^ 8).
Proof using L.
  intros (H0 & _ & Hlen & H) Hi. destruct (H i Hi) as (g & Hg & Hr & Hfd & Ho & Hb).
  erewrite law_load; [|lia|exact Hg|exact Hr|by left|rewrite Hfd; lia]. by rewrite Hfd, Hb.
Qed.

Lemma ram_le_word n v o : 0 <= o ->
  ram_le n (fun i => v / 2 ^ (8 * i) mod 2 ^ 8) o = v / 2 ^ (8 * o) mod 2 ^ (8 * Z.of_nat n).
Proof using.
  revert o. induction n as [|n IH]; intros o Ho; cbn [ram_le].
  { change (8 * Z.of_nat 0) with 0. by rewrite Z.mod_1_r. }
  rewrite IH by lia. replace (8 * (o + 1)) with (8 * o + 8) by lia.
  rewrite Z.pow_add_r, <- Zdiv.Zdiv_Zdiv by lia. set (x := v / 2 ^ (8 * o)).
  replace (8 * Z.of_nat (S n)) with (8 + 8 * Z.of_nat n) by lia.
  rewrite (Z.pow_add_r 2 8 (8 * Z.of_nat n)) by lia.
  by rewrite Z.rem_mul_r by lia.
Qed.

Lemma run_load_code n m pc v w : code_at (w_kern w) n pc v -> (m <= n)%nat ->
  load_le m pc w = (inr (v mod 2 ^ (8 * Z.of_nat m)), w).
Proof using L.
  intros Hc Hm. pose proof Hc as (H0 & Hn & _).
  rewrite (run_load_le m pc (fun i => v / 2 ^ (8 * i) mod 2 ^ 8) 0).
  - rewrite ram_le_word by lia. change (2 ^ (8 * 0)) with 1. by rewrite Z.div_1_r.
  - intros i. apply Z.mod_pos_bound. lia.
  - done.
  - lia.
  - intros i Hi. rewrite Z.add_0_l. apply (code_at_load _ n); [done|lia].
Qed.

Lemma run_load8_code n pc v w : code_at (w_kern w) (S n) pc v ->
  load8 pc w = (inr (v mod 2 ^ 8), w).
Proof using L.
  intros Hc. unfold load8. pose proof (code_at_load _ _ _ _ 0 Hc ltac:(lia)) as H.
  rewrite Z.add_0_r in H. rewrite H. change (2 ^ (8 * 0)) with 1. by rewrite Z.div_1_r.
Qed.
End code.

(** ** 64-bit stores *)

Definition sd_word (hi rs2 rs1 lo : Z) : Z :=
  hi * 2 ^ 25 + rs2 * 2 ^ 20 + rs1 * 2 ^ 15 + 3 * 2 ^ 12 + lo * 2 ^ 7 + OPCODE_STORE.

(** [rest] holds the offset and the base register. *)
Definition c_sd_word (rest rs2' : Z) : Z := 7 * 2 ^ 13 + rest * 2 ^ 5 + rs2' * 2 ^ 2.

Definition c_sdsp_word (offset rs2 : Z) : Z := 7 * 2 ^ 13 + offset * 2 ^ 7 + rs2 * 2 ^ 2 + 2.

(** [store_insn n v rs2]: the [n] bytes of [v] store the doubleword of x[rs2]. *)
Inductive store_insn : nat -> Z -> Z -> Prop :=
| store_sd hi rs2 rs1 lo :
    0 <= hi < 128 -> 0 <= rs2 < 32 -> 0 <= rs1 < 32 -> 0 <= lo < 32 ->
    store_insn 4 (sd_word hi rs2 rs1 lo) rs2
| store_c_sd rest rs2' :
    0 <= rest < 2 ^ 8 -> 0 <= rs2' < 8 -> store_insn 2 (c_sd_word rest rs2') (8 + rs2').

Lemma low_bits_11_odd b : low_bits_11 b = Z.odd b.
Proof.
  unfold low_bits_11. change (Z.b2z (3 =? 3)) with (Z.ones 1). rewrite Z.land_ones by lia.
  rewrite Zmod_odd. by destruct (Z.odd b).
Qed.

Lemma store_insn_odd n v rs2 : store_insn n v rs2 -> low_bits_11 (v mod 2 ^ 8) = bool_decide (n = 4%nat).
Proof.
  rewrite low_bits_11_odd. rewrite <- Z.bit0_odd, Z.mod_pow2_bits_low, Z.bit0_odd by lia.
  intros [hi rs2' rs1 lo _ _ _ _|rest rs2' _ _].
  - unfold sd_word, OPCODE_STORE.
    replace (_ + 0x23) with (1 + 2 * (hi * 2 ^ 24 + rs2' * 2 ^ 19 + rs1 * 2 ^ 14 + 3 * 2 ^ 11 + lo * 2 ^ 6 + 17))
      by lia. by rewrite Z.odd_add_mul_2.
  - unfold c_sd_word.
    replace (_ + _) with (0 + 2 * (7 * 2 ^ 12 + rest * 2 ^ 4 + rs2' * 2)) by lia.
    by rewrite Z.odd_add_mul_2.
Qed.

Lemma sd_fields hi rs2 rs1 lo :
  0 <= hi < 128 -> 0 <= rs2 < 32 -> 0 <= rs1 < 32 -> 0 <= lo < 32 ->
  ins_opcode (sd_word hi rs2 rs1 lo) = OPCODE_STORE /\
  ins_funct3 (sd_word hi rs2 rs1 lo) = 3 /\ ins_rs2 (sd_word hi rs2 rs1 lo) = rs2.
Proof.
  intros. unfold ins_opcode, ins_funct3, ins_rs2, sd_word, OPCODE_STORE.
  rewrite !ins_bitfield_div, Z.pow_0_r, Z.div_1_r by lia.
  split_and!; Z.div_mod_to_equations; lia.
Qed.

Lemma c_sd_fields rest rs2' : 0 <= rest < 2 ^ 8 -> 0 <= rs2' < 8 ->
  Z.land (c_sd_word rest rs2') 3 = 0 /\ Z.shiftr (c_sd_word rest rs2') 13 = 7 /\
  Z.lor (Z.land (Z.shiftr (c_sd_word rest rs2') 2) 7) 8 = 8 + rs2'.
Proof.
  intros. change 3 with (Z.ones 2). change 7 with (Z.ones 3) at 2.
  rewrite !Z.land_ones, !Z.shiftr_div_pow2 by lia. unfold c_sd_word.
  split_and!; [Z.div_mod_to_equations; lia..|].
  replace (_ mod 2 ^ 3) with rs2' by (Z.div_mod_to_equations; lia).
  rewrite Z.lor_comm. change (Z.lor 8 rs2') with (Z.lor (Z.shiftl 1 3) rs2').
  by rewrite lor_add by lia.
Qed.

Lemma c_sdsp_fields offset rs2 : 0 <= offset < 2 ^ 6 -> 0 <= rs2 < 32 ->
  Z.odd (c_sdsp_word offset rs2) = false /\ Z.land (c_sdsp_word offset rs2) 3 = 2 /\
  Z.shiftr (c_sdsp_word offset rs2) 13 = 7 /\ 0 <= c_sdsp_word offset rs2 < 2 ^ 16.
Proof.
  intros. change 3 with (Z.ones 2). rewrite Z.land_ones, Z.shiftr_div_pow2 by lia.
  unfold c_sdsp_word. split_and!; [|Z.div_mod_to_equations; lia..].
  replace (_ + 2) with (0 + 2 * (7 * 2 ^ 12 + offset * 2 ^ 6 + rs2 * 2 + 1)) by lia.
  by rewrite Z.odd_add_mul_2.
Qed.

Section decode.
Context {K : Kernel} {V : KernelView K} {L : KernelLaws K V}.

Lemma run_decode_sd n v rs2 pc w :
  store_insn n v rs2 -> code_at (w_kern w) n pc v -> decode_sd pc w = (inr rs2, w).
Proof using L.
  intros Hs Hc. unfold decode_sd. pose proof (store_insn_odd n v rs2 Hs) as Hodd.
  assert (exists m, n = S m) as [m ->] by (destruct Hs; by eexists).
  erewrite run_bind by (eapply run_load8_code; exact Hc). cbv beta. rewrite Hodd.
  destruct Hs as [hi rs2 rs1 lo Hhi Hrs2 Hrs1 Hlo|rest rs2' Hrest Hrs2].
  - rewrite bool_decide_true by done.
    erewrite run_bind by (apply (run_load_code 4); [exact Hc|done]). cbv beta.
    rewrite Z.mod_small by (unfold sd_word, OPCODE_STORE; lia).
    destruct (sd_fields hi rs2 rs1 lo) as (-> & -> & ->); done.
  - rewrite bool_decide_false by done.
    erewrite run_bind by (apply (run_load_code 2); [exact Hc|done]). cbv beta zeta.
    rewrite Z.mod_small by (unfold c_sd_word; lia).
    by destruct (c_sd_fields rest rs2') as (-> & -> & ->).
Qed.

Lemma run_skip_store n v rs2 pc0 w :
  store_insn n v rs2 -> code_at (w_kern w) n pc0 v -> pc0 = pc (w_regs w) ->
  skip_store pc0 w =
    (inr (), w <| w_regs := set_reg (w_regs w) 0 (u64 (pc (w_regs w) + Z.of_nat n)) |>).
Proof using L.
  intros Hs Hc ->. unfold skip_store. pose proof (store_insn_odd n v rs2 Hs) as Hodd.
  assert (exists m, n = S m) as [m ->] by (destruct Hs; by eexists).
  erewrite run_bind by (eapply run_load8_code; exact Hc). cbv beta. rewrite Hodd.
  by destruct Hs.
Qed.

(** Whatever the bytes at [pc0] are by then, only the program counter moves. *)
Lemma run_skip_any pc0 w w' : skip_store pc0 w = (inr (), w') ->
  exists pc', w' = w <| w_regs := set_reg (w_regs w) 0 pc' |>.
Proof using.
  unfold skip_store, load8, mbind, M_bind. destruct (k_load (w_kern w) pc0) as [b|]; [|done].
  cbn. destruct (low_bits_11 b); intros [= <-]; by eexists.
Qed.

Lemma run_get_store_data n v rs2 w :
  store_insn n v rs2 -> code_at (w_kern w) n (pc (w_regs w)) v ->
  get_store_data w = (inr (Some (reg (w_regs w) rs2)), w).
Proof using L.
  intros Hs Hc. unfold get_store_data. mstep. fold (pc (w_regs w)).
  erewrite run_bind by (eapply run_decode_sd; [exact Hs|exact Hc]). cbv beta.
  by rewrite (proj2 (Z.leb_le 0 rs2)) by (destruct Hs; lia).
Qed.
End decode.

(** ** The device *)

(** A store of [data] to the register at [off]: the new state, and the
    transfer it starts. *)
Definition block_write (off data : Z) (p : priv_state) : option (priv_state * option syscall) :=
  if off =? URVIRT_BLOCK_COMMAND then
    if data =? URVIRT_BLOCK_CMD_READ then
      Some (p, Some (SysPread64 BLOCK_FD (urvb_buf p) 512 (u64 (512 * urvb_block_id p))))
    else if data =? URVIRT_BLOCK_CMD_WRITE then
      Some (p, Some (SysPwrite64 BLOCK_FD (urvb_buf p) 512 (u64 (512 * urvb_block_id p))))
    else None
  else if off =? URVIRT_BLOCK_BLOCK_ID then Some (p <| urvb_block_id := data |>, None)
  else if off =? URVIRT_BLOCK_BUF then Some (p <| urvb_buf := data |>, None)
  else None.

Section device.
Context {K : Kernel} {V : KernelView K} {L : KernelLaws K V}.

(** The transfer runs in a kernel whose memory and files are those of [k]. *)
Definition transferred (k : kstate) (c : option syscall) (k' : kstate) : Prop :=
  exists k1, same_pages k k1 /\ same_files k k1 /\ calm k k1 /\
    match c with Some c => k' = snd (k_syscall c k1) | None => k' = k1 end.

Lemma run_block_command data w :
  match block_write 0 data (w_priv w) with
  | Some (_, c) => exists k', transferred (w_kern w) c k' /\
      block_command data w = (inr (), w <| w_kern := k' |>)
  | None => fst (block_command data w) = inl StopEbreak
  end.
Proof using L.
  unfold block_command, block_write. change (0 =? URVIRT_BLOCK_COMMAND) with true. cbv iota.
  rewrite run_bind with (a := w_priv w) (w' := w) by done.
  destruct (run_printf_frame "[urvirt] urvirt block command %zd, block_id=%zd, buf=0x%zx"
    [VInt data; VInt (urvb_block_id (w_priv w)); VInt (urvb_buf (w_priv w))] w)
    as (k1 & H1 & Hp & Hf).
  { apply text_of_defined. by vm_compute. }
  assert (calm (w_kern w) k1) as Hc.
  { refine (triple_inv _ _ _ _ _ _ (calm_printf (w_kern w) _ _) _ H1). exact (reflexivity _). }
  destruct (data =? URVIRT_BLOCK_CMD_READ); [|destruct (data =? URVIRT_BLOCK_CMD_WRITE)].
  3: by erewrite run_bind by exact H1.
  all: erewrite run_bind by exact H1; cbv beta; unfold s_pread64, s_pwrite64.
  all: unfold do_syscall, mbind, M_bind, mret, M_ret; cbn.
  all: match goal with |- context [k_syscall ?c ?k] =>
         exists (snd (k_syscall c k)); split; [by exists k|by destruct (k_syscall c k)] end.
Qed.

Lemma block_write_other off data p :
  off <> URVIRT_BLOCK_COMMAND -> off <> URVIRT_BLOCK_BLOCK_ID -> off <> URVIRT_BLOCK_BUF ->
  block_write off data p = None.
Proof using.
  intros H0 H1 H2. unfold block_write. by rewrite !(proj2 (Z.eqb_neq _ _)) by done.
Qed.

(** After a store to the device's register at [off]. *)
Lemma run_mmio_store n v rs2 va pa w :
  store_insn n v rs2 -> code_at (w_kern w) n (pc (w_regs w)) v ->
  match block_write (pa - URVIRT_BLOCK) (reg (w_regs w) rs2) (w_priv w) with
  | Some (p', c) => exists k', transferred (w_kern w) c k' /\
      (code_at k' n (pc (w_regs w)) v ->
       fault_in_mmio SCAUSE_STORE_PF va pa w =
         (inr (), mk_world p' (set_reg (w_regs w) 0 (u64 (pc (w_regs w) + Z.of_nat n))) k')) /\
      (forall w', fault_in_mmio SCAUSE_STORE_PF va pa w = (inr (), w') ->
       exists pc', w' = mk_world p' (set_reg (w_regs w) 0 pc') k')
  | None => fst (fault_in_mmio SCAUSE_STORE_PF va pa w) = inl StopEbreak
  end.
Proof using L.
  intros Hs Hc. set (data := reg (w_regs w) rs2). unfold fault_in_mmio.
  rewrite run_bind with (a := pc (w_regs w)) (w' := w) by done. rewrite Z.eqb_refl.
  rewrite run_bind with (a := data) (w' := w).
  2: { by erewrite run_bind by (eapply run_get_store_data; [exact Hs|exact Hc]). }
  rewrite !andb_true_r. rewrite !(Z.add_comm URVIRT_BLOCK).
  assert (forall off, (pa =? off + URVIRT_BLOCK) = (pa - URVIRT_BLOCK =? off)) as Hoff.
  { intros off. destruct (Z.eqb_spec pa (off + URVIRT_BLOCK)), (Z.eqb_spec (pa - URVIRT_BLOCK) off);
      done || lia. }
  rewrite !Hoff. set (off := pa - URVIRT_BLOCK).
  destruct (Z.eqb_spec off URVIRT_BLOCK_COMMAND) as [->|H0].
  { pose proof (run_block_command data w) as H. change 0 with URVIRT_BLOCK_COMMAND in H at 1.
    destruct (block_write URVIRT_BLOCK_COMMAND data (w_priv w)) as [[p' c]|] eqn:E.
    - destruct H as (k' & Ht & Hr). exists k'. split; [done|].
      assert (p' = w_priv w) as ->.
      { revert E. unfold block_write. rewrite Z.eqb_refl. repeat case_match; by intros [= <- <-]. }
      erewrite run_bind by exact Hr. cbv beta.
      split; [|intros w' Hw'; by apply run_skip_any in Hw'].
      intros Hc'. erewrite run_skip_store; [reflexivity|exact Hs|exact Hc'|reflexivity].
    - destruct (block_command data w) as [r w'] eqn:Eb. cbn in H. subst r.
      by erewrite run_bind_stop by exact Eb. }
  destruct (Z.eqb_spec off URVIRT_BLOCK_BLOCK_ID) as [->|H1];
    [|destruct (Z.eqb_spec off URVIRT_BLOCK_BUF) as [->|H2]].
  1,2: exists (w_kern w); split; [by exists (w_kern w)|];
    erewrite run_bind by apply run_mod_priv; cbv beta;
    split; [|intros w' Hw'; by apply run_skip_any in Hw']; intros Hc';
    erewrite run_skip_store; [reflexivity|exact Hs|exact Hc'|reflexivity].
  rewrite block_write_other by done.
  erewrite run_bind by (eapply run_decode_sd; [exact Hs|exact Hc]). cbv beta.
  destruct (run_printf_frame "[urvirt] Page fault, sepc=0x%zx, rs2=x%d, va=0x%zx, pa=0x%zx, scause=%d cannot handle"
    [VInt (pc (w_regs w)); VInt rs2; VInt va; VInt pa; VInt SCAUSE_STORE_PF] w) as (k1 & E1 & _).
  { apply text_of_defined. by vm_compute. }
  by erewrite run_bind by exact E1.
Qed.

Lemma transferred_same k k1 c k' :
  same_pages k k1 -> same_files k k1 -> calm k k1 -> transferred k1 c k' -> transferred k c k'.
Proof using.
  intros Hp Hf Hc (k2 & Hp2 & Hf2 & Hc2 & H). exists k2. split_and!; [| |by rewrite Hc|done].
  - intros q. etrans; [apply Hp2|apply Hp].
  - intros fd o. etrans; [apply Hf2|apply Hf].
Qed.

(** A store to an address outside of RAM, [data] being what the code reads
    for the source register. *)
Lemma run_device_store n v rs2 va pa pte w :
  walkable w -> fault_translation w va = TPage pa pte \/ fault_translation w va = TFault (NoLeaf pa pte) ->
  in_ram pa = false ->
  store_insn n v rs2 -> code_at (w_kern w) n (pc (w_regs w)) v ->
  match block_write (pa - URVIRT_BLOCK) (reg (w_regs w) rs2) (w_priv w) with
  | Some (p', c) => exists k', transferred (w_kern w) c k' /\
      (code_at k' n (pc (w_regs w)) v ->
       handle_page_fault SCAUSE_STORE_PF va w =
         (inr (), mk_world p' (set_reg (w_regs w) 0 (u64 (pc (w_regs w) + Z.of_nat n))) k')) /\
      (forall w', handle_page_fault SCAUSE_STORE_PF va w = (inr (), w') ->
       exists pc', w' = mk_world p' (set_reg (w_regs w) 0 pc') k')
  | None => fst (handle_page_fault SCAUSE_STORE_PF va w) = inl StopEbreak
  end.
Proof using L.
  intros Hw Ht Hram Hs Hc.
  destruct (run_fault_found SCAUSE_STORE_PF va pa pte w Hw Ht) as (k & Hp & Hf & Hk & ->).
  rewrite Hram. assert (code_at k n (pc (w_regs w)) v) as Hck by (by apply (code_at_same (w_kern w)); [..|apply Hk|]).
  pose proof (run_mmio_store n v rs2 va pa (w <| w_kern := k |>) Hs Hck) as H. cbn in H.
  destruct (block_write _ _ _) as [[p' c]|]; [|exact H].
  destruct H as (k' & Htr & H). exists k'. split; [by eapply transferred_same|exact H].
Qed.

(** C29. A 64-bit store (sd or c.sd) of a register other than x0 that translates to a
    register of the block device performs the device's contract: the block id or the
    buffer is set, or the transfer of one block is started, and the store is stepped
    over. Such a store of an unknown command, or to another address outside RAM, stops
    the hypervisor. (how-it-works.md numbers the write command 0 and has other addresses
    give an access fault.) *)
Theorem block_store_refines n v rs2 va pa pte w :
  walkable w -> fault_translation w va = TPage pa pte -> in_ram pa = false ->
  store_insn n v rs2 -> 1 <= rs2 -> code_at (w_kern w) n (pc (w_regs w)) v ->
  match block_write (pa - URVIRT_BLOCK) (xreg (w_regs w) rs2) (w_priv w) with
  | Some (p', c) => exists k', transferred (w_kern w) c k' /\
      (code_at k' n (pc (w_regs w)) v ->
       handle_page_fault SCAUSE_STORE_PF va w =
         (inr (), mk_world p' (set_reg (w_regs w) 0 (u64 (pc (w_regs w) + Z.of_nat n))) k'))
  | None => fst (handle_page_fault SCAUSE_STORE_PF va w) = inl StopEbreak
  end.
Proof using L.
  intros Hw Ht Hram Hs Hrs Hc. unfold xreg. rewrite (proj2 (Z.eqb_neq rs2 0)) by lia.
  pose proof (run_device_store n v rs2 va pa pte w Hw (or_introl Ht) Hram Hs Hc) as H.
  destruct (block_write _ _ _) as [[p' c]|]; [|done]. destruct H as (k' & Htr & H & _). by exists k'.
Qed.

(** A store of x0 to the block-id register stores the program counter instead of zero,
    because slot 0 of the saved registers is the program counter. *)
Theorem block_store_x0 v va pte w :
  walkable w ->
  fault_translation w va = TPage (URVIRT_BLOCK + URVIRT_BLOCK_BLOCK_ID) pte ->
  store_insn 4 v 0 -> code_at (w_kern w) 4 (pc (w_regs w)) v ->
  exists k', transferred (w_kern w) None k' /\
    handle_page_fault SCAUSE_STORE_PF va w =
      (inr (), mk_world ((w_priv w) <| urvb_block_id := pc (w_regs w) |>)
                 (set_reg (w_regs w) 0 (u64 (pc (w_regs w) + 4))) k').
Proof using L.
  intros Hw Ht Hs Hc.
  destruct (run_device_store 4 v 0 va _ pte w Hw (or_introl Ht) eq_refl Hs Hc) as (k' & Htr & H & _).
  exists k'. split; [done|]. apply H. destruct Htr as (k1 & Hp & Hf & (_ & Hd & _) & ->).
  by apply (code_at_same (w_kern w)).
Qed.

(** decode_sd does not recognise c.sdsp: it answers -1 for every such instruction, the
    funct3 it tests being that of c.ldsp. *)
Theorem decode_sdsp offset rs2 pc w :
  0 <= offset < 2 ^ 6 -> 0 <= rs2 < 32 ->
  code_at (w_kern w) 2 pc (c_sdsp_word offset rs2) ->
  decode_sd pc w = (inr (-1), w).
Proof using L.
  intros Ho Hr Hc. destruct (c_sdsp_fields offset rs2 Ho Hr) as (Hb & Hop & Hf & Hrange).
  unfold decode_sd. erewrite run_bind by (eapply run_load8_code; exact Hc).
  cbv beta. rewrite low_bits_11_odd, <- Z.bit0_odd, Z.mod_pow2_bits_low, Z.bit0_odd, Hb by lia.
  erewrite run_bind by (apply (run_load_code 2); [exact Hc|done]). cbv beta zeta.
  rewrite Z.mod_small by exact Hrange. by rewrite Hop, Hf.
Qed.
End device.
