(* ===== verification/Sbi.v ===== *)
(** * The legacy SBI calls of the guest's S-mode

    Models [handle_legacy_sbi_call] of handle-sbi.c: the console, shutdown
    and the timer; any other call gets [SBI_ERR_NOT_SUPPORTED]. *)

From S2P Require Import Prelude Bits State Machine Hoare Csr Linux PageWalk.

Definition SBI_ERR_NOT_SUPPORTED : Z := u64 (-2).
Definition SBI_SET_TIMER : Z := 0.
Definition SBI_CONSOLE_PUTCHAR : Z := 1.
Definition SBI_CONSOLE_GETCHAR : Z := 2.
Definition SBI_SHUTDOWN : Z := 8.

Section sbi_code.
Context `{K : Kernel}.

(** [ch] is what read(2) stored, when it stored something. *)
Definition sbi_getchar : M Z :=
  '(res, buf) ← s_read 0 1;
  let res := s32 res in
  if res =? - EWOULDBLOCK then mret 0
  else if res <? 1 then write_log "error in read";; ebreak
  else mret (u8 (default 0 (head buf))).

Definition sbi_set_timer (arg0 : Z) : M Z :=
  cur_time ← read_time;
  let delta_ns := u64 (u64 (arg0 - cur_time) * 1000) in
  write_log "Set timer";;
  priv ← get_priv;
  s_timer_settime (timerid priv) 0 0 0 (delta_ns / 1000000000) (delta_ns mod 1000000000);;
  mod_priv (fun p => p <| sip := set_six_sti (sip p) (Z.b2z (arg0 <=? cur_time)) |>);;
  mret 0.

Definition handle_legacy_sbi_call (which arg0 arg1 arg2 : Z) : M Z :=
  if which =? SBI_CONSOLE_PUTCHAR then
    s_write 1 [u8 arg0];; mret 0
  else if which =? SBI_CONSOLE_GETCHAR then sbi_getchar
  else if which =? SBI_SHUTDOWN then
    write_log "SBI Shutdown!";; s_exit_group 0
  else if which =? SBI_SET_TIMER then sbi_set_timer arg0
  else write_log "Unhandled sbi call";; mret SBI_ERR_NOT_SUPPORTED.
End sbi_code.

(** ** The timer *)

(** What timer_settime(2) is asked for: seconds and nanoseconds until
    [deadline], a tick being a microsecond. *)
Definition timer_call (id now deadline : Z) : syscall :=
  let ns := u64 (u64 (deadline - now) * 1000) in
  SysTimerSettime id 0 0 0 (ns / 10 ^ 9) (ns mod 10 ^ 9).

Section timer.
Context {K : Kernel} {V : KernelView K} {L : KernelLaws K V}.

Lemma run_settime id a b c d e w :
  s_timer_settime id a b c d e w =
    (inr (), w <| w_kern := snd (k_syscall (SysTimerSettime id a b c d e) (w_kern w)) |>).
Proof using.
  unfold s_timer_settime, do_syscall, mbind, M_bind.
  by destruct (k_syscall (SysTimerSettime id a b c d e) (w_kern w)).
Qed.

Lemma run_sbi_set_timer deadline w :
  let now := k_time (w_kern w) in
  exists k, same_pages (w_kern w) k /\ same_files (w_kern w) k /\
    sbi_set_timer deadline w = (inr 0, mk_world
      (set_sti (deadline <=? now) (w_priv w)) (w_regs w)
      (snd (k_syscall (timer_call (timerid (w_priv w)) now deadline) k))).
Proof using L.
  intros now. destruct (run_write_log_frame "Set timer" w) as (k & Hk & Hp & Hf).
  exists k. split_and!; [done..|]. unfold sbi_set_timer.
  rewrite run_bind with (a := now) (w' := w) by done. cbv zeta.
  erewrite run_bind by exact Hk. cbv beta.
  rewrite run_bind with (a := w_priv w) (w' := w <| w_kern := k |>) by done.
  erewrite run_bind by apply run_settime. done.
Qed.

(** C30. sbi_set_timer makes the timer pending exactly when the deadline has passed, changes
    no other CSR, and arms the Linux timer, with a nanosecond part in range, for the
    nanoseconds from now to the deadline modulo 2^64: for the remaining time when the
    deadline lies ahead by less than 2^64 nanoseconds. *)
Theorem sbi_timer_refines deadline a1 a2 w :
  is_u64 deadline -> is_u64 (k_time (w_kern w)) -> csr_wf (w_priv w) ->
  let now := k_time (w_kern w) in
  exists p' k sec nsec,
    handle_legacy_sbi_call SBI_SET_TIMER deadline a1 a2 w = (inr 0, mk_world p' (w_regs w)
      (snd (k_syscall (SysTimerSettime (timerid (w_priv w)) 0 0 0 sec nsec) k))) /\
    same_pages (w_kern w) k /\ same_files (w_kern w) k /\
    get_six_sti (sip p') = Z.b2z (deadline <=? now) /\
    (forall c, c <> Sip -> csr_view p' c = csr_view (w_priv w) c) /\
    priv_mode p' = priv_mode (w_priv w) /\ csr_wf p' /\ 0 <= nsec < 10 ^ 9 /\
    sec * 10 ^ 9 + nsec = (deadline - now) * 1000 mod 2 ^ 64 /\
    (now < deadline -> (deadline - now) * 1000 < 2 ^ 64 ->
      sec * 10 ^ 9 + nsec = (deadline - now) * 1000).
Proof using L.
  intros Hd Hn Hwf now. destruct (run_sbi_set_timer deadline w) as (k & Hp & Hf & E).
  fold now in E. set (ns := u64 (u64 (deadline - now) * 1000)).
  exists (set_sti (deadline <=? now) (w_priv w)), k, (ns / 10 ^ 9), (ns mod 10 ^ 9).
  assert (ns / 10 ^ 9 * 10 ^ 9 + ns mod 10 ^ 9 = (deadline - now) * 1000 mod 2 ^ 64) as Hns.
  { rewrite Z.mul_comm, <- Z.div_mod by done. unfold ns, u64. by rewrite Z.mul_mod_idemp_l. }
  split; [exact E|]. split_and!; try done.
  - apply get_set_sti, (wf_words _ Hwf Sip).
  - by intros [].
  - by apply set_sti_wf.
  - apply Z.mod_pos_bound. lia.
  - apply Z.mod_pos_bound. lia.
  - intros Hlt Hov. rewrite Hns. apply Z.mod_small. lia.
Qed.
End timer.

(** ** The console, shutdown and the other calls *)

Section console_calls.
Context {K : Kernel} {V : KernelView K} {L : KernelLaws K V}.

(** What read(2) on the standard input answered, as getchar reports it:
    [None] stops the hypervisor. *)
Definition getchar_result (r : sysret) : option Z :=
  let res := s32 (s64 (sr_val r)) in
  if res =? - EWOULDBLOCK then Some 0
  else if res <? 1 then None else Some (u8 (default 0 (head (sr_buf r)))).

Lemma run_sbi_call which a0 a1 a2 w :
  which <> SBI_SET_TIMER ->
  let r := k_syscall (SysRead 0 1) (w_kern w) in
  let out := handle_legacy_sbi_call which a0 a1 a2 w in
  if which =? SBI_CONSOLE_PUTCHAR then
    out = (inr 0, w <| w_kern := snd (k_syscall (SysWrite 1 [u8 a0]) (w_kern w)) |>)
  else if which =? SBI_CONSOLE_GETCHAR then
    match getchar_result (fst r) with
    | Some c => out = (inr c, w <| w_kern := snd r |>)
    | None => fst out = inl StopEbreak
    end
  else if which =? SBI_SHUTDOWN then fst out = inl (StopExit 0)
  else exists k, out = (inr (2 ^ 64 - 2), w <| w_kern := k |>) /\
    same_pages (w_kern w) k /\ same_files (w_kern w) k.
Proof using L.
  intros Hw r out. subst out. unfold handle_legacy_sbi_call.
  rewrite (proj2 (Z.eqb_neq which SBI_SET_TIMER) Hw).
  destruct (which =? SBI_CONSOLE_PUTCHAR); [|destruct (which =? SBI_CONSOLE_GETCHAR);
    [|destruct (which =? SBI_SHUTDOWN)]].
  - unfold s_write, do_syscall, mbind, M_bind. by destruct (k_syscall (SysWrite 1 [u8 a0]) (w_kern w)).
  - assert (s_read 0 1 w = (inr (s64 (sr_val (fst r)), sr_buf (fst r)), w <| w_kern := snd r |>))
      as Hr.
    { unfold s_read, do_syscall, mbind, M_bind. subst r. by destruct (k_syscall _ _). }
    unfold sbi_getchar, getchar_result. erewrite run_bind by exact Hr. cbv beta iota zeta.
    destruct (s32 (s64 (sr_val (fst r))) =? - EWOULDBLOCK); [done|].
    destruct (s32 (s64 (sr_val (fst r))) <? 1); [|done].
    destruct (log_ebreak (A := Z) "error in read" (w <| w_kern := snd r |>)) as (k2 & E & _).
    by rewrite E.
  - destruct (run_write_log_frame "SBI Shutdown!" w) as (k & Hk & _).
    erewrite run_bind by exact Hk. unfold s_exit_group, do_syscall, mbind, M_bind. cbn.
    by destruct (k_syscall (SysExitGroup 0) k).
  - destruct (run_write_log_frame "Unhandled sbi call" w) as (k & Hk & Hp & Hf).
    exists k. by erewrite run_bind by exact Hk.
Qed.

(** getchar, by the result of read(2): the byte it has stored, zero when
    there is no input yet, a stop at the end of the input and on an error. *)
Definition getchar_spec (r : sysret) (k : kstate) (w : world) (out : (stop + Z) * world) : Prop :=
  (forall b, s64 (sr_val r) = 1 -> sr_buf r = [b] -> out = (inr (u8 b), w <| w_kern := k |>)) /\
  (s64 (sr_val r) = - EWOULDBLOCK -> out = (inr 0, w <| w_kern := k |>)) /\
  (-4096 < s64 (sr_val r) <= 0 -> s64 (sr_val r) <> - EWOULDBLOCK -> fst out = inl StopEbreak).

Lemma s32_id v : - 2 ^ 31 <= v < 2 ^ 31 -> s32 v = v.
Proof using.
  intros Hv. unfold s32, sext. destruct (Z.lt_ge_cases v 0).
  - replace (v mod 2 ^ 32) with (v + 2 ^ 32).
    + rewrite (proj2 (Z.ltb_ge _ _)) by lia. lia.
    + symmetry. rewrite <- (Z.mod_add v 1) by lia. apply Z.mod_small. lia.
  - rewrite Z.mod_small by lia. by rewrite (proj2 (Z.ltb_lt _ _)) by lia.
Qed.

Lemma run_write_log s w :
  write_log s w = (inr (), w <| w_kern := snd (k_syscall (SysWrite 2 (log_line s)) (w_kern w)) |>).
Proof using.
  unfold write_log, s_write, do_syscall, mbind, M_bind.
  by destruct (k_syscall (SysWrite 2 (log_line s)) (w_kern w)).
Qed.

Lemma getchar_result_spec (r : sysret) (k : kstate) w (out : (stop + Z) * world) :
  match getchar_result r with
  | Some c => out = (inr c, w <| w_kern := k |>)
  | None => fst out = inl StopEbreak
  end -> getchar_spec r k w out.
Proof using.
  unfold getchar_result. intros H. split_and!.
  - intros b Hv Hb. rewrite Hv, Hb in H. exact H.
  - intros Hv. rewrite Hv in H. exact H.
  - intros Hv Hne. rewrite s32_id in H by lia.
    rewrite (proj2 (Z.eqb_neq _ _) Hne), (proj2 (Z.ltb_lt _ 1)) in H by lia. exact H.
Qed.

(** C31. The other SBI calls: putchar writes the low byte of its argument, getchar returns
    the byte read or zero when there is none yet and stops on an error and at the end of
    the input, shutdown logs a line and exits with status 0, and an unknown call returns
    not-supported after one system call, the write of a log line. *)
Theorem sbi_call_refines which a0 a1 a2 w :
  which <> SBI_SET_TIMER ->
  let after c := w <| w_kern := snd (k_syscall c (w_kern w)) |> in
  let out := handle_legacy_sbi_call which a0 a1 a2 w in
  if which =? SBI_CONSOLE_PUTCHAR then out = (inr 0, after (SysWrite 1 [u8 a0]))
  else if which =? SBI_CONSOLE_GETCHAR then
    let r := k_syscall (SysRead 0 1) (w_kern w) in getchar_spec (fst r) (snd r) w out
  else if which =? SBI_SHUTDOWN then
    out = (inl (StopExit 0), w <| w_kern := snd (k_syscall (SysExitGroup 0)
             (w_kern (after (SysWrite 2 (log_line "SBI Shutdown!"))))) |>)
  else out = (inr (2 ^ 64 - 2), after (SysWrite 2 (log_line "Unhandled sbi call"))).
Proof using L.
  intros Hw after out. pose proof (run_sbi_call which a0 a1 a2 w Hw) as H. cbv zeta in H.
  fold out in H. destruct (which =? SBI_CONSOLE_PUTCHAR) eqn:E1; [exact H|].
  destruct (which =? SBI_CONSOLE_GETCHAR) eqn:E2; [by apply getchar_result_spec|]. clear H.
  unfold out, handle_legacy_sbi_call. rewrite E1, E2, (proj2 (Z.eqb_neq which SBI_SET_TIMER) Hw).
  destruct (which =? SBI_SHUTDOWN); erewrite run_bind by apply run_write_log; [|done].
  unfold s_exit_group, do_syscall, mbind, M_bind. cbn.
  by destruct (k_syscall (SysExitGroup 0) _).
Qed.
End console_calls.
