(* ===== verification/Handler.v ===== *)
(** * The signal handler

    Models [handler] of urvirt-stub.c: the one entry point of the hypervisor
    once the guest runs.  Linux delivers ecalls (SIGSYS, by the seccomp
    filter), illegal instructions, page faults and timer expirations of the
    guest as signals; the handler works on the saved registers, and
    sigreturn resumes the guest with them. *)

From S2P Require Import Prelude Bits State Machine Hoare Csr Trap Instr Linux PageWalk Printf.
From S2P Require Import Console PageFault Sbi.

(** The fields of [siginfo_t] the handler reads. *)
Record siginfo := mk_siginfo { si_code : Z; si_syscall : Z; si_addr : Z }.

Definition MAGIC_ECALL : Z := 0xdeadbeefdeadbeef.

Section handler_code.
Context `{K : Kernel}.

Definition print_counters : M unit :=
  printf "[urvirt] counters" [];;
  priv ← get_priv;
  printf "  ill = %zd" [VInt (counter_ill priv)];;
  printf "  segv = %zd" [VInt (counter_segv priv)];;
  printf "  sret = %zd" [VInt (counter_sret priv)];;
  printf "  uecall = %zd" [VInt (counter_uecall priv)];;
  printf "  secall = %zd" [VInt (counter_secall priv)].

(** SIGSYS; [which] is an [int] in [siginfo_t]. *)
Definition handle_sigsys (info : siginfo) : M unit :=
  let which := u64 (si_syscall info) in
  put_reg 17 which;;
  a0 ← get_reg 10;
  (if a0 =? MAGIC_ECALL then print_counters else mret ());;
  priv ← get_priv;
  if priv_mode priv =? PRIV_S then
    mod_priv (fun p => p <| counter_secall := u64 (counter_secall p + 1) |>);;
    a0 ← get_reg 10;
    a1 ← get_reg 11;
    a2 ← get_reg 12;
    ret ← handle_legacy_sbi_call which a0 a1 a2;
    put_reg 10 ret
  else
    mod_priv (fun p => p <| counter_uecall := u64 (counter_uecall p + 1) |>);;
    pc0 ← get_reg 0;
    put_reg 0 (u64 (pc0 - 4));;
    enter_trap SCAUSE_UECALL 0.

(** SIGILL *)
Definition handle_sigill : M unit :=
  mod_priv (fun p => p <| counter_ill := u64 (counter_ill p + 1) |>);;
  priv ← get_priv;
  if priv_mode priv =? PRIV_S then
    pc0 ← get_reg 0;
    b ← load8 pc0;
    if (Z.land b 3 =? 3) && negb (Z.land b 0x1f =? 0x1f) then
      instr ← load32 pc0;
      handle_priv_instr instr
    else
      printf "Can't handle in SIGILL at %p" [VInt pc0];;
      ebreak
  else enter_trap SCAUSE_ILLEGAL 0.

(** SIGALRM of the timer *)
Definition handle_sigalrm : M unit :=
  mod_priv (fun p => p <| sip := set_six_sti (sip p) 1 |>);;
  priv ← get_priv;
  if priv_mode priv =? PRIV_S then write_log "timer in s mode"
  else write_log "timer in u mode".

(** The cause of a SIGSEGV, from the instruction at the program counter. *)
Definition fault_cause (addr : Z) : M Z :=
  pc0 ← get_reg 0;
  if addr =? pc0 then mret SCAUSE_INSTR_PF
  else
    b ← load8 pc0;
    if negb (Z.land b 3 =? 3) then
      instr ← load16 pc0;
      if rvc_looks_like_load instr then mret SCAUSE_LOAD_PF
      else if rvc_looks_like_store instr then mret SCAUSE_STORE_PF
      else
        write_log "weird 16-bit instruction page fault, assuming instr page fault";;
        mret SCAUSE_INSTR_PF
    else
      load32 pc0;;
      let opcode := Z.land b 0x7f in
      if opcode =? OPCODE_LOAD then mret SCAUSE_LOAD_PF
      else if opcode =? OPCODE_STORE then mret SCAUSE_STORE_PF
      else if opcode =? OPCODE_AMO then mret SCAUSE_STORE_PF
      else
        write_log "weird 32-bit instruction page fault, assuming instr page fault";;
        mret SCAUSE_INSTR_PF.

(** SIGSEGV *)
Definition handle_sigsegv (info : siginfo) : M unit :=
  mod_priv (fun p => p <| counter_segv := u64 (counter_segv p + 1) |>);;
  scause ← fault_cause (si_addr info);
  handle_page_fault scause (si_addr info).

Definition handle_signal (sig : Z) (info : siginfo) : M unit :=
  if sig =? SIGSYS then handle_sigsys info
  else if sig =? SIGILL then handle_sigill
  else if (sig =? SIGALRM) && (si_code info =? SI_TIMER) then handle_sigalrm
  else if sig =? SIGSEGV then handle_sigsegv info
  else write_log "Don't know how to handle";; ebreak.

Definition interrupt_enabled (p : priv_state) : bool :=
  truthy (get_six_sti (sip p)) && truthy (get_six_sti (sie p))
  && (truthy (get_sstatus_sie (sstatus p)) || (priv_mode p <? PRIV_S)).

Definition take_interrupt : M unit :=
  priv ← get_priv;
  if interrupt_enabled priv then
    write_log "timer interrupt taken";;
    enter_trap SCAUSE_TIMER 0
  else mret ().

Definition clear_vm : M unit :=
  priv ← get_priv;
  if should_clear_vm priv then
    mod_priv (fun p => p <| should_clear_vm := false |>);;
    let safe_begin := stub_start priv in
    let safe_end := u64 (stub_start priv + stub_size priv) in
    s_munmap 0 safe_begin;;
    s_munmap safe_end (u64 (Z.shiftl 1 38 - safe_end));;
    mret ()
  else mret ().

(** [priv] is [w_priv], the contents of [CONFIG_FD]; without a mapping the
    first access to it faults. *)
Definition handler (sig : Z) (info : siginfo) : M unit :=
  priv ← s_mmap 0 CONF_SIZE (Z.lor PROT_READ PROT_WRITE) MAP_SHARED CONFIG_FD 0;
  if s64 priv <? 0 then halt (StopFault priv)
  else
    handle_signal sig info;;
    take_interrupt;;
    clear_vm;;
    s_munmap priv CONF_SIZE;;
    mret ().
End handler_code.
