(* ===== verification/Guest.v ===== *)
(** * The invariant of the hypervisor's state

    [guest_inv] says that the CSR file is legal, that the saved registers are
    machine words, and that a change of mode or of satp has requested the
    removal of the guest's mappings ([should_clear_vm]).  Every operation the
    handler performs preserves it. *)

From S2P Require Import Prelude Bits State Machine Hoare Csr Trap Instr Linux PageWalk Printf.
From S2P Require Import Console PageFault Sbi Handler.

(** What a change of the address space of the guest must have asked for. *)
Definition coherent (p0 p : priv_state) : Prop :=
  should_clear_vm p = true \/ (priv_mode p = priv_mode p0 /\ satp p = satp p0).

Record guest_inv (p0 p : priv_state) (r : gregs) : Prop := {
  gi_csr : csr_wf p;
  gi_regs : gregs_wf r;
  gi_coherent : coherent p0 p;
  gi_start : stub_start p = stub_start p0;
  gi_size : stub_size p = stub_size p0;
}.

(** Fields that are no part of the architecture: the counters, the block
    device, the flag. *)
Lemma csr_wf_view p p' :
  (forall c, csr_view p' c = csr_view p c) -> priv_mode p' = priv_mode p ->
  csr_wf p -> csr_wf p'.
Proof.
  intros Hv Hm [Hw Hmode Hss Hst Hip Hie Ha Hsm].
  split; [intros c; by rewrite Hv|by rewrite Hm|..].
  - pose proof (Hv Sstatus) as E. cbn in E. by rewrite E.
  - pose proof (Hv Stvec) as E. cbn in E. by rewrite E.
  - pose proof (Hv Sip) as E. cbn in E. by rewrite E.
  - pose proof (Hv Sie) as E. cbn in E. by rewrite E.
  - pose proof (Hv Satp) as E. cbn in E. by rewrite E.
  - pose proof (Hv Satp) as E. cbn in E. by rewrite E.
Qed.

Section guest.
Context `{K : Kernel} (p0 : priv_state).
#[local] Abbreviation I := (on_guest (guest_inv p0)).

(** ** Rules *)

Lemma guest_reg i v : is_u64 v -> stable I (put_reg i v).
Proof using.
  intros Hv. apply stable_guest_reg. intros p r []. split; auto with words.
Qed.

Lemma guest_get_reg {A} i (f : Z -> M A) :
  0 <= i < 32 -> (forall v, is_u64 v -> stable I (f v)) -> stable I (get_reg i ≫= f).
Proof using.
  intros Hi Hf w Hw. rewrite run_bind with (a := reg (w_regs w) i) (w' := w) by done.
  apply Hf; [|done]. apply reg_u64; [apply Hw|done].
Qed.

Lemma guest_get_priv {A} (f : priv_state -> M A) :
  (forall p, csr_wf p -> stable I (f p)) -> stable I (get_priv ≫= f).
Proof using.
  intros Hf w Hw. rewrite run_bind with (a := w_priv w) (w' := w) by done.
  apply Hf; [apply Hw|done].
Qed.

Lemma guest_get_regs {A} (f : gregs -> M A) :
  (forall r, gregs_wf r -> stable I (f r)) -> stable I (get_regs ≫= f).
Proof using.
  intros Hf w Hw. rewrite run_bind with (a := w_regs w) (w' := w) by done.
  apply Hf; [apply Hw|done].
Qed.

(** A change outside the registers of the architecture. *)
Lemma guest_mod_aux f :
  (forall p c, csr_view (f p) c = csr_view p c) -> (forall p, priv_mode (f p) = priv_mode p) ->
  (forall p, should_clear_vm p = true -> should_clear_vm (f p) = true) ->
  (forall p, stub_start (f p) = stub_start p) -> (forall p, stub_size (f p) = stub_size p) ->
  stable I (mod_priv f).
Proof using.
  intros Hv Hm Hc Hs Hz. apply stable_guest_priv. intros p r [H1 H2 H3 H4 H5].
  split; [exact (csr_wf_view p (f p) (Hv p) (Hm p) H1)|done| |by rewrite Hs|by rewrite Hz].
  destruct H3 as [H3|[H3 H3']]; [left; by apply Hc|right].
  rewrite Hm. pose proof (Hv p Satp) as E. cbn in E. by rewrite E.
Qed.

(** A change of a register that is neither the mode nor satp. *)
Lemma guest_mod_csr f :
  (forall p, csr_wf p -> csr_wf (f p)) ->
  (forall p, priv_mode (f p) = priv_mode p) -> (forall p, satp (f p) = satp p) ->
  (forall p, should_clear_vm (f p) = should_clear_vm p) ->
  (forall p, stub_start (f p) = stub_start p) -> (forall p, stub_size (f p) = stub_size p) ->
  stable I (mod_priv f).
Proof using.
  intros Hw Hm Ha Hc Hs Hz. apply stable_guest_priv. intros p r [H1 H2 H3 H4 H5].
  split; [auto|done| |by rewrite Hs|by rewrite Hz].
  destruct H3 as [H3|[H3 H3']]; [left; by rewrite Hc|right]. by rewrite Hm, Ha.
Qed.

Lemma guest_advance n : stable I (advance n).
Proof using.
  unfold advance. apply guest_get_reg; [lia|]. intros v Hv. apply guest_reg, u64_range.
Qed.

(** ** Traps and returns *)

Lemma guest_enter_trap cause tval :
  is_u64 cause -> is_u64 tval -> stable I (enter_trap cause tval).
Proof using.
  intros Hc Ht w [H1 H2 H3 H4 H5]. rewrite run_enter_trap. split; cbn; try done.
  - apply trap_priv_wf; [done..| |done]. apply reg_u64; [done|lia].
  - apply set_reg_wf; [done|]. unfold trap_target.
    destruct (_ || _); [|apply u64_range]. apply is_u64_land_l, (wf_words _ H1 Stvec).
  - by left.
Qed.

(** The world is in [I], and the guest in S-mode. *)
Definition in_s (w : world) : Prop := I w /\ priv_mode (w_priv w) = PRIV_S.

Lemma guest_in_s {A} (m : M A) : stable I m -> triple in_s m (fun _ => I).
Proof using. intros H. eapply triple_conseq; [exact H|by intros w []|done]. Qed.

Lemma guest_emulate_sret : triple in_s emulate_sret (fun _ => I).
Proof using.
  intros w [[H1 H2 H3 H4 H5] Hm]. rewrite run_emulate_sret. split; cbn; try done.
  - by apply sret_priv_wf.
  - apply set_reg_wf; [done|]. apply (wf_words _ H1 Sepc).
  - unfold coherent, sret_priv in *. cbn.
    destruct (get_sstatus_spp (sstatus (w_priv w)) =? SSTATUS_SPP_U); [by left|].
    by rewrite Hm in H3.
Qed.

(** ** CSRs *)

Lemma guest_read_csr {A} n (f : Z -> M A) :
  (forall v, is_u64 v -> stable I (f v)) -> stable I (read_csr n ≫= f).
Proof using.
  intros Hf. destruct (csr_number_dec n) as [[c <-]|Hn]; intros w Hw.
  - rewrite run_bind with (a := csr_view (w_priv w) c) (w' := w) by apply run_read_csr.
    apply Hf; [apply (wf_words _ (gi_csr _ _ _ Hw) c)|done].
  - unfold mbind, M_bind. rewrite (proj1 (run_csr_unimplemented n 0 w Hn)).
    unfold write_log, s_write, do_syscall, mbind, M_bind. cbn. by destruct (k_syscall _ _).
Qed.

Lemma guest_write_csr n v : is_u64 v -> stable I (write_csr n v).
Proof using.
  intros Hv. destruct (csr_number_dec n) as [[c <-]|Hn]; intros w Hw.
  - rewrite run_write_csr. destruct Hw as [H1 H2 H3 H4 H5].
    split; cbn; [by apply csr_update_wf|done|..].
    all: destruct c; try done; destruct (csr_update_satp v (w_priv w)) as [->|[-> _]]; try done.
    by left.
  - rewrite (proj2 (run_csr_unimplemented n v w Hn)).
    unfold write_log, s_write, do_syscall, mbind, M_bind. cbn. by destruct (k_syscall _ _).
Qed.

Lemma ins_rd_range instr : 0 <= ins_rd instr < 32.
Proof using. unfold ins_rd. rewrite ins_bitfield_div by lia. by apply Z.mod_pos_bound. Qed.

Lemma ins_rs1_range instr : 0 <= ins_rs1 instr < 32.
Proof using. unfold ins_rs1. rewrite ins_bitfield_div by lia. by apply Z.mod_pos_bound. Qed.

Lemma guest_write_back (b : bool) i v : is_u64 v ->
  stable I (if b then put_reg i v else mret ()).
Proof using. intros. destruct b; [by apply guest_reg|apply stable_ret]. Qed.

Lemma guest_maybe_write (b : bool) n v : is_u64 v ->
  stable I (if b then write_csr n v else mret ()).
Proof using. intros. destruct b; [by apply guest_write_csr|apply stable_ret]. Qed.

Lemma guest_emulate_csr instr : stable I (emulate_csr instr).
Proof using.
  unfold emulate_csr. apply guest_get_regs. intros r Hr. cbv zeta.
  pose proof (ins_rs1_range instr) as Hrs1.
  match goal with |- context [write_csr _ ?v] => assert (is_u64 v) as Hv end.
  { destruct (truthy _); [unfold is_u64; lia|].
    destruct (ins_rs1 instr =? 0); [done|]. by apply reg_u64. }
  set (v := if truthy _ then _ else _) in *.
  apply stable_bind; [|intros _; apply guest_advance].
  destruct (_ =? CSR_OP_RW); [|destruct (_ =? CSR_OP_RS); [|destruct (_ =? CSR_OP_RC)]].
  - apply stable_bind; [|intros _; by apply guest_write_csr].
    destruct (negb _); [|apply stable_ret]. apply guest_read_csr. intros u Hu. by apply guest_reg.
  - apply guest_read_csr. intros u Hu.
    apply stable_bind; [apply guest_maybe_write; auto with words|].
    intros _. by apply guest_write_back.
  - apply guest_read_csr. intros u Hu.
    apply stable_bind; [apply guest_maybe_write; auto with words|].
    intros _. by apply guest_write_back.
  - stable_auto.
Qed.

Lemma guest_handle_priv_instr instr : triple in_s (handle_priv_instr instr) (fun _ => I).
Proof using.
  unfold handle_priv_instr. destruct (_ =? OPCODE_SYSTEM); [|apply guest_in_s; stable_auto].
  destruct (_ =? FUNCT3_NOT_CSR); [|apply guest_in_s, guest_emulate_csr].
  destruct (_ && _).
  { apply guest_in_s, stable_bind; [|intros _; apply guest_advance].
    apply stable_guest_priv. intros p r [H1 H2 H3 H4 H5].
    split; [by apply (csr_wf_view p)|done|by left|done|done]. }
  destruct (_ && _); [apply guest_in_s, guest_advance|].
  destruct (_ && _); [apply guest_emulate_sret|apply guest_in_s; stable_auto].
Qed.

(** ** SBI calls *)

Lemma stable_guest_sbi which a0 a1 a2 : stable I (handle_legacy_sbi_call which a0 a1 a2).
Proof using.
  unfold handle_legacy_sbi_call, sbi_getchar, sbi_set_timer. stable_auto.
  apply guest_mod_csr; try done. intros p. by apply set_sti_wf.
Qed.

Lemma yields_sbi which a0 a1 a2 : yields (handle_legacy_sbi_call which a0 a1 a2) is_u64.
Proof using.
  unfold handle_legacy_sbi_call, sbi_getchar, sbi_set_timer, s_exit_group. yields_auto.
  all: try (unfold is_u64; lia); try by apply u64_range.
  destruct a as [res buf]. yields_auto; [unfold is_u64; lia|].
  unfold is_u64, u8. pose proof (Z.mod_pos_bound (default 0 (head buf)) (2 ^ 8)). lia.
Qed.

(** ** Page faults *)

Lemma stable_guest_walk J n level ram va vpn pt :
  stable (on_guest J) (walk n level ram va vpn pt).
Proof using.
  revert level pt. induction n as [|n IH]; intros level pt; cbn [walk]; [done|].
  stable_auto.
Qed.

Lemma stable_guest_lookup J va : stable (on_guest J) (lookup_pa va).
Proof using.
  unfold lookup_pa, lookup_pa_in_ram. stable_auto. apply stable_guest_walk.
Qed.

Lemma guest_skip_store pc0 : stable I (skip_store pc0).
Proof using. unfold skip_store. stable_auto; apply guest_advance. Qed.

Lemma guest_page_fault cause va :
  is_u64 cause -> is_u64 va -> stable I (handle_page_fault cause va).
Proof using.
  intros Hc Hv. unfold handle_page_fault, fault_in_ram, fault_in_mmio, get_store_data, block_command.
  apply stable_bind; [apply stable_guest_lookup|]. intros found.
  stable_auto; try by apply guest_enter_trap.
  all: try apply stable_decode_sd; try apply guest_skip_store.
  all: by apply guest_mod_aux; [intros p []|..].
Qed.

Lemma yields_fault_cause addr : yields (fault_cause addr) (fun c => exists a, c = pf_cause a).
Proof using.
  unfold fault_cause. yields_auto.
  all: first [by exists Fetch | by exists Load | by exists Store].
Qed.

Lemma stable_fault_cause J addr : stable (on_guest J) (fault_cause addr).
Proof using. unfold fault_cause. stable_auto. Qed.

(** ** Signals *)

Lemma guest_counter f :
  (forall p c, csr_view (f p) c = csr_view p c) -> (forall p, priv_mode (f p) = priv_mode p) ->
  (forall p, should_clear_vm (f p) = should_clear_vm p) ->
  (forall p, stub_start (f p) = stub_start p) -> (forall p, stub_size (f p) = stub_size p) ->
  stable I (mod_priv f).
Proof using. intros Hv Hm Hc Hs Hz. apply guest_mod_aux; auto. intros p. by rewrite Hc. Qed.

Lemma guest_sigsys info : stable I (handle_sigsys info).
Proof using.
  unfold handle_sigsys, print_counters. cbv zeta.
  apply stable_bind; [apply guest_reg, u64_range|intros _].
  apply guest_get_reg; [lia|]. intros a0 _. apply stable_bind; [stable_auto|intros _].
  apply guest_get_priv. intros p _. destruct (priv_mode p =? PRIV_S).
  - apply stable_bind; [by apply guest_counter; [intros ? []|..]|intros _].
    apply guest_get_reg; [lia|]. intros x0 _. apply guest_get_reg; [lia|]. intros x1 _.
    apply guest_get_reg; [lia|]. intros x2 _.
    eapply triple_yields; [apply stable_guest_sbi|apply yields_sbi|].
    intros ret Hret. by apply guest_reg.
  - apply stable_bind; [by apply guest_counter; [intros ? []|..]|intros _].
    apply guest_get_reg; [lia|]. intros pc0 _.
    apply stable_bind; [apply guest_reg, u64_range|intros _].
    by apply guest_enter_trap; vm_compute.
Qed.

Lemma guest_sigill : stable I handle_sigill.
Proof using.
  unfold handle_sigill.
  apply stable_bind; [by apply guest_counter; [intros ? []|..]|intros _].
  intros w Hw. rewrite run_bind with (a := w_priv w) (w' := w) by done.
  destruct (Z.eqb_spec (priv_mode (w_priv w)) PRIV_S) as [Hm|Hm].
  2: { by apply guest_enter_trap; [by vm_compute..|]. }
  assert (in_s w) as Hin by done. clear Hw Hm. revert w Hin.
  change (triple in_s (pc0 ← get_reg 0; b ← load8 pc0;
    if (Z.land b 3 =? 3) && negb (Z.land b 0x1f =? 0x1f)
    then instr ← load32 pc0; handle_priv_instr instr
    else printf "Can't handle in SIGILL at %p" [VInt pc0];; ebreak) (fun _ => I)).
  apply triple_bind with (R := fun _ => in_s); [apply stable_get_reg|intros pc0].
  apply triple_bind with (R := fun _ => in_s); [apply stable_load8|intros b].
  destruct (_ && _); [|apply guest_in_s; stable_auto].
  apply triple_bind with (R := fun _ => in_s); [apply stable_load_le|intros instr].
  apply guest_handle_priv_instr.
Qed.

Lemma guest_sigalrm : stable I handle_sigalrm.
Proof using.
  unfold handle_sigalrm. stable_auto.
  apply guest_mod_csr; try done. intros p. apply (set_sti_wf true).
Qed.

Lemma guest_sigsegv info : is_u64 (si_addr info) -> stable I (handle_sigsegv info).
Proof using.
  intros Ha. unfold handle_sigsegv.
  apply stable_bind; [by apply guest_counter; [intros ? []|..]|intros _].
  eapply triple_yields; [apply stable_fault_cause|apply yields_fault_cause|].
  intros c [a ->]. apply guest_page_fault; [apply pf_cause_u64|done].
Qed.

Lemma guest_signal sig info : is_u64 (si_addr info) -> stable I (handle_signal sig info).
Proof using.
  intros Ha. unfold handle_signal.
  destruct (sig =? SIGSYS); [apply guest_sigsys|].
  destruct (sig =? SIGILL); [apply guest_sigill|].
  destruct (_ && _); [apply guest_sigalrm|].
  destruct (sig =? SIGSEGV); [by apply guest_sigsegv|stable_auto].
Qed.

Lemma guest_take_interrupt : stable I take_interrupt.
Proof using. unfold take_interrupt. stable_auto. by apply guest_enter_trap; vm_compute. Qed.
End guest.
