(* ===== verification/Isolation.v ===== *)
(** * Isolation of the guest

    What the process has mapped while the guest runs: the stub, and pages of
    RAM inside the RAM file.  The mappings the handler makes for itself (the
    configuration, and RAM for the page-table walk) are gone when the guest
    runs again. *)

From S2P Require Import Prelude Bits State Machine Hoare Csr Trap Instr Linux PageWalk Printf.
From S2P Require Import Console PageFault Sbi Handler Guest.

Section isolation.
Context {K : Kernel} {V : KernelView K} {L : KernelLaws K V}.

(** A page of the RAM file. *)
Definition ram_backed (g : vpage) : Prop :=
  vp_fd g = RAM_FD /\ 0 <= vp_off g /\ vp_off g + PAGE <= RAM_SIZE.

Definition guest_page (g : option vpage) : Prop :=
  match g with None => True | Some g => ram_backed g end.

(** Outside the pages [except] everything that is mapped is RAM. *)
Definition confined_but (except : Z -> bool) (k : kstate) : Prop :=
  forall q, except q = false -> guest_page (k_page k q).

Definition stub_page (p : priv_state) (q : Z) : bool := in_pages (stub_start p) (stub_size p) q.

Definition confined (p : priv_state) : kstate -> Prop := confined_but (stub_page p).

#[export] Instance spatial_confined except : Spatial (confined_but except).
Proof. intros k k' Hk H q Hq. rewrite (Hk q). by apply H. Qed.

Lemma mapped_ram_backed a q :
  page_aligned a -> in_pages a RAM_SIZE q = true ->
  0 <= 0 + PAGE * (q - a / PAGE) /\ 0 + PAGE * (q - a / PAGE) + PAGE <= RAM_SIZE.
Proof using.
  unfold page_aligned, in_pages, PAGE. change RAM_SIZE with (4096 * 4096).
  rewrite andb_true_iff, Z.leb_le, Z.ltb_lt. intros. Z.div_mod_to_equations. lia.
Qed.

(** ** The page a fault maps *)

Definition leaf_of (va : Z) (found : option (Z * Z)) : Prop :=
  match found with
  | Some (pa, pte) => pte = 0 \/ pa = pte_ppn pte * 2 ^ 12 + va mod 2 ^ 12
  | None => True
  end.

Lemma yields_walk n level ram va vpn pt : yields (walk n level ram va vpn pt) (leaf_of va).
Proof using.
  revert level pt. induction n as [|n IH]; intros level pt; cbn [walk]; [done|].
  yields_auto; try apply IH; try done. right. apply leaf_pa.
Qed.

Lemma yields_lookup va : yields (lookup_pa va) (leaf_of va).
Proof using.
  unfold lookup_pa, lookup_pa_in_ram.
  apply yields_bind. intros ram.
  apply triple_bind with (R := fun found _ => leaf_of va found).
  - change (yields (lookup_pa_in_ram ram va) (leaf_of va)). unfold lookup_pa_in_ram.
    yields_auto; [by left|done|apply yields_walk].
  - intros found. eapply triple_bind with (R := fun _ _ => leaf_of va found).
    + intros w Hw. by destruct (s_munmap ram RAM_SIZE w) as [[]].
    + intros _. by apply triple_ret.
Qed.

(** ** Every operation confines *)

Section stable.
Context (except : Z -> bool).
#[local] Abbreviation J := (on_kern (confined_but except)).

Lemma confined_munmap a len : stable J (s_munmap a len).
Proof using L.
  unfold s_munmap. apply stable_bind; [|intros; apply stable_ret].
  apply stable_syscall. intros w Hw q Hq. cbn.
  destruct (law_munmap_only (w_kern w) a len q) as [-> | ->]; [by apply Hw|done].
Qed.

Lemma confined_ram_mmap prot : stable J (s_mmap 0 RAM_SIZE prot MAP_SHARED RAM_FD 0).
Proof using L.
  unfold s_mmap. apply stable_bind; [|intros; apply stable_ret].
  apply stable_syscall. intros w Hw q Hq. cbn.
  destruct (law_mmap_null (w_kern w) RAM_SIZE prot RAM_FD 0)
    as [[_ Hs]|(Ha & Hal & _ & _ & Hm)]; [done..| |].
  - rewrite (Hs q). by apply Hw.
  - rewrite Hm. unfold mapped. destruct (in_pages _ _ q) eqn:E; [|by apply Hw].
    split; [done|]. by apply mapped_ram_backed.
Qed.

#[local] Hint Resolve confined_munmap confined_ram_mmap : stable.

Lemma confined_walk n level ram va vpn pt : stable J (walk n level ram va vpn pt).
Proof using L.
  revert level pt. induction n as [|n IH]; intros level pt; cbn [walk]; [done|]. stable_auto.
Qed.

#[local] Hint Resolve confined_walk : stable.

Lemma confined_lookup va : stable J (lookup_pa va).
Proof using L. unfold lookup_pa, lookup_pa_in_ram. stable_auto. Qed.

Lemma confined_fault_in_ram cause va pa pte :
  is_u64 va -> pa = pte_ppn pte * 2 ^ 12 + va mod 2 ^ 12 -> in_ram pa = true ->
  stable J (fault_in_ram cause va pte).
Proof using L.
  intros Hva Hpa Hram. unfold fault_in_ram. destruct (denied cause pte); [stable_auto|].
  destruct (leaf_offset pte va) as [Hoff _]; [by rewrite <- Hpa|]. rewrite <- Hpa in Hoff.
  rewrite Hoff, page_base_spec by done. apply stable_bind; [|intros res; stable_auto].
  intros w Hw. destruct (run_page_mmap va pa pte w Hva Hram)
    as (res & k & _ & _ & _ & -> & [[_ [_ Hm]]|[_ Hs]]); [|by refine (spatial _ _ Hs Hw)].
  intros q Hq. cbn. rewrite Hm. destruct (q =? va / PAGE); [|by apply Hw].
  destruct (ram_page_bounds pa Hram) as (H0 & H1 & _). done.
Qed.

Lemma confined_page_fault cause va : is_u64 va -> stable J (handle_page_fault cause va).
Proof using L.
  intros Hva. unfold handle_page_fault.
  eapply triple_yields; [apply confined_lookup|apply yields_lookup|].
  intros [[pa pte]|] Hleaf; [|apply stable_space_enter_trap].
  destruct (Z.eqb_spec pte 0) as [|Hpte]; [by apply stable_bind; [apply stable_space_write_log, spatial_confined|]|].
  destruct Hleaf as [|Hpa]; [done|]. fold (in_ram pa). destruct (in_ram pa) eqn:Hram.
  - by apply (confined_fault_in_ram cause va pa).
  - by apply stable_fault_in_mmio, spatial_confined.
Qed.

(** ** The handler *)

Lemma confined_priv_instr instr : stable J (handle_priv_instr instr).
Proof using L.
  unfold handle_priv_instr, emulate_csr, emulate_sret, read_csr, write_csr, advance.
  stable_auto.
Qed.

Lemma confined_sbi which a0 a1 a2 : stable J (handle_legacy_sbi_call which a0 a1 a2).
Proof using L.
  unfold handle_legacy_sbi_call, sbi_getchar, sbi_set_timer. stable_auto.
Qed.

#[local] Hint Resolve confined_priv_instr confined_sbi confined_page_fault : stable.

Lemma confined_signal sig info : is_u64 (si_addr info) -> stable J (handle_signal sig info).
Proof using L.
  intros Ha. unfold handle_signal, handle_sigsys, handle_sigill, handle_sigalrm,
    handle_sigsegv, print_counters, fault_cause. stable_auto.
Qed.

Lemma confined_clear : stable J clear_vm.
Proof using L. unfold clear_vm. stable_auto. Qed.

Lemma confined_interrupt : stable J take_interrupt.
Proof using L. unfold take_interrupt. stable_auto. Qed.
End stable.
End isolation.
