(* ===== verification/Hypervisor.v ===== *)
(** * The hypervisor as a state machine

    Between two signals the guest runs natively: it changes its registers and
    the memory its pages give it, but neither the configuration nor the set
    of mapped pages (the seccomp filter turns its system calls into signals).
    A signal runs the handler; the blocks it reads go to memory of
    the guest.  The theorems are about one run of the handler and, by
    induction on the steps, about every state the guest can reach. *)

From stdpp Require Import relations.
From S2P Require Import Prelude Bits State Machine Hoare Csr Trap Instr Linux PageWalk Printf.
From S2P Require Import Console PageFault Block Sbi Handler Guest Isolation.

Section handler_run.
Context {K : Kernel} {V : KernelView K} {L : KernelLaws K V}.

(** Where the stub is: page-aligned, in the user address space. *)
Definition stub_ok (p : priv_state) : Prop :=
  page_aligned (stub_start p) /\ page_aligned (stub_size p) /\
  0 <= stub_start p /\ 0 <= stub_size p /\ stub_start p + stub_size p <= TASK_SIZE.

Definition cfg_mmap : syscall :=
  SysMmap 0 CONF_SIZE (Z.lor PROT_READ PROT_WRITE) MAP_SHARED CONFIG_FD 0.

(** Linux grants the mapping of the configuration. *)
Definition cfg_mmap_ok (k : kstate) : Prop := 0 <= s64 (sr_val (fst (k_syscall cfg_mmap k))).

Definition entered (w : world) : world := w <| w_kern := snd (k_syscall cfg_mmap (w_kern w)) |>.

(** The phases of a run that returns; [base] is where the configuration is
    mapped. *)
Record run_phases (sig : Z) (info : siginfo) (w w' : world) (base : Z) (w1 w2 w3 w4 : world)
  : Prop := {
  ph_entered : cfg_mmap_ok (w_kern w) /\ w1 = entered w /\
    base = sr_val (fst (k_syscall cfg_mmap (w_kern w)));
  ph_base : page_aligned base /\ 0 <= base /\ base + CONF_SIZE <= TASK_SIZE;
  ph_pages : forall q, k_page (w_kern w1) q =
    mapped base CONF_SIZE (Z.lor PROT_READ PROT_WRITE) CONFIG_FD 0 (k_page (w_kern w)) q;
  ph_guest : w_priv w1 = w_priv w /\ w_regs w1 = w_regs w;
  ph_signal : handle_signal sig info w1 = (inr (), w2);
  ph_interrupt : take_interrupt w2 = (inr (), w3);
  ph_clear : clear_vm w3 = (inr (), w4);
  ph_end : w' = w4 <| w_kern := snd (k_syscall (SysMunmap base CONF_SIZE) (w_kern w4)) |>;
}.

Lemma run_handler_inv sig info w w' :
  handler sig info w = (inr (), w') -> exists base w1 w2 w3 w4,
    run_phases sig info w w' base w1 w2 w3 w4.
Proof using L.
  unfold handler, s_mmap. set (c := SysMmap _ _ _ _ _ _). intros Hrun.
  set (base := sr_val (fst (k_syscall c (w_kern w)))).
  set (w1 := w <| w_kern := snd (k_syscall c (w_kern w)) |>).
  rewrite run_bind with (a := base) (w' := w1) in Hrun.
  2: { unfold do_syscall, mbind, M_bind. subst base w1. by destruct (k_syscall c (w_kern w)). }
  destruct (Z.ltb_spec (s64 base) 0) as [|Hb]; [done|].
  apply run_bind_inv in Hrun as [(s & _ & [=])|([] & w2 & H2 & Hrun)].
  apply run_bind_inv in Hrun as [(s & _ & [=])|([] & w3 & H3 & Hrun)].
  apply run_bind_inv in Hrun as [(s & _ & [=])|([] & w4 & H4 & Hrun)].
  exists base, w1, w2, w3, w4.
  destruct (law_mmap_null (w_kern w) CONF_SIZE (Z.lor PROT_READ PROT_WRITE) CONFIG_FD 0)
    as [[He _]|(Ha & Hal & Hsz & _ & Hm)]; [done..|fold c base in He; lia|].
  fold c base in Ha, Hal, Hsz, Hm. split; try done.
  revert Hrun. unfold s_munmap, do_syscall, mbind, M_bind.
  destruct (k_syscall (SysMunmap base CONF_SIZE) (w_kern w4)). by intros [= <-].
Qed.

(** The last munmap removes the configuration, and maps nothing. *)
Lemma end_pages sig info w w' base w1 w2 w3 w4 q :
  run_phases sig info w w' base w1 w2 w3 w4 ->
  k_page (w_kern w') q = unmapped base CONF_SIZE (k_page (w_kern w4)) q.
Proof using L.
  intros [_ (Ha & Hb & Hs) _ _ _ _ _ ->]. cbn. by apply law_munmap.
Qed.

Lemma run_clear_vm w w' : clear_vm w = (inr (), w') ->
  w_priv w' = (w_priv w) <| should_clear_vm := false |> /\ w_regs w' = w_regs w.
Proof using.
  unfold clear_vm. rewrite run_bind with (a := w_priv w) (w' := w) by done.
  destruct (should_clear_vm (w_priv w)) eqn:E.
  - unfold s_munmap, do_syscall, mbind, M_bind. cbn.
    destruct (k_syscall _ _) as [r k]. cbn. destruct (k_syscall _ k). by intros [= <-].
  - intros [= <-]. split; [|done]. revert E. destruct (w_priv w). cbn. by intros ->.
Qed.

(** The flush leaves nothing outside the stub. *)
Lemma clear_vm_flushes w w' q :
  stub_ok (w_priv w) -> should_clear_vm (w_priv w) = true -> clear_vm w = (inr (), w') ->
  0 <= q < TASK_SIZE / PAGE -> stub_page (w_priv w) q = false -> k_page (w_kern w') q = None.
Proof using L.
  intros (Hs & Hz & H0 & H1 & H2) Hc Hrun Hq Hstub. revert Hrun.
  unfold clear_vm. rewrite run_bind with (a := w_priv w) (w' := w) by done. rewrite Hc.
  set (s := stub_start (w_priv w)) in *. set (z := stub_size (w_priv w)) in *.
  assert (u64 (s + z) = s + z) as -> by (apply u64_id; unfold is_u64, TASK_SIZE in *; lia).
  assert (u64 (Z.shiftl 1 38 - (s + z)) = TASK_SIZE - (s + z)) as ->.
  { change (Z.shiftl 1 38) with TASK_SIZE. apply u64_id. unfold is_u64, TASK_SIZE in *. lia. }
  unfold s_munmap, do_syscall, mbind, M_bind. cbn.
  pose proof (law_munmap (w_kern w) 0 s) as Hm1.
  destruct (k_syscall (SysMunmap 0 s) (w_kern w)) as [r1 k1]. cbn in *.
  pose proof (law_munmap k1 (s + z) (TASK_SIZE - (s + z))) as Hm2.
  destruct (k_syscall (SysMunmap (s + z) (TASK_SIZE - (s + z))) k1) as [r2 k2]. cbn in *.
  intros [= <-]. cbn. unfold page_aligned, PAGE, TASK_SIZE in *.
  rewrite Hm2 by (Z.div_mod_to_equations; lia). unfold unmapped.
  destruct (in_pages (s + z) (2 ^ 38 - (s + z)) q) eqn:E2; [done|].
  rewrite Hm1 by (Z.div_mod_to_equations; lia). unfold unmapped.
  destruct (in_pages 0 s q) eqn:E1; [done|]. exfalso.
  unfold stub_page in Hstub. fold s z in Hstub.
  unfold in_pages, PAGE in *. rewrite andb_false_iff, !Z.leb_gt, !Z.ltb_ge in *.
  Z.div_mod_to_equations. lia.
Qed.

(** What the guest's state is when the handler is about to flush. *)
Lemma guest_phases sig info w w' base w1 w2 w3 w4 :
  is_u64 (si_addr info) -> csr_wf (w_priv w) -> gregs_wf (w_regs w) ->
  run_phases sig info w w' base w1 w2 w3 w4 ->
  guest_inv (w_priv w) (w_priv w3) (w_regs w3) /\
  w_priv w' = (w_priv w3) <| should_clear_vm := false |> /\ w_regs w' = w_regs w3.
Proof using.
  intros Hi Hp Hr [_ _ _ [Ep Er] H2 H3 H4 ->].
  assert (on_guest (guest_inv (w_priv w)) w1) as Hw1.
  { unfold on_guest. rewrite Ep, Er. split; try done. by right. }
  pose proof (triple_inv _ _ _ _ _ _ (guest_signal (w_priv w) sig info Hi) Hw1 H2) as Hw2.
  pose proof (triple_inv _ _ _ _ _ _ (guest_take_interrupt (w_priv w)) Hw2 H3) as Hw3.
  split; [exact Hw3|]. apply (run_clear_vm w3 w4 H4).
Qed.

Lemma handler_preserves sig info w w' :
  is_u64 (si_addr info) -> csr_wf (w_priv w) -> gregs_wf (w_regs w) ->
  handler sig info w = (inr (), w') ->
  csr_wf (w_priv w') /\ gregs_wf (w_regs w') /\ should_clear_vm (w_priv w') = false /\
  stub_start (w_priv w') = stub_start (w_priv w) /\
  stub_size (w_priv w') = stub_size (w_priv w).
Proof using L.
  intros Hi Hp Hr (base & w1 & w2 & w3 & w4 & H)%run_handler_inv.
  destruct (guest_phases _ _ _ _ _ _ _ _ _ Hi Hp Hr H) as ([H1 H2 _ H4 H5] & -> & ->).
  by split; [apply (csr_wf_view (w_priv w3)); [intros []|..]|].
Qed.

(** C4. When a run of the handler changes the privilege mode or satp, no page outside the
    stub is mapped afterwards: the guest cannot use a stale translation. *)
Theorem handler_flushes sig info w w' q :
  is_u64 (si_addr info) -> csr_wf (w_priv w) -> gregs_wf (w_regs w) -> stub_ok (w_priv w) ->
  handler sig info w = (inr (), w') ->
  priv_mode (w_priv w') <> priv_mode (w_priv w) \/ satp (w_priv w') <> satp (w_priv w) ->
  0 <= q < TASK_SIZE / PAGE -> stub_page (w_priv w) q = false -> k_page (w_kern w') q = None.
Proof using L.
  intros Hi Hp Hr Hs (base & w1 & w2 & w3 & w4 & H)%run_handler_inv Hne Hq Hstub.
  destruct (guest_phases _ _ _ _ _ _ _ _ _ Hi Hp Hr H) as ([H1 H2 H3 H4 H5] & E & _).
  rewrite E in Hne. cbn in Hne.
  destruct H3 as [Hc|[Hm Ha]]; [|by destruct Hne].
  rewrite (end_pages _ _ _ _ _ _ _ _ _ q H). unfold unmapped.
  destruct (in_pages base CONF_SIZE q); [done|].
  apply (clear_vm_flushes w3 w4); [|done|apply H|done|].
  - unfold stub_ok. by rewrite H4, H5.
  - unfold stub_page. by rewrite H4, H5.
Qed.

Lemma handler_confines sig info w w' :
  is_u64 (si_addr info) -> confined (w_priv w) (w_kern w) ->
  handler sig info w = (inr (), w') -> confined (w_priv w) (w_kern w').
Proof using L.
  intros Hi Hw (base & w1 & w2 & w3 & w4 & H)%run_handler_inv q Hq.
  rewrite (end_pages _ _ _ _ _ _ _ _ _ q H). unfold unmapped.
  destruct (in_pages base CONF_SIZE q) eqn:Hb; [done|].
  pose (except := fun q => stub_page (w_priv w) q || in_pages base CONF_SIZE q).
  assert (on_kern (confined_but except) w1) as Hw1.
  { intros q' Hq'. apply orb_false_elim in Hq' as [Hs' Hb'].
    rewrite (ph_pages _ _ _ _ _ _ _ _ _ H). unfold mapped. rewrite Hb'. by apply Hw. }
  pose proof (triple_inv _ _ _ _ _ _ (confined_signal except sig info Hi) Hw1
    (ph_signal _ _ _ _ _ _ _ _ _ H)) as Hw2.
  pose proof (triple_inv _ _ _ _ _ _ (confined_interrupt except) Hw2
    (ph_interrupt _ _ _ _ _ _ _ _ _ H)) as Hw3.
  pose proof (triple_inv _ _ _ _ _ _ (confined_clear except) Hw3
    (ph_clear _ _ _ _ _ _ _ _ _ H)) as Hw4.
  apply Hw4. unfold except. by rewrite Hq, Hb.
Qed.

(** ** Steps *)

(** The states in which the guest runs. *)
Record safe (w : world) : Prop := {
  safe_csr : csr_wf (w_priv w);
  safe_regs : gregs_wf (w_regs w);
  safe_clear : should_clear_vm (w_priv w) = false;
  safe_pages : confined (w_priv w) (w_kern w);
}.

(** The [n] bytes at [buf] are in pages of the guest. *)
Definition guest_buffer (w : world) (buf n : Z) : Prop :=
  forall a, buf <= a < buf + n ->
    0 <= a < TASK_SIZE /\ stub_page (w_priv w) (a / PAGE) = false /\
    k_page (w_kern w) (a / PAGE) <> None.

(** The blocks read between [w] and [w'] went to memory of the guest.  The
    code does not check the buffer: with another one, Linux writes the block
    over the signal stack or over the configuration, mapped at that time. *)
Definition reads_own (w w' : world) : Prop :=
  forall l fd buf n off r, k_calls (w_kern w') = k_calls (w_kern w) ++ l ->
    (SysPread64 fd buf n off, r) ∈ l -> guest_buffer w buf n.

Inductive step : world -> world -> Prop :=
| step_guest w r k : gregs_wf r -> same_pages (w_kern w) k -> step w (mk_world (w_priv w) r k)
| step_signal sig info w w' : is_u64 (si_addr info) ->
    handler sig info w = (inr (), w') -> reads_own w w' -> step w w'.

Definition same_stub (w w' : world) : Prop :=
  stub_start (w_priv w') = stub_start (w_priv w) /\
  stub_size (w_priv w') = stub_size (w_priv w).

Lemma confined_stub p p' k :
  stub_start p' = stub_start p -> stub_size p' = stub_size p -> confined p k -> confined p' k.
Proof using. intros Hs Hz H q. unfold stub_page. rewrite Hs, Hz. apply H. Qed.

Lemma step_safe w w' : safe w -> step w w' -> safe w' /\ same_stub w w'.
Proof using L.
  intros [H1 H2 H3 H4] Hstep. destruct Hstep as [w r k Hr Hk|sig info w w' Hi Hrun _].
  - split; [|done]. split; [done..|]. by refine (spatial _ _ Hk H4).
  - pose proof (handler_preserves sig info w w' Hi H1 H2 Hrun) as (Hp & Hg & Hc & Hs & Hz).
    split; [|done]. split; [done..|].
    eapply confined_stub; [exact Hs|exact Hz|]. by eapply handler_confines.
Qed.

Lemma reachable_inv w w' : safe w -> rtc step w w' -> safe w' /\ same_stub w w'.
Proof using L.
  intros Hw Hsteps. induction Hsteps as [|w w1 w2 Hstep _ IH]; [done|].
  destruct (step_safe w w1 Hw Hstep) as [H1 [Hs Hz]].
  destruct (IH H1) as [H2 [Hs' Hz']]. split; [done|]. unfold same_stub. by rewrite Hs', Hz'.
Qed.

Lemma safe_page w q g :
  safe w -> stub_page (w_priv w) q = false -> k_page (w_kern w) q = Some g ->
  vp_fd g = RAM_FD /\ 0 <= vp_off g /\ vp_off g + PAGE <= RAM_SIZE.
Proof using. intros Hw Hq Hg. pose proof (safe_pages _ Hw q Hq) as H. by rewrite Hg in H. Qed.

(** C3. In every state the guest can reach, by native steps of its own and by signals, the
    CSR file is legal, no flush is pending, and a page mapped outside the stub is a page
    of RAM inside the RAM file; in particular the configuration is never mapped while
    the guest runs. *)
Theorem reachable_safe w w' q g :
  safe w -> rtc step w w' -> stub_page (w_priv w) q = false -> k_page (w_kern w') q = Some g ->
  csr_wf (w_priv w') /\ should_clear_vm (w_priv w') = false /\
  vp_fd g = RAM_FD /\ 0 <= vp_off g /\ vp_off g + PAGE <= RAM_SIZE.
Proof using L.
  intros Hw Hsteps Hq Hg. destruct (reachable_inv w w' Hw Hsteps) as [Hw' [Hs Hz]].
  split; [apply Hw'|]. split; [apply Hw'|]. apply (safe_page w' q); [done| |done].
  unfold stub_page in *. by rewrite Hs, Hz.
Qed.
End handler_run.

(** ** What a run does *)

Section effects.
Context {K : Kernel} {V : KernelView K} {L : KernelLaws K V}.

(** The timer interrupt of the specification: pending and enabled, and not
    masked by SIE in S-mode. *)
Definition isa_timer_enabled (p : priv_state) : bool :=
  Z.testbit (sip p) 5 && Z.testbit (sie p) 5
  && (bool_decide (mode_of (priv_mode p) = ModeU) || Z.testbit (sstatus p) 1).

Lemma truthy_bit s d : 0 <= s -> truthy (bf_get s 1 d) = Z.testbit d s.
Proof using. intros. rewrite bf_get_bool by done. by destruct (Z.testbit d s). Qed.

Lemma interrupt_enabled_isa p : csr_wf p -> interrupt_enabled p = isa_timer_enabled p.
Proof using.
  intros Hp. unfold interrupt_enabled, isa_timer_enabled, get_six_sti, get_sstatus_sie.
  rewrite !truthy_bit by done.
  destruct (wf_mode p Hp) as [-> | ->]; cbn.
  - rewrite bool_decide_true by done. by rewrite orb_true_r.
  - rewrite bool_decide_false by done. by rewrite orb_false_r.
Qed.

(** No interrupt is taken right after a trap. *)
Lemma trap_masks_interrupt cause tval pc0 p :
  csr_wf p -> interrupt_enabled (trap_priv cause tval pc0 p) = false.
Proof using.
  intros Hp. unfold interrupt_enabled. change (sstatus (trap_priv cause tval pc0 p)) with
    (trap_sstatus (priv_mode p) (sstatus p)).
  rewrite trap_sstatus_sie by apply (wf_words _ Hp Sstatus). apply andb_false_r.
Qed.

(** The guest after the interrupt check. *)
Definition after_interrupt (p : priv_state) (r : gregs) : priv_state * gregs :=
  if interrupt_enabled p
  then (trap_priv SCAUSE_TIMER 0 (pc r) p, set_reg r 0 (trap_target p SCAUSE_TIMER))
  else (p, r).

Lemma run_take_interrupt w : exists k, take_interrupt w =
  (inr (), mk_world (after_interrupt (w_priv w) (w_regs w)).1
                    (after_interrupt (w_priv w) (w_regs w)).2 k) /\
  same_pages (w_kern w) k /\ same_files (w_kern w) k.
Proof using L.
  unfold take_interrupt, after_interrupt.
  rewrite run_bind with (a := w_priv w) (w' := w) by done.
  destruct (interrupt_enabled (w_priv w)); [|exists (w_kern w); by destruct w].
  destruct (run_write_log_frame "timer interrupt taken" w) as (k & Hk & Hp & Hf). exists k.
  split; [|done]. erewrite run_bind by exact Hk. apply run_enter_trap.
Qed.

Lemma run_clear_vm_total w : exists k, clear_vm w =
  (inr (), mk_world ((w_priv w) <| should_clear_vm := false |>) (w_regs w) k).
Proof using.
  unfold clear_vm. rewrite run_bind with (a := w_priv w) (w' := w) by done.
  destruct (should_clear_vm (w_priv w)) eqn:E.
  - unfold s_munmap, do_syscall, mbind, M_bind. cbn.
    destruct (k_syscall _ _) as [r k]. cbn. destruct (k_syscall _ k) as [r2 k2]. by exists k2.
  - exists (w_kern w). revert E. destruct w as [[] r k]. cbn. by intros ->.
Qed.

Lemma run_handler sig info w w2 :
  cfg_mmap_ok (w_kern w) -> handle_signal sig info (entered w) = (inr (), w2) ->
  exists k, handler sig info w = (inr (), mk_world
    ((after_interrupt (w_priv w2) (w_regs w2)).1 <| should_clear_vm := false |>)
    (after_interrupt (w_priv w2) (w_regs w2)).2 k).
Proof using L.
  intros Hok H2. unfold handler, s_mmap. fold cfg_mmap.
  rewrite run_bind with (a := sr_val (fst (k_syscall cfg_mmap (w_kern w)))) (w' := entered w).
  2: { unfold entered, do_syscall, mbind, M_bind. by destruct (k_syscall cfg_mmap (w_kern w)). }
  rewrite (proj2 (Z.ltb_ge _ 0) Hok). erewrite run_bind by exact H2.
  destruct (run_take_interrupt w2) as (k3 & H3 & _). erewrite run_bind by exact H3.
  destruct (run_clear_vm_total (mk_world (after_interrupt (w_priv w2) (w_regs w2)).1
    (after_interrupt (w_priv w2) (w_regs w2)).2 k3)) as [k4 H4].
  erewrite run_bind by exact H4. unfold s_munmap, do_syscall, mbind, M_bind. cbn.
  destruct (k_syscall (SysMunmap _ _) k4) as [r5 k5]. by exists k5.
Qed.

Lemma after_interrupt_hart p r :
  csr_wf p -> gregs_wf r ->
  hart_of (after_interrupt p r).1 (after_interrupt p r).2 =
    (if isa_timer_enabled p then isa_trap SCAUSE_TIMER 0 (hart_of p r) else hart_of p r).
Proof using.
  intros Hp Hr. unfold after_interrupt. rewrite interrupt_enabled_isa by done.
  destruct (isa_timer_enabled p); [|done]. apply trap_priv_hart; [by vm_compute|done..].
Qed.

Lemma after_interrupt_regs p r i : 1 <= i -> reg (after_interrupt p r).2 i = reg r i.
Proof using.
  intros. unfold after_interrupt. destruct (interrupt_enabled p); [|done].
  by apply set_pc_frame.
Qed.

Lemma run_sigalrm info w : si_code info = SI_TIMER ->
  exists k, handle_signal SIGALRM info w = (inr (), mk_world (set_sti true (w_priv w)) (w_regs w) k) /\
    same_pages (w_kern w) k /\ same_files (w_kern w) k.
Proof using L.
  intros Hc. unfold handle_signal. rewrite Hc. change (SIGALRM =? SIGSYS) with false.
  change (SIGALRM =? SIGILL) with false.
  change ((SIGALRM =? SIGALRM) && (SI_TIMER =? SI_TIMER)) with true. cbv iota.
  unfold handle_sigalrm. erewrite run_bind by apply run_mod_priv.
  erewrite run_bind by apply run_get_priv. cbv beta.
  destruct (priv_mode _ =? PRIV_S);
    match goal with |- context [write_log ?s ?w0] =>
      destruct (run_write_log_frame s w0) as (k & Hk & Hf); exists k; rewrite Hk end;
    exact (conj eq_refl Hf).
Qed.

(** C13. A timer signal makes the timer interrupt pending, and the handler delivers it
    exactly when it is enabled in sie and either the guest is in U-mode or SIE is set,
    as the architecture says; the other registers are untouched. *)
Theorem handler_timer info w :
  cfg_mmap_ok (w_kern w) -> csr_wf (w_priv w) -> gregs_wf (w_regs w) -> si_code info = SI_TIMER ->
  exists p' r' k, handler SIGALRM info w = (inr (), mk_world p' r' k) /\
    Z.testbit (sip p') 5 = true /\
    hart_of p' r' =
      (if Z.testbit (sie (w_priv w)) 5
          && (bool_decide (mode_of (priv_mode (w_priv w)) = ModeU)
              || Z.testbit (sstatus (w_priv w)) 1)
       then isa_trap SCAUSE_TIMER 0 (hart_of (w_priv w) (w_regs w))
       else hart_of (w_priv w) (w_regs w)) /\
    (forall i, 1 <= i < 32 -> reg r' i = reg (w_regs w) i).
Proof using L.
  intros Hok Hp Hr Hc. set (p1 := set_sti true (w_priv w)).
  pose proof (set_sti_wf true _ Hp) as Hp1. fold p1 in Hp1.
  assert (Z.testbit (sip p1) 5 = true) as Hbit.
  { rewrite <- (truthy_bit 5) by done. fold (get_six_sti (sip p1)). unfold p1.
    by rewrite get_set_sti by apply (wf_words _ Hp Sip). }
  destruct (run_sigalrm info (entered w) Hc) as (k2 & H2 & _).
  change (w_priv (entered w)) with (w_priv w) in H2. change (w_regs (entered w)) with (w_regs w) in H2.
  fold p1 in H2.
  destruct (run_handler SIGALRM info w _ Hok H2) as [k H]. cbn [w_priv w_regs] in H.
  eexists _, _, k. split; [exact H|]. split; [|split].
  - unfold after_interrupt. by destruct (interrupt_enabled p1).
  - pose proof (after_interrupt_hart p1 (w_regs w) Hp1 Hr) as Hh.
    unfold isa_timer_enabled in Hh. rewrite Hbit in Hh. exact Hh.
  - intros i Hi. apply after_interrupt_regs. lia.
Qed.

(** ** Traps from U-mode *)

(** The handler delivered [cause] to the guest, whose registers were [r]. *)
Definition delivers (cause : Z) (p : priv_state) (r : gregs) (out : (stop + unit) * world) : Prop :=
  exists p' r' k, out = (inr (), mk_world p' r' k) /\
    hart_of p' r' = isa_trap cause 0 (hart_of p r) /\
    (forall i, 1 <= i < 32 -> reg r' i = reg r i) /\
    satp p' = satp p /\ csr_wf p'.

(** The exceptions the handler reflects; no interrupt follows one. *)
Lemma run_handler_trap sig info cause p r k w :
  cfg_mmap_ok (w_kern w) -> is_u64 cause -> csr_wf p -> gregs_wf r ->
  handle_signal sig info (entered w) = enter_trap cause 0 (mk_world p r k) ->
  delivers cause p r (handler sig info w).
Proof using L.
  intros Hok Hc Hp Hr H. rewrite run_enter_trap in H.
  destruct (run_handler sig info w _ Hok H) as [k' H']. cbn [w_priv w_regs] in H'.
  revert H'. unfold after_interrupt. rewrite trap_masks_interrupt by done. cbn. intros H'.
  eexists _, _, k'. split; [exact H'|]. split_and!.
  - rewrite <- trap_priv_hart by done. reflexivity.
  - intros i Hi. apply set_pc_frame. lia.
  - done.
  - apply (csr_wf_view (trap_priv cause 0 (pc r) p)); [by intros []|done|].
    apply trap_priv_wf; [done|by vm_compute|apply reg_u64; [done|lia]|done].
Qed.

Lemma run_print_counters w : exists k, print_counters w = (inr (), w <| w_kern := k |>).
Proof using L.
  unfold print_counters.
  assert (forall s args w, is_Some (text_of (string_bytes s ++ [10]) args) ->
    exists k, printf s args w = (inr (), w <| w_kern := k |>)) as Hp.
  { intros s args w0 Hs. destruct (run_printf s args w0 Hs) as [text E]. eauto. }
  destruct (Hp "[urvirt] counters" [] w) as [k1 E1]; [by apply text_of_defined; vm_compute|].
  erewrite run_bind by exact E1.
  rewrite run_bind with (a := w_priv w) (w' := w <| w_kern := k1 |>) by done.
  destruct (Hp "  ill = %zd" [VInt (counter_ill (w_priv w))] (w <| w_kern := k1 |>))
    as [k2 E2]; [by apply text_of_defined; vm_compute|]. erewrite run_bind by exact E2.
  destruct (Hp "  segv = %zd" [VInt (counter_segv (w_priv w))] (w <| w_kern := k2 |>))
    as [k3 E3]; [by apply text_of_defined; vm_compute|]. erewrite run_bind by exact E3.
  destruct (Hp "  sret = %zd" [VInt (counter_sret (w_priv w))] (w <| w_kern := k3 |>))
    as [k4 E4]; [by apply text_of_defined; vm_compute|]. erewrite run_bind by exact E4.
  destruct (Hp "  uecall = %zd" [VInt (counter_uecall (w_priv w))] (w <| w_kern := k4 |>))
    as [k5 E5]; [by apply text_of_defined; vm_compute|]. erewrite run_bind by exact E5.
  destruct (Hp "  secall = %zd" [VInt (counter_secall (w_priv w))] (w <| w_kern := k5 |>))
    as [k6 E6]; [by apply text_of_defined; vm_compute|]. 
  exists k6. exact E6.
Qed.

Lemma run_magic (b : bool) w : exists k,
  (if b then print_counters else mret ()) w = (inr (), w <| w_kern := k |>).
Proof using L.
  destruct b; [apply run_print_counters|]. exists (w_kern w). by destruct w.
Qed.

(** C14. An ecall in U-mode reaches the S-mode guest as a trap with cause 8, sepc pointing
    at the ecall itself, and no other register changed than the a7 the kernel had
    consumed. *)
Theorem handler_uecall info w :
  cfg_mmap_ok (w_kern w) -> csr_wf (w_priv w) -> gregs_wf (w_regs w) ->
  priv_mode (w_priv w) = PRIV_U ->
  let r := set_reg (set_reg (w_regs w) 17 (u64 (si_syscall info))) 0 (u64 (pc (w_regs w) - 4)) in
  delivers SCAUSE_UECALL ((w_priv w) <| counter_uecall := u64 (counter_uecall (w_priv w) + 1) |>) r
    (handler SIGSYS info w).
Proof using L.
  intros Hok Hp Hr Hm r. set (r1 := set_reg (w_regs w) 17 (u64 (si_syscall info))) in *.
  set (p1 := (w_priv w) <| counter_uecall := _ |>).
  set (w1 := (entered w) <| w_regs := r1 |>).
  destruct (run_magic (reg r1 10 =? MAGIC_ECALL) w1) as [k Hk].
  apply (run_handler_trap SIGSYS info SCAUSE_UECALL p1 r k w Hok); [by vm_compute|..].
  - by apply (csr_wf_view (w_priv w)); [intros []|..].
  - apply set_reg_wf, u64_range. apply set_reg_wf, u64_range. done.
  - unfold handle_signal. change (SIGSYS =? SIGSYS) with true. cbv iota.
    unfold handle_sigsys. cbv zeta.
    rewrite run_bind with (a := ()) (w' := w1) by done.
    rewrite run_bind with (a := reg r1 10) (w' := w1) by done.
    erewrite run_bind by exact Hk.
    rewrite run_bind with (a := w_priv w) (w' := w1 <| w_kern := k |>) by done.
    rewrite Hm. change (PRIV_U =? PRIV_S) with false. cbv iota.
    rewrite run_bind with (a := ()) (w' := mk_world p1 r1 k) by done.
    rewrite run_bind with (a := reg r1 0) (w' := mk_world p1 r1 k) by done.
    rewrite run_bind with (a := ()) (w' := mk_world p1 r k); [done|].
    unfold put_reg, r, pc. rewrite <- (reg_set_reg_ne (w_regs w) 17 0 (u64 (si_syscall info))) by lia.
    reflexivity.
Qed.

(** An illegal instruction in U-mode reaches the S-mode guest as a trap with cause 2 at
    that instruction, with no register changed. *)
Theorem handler_uillegal info w :
  cfg_mmap_ok (w_kern w) -> csr_wf (w_priv w) -> gregs_wf (w_regs w) ->
  priv_mode (w_priv w) = PRIV_U ->
  delivers SCAUSE_ILLEGAL ((w_priv w) <| counter_ill := u64 (counter_ill (w_priv w) + 1) |>)
    (w_regs w) (handler SIGILL info w).
Proof using L.
  intros Hok Hp Hr Hm. set (p1 := (w_priv w) <| counter_ill := _ |>).
  apply (run_handler_trap SIGILL info SCAUSE_ILLEGAL p1 (w_regs w) (w_kern (entered w)) w Hok);
    [by vm_compute| |done|].
  - by apply (csr_wf_view (w_priv w)); [intros []|..].
  - unfold handle_signal. change (SIGILL =? SIGSYS) with false.
    change (SIGILL =? SIGILL) with true. cbv iota. unfold handle_sigill.
    rewrite run_bind with (a := ()) (w' := mk_world p1 (w_regs w) (w_kern (entered w))) by done.
    rewrite run_bind with (a := p1) (w' := mk_world p1 (w_regs w) (w_kern (entered w))) by done.
    change (priv_mode p1) with (priv_mode (w_priv w)). by rewrite Hm.
Qed.

(** ** Emulation in S-mode *)

(** Mapping the configuration does not disturb the guest's code. *)
Lemma code_at_entered w n pc0 v :
  cfg_mmap_ok (w_kern w) -> code_at (w_kern w) n pc0 v -> code_at (w_kern (entered w)) n pc0 v.
Proof using L.
  intros Hok (H0 & Hn & Hlen & H).
  split_and!; [done..|exact (same_len _ _ _ _ (law_keeps_fds cfg_mmap (w_kern w) eq_refl) Hlen)|].
  intros i Hi. destruct (H i Hi) as (g & Hg & Hr & Hfd & Ho & Hb). exists g. unfold entered. cbn.
  rewrite (law_keeps_files cfg_mmap (w_kern w) eq_refl). split_and!; try (done || lia).
  destruct (law_mmap_null (w_kern w) CONF_SIZE (Z.lor PROT_READ PROT_WRITE) CONFIG_FD 0)
    as [[He _]|(_ & _ & _ & Hfree & Hm)]; [done..| |].
  - fold cfg_mmap in He. unfold cfg_mmap_ok in Hok. lia.
  - fold cfg_mmap in Hfree, Hm. rewrite Hm. unfold mapped.
    destruct (in_pages _ _ _) eqn:E; [|done]. by rewrite Hfree in Hg.
Qed.

(** A 32-bit instruction of the S-mode guest reaches [handle_priv_instr]. *)
Lemma run_sigill_word info v w :
  v mod 4 = 3 -> v mod 32 <> 31 -> 0 <= v < 2 ^ 32 ->
  cfg_mmap_ok (w_kern w) -> priv_mode (w_priv w) = PRIV_S ->
  code_at (w_kern w) 4 (pc (w_regs w)) v ->
  handle_signal SIGILL info (entered w) =
    handle_priv_instr v
      (mk_world ((w_priv w) <| counter_ill := u64 (counter_ill (w_priv w) + 1) |>)
         (w_regs w) (w_kern (entered w))).
Proof using L.
  intros L3 L31 Hrange Hok Hm Hcode. apply code_at_entered in Hcode; [|done].
  set (p1 := (w_priv w) <| counter_ill := _ |>).
  set (w1 := mk_world p1 (w_regs w) (w_kern (entered w))).
  unfold handle_signal. change (SIGILL =? SIGSYS) with false.
  change (SIGILL =? SIGILL) with true. cbv iota. unfold handle_sigill.
  rewrite run_bind with (a := ()) (w' := w1) by done.
  rewrite run_bind with (a := p1) (w' := w1) by done.
  change (priv_mode p1) with (priv_mode (w_priv w)). rewrite Hm, Z.eqb_refl.
  rewrite run_bind with (a := pc (w_regs w)) (w' := w1) by done.
  rewrite run_bind with (a := v mod 2 ^ 8) (w' := w1)
    by (apply (run_load8_code 3); exact Hcode).
  change 3 with (Z.ones 2) at 1. change 31 with (Z.ones 5) at 1. rewrite !Z.land_ones by lia.
  replace (v mod 2 ^ 8 mod 2 ^ 2) with 3 by (Z.div_mod_to_equations; lia).
  rewrite (proj2 (Z.eqb_neq (v mod 2 ^ 8 mod 2 ^ 5) 31)) by (Z.div_mod_to_equations; lia).
  cbn [Z.eqb Pos.eqb negb andb].
  rewrite run_bind with (a := v) (w' := w1); [done|].
  unfold load32. rewrite (run_load_code 4 4 _ v w1); [|exact Hcode|done].
  by rewrite Z.mod_small.
Qed.

Lemma run_sigill_system info hi rs1 f3 rd w :
  0 <= hi < 2 ^ 12 -> 0 <= rs1 < 32 -> 0 <= f3 < 8 -> 0 <= rd < 32 ->
  cfg_mmap_ok (w_kern w) -> priv_mode (w_priv w) = PRIV_S ->
  code_at (w_kern w) 4 (pc (w_regs w)) (encode_system hi rs1 f3 rd) ->
  handle_signal SIGILL info (entered w) =
    handle_priv_instr (encode_system hi rs1 f3 rd)
      (mk_world ((w_priv w) <| counter_ill := u64 (counter_ill (w_priv w) + 1) |>)
         (w_regs w) (w_kern (entered w))).
Proof using L.
  intros H1 H2 H3 H4. set (h := hi * 2 ^ 13 + rs1 * 2 ^ 8 + f3 * 2 ^ 5 + rd).
  assert (encode_system hi rs1 f3 rd = h * 2 ^ 7 + 115 /\ 0 <= h < 2 ^ 25) as [E Hh].
  { unfold encode_system, OPCODE_SYSTEM, h. lia. }
  apply run_sigill_word; rewrite E; Z.div_mod_to_equations; lia.
Qed.

(** C15. A SIGILL at a CSR instruction of the S-mode guest executes that instruction: rd
    receives the old value, the CSR is updated, the program counter moves by four, and a
    timer interrupt the write enables is delivered at once. *)
Theorem handler_emulates_csr info o imm c rs1 rd w :
  cfg_mmap_ok (w_kern w) -> csr_wf (w_priv w) -> gregs_wf (w_regs w) ->
  priv_mode (w_priv w) = PRIV_S -> 0 <= rs1 < 32 -> 0 <= rd < 32 ->
  code_at (w_kern w) 4 (pc (w_regs w)) (csr_word o imm c rs1 rd) ->
  let p1 := (w_priv w) <| counter_ill := u64 (counter_ill (w_priv w) + 1) |> in
  let p2 := csr_step o imm c rs1 p1 (w_regs w) in
  let r2 := set_reg (set_xreg (w_regs w) rd (csr_view (w_priv w) c)) 0
              (u64 (pc (w_regs w) + 4)) in
  exists p' r' k, handler SIGILL info w = (inr (), mk_world p' r' k) /\
    hart_of p' r' = (if isa_timer_enabled p2 then isa_trap SCAUSE_TIMER 0 (hart_of p2 r2)
                     else hart_of p2 r2) /\
    (forall i, 1 <= i < 32 -> reg r' i = reg r2 i) /\
    sie p' = sie p2 /\ sip p' = sip p2 /\ satp p' = satp p2 /\ sscratch p' = sscratch p2.
Proof using L.
  intros Hok Hp Hr Hm Hrs1 Hrd Hcode p1 p2 r2.
  pose proof (csr_number_range c) as Hcn. pose proof (csr_funct3_range o imm) as Hf3.
  assert (csr_wf p1) as Hp1 by (by apply (csr_wf_view (w_priv w)); [intros []|..]).
  assert (handle_signal SIGILL info (entered w) = (inr (), mk_world p2 r2 (w_kern (entered w))))
    as H2.
  { unfold csr_word in Hcode. rewrite (run_sigill_system info (csr_number c) rs1 (csr_funct3 o imm) rd w) by (done || lia).
    fold (csr_word o imm c rs1 rd). fold p1. rewrite run_csr_word by done.
    unfold p2, r2. by destruct c. }
  destruct (run_handler SIGILL info w _ Hok H2) as [k H]. cbn [w_priv w_regs] in H.
  assert (csr_wf p2) as Hp2 by (by apply csr_wf_step).
  assert (gregs_wf r2) as Hr2.
  { apply set_reg_wf, u64_range. apply set_xreg_wf; [done|apply (wf_words _ Hp)]. }
  eexists _, _, k. split; [exact H|]. split; [exact (after_interrupt_hart p2 r2 Hp2 Hr2)|].
  split; [intros i Hi; apply after_interrupt_regs; lia|].
  unfold after_interrupt. by destruct (interrupt_enabled p2).
Qed.

(** ** Demand paging *)

(** The kind of access of a 32-bit load, store or atomic instruction. *)
Definition word_access (v : Z) : option access :=
  if v mod 2 ^ 7 =? OPCODE_LOAD then Some Load
  else if (v mod 2 ^ 7 =? OPCODE_STORE) || (v mod 2 ^ 7 =? OPCODE_AMO) then Some Store
  else None.

(** The same of a 16-bit instruction. *)
Definition half_access (v : Z) : option access :=
  if bool_decide (v mod 4 = 0 \/ v mod 4 = 2) then
    if bool_decide (1 <= v / 2 ^ 13 <= 3) then Some Load
    else if bool_decide (5 <= v / 2 ^ 13 <= 7) then Some Store else None
  else None.

(** The instruction at [pc0] can have made the access [a] to [va]. *)
Inductive accesses (k : kstate) (pc0 va : Z) : access -> Prop :=
| access_fetch : va = pc0 -> accesses k pc0 va Fetch
| access_word a v : va <> pc0 -> code_at k 4 pc0 v -> word_access v = Some a ->
    accesses k pc0 va a
| access_half a v : va <> pc0 -> code_at k 2 pc0 v -> 0 <= v < 2 ^ 16 ->
    half_access v = Some a -> accesses k pc0 va a.

Lemma half_access_load v : 0 <= v < 2 ^ 16 ->
  rvc_looks_like_load v = bool_decide (half_access v = Some Load) /\
  (rvc_looks_like_load v = false ->
   rvc_looks_like_store v = bool_decide (half_access v = Some Store)).
Proof using.
  intros Hv. unfold rvc_looks_like_load, rvc_looks_like_store, half_access.
  replace (Z.land v 3) with (v mod 4) by (symmetry; apply (Z.land_ones v 2); lia).
  rewrite Z.shiftr_div_pow2 by lia. cbv zeta. set (x := v / 2 ^ 13). set (y := v mod 4). clearbody x y.
  assert ((y =? 0) || (y =? 2) = bool_decide (y = 0 \/ y = 2)) as ->.
  { destruct (Z.eqb_spec y 0), (Z.eqb_spec y 2); case_bool_decide; done || lia. }
  assert ((x =? 1) || (x =? 2) || (x =? 3) = bool_decide (1 <= x <= 3)) as ->.
  { destruct (Z.eqb_spec x 1), (Z.eqb_spec x 2), (Z.eqb_spec x 3); case_bool_decide; done || lia. }
  assert ((x =? 5) || (x =? 6) || (x =? 7) = bool_decide (5 <= x <= 7)) as ->.
  { destruct (Z.eqb_spec x 5), (Z.eqb_spec x 6), (Z.eqb_spec x 7); case_bool_decide; done || lia. }
  destruct (bool_decide (y = 0 \/ y = 2)); [|done]. cbn [andb].
  destruct (bool_decide (1 <= x <= 3)); [done|]. by destruct (bool_decide (5 <= x <= 7)).
Qed.

Lemma half_access_low v a : half_access v = Some a -> v mod 4 <> 3.
Proof using. unfold half_access. case_bool_decide; [lia|done]. Qed.

Lemma word_access_low v a : word_access v = Some a -> v mod 2 ^ 7 mod 4 = 3.
Proof using.
  unfold word_access, OPCODE_LOAD, OPCODE_STORE, OPCODE_AMO.
  destruct (Z.eqb_spec (v mod 2 ^ 7) 3) as [->|]; [done|].
  destruct (Z.eqb_spec (v mod 2 ^ 7) 0x23) as [->|]; [done|].
  by destruct (Z.eqb_spec (v mod 2 ^ 7) 0x2f) as [->|].
Qed.

Lemma run_fault_cause a va w :
  accesses (w_kern w) (pc (w_regs w)) va a -> fault_cause va w = (inr (pf_cause a), w).
Proof using L.
  unfold fault_cause. rewrite run_bind with (a := pc (w_regs w)) (w' := w) by done.
  intros [->|a' v Hne Hcode Ha|a' v Hne Hcode Hv Ha]; [by rewrite Z.eqb_refl|..];
    rewrite (proj2 (Z.eqb_neq _ _) Hne).
  2: { rewrite run_bind with (a := v mod 2 ^ 8) (w' := w) by (apply (run_load8_code 1); exact Hcode).
    pose proof (half_access_low v a' Ha) as H3. change 3 with (Z.ones 2) at 1. rewrite Z.land_ones by lia.
    rewrite (proj2 (Z.eqb_neq _ 3)) by (Z.div_mod_to_equations; lia). cbn [negb].
    erewrite run_bind by (unfold load16; apply (run_load_code 2 2); [exact Hcode|done]). cbv beta.
    change (2 ^ (8 * Z.of_nat 2)) with (2 ^ 16). rewrite Z.mod_small by done.
    destruct (half_access_load v Hv) as [E1 E2]. rewrite E1 in *.
    case_bool_decide as Hl; [by simplify_eq|]. rewrite E2 by done.
    case_bool_decide as Hs; [by simplify_eq|]. destruct a'; [|done..].
    revert Ha. unfold half_access. by repeat case_bool_decide. }
  rewrite run_bind with (a := v mod 2 ^ 8) (w' := w) by (apply (run_load8_code 3); exact Hcode).
  assert (v mod 2 ^ 8 mod 2 ^ 7 = v mod 2 ^ 7) as Hlow by (Z.div_mod_to_equations; lia).
  change 3 with (Z.ones 2) at 1. change 0x7f with (Z.ones 7).
  rewrite !Z.land_ones, Hlow by lia.
  pose proof (word_access_low v a' Ha) as H3.
  replace (v mod 2 ^ 8 mod 2 ^ 2) with 3 by (Z.div_mod_to_equations; lia).
  cbn [Z.eqb Pos.eqb negb].
  erewrite run_bind by (unfold load32; apply (run_load_code 4 4); [exact Hcode|done]).
  unfold word_access in Ha. destruct (v mod 2 ^ 7 =? OPCODE_LOAD); [by simplify_eq|].
  by destruct (v mod 2 ^ 7 =? OPCODE_STORE), (v mod 2 ^ 7 =? OPCODE_AMO); simplify_eq/=.
Qed.

(** A run that neither takes an interrupt nor flushes keeps the pages. *)
Lemma run_handler_quiet sig info w w2 :
  cfg_mmap_ok (w_kern w) -> handle_signal sig info (entered w) = (inr (), w2) ->
  interrupt_enabled (w_priv w2) = false -> should_clear_vm (w_priv w2) = false ->
  handler sig info w = (inr (), w2 <| w_kern := snd (k_syscall
    (SysMunmap (sr_val (fst (k_syscall cfg_mmap (w_kern w)))) CONF_SIZE) (w_kern w2)) |>).
Proof using.
  intros Hok H2 Hi Hc. unfold handler, s_mmap. fold cfg_mmap.
  set (base := sr_val (fst (k_syscall cfg_mmap (w_kern w)))).
  rewrite run_bind with (a := base) (w' := entered w).
  2: { unfold entered, do_syscall, mbind, M_bind. subst base.
       by destruct (k_syscall cfg_mmap (w_kern w)). }
  rewrite (proj2 (Z.ltb_ge (s64 base) 0) Hok). erewrite run_bind by exact H2.
  rewrite run_bind with (a := ()) (w' := w2).
  2: { unfold take_interrupt. rewrite run_bind with (a := w_priv w2) (w' := w2) by done.
       by rewrite Hi. }
  rewrite run_bind with (a := ()) (w' := w2).
  2: { unfold clear_vm. rewrite run_bind with (a := w_priv w2) (w' := w2) by done.
       by rewrite Hc. }
  unfold s_munmap, do_syscall, mbind, M_bind.
  by destruct (k_syscall (SysMunmap base CONF_SIZE) (w_kern w2)).
Qed.

Lemma entered_pages w : cfg_mmap_ok (w_kern w) ->
  let base := sr_val (fst (k_syscall cfg_mmap (w_kern w))) in
  0 <= base /\ page_aligned base /\ base + CONF_SIZE <= TASK_SIZE /\
  (forall q, k_page (w_kern (entered w)) q =
    mapped base CONF_SIZE (Z.lor PROT_READ PROT_WRITE) CONFIG_FD 0 (k_page (w_kern w)) q) /\
  same_files (w_kern w) (w_kern (entered w)).
Proof using L.
  intros Hok base.
  destruct (law_mmap_null (w_kern w) CONF_SIZE (Z.lor PROT_READ PROT_WRITE) CONFIG_FD 0)
    as [[He _]|(Ha & Hal & Hs & _ & Hm)]; [done..| |].
  - fold cfg_mmap in He. unfold cfg_mmap_ok in Hok. lia.
  - fold cfg_mmap base in Ha, Hal, Hs, Hm. split_and!; try done.
    by apply (law_keeps_files cfg_mmap).
Qed.

Lemma run_handler_stop sig info w st w2 :
  cfg_mmap_ok (w_kern w) -> handle_signal sig info (entered w) = (inl st, w2) ->
  handler sig info w = (inl st, w2).
Proof using.
  intros Hok H2. unfold handler, s_mmap. fold cfg_mmap.
  set (base := sr_val (fst (k_syscall cfg_mmap (w_kern w)))).
  rewrite run_bind with (a := base) (w' := entered w).
  2: { unfold entered, do_syscall, mbind, M_bind. subst base.
       by destruct (k_syscall cfg_mmap (w_kern w)). }
  rewrite (proj2 (Z.ltb_ge (s64 base) 0) Hok). by erewrite run_bind_stop by exact H2.
Qed.

(** The world in which the handler treats a page fault. *)
Definition faulted (w : world) : world :=
  mk_world ((w_priv w) <| counter_segv := u64 (counter_segv (w_priv w) + 1) |>) (w_regs w)
    (w_kern (entered w)).

Lemma run_sigsegv info a w :
  cfg_mmap_ok (w_kern w) -> accesses (w_kern w) (pc (w_regs w)) (si_addr info) a ->
  handle_signal SIGSEGV info (entered w) =
    handle_page_fault (pf_cause a) (si_addr info) (faulted w).
Proof using L.
  intros Hok Hacc.
  assert (accesses (w_kern (faulted w)) (pc (w_regs (faulted w))) (si_addr info) a) as Hacc1.
  { destruct Hacc as [->|a v Hne Hcode Ha|a v Hne Hcode Hv Ha]; [by apply access_fetch|..].
    - apply access_word with v; [done| |done]. by apply code_at_entered.
    - apply access_half with v; [done| |done..]. by apply code_at_entered. }
  unfold handle_signal. change (SIGSEGV =? SIGSYS) with false.
  change (SIGSEGV =? SIGILL) with false. change (SIGSEGV =? SIGALRM) with false.
  change (SIGSEGV =? SIGSEGV) with true. cbn [andb]. unfold handle_sigsegv.
  rewrite run_bind with (a := ()) (w' := faulted w) by done.
  by erewrite run_bind by (apply run_fault_cause; exact Hacc1).
Qed.

(** The end of the handler keeps the page a fault has mapped. *)
Lemma final_page w k1 k2 va pa pte :
  cfg_mmap_ok (w_kern w) -> same_pages (w_kern (entered w)) k1 -> page_mapped k1 k2 va pa pte ->
  k_page (snd (k_syscall (SysMunmap (sr_val (fst (k_syscall cfg_mmap (w_kern w)))) CONF_SIZE) k2))
    (va / PAGE) = Some (mk_vpage RAM_FD (ram_page pa) (pte_prot pte)).
Proof using L.
  intros Hok Hp1 [Hfree Hm]. destruct (entered_pages w Hok) as (Hb & Hal & Hsz & Hpages & _).
  rewrite law_munmap by done. unfold unmapped.
  destruct (in_pages _ CONF_SIZE (va / PAGE)) eqn:E; [|by rewrite Hm, Z.eqb_refl].
  pose proof (Hp1 (va / PAGE)) as H1. rewrite Hfree, Hpages in H1.
  unfold mapped in H1. by rewrite E in H1.
Qed.

(** C12. Demand paging end to end: a SIGSEGV at a load, store, atomic or fetch whose address
    translates to a permitted page of RAM returns with the registers and CSRs untouched
    and that page mapped, so that the retried load reads the byte of RAM the tables
    name; it stops only when Linux was asked for that page and refused. *)
Theorem handler_demand_paging info a pa pte w :
  cfg_mmap_ok (w_kern w) -> csr_wf (w_priv w) -> walkable (entered w) ->
  is_u64 (si_addr info) -> should_clear_vm (w_priv w) = false ->
  isa_timer_enabled (w_priv w) = false ->
  accesses (w_kern w) (pc (w_regs w)) (si_addr info) a ->
  fault_translation w (si_addr info) = TPage pa pte -> in_ram pa = true -> permits a pte = true ->
  (exists w', handler SIGSEGV info w = (inl StopEbreak, w') /\
     page_refused (w_kern w) (w_kern w') (si_addr info) pa pte) \/
  exists k, handler SIGSEGV info w = (inr (), mk_world
      ((w_priv w) <| counter_segv := u64 (counter_segv (w_priv w) + 1) |>) (w_regs w) k) /\
    k_page k (si_addr info / PAGE) = Some (mk_vpage RAM_FD (ram_page pa) (pte_prot pte)) /\
    (pte_r pte = true ->
      k_load k (si_addr info) = Some (k_file (w_kern w) RAM_FD (pa - RAM_START))).
Proof using L.
  intros Hok Hp Hw Hva Hc Hi Hacc Ht Hram Hperm.
  pose proof (run_sigsegv info a w Hok Hacc) as Hsig. set (va := si_addr info) in *.
  destruct (entered_pages w Hok) as (_ & _ & _ & _ & Hfiles).
  assert (fault_translation (faulted w) va = TPage pa pte) as Ht1.
  { unfold fault_translation. rewrite <- Ht. apply code_sv39_ext. intros o. apply Hfiles. }
  pose proof (code_sv39_leaf _ _ _ _ _ (or_introl Ht)) as [Hpa _].
  destruct (run_fault_found (pf_cause a) va pa pte (faulted w) Hw (or_introl Ht1))
    as (k1 & Hp1 & _ & Hc1 & E1). rewrite Hram in E1. rewrite E1 in Hsig.
  assert (calm (w_kern w) (w_kern (entered w))) as Hc0 by (by apply (calm_syscall cfg_mmap)).
  destruct (run_fault_map a va pa pte ((faulted w) <| w_kern := k1 |>) Hva Hpa Hram Hperm)
    as (k2 & Hc2 & [[E2 Hm]|(E2 & _ & e & Hmade & He)]); rewrite E2 in Hsig; [right|left].
  2: { eexists. split; [exact (run_handler_stop _ _ _ _ _ Hok Hsig)|]. exists e.
       split; [|done]. cbn. eapply calm_made; [exact Hc0|]. by eapply calm_made. }
  cbn in Hm, Hc2. pose proof (final_page w k1 k2 va pa pte Hok Hp1 Hm) as Hk3.
  set (base := sr_val _) in *. set (k3 := snd (k_syscall (SysMunmap base CONF_SIZE) k2)) in *.
  exists k3. split; [|split; [exact Hk3|]].
  - rewrite (run_handler_quiet SIGSEGV info w _ Hok Hsig); [done| |exact Hc].
    rewrite interrupt_enabled_isa by (by apply (csr_wf_view (w_priv w)); [intros []|..]).
    exact Hi.
  - intros Hr. assert (calm (w_kern (entered w)) k3) as Hc3.
    { etrans; [exact Hc1|]. rewrite Hc2. by apply (calm_syscall (SysMunmap base CONF_SIZE)). }
    rewrite <- (Hfiles RAM_FD), <- (proj1 Hc3 RAM_FD).
    apply (load_ram_page k3 va pa pte); [done..|].
    exact (same_len _ _ _ _ (proj1 (proj2 Hc3)) (proj2 (proj1 Hw))).
Qed.
End effects.
