(* ===== verification/Arch.v ===== *)
(** * The machine the guest runs on

    The abstract specification of the hypervisor: a RISC-V hart with S- and
    U-mode, Sv39 translation through a TLB, a console behind the SBI and the
    block device.  Every operation is a function on [machine], [astep] the
    step relation, labelled with the input and output it makes.  The
    user-level instructions are a parameter ([UserIsa]): the guest executes
    them on the host's own hart.

    Functions are compared pointwise: [m ≡ m'] is the equality of machines. *)

From stdpp Require Import functions.
From S2P Require Import Prelude Bits State Csr Trap Instr PageWalk PageFault Block.

(** ** State *)

(** A cached translation: the page's offset in RAM, and its permissions. *)
Record entry := mk_entry { en_page : Z; en_r : bool; en_w : bool; en_x : bool }.

Record machine := mk_machine {
  m_mode : mode;
  m_pc : Z;
  m_x : Z -> Z;                  (** x1 to x31; 0 elsewhere *)
  m_csr : csr_id -> Z;
  m_block : Z;                   (** the block device's id and buffer registers *)
  m_buf : Z;
  m_ram : Z -> Z;                (** bytes, by offset *)
  m_disk : Z -> Z;
  m_tlb : Z -> option entry;     (** by virtual page number *)
}.

#[export] Instance eta_machine : Eta machine := fun m =>
  mk_machine (m_mode m) (m_pc m) (m_x m) (m_csr m) (m_block m) (m_buf m) (m_ram m) (m_disk m)
    (m_tlb m).

Record machine_eq (m m' : machine) : Prop := {
  eq_mode : m_mode m = m_mode m';
  eq_pc : m_pc m = m_pc m';
  eq_x : forall i, m_x m i = m_x m' i;
  eq_csr : forall c, m_csr m c = m_csr m' c;
  eq_dev : m_block m = m_block m' /\ m_buf m = m_buf m';
  eq_ram : forall o, m_ram m o = m_ram m' o;
  eq_disk : forall o, m_disk m o = m_disk m' o;
  eq_tlb : forall q, m_tlb m q = m_tlb m' q;
}.

#[export] Instance machine_equiv : Equiv machine := machine_eq.

#[export] Instance machine_equivalence : Equivalence (≡@{machine}).
Proof.
  split.
  - by split.
  - intros m m' [? ? ? ? [? ?] ? ? ?]. by split.
  - intros m m' m'' [H1 H2 H3 H4 [H5 H6] H7 H8 H9] [G1 G2 G3 G4 [G5 G6] G7 G8 G9]. split.
    + by rewrite H1.
    + by rewrite H2.
    + intros i. by rewrite H3.
    + intros c. by rewrite H4.
    + by rewrite H5, H6.
    + intros o. by rewrite H7.
    + intros o. by rewrite H8.
    + intros q. by rewrite H9.
Qed.

(** ** Registers and fields *)

Definition set_x (i v : Z) (m : machine) : machine :=
  m <| m_x := if i =? 0 then m_x m else <[i := v]> (m_x m) |>.

Definition set_csr (c : csr_id) (v : Z) (m : machine) : machine :=
  m <| m_csr := <[c := v]> (m_csr m) |>.

Definition next (n : Z) (m : machine) : machine := m <| m_pc := u64 (m_pc m + n) |>.

Definition put_bit (i : Z) (b : bool) (v : Z) : Z := if b then Z.setbit v i else Z.clearbit v i.

Lemma testbit_put_bit i b v j : 0 <= i -> 0 <= j ->
  Z.testbit (put_bit i b v) j = if j =? i then b else Z.testbit v j.
Proof.
  intros Hi Hj. unfold put_bit. destruct b.
  - rewrite Z.setbit_eqb by done. rewrite (Z.eqb_sym i j). by destruct (Z.eqb_spec j i).
  - rewrite Z.clearbit_eqb, (Z.eqb_sym i j). destruct (Z.eqb_spec j i); by rewrite ?andb_false_r, ?andb_true_r.
Qed.

(** Bits of sstatus and of sip, sie. *)
Definition SIE : Z := 1.
Definition SPIE : Z := 5.
Definition SPP : Z := 8.
Definition STI : Z := 5.

Definition is_s (md : mode) : bool := bool_decide (md = ModeS).

(** ** Traps and returns *)

Definition arch_trap (cause tval : Z) (m : machine) : machine :=
  let s := m_csr m Sstatus in
  m <| m_csr := <[Sepc := m_pc m]> (<[Scause := cause]> (<[Stval := tval]>
         (<[Sstatus := put_bit SIE false (put_bit SPIE (Z.testbit s SIE)
                         (put_bit SPP (is_s (m_mode m)) s))]> (m_csr m)))) |>
    <| m_pc := isa_vector (m_csr m Stvec) cause |>
    <| m_mode := ModeS |>.

Definition arch_sret (m : machine) : machine :=
  let s := m_csr m Sstatus in
  m <| m_csr := <[Sstatus := put_bit SPP false (put_bit SPIE true
                               (put_bit SIE (Z.testbit s SPIE) s))]> (m_csr m) |>
    <| m_pc := m_csr m Sepc |>
    <| m_mode := if Z.testbit s SPP then ModeS else ModeU |>.

Definition timer_pending (m : machine) : bool :=
  Z.testbit (m_csr m Sip) STI && Z.testbit (m_csr m Sie) STI
  && (negb (is_s (m_mode m)) || Z.testbit (m_csr m Sstatus) SIE).

Definition set_timer_pending (b : bool) (m : machine) : machine :=
  set_csr Sip (put_bit STI b (m_csr m Sip)) m.

(** ** Memory *)

Definition flush (m : machine) : machine := m <| m_tlb := fun _ => None |>.

(** The entry of a bare translation: readable, writable, executable. *)
Definition bare_pte : Z := 15.

Definition translate (m : machine) (va : Z) : translation :=
  if m_csr m Satp / 2 ^ 60 =? 8 then sv39 (m_ram m) (m_csr m Satp) va else TPage va bare_pte.

Definition leaf_entry (pa pte : Z) : entry :=
  mk_entry (ram_page pa) (pte_r pte) (pte_w pte) (pte_x pte).

Definition fill (va pa pte : Z) (m : machine) : machine :=
  m <| m_tlb := <[va / 4096 := Some (leaf_entry pa pte)]> (m_tlb m) |>.

Definition en_permits (a : access) (e : entry) : bool :=
  match a with Fetch => en_x e | Load => en_r e | Store => en_w e end.

(** The TLB lets the access through. *)
Definition tlb_permits (m : machine) (a : access) (va : Z) : bool :=
  match m_tlb m (va / 4096) with Some e => en_permits a e | None => false end.

(** The access is a page fault: no leaf, or one that forbids it.  (The
    machine has no U, A and D bits, and no access faults.) *)
Definition faults (a : access) (t : translation) : bool :=
  match t with
  | TFault _ => true
  | TPage pa pte | TSuper pa pte => negb (permits a pte)
  | TAccess => false
  end.

(** The byte of RAM at a virtual address, for an access of kind [a]. *)
Definition mem_byte (m : machine) (a : access) (va : Z) : option Z :=
  match m_tlb m (va / 4096) with
  | Some e => if en_permits a e then Some (m_ram m (en_page e + va mod 4096)) else None
  | None => None
  end.

(** The [n] bytes of [v] are the instruction at the program counter. *)
Definition m_code (m : machine) (n : nat) (v : Z) : Prop :=
  forall i, 0 <= i < Z.of_nat n -> mem_byte m Load (m_pc m + i) = Some (v / 2 ^ (8 * i) mod 2 ^ 8).

(** ** The user-level instructions *)

(** [u_native m m'] is an instruction that needs no supervisor; [u_access m a
    va] says that the instruction at the program counter makes the access
    [a] to [va], [u_illegal m] that the host's U-mode refuses it. *)
Class UserIsa := {
  u_native : machine -> machine -> Prop;
  u_access : machine -> access -> Z -> Prop;
  u_illegal : machine -> Prop;
}.

(** ** Input and output *)

Inductive io :=
| Put (b : Z)                    (** a byte for the console *)
| Get (c : Z)                    (** the result of a read of the console *)
| ReadBlock (offset buf : Z)
| WriteBlock (offset buf : Z).

#[export] Instance io_eq_dec : EqDecision io.
Proof. solve_decision. Defined.

Definition ecall_word : Z := 0x73.

(** Codes of the legacy SBI. *)
Definition sbi_set_timer_id : Z := 0.
Definition sbi_putchar_id : Z := 1.
Definition sbi_getchar_id : Z := 2.
Definition sbi_shutdown_id : Z := 8.
Definition sbi_not_supported : Z := 2 ^ 64 - 2.

(** An SBI call returns [v] in a0. *)
Definition sbi_return (v : Z) (m : machine) : machine := set_x 10 v (next 4 m).

(** ** CSR instructions *)

Definition x_operand (imm : bool) (m : machine) (rs1 : Z) : Z := if imm then rs1 else m_x m rs1.

(** A write of satp that selects a supported mode empties the TLB. *)
Definition satp_switches (c : csr_id) (value : Z) : bool :=
  bool_decide (c = Satp /\ (value / 2 ^ 60 = 8 \/ value / 2 ^ 60 = 0)).

Definition write_csr_arch (c : csr_id) (value new : Z) (m : machine) : machine :=
  let m := set_csr c new m in if satp_switches c value then flush m else m.

(** ** The block device *)

(** What a read of block [m_block m] can have done to RAM: some bytes of the
    buffer, where it is writable, are those of the disk. *)
Definition block_read_into (m : machine) (ram : Z -> Z) : Prop :=
  forall o, ram o = m_ram m o \/
    exists j e, 0 <= j < URVIRT_BLOCK_SIZE /\ m_tlb m ((m_buf m + j) / 4096) = Some e /\
      en_w e = true /\ o = en_page e + (m_buf m + j) mod 4096 /\
      ram o = m_disk m (u64 (URVIRT_BLOCK_SIZE * m_block m) + j).

(** What a write can have done to the disk: some bytes of the block are those
    of the buffer.  What is taken from a page that is not readable is left
    open. *)
Definition block_written (m : machine) (disk : Z -> Z) : Prop :=
  forall o, disk o = m_disk m o \/
    exists j e, 0 <= j < URVIRT_BLOCK_SIZE /\ m_tlb m ((m_buf m + j) / 4096) = Some e /\
      o = u64 (URVIRT_BLOCK_SIZE * m_block m) + j /\
      (en_r e = true -> disk o = m_ram m (en_page e + (m_buf m + j) mod 4096)).

(** A store of [data] to the register at [off]. *)
Inductive device (off data : Z) (m : machine) : list io -> machine -> Prop :=
| dev_id : off = URVIRT_BLOCK_BLOCK_ID -> device off data m [] (m <| m_block := data |>)
| dev_buf : off = URVIRT_BLOCK_BUF -> device off data m [] (m <| m_buf := data |>)
| dev_read ram : off = URVIRT_BLOCK_COMMAND -> data = URVIRT_BLOCK_CMD_READ ->
    block_read_into m ram ->
    device off data m [ReadBlock (u64 (URVIRT_BLOCK_SIZE * m_block m)) (m_buf m)]
      (m <| m_ram := ram |>)
| dev_write disk : off = URVIRT_BLOCK_COMMAND -> data = URVIRT_BLOCK_CMD_WRITE ->
    block_written m disk ->
    device off data m [WriteBlock (u64 (URVIRT_BLOCK_SIZE * m_block m)) (m_buf m)]
      (m <| m_disk := disk |>).

(** ** Steps *)

Section steps.
Context `{U : UserIsa}.

Inductive astep (m : machine) : list io -> machine -> Prop :=
(* the hart *)
| a_native m' : u_native m m' -> astep m [] m'
| a_fill va pa pte :
    m_tlb m (va / 4096) = None -> translate m va = TPage pa pte -> in_ram pa = true ->
    astep m [] (fill va pa pte m)
| a_evict tlb : (forall q, tlb q = m_tlb m q \/ tlb q = None) -> astep m [] (m <| m_tlb := tlb |>)
| a_fault a va :
    u_access m a va -> tlb_permits m a va = false -> faults a (translate m va) = true ->
    astep m [] (arch_trap (pf_cause a) va m)
(* U-mode *)
| a_uecall : m_mode m = ModeU -> m_code m 4 ecall_word -> astep m [] (arch_trap SCAUSE_UECALL 0 m)
| a_uillegal : m_mode m = ModeU -> u_illegal m -> astep m [] (arch_trap SCAUSE_ILLEGAL 0 m)
(* the timer *)
| a_timer : astep m [] (set_timer_pending true m)
| a_interrupt : timer_pending m = true -> astep m [] (arch_trap SCAUSE_TIMER 0 m)
(* S-mode *)
| a_csr o imm c rs1 rd new :
    m_mode m = ModeS -> 0 <= rs1 < 32 -> 0 <= rd < 32 -> m_code m 4 (csr_word o imm c rs1 rd) ->
    let m1 := next 4 (set_x rd (m_csr m c) m) in
    match isa_csr o rs1 (m_csr m c) (x_operand imm m rs1) with
    | Some v => warl c (m_csr m c) v new
    | None => new = m_csr m c
    end ->
    astep m [] match isa_csr o rs1 (m_csr m c) (x_operand imm m rs1) with
               | Some v => write_csr_arch c v new m1
               | None => m1
               end
| a_sret : m_mode m = ModeS -> m_code m 4 sret_word -> astep m [] (arch_sret m)
| a_wfi : m_mode m = ModeS -> m_code m 4 wfi_word -> astep m [] (next 4 m)
| a_sfence rs1 rs2 : m_mode m = ModeS -> 0 <= rs1 < 32 -> 0 <= rs2 < 32 ->
    m_code m 4 (sfence_vma_word rs1 rs2) -> astep m [] (flush (next 4 m))
(* the SBI *)
| a_putchar : m_mode m = ModeS -> m_code m 4 ecall_word -> m_x m 17 = sbi_putchar_id ->
    astep m [Put (m_x m 10 mod 256)] (sbi_return 0 m)
| a_getchar c : m_mode m = ModeS -> m_code m 4 ecall_word -> m_x m 17 = sbi_getchar_id ->
    0 <= c < 256 -> astep m [Get c] (sbi_return c m)
| a_set_timer now : m_mode m = ModeS -> m_code m 4 ecall_word -> m_x m 17 = sbi_set_timer_id ->
    astep m [] (sbi_return 0 (set_timer_pending (m_x m 10 <=? now) m))
| a_unknown : m_mode m = ModeS -> m_code m 4 ecall_word ->
    m_x m 17 ∉ [sbi_set_timer_id; sbi_putchar_id; sbi_getchar_id; sbi_shutdown_id] ->
    astep m [] (sbi_return sbi_not_supported m)
(* the device, to which a pointer in the last table gives access as well;
   where the program counter goes when the block that is read replaces the
   store is left open *)
| a_device n v rs2 va pa pte ios m' pc' :
    m_code m n v -> store_insn n v rs2 -> u_access m Store va ->
    translate m va = TPage pa pte \/ translate m va = TFault (NoLeaf pa pte) -> in_ram pa = false ->
    device (pa - URVIRT_BLOCK) (m_x m rs2) m ios m' ->
    (m_code m' n v -> pc' = u64 (m_pc m + Z.of_nat n)) ->
    astep m ios (m' <| m_pc := pc' |>).

(** Runs, up to the equality of machines. *)
Inductive asteps : machine -> list io -> machine -> Prop :=
| asteps_refl m m' : m ≡ m' -> asteps m [] m'
| asteps_step m m1 m2 m3 ios ios' :
    m ≡ m1 -> astep m1 ios m2 -> asteps m2 ios' m3 -> asteps m (ios ++ ios') m3.

#[export] Instance asteps_proper : Proper ((≡) ==> (=) ==> (≡) ==> iff) asteps.
Proof using.
  assert (forall m ios m', asteps m ios m' -> forall n n', m ≡ n -> m' ≡ n' -> asteps n ios n') as H.
  { induction 1 as [m m' E|m m1 m2 m3 ios ios' E Hs _ IH]; intros n n' Hn Hn'.
    - apply asteps_refl. by rewrite <- Hn, E.
    - apply (asteps_step n m1 m2); [by rewrite <- Hn|exact Hs|]. by apply IH. }
  intros m n Hm ios _ <- m' n' Hm'. split; intros Hs; by eapply H.
Qed.

Lemma asteps_trans m1 m2 m3 ios ios' :
  asteps m1 ios m2 -> asteps m2 ios' m3 -> asteps m1 (ios ++ ios') m3.
Proof using.
  induction 1 as [m m' E|m n1 n2 n3 l l' E Hs _ IH]; intros H; [by rewrite E|].
  rewrite <- app_assoc. eapply asteps_step; [exact E|exact Hs|]. by apply IH.
Qed.

Lemma asteps_once m ios m' : astep m ios m' -> asteps m ios m'.
Proof using.
  intros H. rewrite <- (app_nil_r ios). eapply asteps_step; [reflexivity|exact H|].
  by apply asteps_refl.
Qed.
End steps.
