(* ===== verification/Ecall.v ===== *)
(** * SBI calls end to end

    An ecall of the S-mode guest, from the signal to the return of the
    handler: the call is made with the guest's registers, its result is in a0,
    and the interrupt the call may have caused is delivered. *)

From S2P Require Import Prelude Bits State Machine Hoare Csr Trap Instr Linux PageWalk Printf.
From S2P Require Import Console PageFault Sbi Handler Guest Isolation Hypervisor.

Section ecall.
Context {K : Kernel} {V : KernelView K} {L : KernelLaws K V}.

(** The registers and the CSRs of the guest when the call is made. *)
Definition calling_regs (info : siginfo) (r : gregs) : gregs := set_reg r 17 (u64 (si_syscall info)).
Definition calling_priv (p : priv_state) : priv_state :=
  p <| counter_secall := u64 (counter_secall p + 1) |>.

Lemma run_sigsys_s info w :
  priv_mode (w_priv w) = PRIV_S -> reg (w_regs w) 10 <> MAGIC_ECALL ->
  handle_signal SIGSYS info (entered w) =
    (ret ← handle_legacy_sbi_call (u64 (si_syscall info)) (reg (w_regs w) 10)
       (reg (w_regs w) 11) (reg (w_regs w) 12); put_reg 10 ret)
    (mk_world (calling_priv (w_priv w)) (calling_regs info (w_regs w)) (w_kern (entered w))).
Proof using.
  intros Hm Ha. set (r1 := calling_regs info (w_regs w)). set (w1 := (entered w) <| w_regs := r1 |>).
  assert (forall i, i <> 17 -> 0 <= i -> reg r1 i = reg (w_regs w) i) as Hr.
  { intros i Hi H0. apply reg_set_reg_ne; lia. }
  unfold handle_signal. change (SIGSYS =? SIGSYS) with true. cbv iota. unfold handle_sigsys. cbv zeta.
  rewrite run_bind with (a := ()) (w' := w1) by done.
  rewrite run_bind with (a := reg r1 10) (w' := w1) by done.
  rewrite Hr, (proj2 (Z.eqb_neq _ _) Ha) by lia. cbv iota.
  rewrite run_bind with (a := ()) (w' := w1) by done.
  rewrite run_bind with (a := w_priv w) (w' := w1) by done.
  rewrite Hm. change (PRIV_S =? PRIV_S) with true. cbv iota.
  set (w2 := mk_world (calling_priv (w_priv w)) r1 (w_kern (entered w))).
  rewrite run_bind with (a := ()) (w' := w2) by done.
  rewrite run_bind with (a := reg r1 10) (w' := w2) by done.
  rewrite run_bind with (a := reg r1 11) (w' := w2) by done.
  rewrite run_bind with (a := reg r1 12) (w' := w2) by done.
  by rewrite !Hr by lia.
Qed.

Lemma calling_wf p : csr_wf p -> csr_wf (calling_priv p).
Proof using. intros Hp. by apply (csr_wf_view p); [intros []|..]. Qed.

(** C16. A console putchar of the S-mode guest costs exactly three system calls, the mapping
    of the configuration, the write of the low byte of a0 to standard output and the
    unmapping, and changes no register but a0 and a7 and no CSR. *)
Theorem handler_putchar info w :
  cfg_mmap_ok (w_kern w) -> csr_wf (w_priv w) -> priv_mode (w_priv w) = PRIV_S ->
  u64 (si_syscall info) = SBI_CONSOLE_PUTCHAR -> reg (w_regs w) 10 <> MAGIC_ECALL ->
  isa_timer_enabled (w_priv w) = false -> should_clear_vm (w_priv w) = false ->
  let '(mapped, k1) := k_syscall cfg_mmap (w_kern w) in
  let '(_, k2) := k_syscall (SysWrite 1 [u8 (reg (w_regs w) 10)]) k1 in
  let '(_, k3) := k_syscall (SysMunmap (sr_val mapped) CONF_SIZE) k2 in
  handler SIGSYS info w = (inr (), mk_world (calling_priv (w_priv w))
    (set_reg (set_reg (w_regs w) 17 SBI_CONSOLE_PUTCHAR) 10 0) k3).
Proof using L.
  intros Hok Hp Hm Hw Ha Hi Hc. pose proof (run_sigsys_s info w Hm Ha) as H. rewrite Hw in H.
  pose proof (run_sbi_call SBI_CONSOLE_PUTCHAR (reg (w_regs w) 10) (reg (w_regs w) 11)
    (reg (w_regs w) 12) (mk_world (calling_priv (w_priv w)) (calling_regs info (w_regs w))
    (w_kern (entered w)))) as Hs.
  cbn zeta in Hs. change (SBI_CONSOLE_PUTCHAR =? SBI_CONSOLE_PUTCHAR) with true in Hs. cbv iota in Hs.
  erewrite run_bind in H by (apply Hs; discriminate).
  rewrite (run_handler_quiet SIGSYS info w _ Hok H); cbn [w_priv w_regs w_kern]; [|..].
  - unfold calling_regs, entered. rewrite Hw. cbn.
    destruct (k_syscall cfg_mmap (w_kern w)) as [mapped k1]. cbn.
    destruct (k_syscall (SysWrite 1 _) k1) as [r2 k2]. cbn.
    by destruct (k_syscall (SysMunmap _ _) k2).
  - change (interrupt_enabled (calling_priv (w_priv w)) = false).
    rewrite interrupt_enabled_isa by by apply calling_wf. exact Hi.
  - exact Hc.
Qed.

(** C17. A set_timer call of the S-mode guest makes the timer interrupt pending exactly when
    the deadline has passed, and when it is enabled delivers it before the guest
    resumes; a0 is 0 and the other registers are untouched. *)
Theorem handler_set_timer info w :
  cfg_mmap_ok (w_kern w) -> csr_wf (w_priv w) -> gregs_wf (w_regs w) ->
  priv_mode (w_priv w) = PRIV_S -> u64 (si_syscall info) = SBI_SET_TIMER ->
  let deadline := reg (w_regs w) 10 in
  deadline <> MAGIC_ECALL ->
  let due := deadline <=? k_time (snd (k_syscall cfg_mmap (w_kern w))) in
  let h := hart_of (w_priv w) (w_regs w) in
  exists p' r' k, handler SIGSYS info w = (inr (), mk_world p' r' k) /\
    Z.testbit (sip p') 5 = due /\
    hart_of p' r' =
      (if due && Z.testbit (sie (w_priv w)) 5 && Z.testbit (sstatus (w_priv w)) 1
       then isa_trap SCAUSE_TIMER 0 h else h) /\
    reg r' 10 = 0 /\ (forall i, 1 <= i < 32 -> i <> 10 -> i <> 17 -> reg r' i = reg (w_regs w) i).
Proof using L.
  intros Hok Hp Hr Hm Hw deadline Ha due h. pose proof (run_sigsys_s info w Hm Ha) as H.
  rewrite Hw in H. set (p0 := calling_priv (w_priv w)) in *.
  set (r0 := calling_regs info (w_regs w)) in *. set (w0 := mk_world p0 r0 _) in *.
  destruct (run_sbi_set_timer deadline w0) as (k2 & _ & _ & E). cbn [w_priv w_regs w_kern w0] in E.
  change (handle_legacy_sbi_call SBI_SET_TIMER deadline ?a ?b) with (sbi_set_timer deadline) in H.
  fold deadline in H. erewrite run_bind in H by exact E. set (p1 := set_sti due p0) in *.
  match type of H with _ = put_reg 10 0 (mk_world _ _ ?k) =>
    change (handle_signal SIGSYS info (entered w) = (inr (), mk_world p1 (set_reg r0 10 0) k)) in H end.
  assert (csr_wf p1) as Hp1 by by apply set_sti_wf, calling_wf.
  assert (gregs_wf (set_reg r0 10 0)) as Hr1.
  { apply set_reg_wf; [|by vm_compute]. apply set_reg_wf; [done|apply u64_range]. }
  destruct (run_handler SIGSYS info w _ Hok H) as [k Hh]. cbn [w_priv w_regs] in Hh.
  assert (Z.testbit (sip p1) 5 = due) as Hbit.
  { pose proof (truthy_bit 5 (sip p1) ltac:(lia)) as Ht. fold (get_six_sti (sip p1)) in Ht.
    rewrite <- Ht. unfold p1. rewrite get_set_sti by exact (wf_words _ Hp Sip).
    clear. by destruct due. }
  eexists _, _, k. split; [exact Hh|]. split; [|split; [|split]].
  - unfold after_interrupt. destruct (interrupt_enabled p1); exact Hbit.
  - pose proof (after_interrupt_hart p1 (set_reg r0 10 0) Hp1 Hr1) as Hh1.
    unfold isa_timer_enabled in Hh1. rewrite Hbit in Hh1.
    change (priv_mode p1) with (priv_mode (w_priv w)) in Hh1. rewrite Hm in Hh1.
    change (bool_decide (mode_of PRIV_S = ModeU)) with false in Hh1. rewrite orb_false_l in Hh1.
    assert (hart_of p1 (set_reg r0 10 0) = h) as E0.
    { unfold h, hart_of, pc, r0, calling_regs. by rewrite !reg_set_reg_ne by lia. }
    rewrite E0 in Hh1. exact Hh1.
  - rewrite after_interrupt_regs by lia. apply reg_set_reg.
    unfold r0, calling_regs. rewrite length_set_reg. destruct Hr as [-> _]. lia.
  - intros i Hi H10 H17. rewrite after_interrupt_regs by lia.
    rewrite reg_set_reg_ne by lia. apply reg_set_reg_ne; lia.
Qed.
End ecall.
