(* ===== verification/Refine.v ===== *)
(** * What the guest sees of a world

    [view] is the machine ([Arch]) a state of the process stands for: the
    saved registers, the CSRs of the hypervisor's state, the bytes of the RAM
    and disk files, and, as its TLB, the mappings outside the stub.  The
    lemmas say what the operations of the handler are on that machine. *)

From stdpp Require Import functions.
From S2P Require Import Prelude Bits State Machine Hoare Csr Trap Instr Linux PageWalk Printf.
From S2P Require Import Console PageFault Block Sbi Handler Guest Isolation Hypervisor Arch Ecall.

#[local] Arguments put_bit : simpl never.
#[local] Arguments Z.testbit : simpl never.
#[local] Arguments Z.eqb : simpl nomatch.

Section view.
Context {K : Kernel} {V : KernelView K} {L : KernelLaws K V}.

(** Pages of the user address space outside the stub. *)
Definition user_page (p : priv_state) (q : Z) : bool :=
  (0 <=? q) && (q <? TASK_SIZE / PAGE) && negb (stub_page p q).

Definition executable (g : vpage) : bool := truthy (Z.land (vp_prot g) PROT_EXEC).

Definition entry_of (g : vpage) : entry :=
  mk_entry (vp_off g) (readable g) (writable g) (executable g).

Definition tlb_of (p : priv_state) (k : kstate) (q : Z) : option entry :=
  if user_page p q then entry_of <$> k_page k q else None.

Definition xregs (r : gregs) (i : Z) : Z := if bool_decide (1 <= i < 32) then reg r i else 0.

Definition view (w : world) : machine :=
  mk_machine (mode_of (priv_mode (w_priv w))) (pc (w_regs w)) (xregs (w_regs w))
    (csr_view (w_priv w)) (urvb_block_id (w_priv w)) (urvb_buf (w_priv w))
    (k_file (w_kern w) RAM_FD) (k_file (w_kern w) BLOCK_FD) (tlb_of (w_priv w) (w_kern w)).

(** ** Registers *)

Lemma xregs_set_x r i v j :
  length r = 32%nat -> 0 <= i < 32 ->
  xregs (set_xreg r i v) j = (if i =? 0 then xregs r else <[i := v]> (xregs r)) j.
Proof using.
  intros Hl Hi. unfold set_xreg. destruct (Z.eqb_spec i 0); [done|]. unfold xregs.
  destruct (decide (i = j)) as [<-|Hne].
  - rewrite fn_lookup_insert, bool_decide_true by lia. apply reg_set_reg. lia.
  - rewrite fn_lookup_insert_ne by done. case_bool_decide; [|done]. apply reg_set_reg_ne; lia.
Qed.

Lemma xregs_set_pc r v j : xregs (set_reg r 0 v) j = xregs r j.
Proof using. unfold xregs. case_bool_decide; [|done]. apply set_pc_frame. lia. Qed.

Lemma xregs_xreg r i : 0 <= i < 32 -> xregs r i = xreg r i.
Proof using.
  intros Hi. unfold xregs, xreg. destruct (Z.eqb_spec i 0) as [->|]; [done|].
  by rewrite bool_decide_true by lia.
Qed.

(** ** Status bits *)

Lemma get_bit_testbit s d : 0 <= s -> (bf_get s 1 d =? 0) = negb (Z.testbit d s).
Proof using.
  intros Hs. pose proof (truthy_bit s d Hs) as H. unfold truthy in H.
  rewrite <- H. by rewrite negb_involutive.
Qed.

Lemma testbit_bit01 s d : 0 <= s -> Z.testbit d s = (bf_get s 1 d =? 1).
Proof using.
  intros Hs. pose proof (get_bit_testbit s d Hs) as H.
  destruct (bf_get_1_cases s d Hs) as [E|E]; rewrite E in *; cbn in *; by destruct (Z.testbit d s).
Qed.

(** Two words that agree on the bits a trap changes and on all the others. *)
Lemma sstatus_ext s s' :
  is_u64 s -> is_u64 s' ->
  Z.testbit s SIE = Z.testbit s' SIE -> Z.testbit s SPIE = Z.testbit s' SPIE ->
  Z.testbit s SPP = Z.testbit s' SPP ->
  (forall i, 0 <= i < 64 -> i <> 1 -> i <> 5 -> i <> 8 -> Z.testbit s i = Z.testbit s' i) -> s = s'.
Proof using.
  intros Hs Hs' H1 H5 H8 Hf. apply Z.bits_inj'. intros i Hi. unfold SIE, SPIE, SPP in *.
  destruct (Z.ltb_spec i 64) as [Hlt|]; [|by rewrite !is_u64_high].
  destruct (Z.eq_dec i 1) as [->|]; [done|]. destruct (Z.eq_dec i 5) as [->|]; [done|].
  destruct (Z.eq_dec i 8) as [->|]; [done|]. by apply Hf.
Qed.

Lemma put_bit_u64 i b v : 0 <= i < 64 -> is_u64 v -> is_u64 (put_bit i b v).
Proof using.
  intros Hi Hv. assert (is_u64 (2 ^ i)) as Hp.
  { split; [apply Z.pow_nonneg; lia|apply Z.pow_lt_mono_r; lia]. }
  unfold put_bit. rewrite Z.setbit_spec', Z.clearbit_spec', <- land_not64 by done.
  destruct b; auto with words.
Qed.

#[local] Ltac field_bits := unfold SIE, SPIE, SPP; rewrite !testbit_put_bit by done; cbn;
  rewrite ?testbit_bit01 by done;
  repeat match goal with
  | |- context [bf_get 1 1 ?s] => change (bf_get 1 1 s) with (get_sstatus_sie s)
  | |- context [bf_get 5 1 ?s] => change (bf_get 5 1 s) with (get_sstatus_spie s)
  | |- context [bf_get 8 1 ?s] => change (bf_get 8 1 s) with (get_sstatus_spp s)
  end.

Lemma trap_sstatus_spec md s : is_u64 s -> md = PRIV_U \/ md = PRIV_S ->
  trap_sstatus md s =
    put_bit SIE false (put_bit SPIE (Z.testbit s SIE) (put_bit SPP (is_s (mode_of md)) s)).
Proof using.
  intros Hs Hm. apply sstatus_ext.
  - by apply trap_sstatus_u64.
  - by repeat apply put_bit_u64.
  - field_bits. by rewrite trap_sstatus_sie.
  - field_bits. by rewrite trap_sstatus_spie.
  - field_bits. rewrite trap_sstatus_spp by done. by destruct Hm as [-> | ->].
  - intros i Hi H1 H5 H8. rewrite trap_sstatus_frame by done.
    unfold SIE, SPIE, SPP. rewrite !testbit_put_bit by lia.
    by rewrite !(proj2 (Z.eqb_neq i _)) by done.
Qed.

Lemma sret_sstatus_spec s : is_u64 s ->
  sret_sstatus s = put_bit SPP false (put_bit SPIE true (put_bit SIE (Z.testbit s SPIE) s)).
Proof using.
  intros Hs. apply sstatus_ext.
  - by apply sret_sstatus_u64.
  - by repeat apply put_bit_u64.
  - field_bits. by rewrite sret_sstatus_sie.
  - field_bits. by rewrite sret_sstatus_spie.
  - field_bits. by rewrite sret_sstatus_spp.
  - intros i Hi H1 H5 H8. rewrite sret_sstatus_frame by done.
    unfold SIE, SPIE, SPP. rewrite !testbit_put_bit by lia.
    by rewrite !(proj2 (Z.eqb_neq i _)) by done.
Qed.

(** The machine depends on the kernel state through the files and the pages
    of the guest only. *)
Lemma view_kern p r k k' :
  (forall q, user_page p q = true -> k_page k' q = k_page k q) ->
  (forall o, k_file k' RAM_FD o = k_file k RAM_FD o) ->
  (forall o, k_file k' BLOCK_FD o = k_file k BLOCK_FD o) ->
  view (mk_world p r k') ≡ view (mk_world p r k).
Proof using.
  intros Hp Hr Hd. split; try done. intros q. cbn. unfold tlb_of.
  destruct (user_page p q) eqn:E; [|done]. by rewrite Hp.
Qed.

(** Fields of the hypervisor's state that are no part of the machine. *)
Lemma view_priv p p' r k :
  (forall c, csr_view p' c = csr_view p c) -> priv_mode p' = priv_mode p ->
  stub_start p' = stub_start p -> stub_size p' = stub_size p ->
  urvb_block_id p' = urvb_block_id p -> urvb_buf p' = urvb_buf p ->
  view (mk_world p' r k) ≡ view (mk_world p r k).
Proof using.
  intros Hc Hm H1 H2 H3 H4. split; cbn; try done; [by rewrite Hm|].
  intros q. unfold tlb_of, user_page, stub_page. by rewrite H1, H2.
Qed.

(** ** Operations *)

Lemma csr_insert_ne (f : csr_id -> Z) c v d : c <> d -> <[c := v]> f d = f d.
Proof using. apply fn_lookup_insert_ne. Qed.

Lemma view_trap cause tval p r k :
  is_u64 cause -> csr_wf p -> gregs_wf r ->
  view (mk_world (trap_priv cause tval (pc r) p) (set_reg r 0 (trap_target p cause)) k)
    ≡ arch_trap cause tval (view (mk_world p r k)).
Proof using.
  intros Hc Hp Hr. pose proof (wf_words _ Hp Sstatus) as Hs. cbn in Hs. split; cbn; try done.
  - rewrite pc_set_reg by (rewrite (proj1 Hr); lia).
    apply trap_target_isa; [apply (wf_words _ Hp Stvec)|done|apply (wf_stvec _ Hp)].
  - intros i. apply xregs_set_pc.
  - intros c. destruct c; rewrite ?csr_insert_ne, ?fn_lookup_insert by done; try done. cbn.
    apply trap_sstatus_spec; [done|apply (wf_mode _ Hp)].
Qed.

Lemma view_sret p r k :
  csr_wf p -> gregs_wf r ->
  view (mk_world (sret_priv p) (set_reg r 0 (sepc p)) k) ≡ arch_sret (view (mk_world p r k)).
Proof using.
  intros Hp Hr. pose proof (wf_words _ Hp Sstatus) as Hs. cbn in Hs. split; cbn; try done.
  - unfold get_sstatus_spp, SSTATUS_SPP_U. rewrite get_bit_testbit by done. unfold SPP.
    by destruct (Z.testbit (sstatus p) 8).
  - by rewrite pc_set_reg by (rewrite (proj1 Hr); lia).
  - intros i. apply xregs_set_pc.
  - intros c. destruct c; rewrite ?csr_insert_ne, ?fn_lookup_insert by done; try done. cbn.
    by apply sret_sstatus_spec.
Qed.

Lemma view_next n p r k :
  gregs_wf r ->
  view (mk_world p (set_reg r 0 (u64 (pc r + n))) k) ≡ next n (view (mk_world p r k)).
Proof using.
  intros Hr. split; cbn; try done.
  - by rewrite pc_set_reg by (rewrite (proj1 Hr); lia).
  - intros i. apply xregs_set_pc.
Qed.

Lemma view_set_x i v p r k :
  gregs_wf r -> 0 <= i < 32 ->
  view (mk_world p (set_xreg r i v) k) ≡ set_x i v (view (mk_world p r k)).
Proof using.
  intros Hr Hi. split; cbn; try done.
  - apply pc_set_xreg. lia.
  - intros j. rewrite xregs_set_x by (apply Hr || done). done.
Qed.

Lemma set_sti_spec b p : csr_wf p -> sip (set_sti b p) = put_bit STI b (sip p).
Proof using.
  intros Hp. pose proof (wf_words _ Hp Sip) as Hs. cbn in Hs.
  pose proof (wf_words _ (set_sti_wf b p Hp) Sip) as Hs'. change (is_u64 (sip (set_sti b p))) in Hs'.
  apply Z.bits_inj'. intros i Hi.
  destruct (Z.ltb_spec i 64); [|by rewrite !is_u64_high by (done || by apply put_bit_u64)].
  unfold STI. rewrite testbit_put_bit by lia. destruct (Z.eqb_spec i 5) as [->|].
  - rewrite testbit_bit01 by done. fold (get_six_sti (sip (set_sti b p))).
    rewrite get_set_sti by done. by destruct b.
  - by apply set_sti_other.
Qed.

Lemma view_set_sti b p r k :
  csr_wf p -> view (mk_world (set_sti b p) r k) ≡ set_timer_pending b (view (mk_world p r k)).
Proof using.
  intros Hp. split; try done. intros c.
  change (csr_view (set_sti b p) c = <[Sip := put_bit STI b (sip p)]> (csr_view p) c).
  rewrite <- set_sti_spec by done. by destruct c.
Qed.

(** Machines with the same functions have the same operations. *)
#[export] Instance next_proper n : Proper ((≡) ==> (≡)) (next n).
Proof using. intros m m' []. split; cbn; try done. congruence. Qed.

#[export] Instance set_x_proper i v : Proper ((≡) ==> (≡)) (set_x i v).
Proof using.
  intros m m' [E1 E2 E3 E4 E5 E6 E7 E8]. split; cbn; try done.
  intros j. destruct (i =? 0); [apply E3|]. destruct (decide (i = j)) as [<-|].
  - by rewrite !fn_lookup_insert.
  - by rewrite !fn_lookup_insert_ne.
Qed.

#[export] Instance set_csr_proper c v : Proper ((≡) ==> (≡)) (set_csr c v).
Proof using.
  intros m m' [E1 E2 E3 E4 E5 E6 E7 E8]. split; cbn; try done.
  intros d. destruct (decide (c = d)) as [<-|].
  - by rewrite !fn_lookup_insert.
  - by rewrite !fn_lookup_insert_ne.
Qed.

#[export] Instance flush_proper : Proper ((≡) ==> (≡)) flush.
Proof using. intros m m' []. by split. Qed.

#[export] Instance set_timer_pending_proper b : Proper ((≡) ==> (≡)) (set_timer_pending b).
Proof using. intros m m' H. unfold set_timer_pending. rewrite (eq_csr _ _ H Sip). by rewrite H. Qed.

#[export] Instance arch_trap_proper cause tval : Proper ((≡) ==> (≡)) (arch_trap cause tval).
Proof using.
  intros m m' [E1 E2 E3 E4 E5 E6 E7 E8]. split; cbn; try done.
  - by rewrite E4.
  - intros c. destruct c; rewrite ?csr_insert_ne, ?fn_lookup_insert by done; try done.
    by rewrite E1, E4.
Qed.

#[export] Instance arch_sret_proper : Proper ((≡) ==> (≡)) arch_sret.
Proof using.
  intros m m' [E1 E2 E3 E4 E5 E6 E7 E8]. split; cbn; try done.
  - by rewrite E4.
  - intros c. destruct c; rewrite ?csr_insert_ne, ?fn_lookup_insert by done; try done. by rewrite E4.
Qed.

(** ** The frame of the handler

    Around the signal's own work the handler maps and unmaps the
    configuration, takes a pending interrupt and flushes. *)

Lemma calm_take_interrupt k0 : stable (on_kern (calm k0)) take_interrupt.
Proof using L. unfold take_interrupt, enter_trap. stable_auto. Qed.

Lemma calm_clear_vm k0 : stable (on_kern (calm k0)) clear_vm.
Proof using L. unfold clear_vm. stable_auto. Qed.

Definition cfg_base (w : world) : Z := sr_val (fst (k_syscall cfg_mmap (w_kern w))).

(** The configuration is unmapped. *)
Definition cfg_unmap (w : world) (k : kstate) : kstate :=
  snd (k_syscall (SysMunmap (cfg_base w) CONF_SIZE) k).

Lemma cfg_mmap_free w : cfg_mmap_ok (w_kern w) ->
  0 <= cfg_base w /\ page_aligned (cfg_base w) /\ cfg_base w + CONF_SIZE <= TASK_SIZE /\
  (forall q, in_pages (cfg_base w) CONF_SIZE q = true -> k_page (w_kern w) q = None) /\
  (forall q, k_page (w_kern (entered w)) q =
    mapped (cfg_base w) CONF_SIZE (Z.lor PROT_READ PROT_WRITE) CONFIG_FD 0 (k_page (w_kern w)) q).
Proof using L.
  intros Hok.
  destruct (law_mmap_null (w_kern w) CONF_SIZE (Z.lor PROT_READ PROT_WRITE) CONFIG_FD 0)
    as [[He _]|H]; [done..| |].
  - fold cfg_mmap in He. unfold cfg_mmap_ok in Hok. lia.
  - fold cfg_mmap in H. tauto.
Qed.

Lemma cfg_unmap_pages w k q : cfg_mmap_ok (w_kern w) ->
  k_page (cfg_unmap w k) q = unmapped (cfg_base w) CONF_SIZE (k_page k) q.
Proof using L.
  intros Hok. destruct (cfg_mmap_free w Hok) as (H0 & Ha & Hs & _). by apply law_munmap.
Qed.

(** A page that has not changed around the configuration. *)
Lemma cfg_unmap_page w k q : cfg_mmap_ok (w_kern w) ->
  k_page k q = k_page (w_kern (entered w)) q -> k_page (cfg_unmap w k) q = k_page (w_kern w) q.
Proof using L.
  intros Hok Hk. destruct (cfg_mmap_free w Hok) as (_ & _ & _ & Hfree & Hm).
  rewrite cfg_unmap_pages by done. unfold unmapped. rewrite Hk, Hm. unfold mapped.
  destruct (in_pages _ CONF_SIZE q) eqn:E; [by rewrite Hfree|done].
Qed.

Lemma cfg_unmap_same w k : cfg_mmap_ok (w_kern w) ->
  same_pages (w_kern (entered w)) k -> same_pages (w_kern w) (cfg_unmap w k).
Proof using L. intros Hok Hk q. by apply cfg_unmap_page. Qed.

(** The pages of the guest are there while the configuration is mapped. *)
Lemma entered_page w q g : cfg_mmap_ok (w_kern w) ->
  k_page (w_kern w) q = Some g -> k_page (w_kern (entered w)) q = Some g.
Proof using L.
  intros Hok Hg. destruct (cfg_mmap_free w Hok) as (_ & _ & _ & Hfree & Hm).
  rewrite Hm. unfold mapped. destruct (in_pages _ CONF_SIZE q) eqn:E; [by rewrite Hfree in Hg|done].
Qed.

Lemma entered_free w q : cfg_mmap_ok (w_kern w) ->
  k_page (w_kern (entered w)) q = None ->
  k_page (w_kern w) q = None /\ in_pages (cfg_base w) CONF_SIZE q = false.
Proof using L.
  intros Hok Hq. destruct (cfg_mmap_free w Hok) as (_ & _ & _ & _ & Hm).
  rewrite Hm in Hq. unfold mapped in Hq. by destruct (in_pages _ CONF_SIZE q).
Qed.

Lemma cfg_unmap_files w k : same_files k (cfg_unmap w k).
Proof using L. by apply law_keeps_files. Qed.

Lemma entered_files w : same_files (w_kern w) (w_kern (entered w)).
Proof using L. by apply (law_keeps_files cfg_mmap). Qed.

Lemma entered_calm w : calm (w_kern w) (w_kern (entered w)).
Proof using L. by apply (calm_syscall cfg_mmap). Qed.

(** The end of a run: a pending interrupt is taken, and the TLB is emptied
    after a trap or when [clear] asks for it. *)
Definition fin (clear : bool) (m : machine) : machine :=
  if timer_pending m then flush (arch_trap SCAUSE_TIMER 0 m)
  else if clear then flush m else m.

Lemma timer_pending_view p r k :
  csr_wf p -> timer_pending (view (mk_world p r k)) = interrupt_enabled p.
Proof using.
  intros Hp. rewrite interrupt_enabled_isa by done. unfold timer_pending, isa_timer_enabled. cbn.
  unfold STI, SIE, is_s. by destruct (mode_of (priv_mode p)).
Qed.

#[export] Instance fin_proper clear : Proper ((≡) ==> (≡)) (fin clear).
Proof using.
  intros m m' H. unfold fin, timer_pending. rewrite !(eq_csr _ _ H), (eq_mode _ _ H).
  destruct (_ && _); [by rewrite H|]. destruct clear; [by rewrite H|done].
Qed.

Lemma run_clear_vm_frame w w' : clear_vm w = (inr (), w') ->
  same_files (w_kern w) (w_kern w') /\
  (should_clear_vm (w_priv w) = false -> w_kern w' = w_kern w).
Proof using L.
  unfold clear_vm. rewrite run_bind with (a := w_priv w) (w' := w) by done.
  destruct (should_clear_vm (w_priv w)); [|by intros [= <-]].
  unfold s_munmap, do_syscall, mbind, M_bind. cbn.
  set (c1 := SysMunmap 0 _). set (c2 := SysMunmap _ _).
  pose proof (law_keeps_files c1 (w_kern w) eq_refl) as H1.
  destruct (k_syscall c1 (w_kern w)) as [r1 k1].
  pose proof (law_keeps_files c2 k1 eq_refl) as H2. cbn in *.
  destruct (k_syscall c2 k1) as [r2 k2]. intros [= <-]. cbn in *. split; [|done].
  intros fd o. by rewrite (H2 _ _), (H1 _ _).
Qed.

(** After the flush, in a kernel whose pages and files are those of [k2]. *)
Lemma view_clear_vm w p r k2 k3 k4 :
  cfg_mmap_ok (w_kern w) -> stub_ok p ->
  clear_vm (mk_world p r k3) = (inr (), mk_world (p <| should_clear_vm := false |>) r k4) ->
  same_pages k2 k3 -> same_files k2 k3 ->
  view (mk_world (p <| should_clear_vm := false |>) r (cfg_unmap w k4)) ≡
    (if should_clear_vm p then flush else id) (view (mk_world p r (cfg_unmap w k2))).
Proof using L.
  intros Hok Hstub H Hp Hf. destruct (run_clear_vm_frame _ _ H) as [Hf4 Hk4]. cbn in Hf4, Hk4.
  rewrite (view_priv p) by (done || by intros []).
  assert (forall fd o, k_file (cfg_unmap w k4) fd o = k_file (cfg_unmap w k2) fd o) as Hfiles.
  { intros fd o. by rewrite !(cfg_unmap_files _ _ _ _), (Hf4 _ _), (Hf _ _). }
  destruct (should_clear_vm p) eqn:E.
  - split; cbn; try done. intros q. unfold tlb_of. destruct (user_page p q) eqn:Eq; [|done].
    rewrite cfg_unmap_pages by done. unfold unmapped. destruct (in_pages _ CONF_SIZE q); [done|].
    unfold user_page in Eq. rewrite !andb_true_iff, Z.leb_le, Z.ltb_lt, negb_true_iff in Eq.
    pose proof (clear_vm_flushes (mk_world p r k3) _ q Hstub E H ltac:(tauto) ltac:(tauto)) as Hnone.
    cbn in Hnone. by rewrite Hnone.
  - apply view_kern; [|done..]. intros q _. rewrite !cfg_unmap_pages by done.
    unfold unmapped. by rewrite Hk4, (Hp _).
Qed.

Lemma stub_ok_fields p p' :
  stub_start p' = stub_start p -> stub_size p' = stub_size p -> stub_ok p -> stub_ok p'.
Proof using. unfold stub_ok. by intros -> ->. Qed.

Lemma handler_frame sig info w w' :
  is_u64 (si_addr info) -> csr_wf (w_priv w) -> gregs_wf (w_regs w) -> stub_ok (w_priv w) ->
  handler sig info w = (inr (), w') ->
  cfg_mmap_ok (w_kern w) /\ exists w2, handle_signal sig info (entered w) = (inr (), w2) /\
    guest_inv (w_priv w) (w_priv w2) (w_regs w2) /\
    view w' ≡ fin (should_clear_vm (w_priv w2)) (view (w2 <| w_kern := cfg_unmap w (w_kern w2) |>)) /\
    calm (w_kern w2) (w_kern w').
Proof using L.
  intros Hi Hp Hr Hstub (base & w1 & w2 & w3 & w4 & H)%run_handler_inv.
  pose proof H as [(Hok & -> & ->) _ _ _ H2 H3 H4 ->]. split; [done|]. exists w2. split; [done|].
  assert (guest_inv (w_priv w) (w_priv w2) (w_regs w2)) as Hg.
  { refine (triple_inv _ _ _ _ _ _ (guest_signal (w_priv w) sig info Hi) _ H2).
    split; try done. by right. }
  split; [done|]. destruct (run_take_interrupt w2) as (k3 & E3 & Hp3 & Hf3).
  pose proof (triple_inv _ _ _ _ _ _ (calm_take_interrupt (w_kern w2)) (reflexivity _ : on_kern _ w2) H3) as Hc3.
  pose proof (triple_inv _ _ _ _ _ _ (calm_clear_vm (w_kern w2)) Hc3 H4) as Hc4.
  split; [|exact (transitivity Hc4 (calm_syscall (SysMunmap (cfg_base w) CONF_SIZE) _ eq_refl))].
  rewrite E3 in H3. injection H3 as <-. pose proof (run_clear_vm _ _ H4) as [Ep4 Er4].
  destruct w2 as [p2 r2 k2], w4 as [p4 r4 k4]. cbn [w_priv w_regs w_kern] in *. subst p4 r4.
  destruct Hg as [Hwf Hregs _ Hs Hz]. pose proof (stub_ok_fields _ p2 Hs Hz Hstub) as Hstub2.
  fold (cfg_base w). fold (cfg_unmap w k4).
  change (_ <| w_kern := cfg_unmap w k2 |>) with (mk_world p2 r2 (cfg_unmap w k2)).
  match goal with |- view (?x <| w_kern := _ |>) ≡ _ =>
    change (x <| w_kern := cfg_unmap w k4 |>) with (mk_world (w_priv x) (w_regs x) (cfg_unmap w k4)) end.
  cbn [w_priv w_regs]. rewrite (view_clear_vm w _ _ k2 k3 k4 Hok); [|by unfold after_interrupt; destruct (interrupt_enabled p2)|done..].
  unfold fin. rewrite timer_pending_view by done. unfold after_interrupt in *.
  destruct (interrupt_enabled p2); cbn [fst snd];
    [|destruct (should_clear_vm p2); reflexivity].
  change (should_clear_vm (trap_priv SCAUSE_TIMER 0 (pc r2) p2)) with true. cbv iota.
  by rewrite view_trap.
Qed.
End view.
