(* ===== verification/Simulation.v ===== *)
(** * The hypervisor implements the machine

    [gstep] is what happens to the process: the guest executes an instruction
    natively, or an instruction raises a signal ([raises]) and the handler
    runs.  Every such step is a run of the machine ([astep]) between the views
    of the two worlds, with the input and output the process has made; by
    induction, so is every run of the guest. *)

From stdpp Require Import functions.
From S2P Require Import Prelude Bits State Machine Hoare Csr Trap Instr Linux PageWalk Printf.
From S2P Require Import Console PageFault Block Sbi Handler Guest Isolation Hypervisor Arch Ecall.
From S2P Require Import Refine.

(** ** Input and output of the process *)

Section outputs.
Context {K : Kernel} {V : KernelView K} {L : KernelLaws K V}.

(** What a call means for the devices of the guest: the console is
    descriptors 0 and 1, the disk is read and written at offsets. *)
Definition call_io (c : syscall * sysret) : list io :=
  match fst c with
  | SysWrite fd bs => if fd =? 1 then Put <$> bs else []
  | SysRead _ _ => match getchar_result (snd c) with Some v => [Get v] | None => [] end
  | SysPread64 _ buf _ off => [ReadBlock off buf]
  | SysPwrite64 _ buf _ off => [WriteBlock off buf]
  | _ => []
  end.

Definition outputs (k k' : kstate) (ios : list io) : Prop :=
  exists l, k_calls k' = k_calls k ++ l /\ ios = concat (map call_io l).

Lemma outputs_trans k1 k2 k3 ios ios' :
  outputs k1 k2 ios -> outputs k2 k3 ios' -> outputs k1 k3 (ios ++ ios').
Proof using.
  intros (l & E & ->) (l' & E' & ->). exists (l ++ l').
  by rewrite E', E, app_assoc, map_app, concat_app.
Qed.

Lemma outputs_calm k k' : calm k k' -> outputs k k' [].
Proof using.
  intros (_ & _ & l & E & Hq). exists l. split; [done|]. clear E.
  induction Hq as [|[c r] l Hc _ IH]; [done|]. cbn. rewrite <- IH, app_nil_r.
  destruct c; try done; cbn in *. by apply Z.eqb_eq in Hc as ->.
Qed.

Lemma outputs_call c k : outputs k (snd (k_syscall c k)) (call_io (c, fst (k_syscall c k))).
Proof using L. exists [(c, fst (k_syscall c k))]. split; [apply law_calls|]. cbn. by rewrite app_nil_r. Qed.

Lemma outputs_unique k k' ios ios' : outputs k k' ios -> outputs k k' ios' -> ios = ios'.
Proof using. intros (l & E & ->) (l' & E' & ->). rewrite E in E'. by apply app_inv_head in E' as ->. Qed.
End outputs.

(** ** Signals *)

(** The access of a load, store or atomic instruction of [n] bytes. *)
Definition insn_access (n : nat) (v : Z) : option access :=
  if (n =? 2)%nat then half_access v else word_access v.

(** The length of an instruction is in its low bits. *)
Definition sized (n : nat) (v : Z) : Prop :=
  0 <= v < 2 ^ (8 * Z.of_nat n) /\ ((n = 2%nat /\ v mod 4 <> 3) \/ (n = 4%nat /\ v mod 4 = 3)).

(** The instruction at the program counter can have made the access: the
    floating-point loads and stores, an access to the instruction itself and
    a store of x0 to the device are excluded, which the code gets wrong. *)
Inductive fault_insn (m : machine) (va : Z) : access -> Prop :=
| fault_fetch : va = m_pc m -> fault_insn m va Fetch
| fault_data n v a :
    va <> m_pc m -> m_code m n v -> sized n v -> insn_access n v = Some a ->
    (forall pa pte, translate m va = TPage pa pte \/ translate m va = TFault (NoLeaf pa pte) ->
       in_ram pa = false -> ~ store_insn n v 0) ->
    fault_insn m va a.

Section steps.
Context {K : Kernel} {V : KernelView K} {L : KernelLaws K V} {U : UserIsa}.

(** Why Linux delivers a signal to the guest in [w], and the registers it
    saves.  An ecall is stepped over and Linux has used a7, which is in
    [si_syscall], an int. *)
Inductive raises (w : world) : Z -> siginfo -> gregs -> Prop :=
| raise_ecall info a7 :
    m_code (view w) 4 ecall_word -> u64 (si_syscall info) = reg (w_regs w) 17 -> is_u64 a7 ->
    raises w SIGSYS info (set_reg (set_reg (w_regs w) 17 a7) 0 (u64 (pc (w_regs w) + 4)))
| raise_illegal info n v :
    u_illegal (view w) -> m_code (view w) n v -> sized n v -> raises w SIGILL info (w_regs w)
| raise_alarm info : si_code info = SI_TIMER -> raises w SIGALRM info (w_regs w)
| raise_fault info a :
    u_access (view w) a (si_addr info) -> tlb_permits (view w) a (si_addr info) = false ->
    fault_insn (view w) (si_addr info) a ->
    sv39_canonical (si_addr info) \/ ~ (- 2 ^ 39 <= s64 (si_addr info) < 2 ^ 39) ->
    ram_mmap_ok (w_kern (entered w)) -> raises w SIGSEGV info (w_regs w).

(** The blocks transferred between [w] and [k] are memory of the guest. *)
Definition owns_buffers (w : world) (k : kstate) : Prop :=
  forall l fd buf n off r, k_calls k = k_calls (w_kern w) ++ l ->
    (SysPread64 fd buf n off, r) ∈ l \/ (SysPwrite64 fd buf n off, r) ∈ l ->
    guest_buffer w buf n.

Inductive gstep (w : world) : list io -> world -> Prop :=
| gs_native r k m :
    gregs_wf r -> same_pages (w_kern w) k -> same_fds (w_kern w) k -> k_calls k = k_calls (w_kern w) ->
    u_native (view w) m -> view (mk_world (w_priv w) r k) ≡ m ->
    gstep w [] (mk_world (w_priv w) r k)
| gs_signal sig info r w' ios :
    is_u64 (si_addr info) -> raises w sig info r ->
    handler sig info (w <| w_regs := r |>) = (inr (), w') ->
    owns_buffers w (w_kern w') -> outputs (w_kern w) (w_kern w') ios -> gstep w ios w'.

(** RAM and the disk are different files. *)
Definition apart (k : kstate) : Prop := k_fd k RAM_FD <> k_fd k BLOCK_FD.

Record live (w : world) : Prop := {
  live_safe : safe w;
  live_stub : stub_ok (w_priv w);
  live_apart : apart (w_kern w);
  live_len : RAM_SIZE <= k_len (w_kern w) RAM_FD;
}.

(** ** Code and memory of the guest *)

Lemma tlb_of_page w q e : safe w -> tlb_of (w_priv w) (w_kern w) q = Some e ->
  0 <= q < TASK_SIZE / PAGE /\ exists g, k_page (w_kern w) q = Some g /\ vp_fd g = RAM_FD /\ e = entry_of g /\
    0 <= vp_off g /\ vp_off g + PAGE <= RAM_SIZE.
Proof using.
  intros Hw. unfold tlb_of. destruct (user_page (w_priv w) q) eqn:Eq; [|done].
  destruct (k_page (w_kern w) q) as [g|] eqn:Eg; [|done]. intros [= <-].
  unfold user_page in Eq. rewrite !andb_true_iff, Z.leb_le, Z.ltb_lt, negb_true_iff in Eq.
  destruct (safe_page w q g Hw ltac:(tauto) Eg) as (Hfd & H0 & H1).
  split; [tauto|]. by exists g.
Qed.

Lemma code_view w n v : safe w -> RAM_SIZE <= k_len (w_kern w) RAM_FD -> (0 < n)%nat ->
  m_code (view w) n v -> code_at (w_kern w) n (pc (w_regs w)) v.
Proof using.
  intros Hw Hlen Hn H. assert (forall i, 0 <= i < Z.of_nat n ->
    exists g, 0 <= (pc (w_regs w) + i) / PAGE < TASK_SIZE / PAGE /\
      k_page (w_kern w) ((pc (w_regs w) + i) / PAGE) = Some g /\
      readable g = true /\ vp_fd g = RAM_FD /\
      0 <= vp_off g + (pc (w_regs w) + i) mod PAGE < RAM_SIZE /\
      k_file (w_kern w) RAM_FD (vp_off g + (pc (w_regs w) + i) mod PAGE) = v / 2 ^ (8 * i) mod 2 ^ 8) as Hi.
  { intros i Hi. specialize (H i Hi). revert H. unfold mem_byte. cbn.
    change 4096 with PAGE. destruct (tlb_of _ _ _) as [e|] eqn:Ee; [|done].
    destruct (tlb_of_page w _ e Hw Ee) as (Hq & g & Hg & Hfd & -> & Ho0 & Ho1). cbn.
    destruct (readable g) eqn:Er; [|done]. intros [= Hb]. exists g. split_and!; try done.
    all: pose proof (Z.mod_pos_bound (pc (w_regs w) + i) PAGE eq_refl); lia. }
  destruct (Hi 0) as (_ & H0 & _); [lia|]. destruct (Hi (Z.of_nat n - 1)) as (_ & H1 & _); [lia|].
  split_and!; [| |exact Hlen|].
  - unfold PAGE in H0. Z.div_mod_to_equations. lia.
  - unfold TASK_SIZE, PAGE in H1. Z.div_mod_to_equations. lia.
  - intros i Hr. destruct (Hi i Hr) as (g & _ & Hg & Hre & Hfd & Ho & Hb). by exists g.
Qed.

Lemma mode_s w : csr_wf (w_priv w) -> m_mode (view w) = ModeS -> priv_mode (w_priv w) = PRIV_S.
Proof using. intros Hp. cbn. by destruct (wf_mode _ Hp) as [-> | ->]. Qed.

Lemma mode_u w : csr_wf (w_priv w) -> m_mode (view w) = ModeU -> priv_mode (w_priv w) = PRIV_U.
Proof using. intros Hp. cbn. by destruct (wf_mode _ Hp) as [-> | ->]. Qed.

(** ** One run of the handler

    [w] is the guest when the signal arrives, [w2] the world when the
    handler has treated it. *)

Definition treated (w w2 : world) : machine := view (w2 <| w_kern := cfg_unmap w (w_kern w2) |>).

Record simulates (w w2 : world) (ios : list io) : Prop := {
  sim_run : exists m2, asteps (view w) ios m2 /\
    (m2 ≡ treated w w2 \/ (should_clear_vm (w_priv w2) = true /\ m2 ≡ flush (treated w w2)));
  sim_fds : same_fds (w_kern (entered w)) (w_kern w2);
  sim_io : outputs (w_kern (entered w)) (w_kern w2) ios;
}.

Lemma asteps_flush (m : machine) : asteps m [] (flush m).
Proof using. apply asteps_once, (a_evict m (fun _ => None)). by right. Qed.

Lemma asteps_fin clear m : asteps m [] (fin clear m).
Proof using.
  unfold fin. destruct (timer_pending m) eqn:E.
  - apply (asteps_trans _ (arch_trap SCAUSE_TIMER 0 m) _ [] []); [|apply asteps_flush].
    by apply asteps_once, a_interrupt.
  - destruct clear; [apply asteps_flush|by apply asteps_refl].
Qed.

Lemma asteps_fin_flushed m : asteps (flush m) [] (fin true m).
Proof using.
  unfold fin. destruct (timer_pending m) eqn:E; [|by apply asteps_refl].
  by apply asteps_once, a_interrupt.
Qed.

(** The handler has kept the pages and the files. *)
Lemma treated_frame w w2 :
  cfg_mmap_ok (w_kern w) -> same_pages (w_kern (entered w)) (w_kern w2) ->
  same_files (w_kern (entered w)) (w_kern w2) -> treated w w2 ≡ view (w2 <| w_kern := w_kern w |>).
Proof using L.
  intros Hok Hp Hf. destruct w2 as [p2 r2 k2]. cbn in Hp. apply view_kern.
  - intros q _. by apply (cfg_unmap_same w k2 Hok Hp).
  - intros o. by rewrite (cfg_unmap_files w k2 _ _), (Hf _ _), (entered_files w _ _).
  - intros o. by rewrite (cfg_unmap_files w k2 _ _), (Hf _ _), (entered_files w _ _).
Qed.

Lemma simulates_frame w w2 m2 ios :
  cfg_mmap_ok (w_kern w) -> asteps (view w) ios m2 ->
  same_pages (w_kern (entered w)) (w_kern w2) -> same_files (w_kern (entered w)) (w_kern w2) ->
  same_fds (w_kern (entered w)) (w_kern w2) -> outputs (w_kern (entered w)) (w_kern w2) ios ->
  (m2 ≡ view (w2 <| w_kern := w_kern w |>) \/
   (should_clear_vm (w_priv w2) = true /\ m2 ≡ flush (view (w2 <| w_kern := w_kern w |>)))) ->
  simulates w w2 ios.
Proof using L.
  intros Hok Hs Hp Hf Hd Ho Hm. split; [|done..].
  exists m2. split; [done|]. by rewrite (treated_frame w w2 Hok Hp Hf).
Qed.

Lemma simulates_calm w w2 m2 :
  cfg_mmap_ok (w_kern w) -> asteps (view w) [] m2 ->
  same_pages (w_kern (entered w)) (w_kern w2) -> calm (w_kern (entered w)) (w_kern w2) ->
  (m2 ≡ view (w2 <| w_kern := w_kern w |>) \/
   (should_clear_vm (w_priv w2) = true /\ m2 ≡ flush (view (w2 <| w_kern := w_kern w |>)))) ->
  simulates w w2 [].
Proof using L.
  intros Hok Hs Hp Hc Hm.
  apply (simulates_frame w w2 m2); [done..|apply Hc|apply Hc|by apply outputs_calm|done].
Qed.

Lemma raises_regs w sig info r : gregs_wf (w_regs w) -> raises w sig info r -> gregs_wf r.
Proof using.
  intros Hr [info0 a7 _ _ Ha| | |]; [|done..]. by apply set_reg_wf, u64_range; apply set_reg_wf.
Qed.

(** ** The timer *)

Lemma calm_sigalrm info k0 : stable (on_kern (calm k0)) (handle_signal SIGALRM info).
Proof using L.
  unfold handle_signal. change (SIGALRM =? SIGSYS) with false.
  change (SIGALRM =? SIGILL) with false. change (SIGALRM =? SIGALRM) with true.
  change (SIGALRM =? SIGSEGV) with false. unfold handle_sigalrm. stable_auto.
Qed.

(** What a computation that returned has left, by an invariant. *)
Lemma calm_run {A} (m : M A) w a w' :
  (forall k0, stable (on_kern (calm k0)) m) -> m w = (inr a, w') -> calm (w_kern w) (w_kern w').
Proof using. intros H. apply (triple_inv _ _ _ _ _ _ (H (w_kern w)) (reflexivity _ : on_kern _ w)). Qed.

Lemma pages_run {A} (m : M A) w a w' :
  (forall k0, stable (on_kern (same_pages k0)) m) -> m w = (inr a, w') ->
  same_pages (w_kern w) (w_kern w').
Proof using.
  intros H. assert (on_kern (same_pages (w_kern w)) w) as Hw by (by intros q).
  apply (triple_inv _ _ _ _ _ _ (H (w_kern w)) Hw).
Qed.

Lemma simulate_alarm w info w2 :
  live w -> cfg_mmap_ok (w_kern w) -> si_code info = SI_TIMER ->
  handle_signal SIGALRM info (entered w) = (inr (), w2) -> simulates w w2 [].
Proof using L.
  intros Hw Hok Hc H. pose proof (calm_run _ _ _ _ (calm_sigalrm info) H) as Hcalm.
  destruct (run_sigalrm info (entered w) Hc) as (k & E & Hp & _).
  rewrite E in H. injection H as <-.
  apply (simulates_calm w _ (set_timer_pending true (view w))); [done| |done..|].
  - apply asteps_once, a_timer.
  - left. symmetry. apply view_set_sti, Hw.
Qed.

(** ** Illegal instructions *)

Lemma calm_sigill info k0 : stable (on_kern (calm k0)) (handle_signal SIGILL info).
Proof using L.
  unfold handle_signal. change (SIGILL =? SIGSYS) with false. change (SIGILL =? SIGILL) with true.
  cbv iota. unfold handle_sigill, handle_priv_instr, emulate_csr, emulate_sret, read_csr, write_csr,
    advance, enter_trap. stable_auto.
Qed.

Lemma run_sigill_u info w :
  priv_mode (w_priv w) = PRIV_U ->
  handle_signal SIGILL info w = enter_trap SCAUSE_ILLEGAL 0
    (w <| w_priv := (w_priv w) <| counter_ill := u64 (counter_ill (w_priv w) + 1) |> |>).
Proof using.
  intros Hm. unfold handle_signal. change (SIGILL =? SIGSYS) with false.
  change (SIGILL =? SIGILL) with true. cbv iota. unfold handle_sigill.
  erewrite run_bind by apply run_mod_priv. erewrite run_bind by apply run_get_priv. cbv beta.
  match goal with |- context [priv_mode ?p =? PRIV_S] => change (priv_mode p) with (priv_mode (w_priv w)) end.
  by rewrite Hm.
Qed.

(** The counters are no part of the machine. *)
Lemma view_counter_ill p n r k : view (mk_world (p <| counter_ill := n |>) r k) ≡ view (mk_world p r k).
Proof using. by apply view_priv; [intros []|..]. Qed.

Lemma csr_wf_counter_ill p n : csr_wf p -> csr_wf (p <| counter_ill := n |>).
Proof using. by apply csr_wf_view; [intros []|]. Qed.

Lemma simulate_uillegal w info w2 :
  live w -> cfg_mmap_ok (w_kern w) -> u_illegal (view w) -> priv_mode (w_priv w) = PRIV_U ->
  handle_signal SIGILL info (entered w) = (inr (), w2) -> simulates w w2 [].
Proof using L.
  intros [Hw _ _] Hok Hill Hm H. pose proof (calm_run _ _ _ _ (calm_sigill info) H) as Hcalm.
  rewrite run_sigill_u, run_enter_trap in H by done. injection H as <-.
  destruct w as [p r k]. cbn [w_priv w_regs w_kern entered] in *.
  apply (simulates_calm _ _ (arch_trap SCAUSE_ILLEGAL 0 (view (mk_world p r k)))); [done| |done..|].
  - apply asteps_once, a_uillegal; [|done]. cbn. by rewrite Hm.
  - left. rewrite <- view_counter_ill. symmetry.
    apply view_trap; [done|apply csr_wf_counter_ill, Hw|apply Hw].
Qed.

(** ** Privileged instructions *)

Lemma view_csr_update c v p r k :
  view (mk_world (csr_update c v p) r k) ≡
    set_csr c (csr_view (csr_update c v p) c) (view (mk_world p r k)).
Proof using.
  assert (priv_mode (csr_update c v p) = priv_mode p /\ urvb_block_id (csr_update c v p) = urvb_block_id p /\
    urvb_buf (csr_update c v p) = urvb_buf p /\ stub_start (csr_update c v p) = stub_start p /\
    stub_size (csr_update c v p) = stub_size p) as (E1 & E2 & E3 & E4 & E5).
  { destruct (decide (c = Satp)) as [->|]; [|by destruct c].
    by destruct (csr_update_satp v p) as [-> | [-> _]]. }
  split; cbn [view m_mode m_pc m_x m_csr m_block m_buf m_ram m_disk m_tlb w_priv w_regs w_kern]; try done.
  - by rewrite E1.
  - intros d. change (csr_view (csr_update c v p) d =
      <[c := csr_view (csr_update c v p) c]> (csr_view p) d).
    destruct (decide (c = d)) as [<-|]; [by rewrite fn_lookup_insert|].
    rewrite fn_lookup_insert_ne by done. by apply csr_update_other.
  - intros q. change (tlb_of (csr_update c v p) k q = tlb_of p k q).
    unfold tlb_of, user_page, stub_page. by rewrite E4, E5.
Qed.

(** The write empties the TLB of the machine when it requests a flush. *)
Lemma satp_update_clears v p : is_u64 v ->
  satp_switches Satp v = true -> should_clear_vm (csr_update Satp v p) = true.
Proof using.
  unfold satp_switches, csr_update. intros Hv [_ H]%bool_decide_eq_true.
  rewrite get_satp_mode_div by done. destruct H as [-> | ->]; done.
Qed.

Lemma simulate_csr o imm c rs1 rd n p r k :
  let w := mk_world p r k in
  let w2 := mk_world (csr_step o imm c rs1 (p <| counter_ill := n |>) r)
    (set_reg (set_xreg r rd (csr_view p c)) 0 (u64 (pc r + 4))) (w_kern (entered w)) in
  live w -> cfg_mmap_ok k -> m_mode (view w) = ModeS -> 0 <= rs1 < 32 -> 0 <= rd < 32 ->
  m_code (view w) 4 (csr_word o imm c rs1 rd) -> simulates w w2 [].
Proof using L.
  intros w w2 Hw Hok Hm Hrs1 Hrd Hcode.
  pose proof (safe_csr _ (live_safe _ Hw)) as Hp. pose proof (safe_regs _ (live_safe _ Hw)) as Hr.
  cbn in Hp, Hr. pose proof (wf_words _ Hp c) as Hold. set (p1 := p <| counter_ill := n |>) in *.
  assert (csr_view p1 c = csr_view p c) as Ev by by destruct c.
  assert (x_operand imm (view w) rs1 = csr_operand imm r rs1) as Eo.
  { unfold x_operand, csr_operand. destruct imm; [done|]. by apply xregs_xreg. }
  set (m1 := next 4 (set_x rd (csr_view p c) (view w))).
  assert (forall q, view (mk_world q (w_regs w2) k) ≡
    next 4 (set_x rd (csr_view p c) (view (mk_world q r k)))) as Eregs.
  { intros q. cbn [w_regs w2]. rewrite <- (pc_set_xreg r rd (csr_view p c)) by lia.
    rewrite view_next by by apply set_xreg_wf. by rewrite view_set_x. }
  assert (view (mk_world p1 (w_regs w2) k) ≡ m1) as E1.
  { rewrite Eregs. unfold p1. by rewrite view_counter_ill. }
  destruct (isa_csr o rs1 (csr_view p c) (csr_operand imm r rs1)) as [v|] eqn:Ei.
  - assert (is_u64 v) as Hv.
    { refine (isa_csr_u64 _ _ _ _ _ Hold _ Ei). by apply csr_operand_u64. }
    assert (csr_step o imm c rs1 p1 r = csr_update c v p1) as Es.
    { unfold csr_step. by rewrite Ev, Ei. }
    set (new := csr_view (csr_update c v p1) c).
    pose proof (csr_update_warl c v p1 Hv) as Hwarl. fold new in Hwarl. rewrite Ev in Hwarl.
    apply (simulates_calm w w2 (write_csr_arch c v new m1)); [done| |done|reflexivity|].
    + apply asteps_once. pose proof (a_csr (view w) o imm c rs1 rd new Hm Hrs1 Hrd Hcode) as Ha.
      cbv zeta in Ha. rewrite Eo in Ha. change (m_csr (view w) c) with (csr_view p c) in Ha.
      rewrite Ei in Ha. by apply Ha.
    + assert (view (w2 <| w_kern := k |>) ≡ set_csr c new m1) as E2.
      { subst w2. cbn [w_regs w_priv w_kern] in *. rewrite Es.
        change (_ <| w_kern := k |>) with
          (mk_world (csr_update c v p1) (set_reg (set_xreg r rd (csr_view p c)) 0 (u64 (pc r + 4))) k).
        rewrite view_csr_update. fold new. by rewrite E1. }
      change (w_kern w) with k. unfold write_csr_arch. destruct (satp_switches c v) eqn:Esw; [right|left; by rewrite E2].
      split; [|by rewrite E2]. cbn [w_priv w2]. rewrite Es.
      unfold satp_switches in Esw. apply bool_decide_eq_true in Esw as Hs. destruct Hs as [-> _].
      by apply satp_update_clears.
  - assert (csr_step o imm c rs1 p1 r = p1) as Es by (unfold csr_step; by rewrite Ev, Ei).
    apply (simulates_calm w w2 m1); [done| |done|reflexivity|].
    + apply asteps_once.
      pose proof (a_csr (view w) o imm c rs1 rd (csr_view p c) Hm Hrs1 Hrd Hcode) as Ha.
      cbv zeta in Ha. rewrite Eo in Ha. change (m_csr (view w) c) with (csr_view p c) in Ha.
      rewrite Ei in Ha. by apply Ha.
    + left. rewrite <- E1. subst w2. cbn [w_priv w_regs w_kern]. by rewrite Es.
Qed.

(** An instruction the handler does not decode ends the process. *)
Lemma sigill_unreadable info n v w :
  cfg_mmap_ok (w_kern w) -> priv_mode (w_priv w) = PRIV_S -> code_at (w_kern w) (S n) (pc (w_regs w)) v ->
  v mod 4 <> 3 \/ v mod 32 = 31 -> ebreaks (handle_signal SIGILL info) (entered w).
Proof using L.
  intros Hok Hm Hcode Hv. apply (code_at_entered w) in Hcode; [|done]. unfold handle_signal.
  change (SIGILL =? SIGSYS) with false. change (SIGILL =? SIGILL) with true. cbv iota.
  unfold handle_sigill. set (p1 := (w_priv w) <| counter_ill := u64 (counter_ill (w_priv w) + 1) |>).
  set (w1 := mk_world p1 (w_regs w) (w_kern (entered w))).
  apply ebreaks_after with (a := ()) (w' := w1); [done|].
  apply ebreaks_after with (a := p1) (w' := w1); [done|].
  change (priv_mode p1) with (priv_mode (w_priv w)). rewrite Hm, Z.eqb_refl.
  apply ebreaks_after with (a := pc (w_regs w)) (w' := w1); [done|].
  apply ebreaks_after with (a := v mod 2 ^ 8) (w' := w1); [by apply (run_load8_code n)|].
  assert ((Z.land (v mod 2 ^ 8) 3 =? 3) && negb (Z.land (v mod 2 ^ 8) 31 =? 31) = false) as ->.
  { change 3 with (Z.ones 2) at 1. change 31 with (Z.ones 5) at 1. rewrite !Z.land_ones by lia.
    replace (v mod 2 ^ 8 mod 2 ^ 2) with (v mod 4) by (Z.div_mod_to_equations; lia).
    replace (v mod 2 ^ 8 mod 2 ^ 5) with (v mod 32) by (Z.div_mod_to_equations; lia).
    destruct (Z.eqb_spec (v mod 4) 3), (Z.eqb_spec (v mod 32) 31); done || lia. }
  destruct (run_printf "Can't handle in SIGILL at %p" [VInt (pc (w_regs w))] w1) as [text E].
  { apply text_of_defined. by vm_compute. }
  by apply ebreaks_after with (a := ()) (w' := w1 <| w_kern := write_text (w_kern w1) text |>).
Qed.

Lemma ebreaks_returns {A} (m : M A) w a w' : ebreaks m w -> m w = (inr a, w') -> False.
Proof using. unfold ebreaks. intros H E. by rewrite E in H. Qed.

Lemma simulate_sillegal w info n v w2 :
  live w -> cfg_mmap_ok (w_kern w) -> m_mode (view w) = ModeS ->
  m_code (view w) n v -> sized n v ->
  handle_signal SIGILL info (entered w) = (inr (), w2) -> simulates w w2 [].
Proof using L.
  intros Hw Hok Hs Hcode Hsz H. pose proof (calm_run _ _ _ _ (calm_sigill info) H) as Hcalm.
  pose proof (mode_s w (safe_csr _ (live_safe _ Hw)) Hs) as Hm.
  pose proof (safe_regs _ (live_safe _ Hw)) as Hr.
  pose proof (code_view w n v (live_safe _ Hw) (live_len _ Hw)) as Hat.
  destruct Hsz as [Hrange [[-> Hlow]|[-> Hlow]]].
  { exfalso. refine (ebreaks_returns _ _ _ _ (sigill_unreadable info 1 v w Hok Hm _ _) H);
      [apply Hat; [lia|done]|by left]. }
  specialize (Hat ltac:(lia) Hcode). destruct (Z.eq_dec (v mod 32) 31) as [E|Hne].
  { exfalso. refine (ebreaks_returns _ _ _ _ (sigill_unreadable info 3 v w Hok Hm _ _) H);
      [done|by right]. }
  rewrite run_sigill_word with (v := v) in H by done.
  destruct (priv_instr_cases v (mk_world ((w_priv w) <| counter_ill := u64 (counter_ill (w_priv w) + 1) |>)
    (w_regs w) (w_kern (entered w))) Hrange) as [Hpriv|Hb]; [|by destruct (ebreaks_returns _ _ _ _ Hb H)].
  destruct w as [p r k]. cbn [w_priv w_regs w_kern] in *. set (cnt := u64 _) in *.
  pose proof (view_counter_ill p cnt) as Ec.
  destruct Hpriv as [o imm c rs1 rd Hrs1 Hrd| | |rs1 rs2 Hrs1 Hrs2].
  - rewrite run_csr_word in H by (try done; apply csr_wf_counter_ill, (live_safe _ Hw)).
    injection H as <-. assert (csr_view (p <| counter_ill := cnt |>) c = csr_view p c) as E by by destruct c.
    cbn [w_priv w_regs w_kern] in *. rewrite E.
    by apply (simulate_csr o imm c rs1 rd cnt p r k).
  - rewrite handle_sret, run_emulate_sret in H. injection H as <-. cbn [w_priv w_regs w_kern] in *.
    apply (simulates_calm _ _ (arch_sret (view (mk_world p r k)))); [done| |done|done|].
    + by apply asteps_once, a_sret.
    + left. cbn [w_priv w_regs w_kern]. symmetry.
      change (sepc p) with (sepc (p <| counter_ill := cnt |>)).
      etrans; [apply view_sret; [apply csr_wf_counter_ill, (live_safe _ Hw)|done]|].
      specialize (Ec r k). destruct Ec as [E1 E2 E3 E4 E5 E6 E7 E8]. split; try done.
  - rewrite run_wfi in H. injection H as <-. cbn [w_priv w_regs w_kern] in *.
    apply (simulates_calm _ _ (next 4 (view (mk_world p r k)))); [done| |done|done|].
    + by apply asteps_once, a_wfi.
    + left. rewrite <- (Ec r k). symmetry. by apply view_next.
  - rewrite run_sfence in H by done. injection H as <-. cbn [w_priv w_regs w_kern] in *.
    apply (simulates_calm _ _ (flush (next 4 (view (mk_world p r k))))); [done| |done|done|].
    + apply asteps_once. by apply (a_sfence _ rs1 rs2).
    + right. split; [done|]. rewrite <- (Ec r k).
      rewrite <- view_next by done. by rewrite <- (view_priv _ ((p <| counter_ill := cnt |>) <| should_clear_vm := true |>)) by (done || by intros []).
Qed.

(** ** Ecalls *)

Lemma calm_print_counters k0 : stable (on_kern (calm k0)) print_counters.
Proof using L. unfold print_counters. stable_auto. Qed.

Lemma pages_print_counters k0 : stable (on_kern (same_pages k0)) print_counters.
Proof using L. unfold print_counters. stable_auto. Qed.

(** The magic call prints, and changes nothing. *)
Lemma magic_frame (b : bool) w : exists k,
  (if b then print_counters else mret ()) w = (inr (), w <| w_kern := k |>) /\
  same_pages (w_kern w) k /\ calm (w_kern w) k.
Proof using L.
  destruct b; [|by exists (w_kern w); split; [destruct w|]].
  destruct (run_magic true w) as [k E]. exists k. split; [done|].
  split; [exact (pages_run _ _ _ _ pages_print_counters E)
         |exact (calm_run _ _ _ _ calm_print_counters E)].
Qed.

(** The registers an ecall is treated with: a7 is put back. *)
Definition ecall_regs (info : siginfo) (r : gregs) : gregs :=
  set_reg r 17 (u64 (si_syscall info)).

Lemma run_sigsys info w : exists k,
  same_pages (w_kern w) k /\ calm (w_kern w) k /\
  let r1 := ecall_regs info (w_regs w) in
  (priv_mode (w_priv w) = PRIV_U ->
   handle_signal SIGSYS info w = enter_trap SCAUSE_UECALL 0
     (mk_world ((w_priv w) <| counter_uecall := u64 (counter_uecall (w_priv w) + 1) |>)
        (set_reg r1 0 (u64 (reg r1 0 - 4))) k)) /\
  (priv_mode (w_priv w) = PRIV_S ->
   handle_signal SIGSYS info w =
     (ret ← handle_legacy_sbi_call (u64 (si_syscall info)) (reg r1 10) (reg r1 11) (reg r1 12);
      put_reg 10 ret)
     (mk_world (calling_priv (w_priv w)) r1 k)).
Proof using L.
  set (r1 := ecall_regs info (w_regs w)). set (w1 := w <| w_regs := r1 |>).
  destruct (magic_frame (reg r1 10 =? MAGIC_ECALL) w1) as (k & E & Hp & Hc).
  exists k. split; [done|]. split; [done|]. set (w2 := w1 <| w_kern := k |>).
  assert (handle_signal SIGSYS info w =
    (priv ← get_priv;
     if priv_mode priv =? PRIV_S then
       mod_priv (fun p => p <| counter_secall := u64 (counter_secall p + 1) |>);;
       a0 ← get_reg 10; a1 ← get_reg 11; a2 ← get_reg 12;
       ret ← handle_legacy_sbi_call (u64 (si_syscall info)) a0 a1 a2; put_reg 10 ret
     else
       mod_priv (fun p => p <| counter_uecall := u64 (counter_uecall p + 1) |>);;
       pc0 ← get_reg 0; put_reg 0 (u64 (pc0 - 4));; enter_trap SCAUSE_UECALL 0) w2) as ->.
  { unfold handle_signal. change (SIGSYS =? SIGSYS) with true. cbv iota. unfold handle_sigsys. cbv zeta.
    rewrite run_bind with (a := ()) (w' := w1) by done.
    rewrite run_bind with (a := reg r1 10) (w' := w1) by done. by erewrite run_bind by exact E. }
  rewrite run_bind with (a := w_priv w) (w' := w2) by done. split; intros ->.
  - by change (PRIV_U =? PRIV_S) with false.
  - by change (PRIV_S =? PRIV_S) with true.
Qed.

Section ecall.
Context (w : world) (info : siginfo) (a7 : Z).
Context (Hw : live w) (Hok : cfg_mmap_ok (w_kern w)).
Context (Hcode : m_code (view w) 4 ecall_word).
Context (Ha7 : u64 (si_syscall info) = reg (w_regs w) 17).
#[local] Abbreviation saved := (set_reg (set_reg (w_regs w) 17 a7) 0 (u64 (pc (w_regs w) + 4))).
#[local] Abbreviation w1 := (w <| w_regs := saved |>).
#[local] Abbreviation r1 := (ecall_regs info saved).

Lemma ecall_regs_wf : is_u64 a7 -> gregs_wf r1.
Proof using Hw.
  intros Ha. apply set_reg_wf; [|apply u64_range]. apply set_reg_wf, u64_range.
  apply set_reg_wf; [apply Hw|done].
Qed.

Lemma ecall_len : length (w_regs w) = 32%nat.
Proof using Hw. apply (safe_regs _ (live_safe _ Hw)). Qed.

Lemma ecall_xregs i : 1 <= i < 32 -> reg r1 i = reg (w_regs w) i.
Proof using Hw Ha7.
  intros Hi. unfold ecall_regs. rewrite Ha7. destruct (Z.eq_dec i 17) as [->|].
  - apply reg_set_reg. rewrite !length_set_reg, ecall_len. lia.
  - by rewrite !reg_set_reg_ne by lia.
Qed.

Lemma ecall_pc : pc r1 = u64 (pc (w_regs w) + 4).
Proof using Hw.
  unfold ecall_regs, pc. rewrite reg_set_reg_ne by lia. apply reg_set_reg.
  rewrite length_set_reg, ecall_len. lia.
Qed.

(** The call as the machine sees it. *)
Lemma ecall_view p k : view (mk_world p r1 k) ≡ next 4 (view (mk_world p (w_regs w) k)).
Proof using Hw Ha7.
  split; cbn; try done; [apply ecall_pc|].
  intros i. unfold xregs. case_bool_decide; [by apply ecall_xregs|done].
Qed.

Lemma simulate_uecall w2 : is_u64 a7 -> priv_mode (w_priv w) = PRIV_U ->
  handle_signal SIGSYS info (entered w1) = (inr (), w2) -> simulates w w2 [].
Proof using All.
  intros Ha Hm H. destruct (run_sigsys info (entered w1)) as (k & Hp & Hc & Hu & _).
  cbv zeta in Hu. rewrite (Hu Hm), run_enter_trap in H. injection H as <-.
  change (w_regs (entered w1)) with saved. change (w_priv (entered w1)) with (w_priv w).
  set (r3 := set_reg r1 0 (u64 (reg r1 0 - 4))). set (p1 := (w_priv w) <| counter_uecall := _ |>).
  assert (view (mk_world p1 r3 (w_kern w)) ≡ view w) as Ev.
  { assert (is_u64 (pc (w_regs w))) as Hpc by (apply reg_u64; [apply Hw|lia]).
    rewrite (view_priv (w_priv w)) by (done || by intros []). split; cbn; try done.
    - unfold r3. rewrite pc_set_reg by (rewrite (proj1 (ecall_regs_wf Ha)); lia).
      fold (pc r1). rewrite ecall_pc. unfold u64. rewrite Zminus_mod_idemp_l.
      replace (pc (w_regs w) + 4 - 4) with (pc (w_regs w)) by lia. by apply Z.mod_small.
    - intros i. unfold r3. rewrite xregs_set_pc. unfold xregs.
      case_bool_decide; [by apply ecall_xregs|done]. }
  apply (simulates_calm w _ (arch_trap SCAUSE_UECALL 0 (view w))); [done| |done..|].
  - apply asteps_once, a_uecall; [|done]. cbn. by rewrite Hm.
  - left. rewrite <- Ev. symmetry. apply view_trap; [done| |].
    + apply (csr_wf_view (w_priv w)); [by intros []|done|apply Hw].
    + by apply set_reg_wf; [apply ecall_regs_wf|apply u64_range].
Qed.

Lemma ecall_return v p k : is_u64 a7 ->
  view (mk_world p (set_reg r1 10 v) k) ≡ sbi_return v (view (mk_world p (w_regs w) k)).
Proof using Hw Ha7.
  intros Ha. change (set_reg r1 10 v) with (set_xreg r1 10 v).
  rewrite view_set_x by (lia || by apply ecall_regs_wf). unfold sbi_return. by rewrite ecall_view.
Qed.

Lemma view_calling p r k : view (mk_world (calling_priv p) r k) ≡ view (mk_world p r k).
Proof using. by apply view_priv; [intros []|..]. Qed.

(** Calls that touch no device. *)
Lemma calm_sbi_call k0 which a0 a1 a2 :
  which <> SBI_CONSOLE_PUTCHAR -> which <> SBI_CONSOLE_GETCHAR -> which <> SBI_SHUTDOWN ->
  stable (on_kern (calm k0)) (handle_legacy_sbi_call which a0 a1 a2).
Proof using L.
  intros H1 H2 H3. unfold handle_legacy_sbi_call. rewrite !(proj2 (Z.eqb_neq which _)) by done.
  unfold sbi_set_timer. stable_auto.
Qed.

(** The machine answers the call [v] and outputs [ios]; the process has made
    the calls between [k] and [k2]. *)
Lemma simulates_call m v ios p2 k k2 :
  is_u64 a7 -> cfg_mmap_ok (w_kern w) -> astep (view w) ios (sbi_return v m) ->
  view (mk_world p2 (w_regs w) (w_kern w)) ≡ m ->
  same_pages (w_kern (entered w)) k -> calm (w_kern (entered w)) k ->
  same_pages k k2 -> same_files k k2 -> same_fds k k2 -> outputs k k2 ios ->
  simulates w (mk_world p2 (set_reg r1 10 v) k2) ios.
Proof using Hw Ha7 L.
  intros Ha Hcfg Hs Hm Hp Hc Hp2 Hf2 Hd2 Ho.
  apply (simulates_frame w _ (sbi_return v m)); [done|by apply asteps_once| | | | |left].
  - intros q. etrans; [apply Hp2|apply Hp].
  - intros fd o. etrans; [apply Hf2|apply Hc].
  - etrans; [apply Hc|exact Hd2].
  - change ios with ([] ++ ios). eapply outputs_trans; [by apply outputs_calm|done].
  - symmetry. change (view (mk_world p2 (set_reg r1 10 v) (w_kern w)) ≡ sbi_return v m).
    rewrite ecall_return by done. unfold sbi_return. by rewrite Hm.
Qed.

(** A call of the S-mode guest, in the kernel [k] the counters' printing has
    left. *)
Section secall.
Context (Ha : is_u64 a7) (Hms : m_mode (view w) = ModeS) (k : kstate).
Context (Hp : same_pages (w_kern (entered w)) k) (Hc : calm (w_kern (entered w)) k).
#[local] Abbreviation wc := (mk_world (calling_priv (w_priv w)) r1 k).
#[local] Abbreviation call := (handle_legacy_sbi_call (reg (w_regs w) 17) (reg (w_regs w) 10)
  (reg (w_regs w) 11) (reg (w_regs w) 12)).

Lemma view_x i : 1 <= i < 32 -> m_x (view w) i = reg (w_regs w) i.
Proof using. intros Hi. cbn. unfold xregs. by rewrite bool_decide_true. Qed.

Lemma simulate_set_timer w2 : reg (w_regs w) 17 = SBI_SET_TIMER ->
  (ret ← call; put_reg 10 ret) wc = (inr (), w2) -> simulates w w2 [].
Proof using All.
  intros E H. rewrite E in H. pose proof (calm_sbi_call k SBI_SET_TIMER (reg (w_regs w) 10)
    (reg (w_regs w) 11) (reg (w_regs w) 12) ltac:(done) ltac:(done) ltac:(done)) as Hcalm.
  destruct (run_sbi_set_timer (reg (w_regs w) 10) wc) as (k1 & Hp1 & Hf1 & E1).
  pose proof (triple_inv _ _ _ _ _ _ Hcalm (reflexivity _ : on_kern (calm k) wc) E1) as Hc1.
  erewrite run_bind in H by exact E1. injection H as <-.
  match goal with |- simulates w ?x [] => set (w2 := x) end.
  assert (same_pages k (w_kern w2)) as Hp2.
  { intros q. exact (eq_trans (law_keeps_pages (timer_call _ _ _) k1 eq_refl q) (Hp1 q)). }
  set (due := reg (w_regs w) 10 <=? k_time k) in *.
  apply (simulates_call (set_timer_pending due (view w)) 0 [] (set_sti due (calling_priv (w_priv w))) k);
    [done|done| |by rewrite view_set_sti, view_calling by by apply calling_wf, Hw|done|done|exact Hp2
    |apply Hc1|apply Hc1|by apply outputs_calm].
  unfold due. rewrite <- (view_x 10) by lia. apply a_set_timer; [done..|]. by rewrite view_x.
Qed.

Lemma simulate_putchar w2 : reg (w_regs w) 17 = SBI_CONSOLE_PUTCHAR ->
  (ret ← call; put_reg 10 ret) wc = (inr (), w2) ->
  simulates w w2 [Put (u8 (reg (w_regs w) 10))].
Proof using All.
  intros E H. pose proof (run_sbi_call (reg (w_regs w) 17) (reg (w_regs w) 10) (reg (w_regs w) 11)
    (reg (w_regs w) 12) wc ltac:(by rewrite E)) as Hcall.
  cbn zeta in Hcall. rewrite (proj2 (Z.eqb_eq _ SBI_CONSOLE_PUTCHAR) E) in Hcall.
  erewrite run_bind in H by exact Hcall. injection H as <-. set (c := SysWrite 1 _).
  apply (simulates_call (view w) 0 _ (calling_priv (w_priv w)) k);
    [done|done| |apply view_calling|done|done|by apply (law_keeps_pages c)
    |by apply (law_keeps_files c)|by apply (law_keeps_fds c)|exact (outputs_call c k)].
  rewrite <- (view_x 10) by lia. apply a_putchar; [done..|]. by rewrite view_x.
Qed.

Lemma simulate_getchar w2 : reg (w_regs w) 17 = SBI_CONSOLE_GETCHAR ->
  (ret ← call; put_reg 10 ret) wc = (inr (), w2) -> exists v, simulates w w2 [Get v].
Proof using All.
  intros E H. pose proof (run_sbi_call (reg (w_regs w) 17) (reg (w_regs w) 10) (reg (w_regs w) 11)
    (reg (w_regs w) 12) wc ltac:(by rewrite E)) as Hcall.
  assert (reg (w_regs w) 17 <> SBI_CONSOLE_PUTCHAR) as Hn by by rewrite E.
  cbn zeta in Hcall. rewrite (proj2 (Z.eqb_neq _ _) Hn), (proj2 (Z.eqb_eq _ _) E) in Hcall.
  change (w_kern wc) with k in Hcall. set (c := SysRead 0 1) in *.
  destruct (getchar_result (fst (k_syscall c k))) as [v|] eqn:Eg.
  2: { destruct (handle_legacy_sbi_call _ _ _ _ wc) as [o w'] eqn:Eo. cbn in Hcall. subst o.
       by erewrite run_bind_stop in H by exact Eo. }
  erewrite run_bind in H by exact Hcall. injection H as <-. exists v.
  apply (simulates_call (view w) v _ (calling_priv (w_priv w)) k);
    [done|done| |apply view_calling|done|done|by apply (law_keeps_pages c)
    |by apply (law_keeps_files c)|by apply (law_keeps_fds c)|].
  - apply a_getchar; [done|done|by rewrite view_x|]. unfold getchar_result in Eg.
    destruct (_ =? _); [by simplify_eq|]. destruct (_ <? 1); [done|]. injection Eg as <-.
    apply Z.mod_pos_bound. lia.
  - pose proof (outputs_call c k) as Ho. cbn in Ho. by rewrite Eg in Ho.
Qed.

(** Shutdown does not return; every other call is unknown. *)
Lemma simulate_other_call w2 : reg (w_regs w) 17 <> SBI_SET_TIMER ->
  reg (w_regs w) 17 <> SBI_CONSOLE_PUTCHAR -> reg (w_regs w) 17 <> SBI_CONSOLE_GETCHAR ->
  (ret ← call; put_reg 10 ret) wc = (inr (), w2) -> simulates w w2 [].
Proof using All.
  intros Hn0 Hn1 Hn2 H. pose proof (run_sbi_call (reg (w_regs w) 17) (reg (w_regs w) 10)
    (reg (w_regs w) 11) (reg (w_regs w) 12) wc Hn0) as Hcall.
  cbn zeta in Hcall. rewrite (proj2 (Z.eqb_neq _ _) Hn1), (proj2 (Z.eqb_neq _ _) Hn2) in Hcall.
  destruct (Z.eqb_spec (reg (w_regs w) 17) SBI_SHUTDOWN) as [E|Hn3].
  { destruct (handle_legacy_sbi_call _ _ _ _ wc) as [o w'] eqn:Eo. cbn in Hcall. subst o.
    by erewrite run_bind_stop in H by exact Eo. }
  destruct Hcall as (k2 & Ek & Hp2 & Hf2). pose proof (calm_sbi_call k _ (reg (w_regs w) 10)
      (reg (w_regs w) 11) (reg (w_regs w) 12) Hn1 Hn2 Hn3) as Hcalm.
  pose proof (triple_inv _ _ _ _ _ _ Hcalm (reflexivity _ : on_kern (calm k) wc) Ek) as Hc2.
  erewrite run_bind in H by exact Ek. injection H as <-.
  apply (simulates_call (view w) (2 ^ 64 - 2) [] (calling_priv (w_priv w)) k);
    [done|done| |apply view_calling|done|done|done|done|apply Hc2|by apply outputs_calm].
  apply a_unknown; [done..|]. rewrite view_x by lia. rewrite !elem_of_cons.
  intros [|[|[|[|Hin]]]]; try done. by apply not_elem_of_nil in Hin.
Qed.
End secall.

Lemma simulate_secall w2 : is_u64 a7 -> priv_mode (w_priv w) = PRIV_S ->
  handle_signal SIGSYS info (entered w1) = (inr (), w2) -> exists ios, simulates w w2 ios.
Proof using All.
  intros Ha Hm H. destruct (run_sigsys info (entered w1)) as (k & Hp & Hc & _ & Hs).
  cbv zeta in Hs. rewrite (Hs Hm), Ha7 in H. clear Hs.
  change (w_regs (entered w1)) with saved in H. change (w_priv (entered w1)) with (w_priv w) in H.
  change (w_kern (entered w1)) with (w_kern (entered w)) in Hp, Hc.
  assert (m_mode (view w) = ModeS) as Hms by (cbn; by rewrite Hm).
  rewrite !ecall_xregs in H by lia.
  destruct (decide (reg (w_regs w) 17 = SBI_SET_TIMER)) as [E|Hn0].
  { exists []. by apply (simulate_set_timer Ha Hms k). }
  destruct (decide (reg (w_regs w) 17 = SBI_CONSOLE_PUTCHAR)) as [E|Hn1].
  { eexists. by apply (simulate_putchar Ha Hms k). }
  destruct (decide (reg (w_regs w) 17 = SBI_CONSOLE_GETCHAR)) as [E|Hn2].
  { destruct (simulate_getchar Ha Hms k Hp Hc w2 E H) as [v Hv]. by eexists. }
  exists []. by apply (simulate_other_call Ha Hms k).
Qed.
End ecall.
End steps.
