(* ===== verification/FaultSim.v ===== *)
(** * Page faults implement the machine

    A SIGSEGV of the guest is, on the machine ([Arch]), one of three steps:
    the TLB is filled, the guest takes a page fault, or the store drives the
    block device.  A computation that ends in an ebreak never returns
    ([never]); those are the faults the hypervisor gives up on. *)

From stdpp Require Import functions.
From S2P Require Import Prelude Bits State Machine Hoare Csr Trap Instr Linux PageWalk Printf.
From S2P Require Import Console PageFault Block Sbi Handler Guest Isolation Hypervisor Arch Ecall.
From S2P Require Import Refine Simulation.

(** ** Computations that do not return *)

Section never.
Context `{K : Kernel}.

Definition never {A} (m : M A) : Prop := forall w a w', m w <> (inr a, w').

Lemma never_bind {A B} (m : M A) (f : A -> M B) : (forall a, never (f a)) -> never (m ≫= f).
Proof using.
  intros Hf w b w'. unfold mbind, M_bind. destruct (m w) as [[s|a] w1]; [done|]. apply Hf.
Qed.

Lemma never_halt {A} s : never (halt (A := A) s).
Proof using. by intros w a w'. Qed.

Lemma never_ebreak {A} : never (ebreak (A := A)).
Proof using. by intros w a w'. Qed.
End never.

(** ** Stores to the device *)

Section device.
Context {K : Kernel} {V : KernelView K} {L : KernelLaws K V}.

(** Loads and fetches outside of RAM end the process. *)
Lemma never_mmio_load cause va pa : cause <> SCAUSE_STORE_PF -> never (fault_in_mmio cause va pa).
Proof using.
  intros Hc. unfold fault_in_mmio. rewrite (proj2 (Z.eqb_neq _ _) Hc), !andb_false_r.
  do 4 (apply never_bind; intros ?). apply never_ebreak.
Qed.

(** [decode_sd] answers for the two instructions [store_insn] describes. *)
Lemma decode_half v pc0 w : code_at (w_kern w) 2 pc0 v -> 0 <= v < 2 ^ 16 -> half_access v = Some Store ->
  (exists rs2, store_insn 2 v rs2) \/
  (forall rs2 w', decode_sd pc0 w = (inr rs2, w') -> rs2 < 0).
Proof using L.
  intros Hc Hv Ha. unfold decode_sd.
  erewrite run_bind by (eapply run_load8_code; exact Hc). cbv beta.
  assert (v mod 4 = 0 \/ v mod 4 = 2) as Hev.
  { unfold half_access in Ha. by case_bool_decide. }
  rewrite low_bits_11_odd, <- Z.bit0_odd, Z.mod_pow2_bits_low, Z.bit0_odd by lia.
  assert (Z.odd v = false) as ->.
  { rewrite <- Z.negb_even. apply negb_false_iff, Z.even_spec. exists (v / 2).
    Z.div_mod_to_equations. lia. }
  erewrite run_bind by (apply (run_load_code 2); [exact Hc|done]). cbv beta zeta.
  rewrite Z.mod_small by done. rewrite !Z.shiftr_div_pow2 by lia.
  replace (Z.land v 3) with (v mod 4) by (symmetry; apply (Z.land_ones v 2); lia).
  destruct (Z.eqb_spec (v mod 4) 0) as [E0|E0]; destruct (Z.eqb_spec (v / 2 ^ 13) 7) as [E7|E7]; cbn [andb].
  - left. pose proof (store_c_sd (v / 2 ^ 5 mod 2 ^ 8) (v / 4 mod 8)
      ltac:(apply Z.mod_pos_bound; lia) ltac:(apply Z.mod_pos_bound; lia)) as Hs.
    assert (c_sd_word (v / 2 ^ 5 mod 2 ^ 8) (v / 4 mod 8) = v) as E.
    { unfold c_sd_word. Z.div_mod_to_equations. lia. }
    rewrite E in Hs. by eexists.
  - right. rewrite E0. cbn [Z.eqb andb]. by intros rs2 w' [= <- _].
  - right. rewrite E7, andb_false_r. by intros rs2 w' [= <- _].
  - right. intros rs2 w'. destruct (Z.eqb_spec (v / 2 ^ 13) 3) as [E3|];
      [|rewrite andb_false_r; by intros [= <- _]].
    unfold half_access in Ha. rewrite bool_decide_true, E3 in Ha by done. discriminate.
Qed.

Lemma decode_word v pc0 w : code_at (w_kern w) 4 pc0 v -> 0 <= v < 2 ^ 32 -> v mod 4 = 3 ->
  word_access v = Some Store ->
  (exists rs2, store_insn 4 v rs2) \/
  (forall rs2 w', decode_sd pc0 w = (inr rs2, w') -> rs2 < 0).
Proof using L.
  intros Hc Hv Hlow Ha. unfold decode_sd.
  erewrite run_bind by (eapply run_load8_code; exact Hc). cbv beta.
  rewrite low_bits_11_odd, <- Z.bit0_odd, Z.mod_pow2_bits_low, Z.bit0_odd by lia.
  assert (Z.odd v = true) as ->.
  { rewrite <- Z.negb_even. apply negb_true_iff. destruct (Z.even v) eqn:E; [|done].
    apply Z.even_spec in E as [q E]. Z.div_mod_to_equations. lia. }
  erewrite run_bind by (apply (run_load_code 4); [exact Hc|done]). cbv beta zeta.
  rewrite Z.mod_small by done. unfold ins_opcode, ins_funct3, ins_rs2.
  rewrite !ins_bitfield_div, Z.pow_0_r, Z.div_1_r by lia.
  destruct (Z.eqb_spec (v mod 2 ^ 7) OPCODE_STORE) as [Eo|]; [|by right].
  destruct (Z.eqb_spec (v / 2 ^ 12 mod 2 ^ 3) 3) as [E3|]; [left|by right; intros rs2 w' [= <- _]].
  assert (sd_word (v / 2 ^ 25) (v / 2 ^ 20 mod 32) (v / 2 ^ 15 mod 32) (v / 2 ^ 7 mod 32) = v) as E.
  { unfold sd_word, OPCODE_STORE in *. Z.div_mod_to_equations. lia. }
  exists (v / 2 ^ 20 mod 32). rewrite <- E at 1.
  apply store_sd; try (apply Z.mod_pos_bound; lia). Z.div_mod_to_equations. lia.
Qed.

Lemma decode_store n v pc0 w : code_at (w_kern w) n pc0 v -> sized n v ->
  insn_access n v = Some Store ->
  (exists rs2, store_insn n v rs2) \/
  (forall rs2 w', decode_sd pc0 w = (inr rs2, w') -> rs2 < 0).
Proof using L.
  intros Hc [Hv [[-> Hlow]|[-> Hlow]]] Ha; [by apply decode_half|by apply decode_word].
Qed.

(** A store that is neither ends the process. *)
Lemma mmio_not_store va pa w w' :
  (forall rs2 w', decode_sd (pc (w_regs w)) w = (inr rs2, w') -> rs2 < 0) ->
  fault_in_mmio SCAUSE_STORE_PF va pa w <> (inr (), w').
Proof using.
  intros Hd. unfold fault_in_mmio. rewrite run_bind with (a := pc (w_regs w)) (w' := w) by done.
  rewrite Z.eqb_refl.
  assert ((exists s w1, get_store_data w = (inl s, w1)) \/ exists w1, get_store_data w = (inr None, w1))
    as [(s & w1 & E)|[w1 E]].
  { unfold get_store_data. rewrite run_bind with (a := pc (w_regs w)) (w' := w) by done.
    destruct (decode_sd (pc (w_regs w)) w) as [[s|rs2] w1] eqn:E.
    - left. exists s, w1. by erewrite run_bind_stop by exact E.
    - right. exists w1. erewrite run_bind by exact E. by rewrite (proj2 (Z.leb_gt 0 rs2)) by eauto. }
  - erewrite run_bind_stop; [done|]. by erewrite run_bind_stop by exact E.
  - assert (never (printf "[urvirt] Failed to get MMIO store data" [];; ebreak (A := Z))) as Hn.
    { apply never_bind. intros _. apply never_ebreak. }
    unfold mbind at 1, M_bind at 1. erewrite run_bind by exact E.
    destruct (_ w1) as [[s|d] w2] eqn:E2; [done|]. by apply Hn in E2.
Qed.
End device.

(** ** Translation *)

Section faults.
Context {K : Kernel} {V : KernelView K} {L : KernelLaws K V} {U : UserIsa}.

Lemma fault_accesses w va a : live w -> fault_insn (view w) va a ->
  accesses (w_kern w) (pc (w_regs w)) va a.
Proof using.
  intros Hw [->|n v a' Hne Hc [Hr [[-> Hl]|[-> Hl]]] Ha _]; [by apply access_fetch|..].
  - apply access_half with v; [done| |exact Hr|exact Ha]. apply code_view; [apply Hw|apply Hw|lia|done].
  - apply access_word with v; [done| |exact Ha]. apply code_view; [apply Hw|apply Hw|lia|done].
Qed.

(** The code's walk is the machine's translation. *)
Lemma fault_translate w va : live w ->
  get_satp_mode (satp (w_priv w)) <> SATP_MODE_BARE ->
  sv39_canonical va \/ ~ (- 2 ^ 39 <= s64 va < 2 ^ 39) ->
  fault_translation (faulted w) va = translate (view w) va.
Proof using L.
  intros [Hw _ _] Hm Hva. pose proof (safe_csr _ Hw) as Hp.
  pose proof (wf_words _ Hp Satp) as Hs. cbn in Hs. unfold translate, fault_translation.
  cbn [view m_csr m_ram csr_view]. rewrite <- get_satp_mode_div by done.
  destruct (wf_satp_mode _ Hp) as [-> |]; [|done]. cbn [SATP_MODE_SV39 Z.eqb Pos.eqb].
  rewrite <- code_sv39_canonical by done. apply code_sv39_ext. intros o. apply entered_files.
Qed.

(** With translation off every fault ends the process. *)
Lemma bare_fault_stops cause va w :
  ram_mmap_ok (w_kern w) -> get_satp_mode (satp (w_priv w)) = SATP_MODE_BARE ->
  fst (handle_page_fault cause va w) = inl StopEbreak.
Proof using L.
  intros Hok Hb. destruct (lookup_pa_bare va w Hok Hb) as [w1 H1]. unfold handle_page_fault.
  erewrite run_bind by exact H1. cbv beta iota. rewrite Z.eqb_refl.
  destruct (run_write_log_frame "someone turned off translation" w1) as (k2 & H2 & _).
  by erewrite run_bind by exact H2.
Qed.

Lemma view_counter_segv p n r k : view (mk_world (p <| counter_segv := n |>) r k) ≡ view (mk_world p r k).
Proof using. by apply view_priv; [intros []|..]. Qed.

(** ** Faults of the guest *)

(** A trap is taken in a kernel state [k] that differs in quiet calls. *)
Lemma simulate_pf w a va k :
  live w -> cfg_mmap_ok (w_kern w) -> is_u64 va ->
  u_access (view w) a va -> tlb_permits (view w) a va = false -> faults a (translate (view w) va) = true ->
  same_pages (w_kern (entered w)) k -> calm (w_kern (entered w)) k ->
  simulates w (mk_world (trap_priv (pf_cause a) va (pc (w_regs w)) (w_priv (faulted w)))
                 (set_reg (w_regs w) 0 (trap_target (w_priv (faulted w)) (pf_cause a))) k) [].
Proof using L.
  intros Hw Hok Hva Ha Ht Hf Hp Hc.
  apply (simulates_calm w _ (arch_trap (pf_cause a) va (view w))); [done| |done..|].
  - by apply asteps_once, a_fault.
  - left. cbn [w_priv w_regs w_kern]. symmetry. etrans; [|apply arch_trap_proper, view_counter_segv].
    apply view_trap; [apply pf_cause_u64| |apply Hw].
    apply (csr_wf_view (w_priv w)); [by intros []|done|apply Hw].
Qed.

(** ** Demand paging *)

Lemma leaf_entry_of pa pte : entry_of (mk_vpage RAM_FD (ram_page pa) (pte_prot pte)) = leaf_entry pa pte.
Proof using.
  unfold entry_of, leaf_entry, readable, writable, executable. cbn [vp_prot vp_off].
  by destruct (pte_prot_bits pte) as (-> & -> & ->).
Qed.

Lemma simulate_fill w va pa pte k1 k2 :
  live w -> cfg_mmap_ok (w_kern w) -> translate (view w) va = TPage pa pte -> in_ram pa = true ->
  same_pages (w_kern (entered w)) k1 -> page_mapped k1 k2 va pa pte -> calm (w_kern (entered w)) k2 ->
  simulates w (mk_world (w_priv (faulted w)) (w_regs w) k2) [].
Proof using L.
  intros Hw Hok Ht Hram Hp [Hfree Hm] Hc. rewrite (Hp _) in Hfree.
  destruct (entered_free w _ Hok Hfree) as [Hfw Hcfg].
  assert (view (mk_world (w_priv w) (w_regs w) (cfg_unmap w k2)) ≡
    if user_page (w_priv w) (va / PAGE) then fill va pa pte (view w) else view w) as Ev.
  { assert (forall q, k_page (cfg_unmap w k2) q =
      if q =? va / PAGE then Some (mk_vpage RAM_FD (ram_page pa) (pte_prot pte)) else k_page (w_kern w) q) as Hq.
    { intros q. destruct (Z.eqb_spec q (va / PAGE)) as [->|Hne].
      - rewrite cfg_unmap_pages by done. unfold unmapped. by rewrite Hcfg, Hm, Z.eqb_refl.
      - apply cfg_unmap_page; [done|]. rewrite Hm, (proj2 (Z.eqb_neq _ _) Hne). apply Hp. }
    assert (forall fd o, k_file (cfg_unmap w k2) fd o = k_file (w_kern w) fd o) as Hf.
    { intros fd o. by rewrite (cfg_unmap_files _ _ _ _), (proj1 Hc fd o), (entered_files _ _ _). }
    destruct (user_page (w_priv w) (va / PAGE)) eqn:Eu.
    - split; cbn; try done. intros q. unfold tlb_of. destruct (decide (q = va / 4096)) as [->|Hne].
      + rewrite fn_lookup_insert. change 4096 with PAGE. rewrite Eu, Hq, Z.eqb_refl. cbn.
        by rewrite leaf_entry_of.
      + rewrite fn_lookup_insert_ne by done. unfold tlb_of. destruct (user_page _ q); [|done].
        change 4096 with PAGE in Hne. by rewrite Hq, (proj2 (Z.eqb_neq _ _) Hne).
    - apply view_kern; [|done..]. intros q Hu. rewrite Hq.
      destruct (Z.eqb_spec q (va / PAGE)) as [->|]; [|done].
      change (user_page (w_priv w) (va / PAGE) = true) in Hu. congruence. }
  split; [|apply Hc|by apply outputs_calm].
  exists (if user_page (w_priv w) (va / PAGE) then fill va pa pte (view w) else view w). split.
  - destruct (user_page (w_priv w) (va / PAGE)) eqn:Eu; [|by apply asteps_refl].
    apply asteps_once, a_fill; [|done..]. cbn. unfold tlb_of. change 4096 with PAGE.
    by rewrite Eu, Hfw.
  - left. rewrite <- Ev. symmetry. apply view_counter_segv.
Qed.

(** ** The block device *)

(** A byte of a buffer of the guest, while the handler runs. *)
Lemma buffer_entry w buf n j k :
  safe w -> cfg_mmap_ok (w_kern w) -> same_pages (w_kern (entered w)) k ->
  guest_buffer w buf n -> 0 <= j < n ->
  0 <= buf + j /\ exists g, k_page k ((buf + j) / PAGE) = Some g /\ vp_fd g = RAM_FD /\
    m_tlb (view w) ((buf + j) / 4096) = Some (entry_of g) /\
    0 <= vp_off g /\ vp_off g + PAGE <= RAM_SIZE.
Proof using L.
  intros Hw Hok Hp Hb Hj. destruct (Hb (buf + j)) as (Hr & Hs & Hm); [lia|]. split; [lia|].
  destruct (k_page (w_kern w) ((buf + j) / PAGE)) as [g|] eqn:Eg; [|done].
  destruct (safe_page w _ g Hw Hs Eg) as (Hfd & H0 & H1). exists g. split_and!; try done.
  - rewrite (Hp _). by apply entered_page.
  - cbn. unfold tlb_of. change 4096 with PAGE. rewrite Eg.
    assert (user_page (w_priv w) ((buf + j) / PAGE) = true) as ->; [|done].
    unfold user_page. rewrite Hs, andb_true_r. unfold TASK_SIZE, PAGE in *.
    apply andb_true_intro. rewrite Z.leb_le, Z.ltb_lt. Z.div_mod_to_equations. lia.
Qed.

Lemma device_read w k1 :
  let off := u64 (512 * urvb_block_id (w_priv w)) in
  let k' := snd (k_syscall (SysPread64 BLOCK_FD (urvb_buf (w_priv w)) 512 off) k1) in
  live w -> cfg_mmap_ok (w_kern w) ->
  same_pages (w_kern (entered w)) k1 -> same_files (w_kern w) k1 -> same_fds (w_kern w) k1 ->
  guest_buffer w (urvb_buf (w_priv w)) 512 ->
  (forall o, k_file k' BLOCK_FD o = k_file (w_kern w) BLOCK_FD o) /\
  block_read_into (view w) (k_file k' RAM_FD).
Proof using L.
  intros off k' Hw Hok Hp Hf Hd Hb. pose proof (live_safe _ Hw) as Hs.
  assert (k_fd k1 RAM_FD <> k_fd k1 BLOCK_FD) as Hapart by (rewrite !(same_fd _ _ _ Hd); apply Hw).
  pose proof (buffer_entry w (urvb_buf (w_priv w)) 512) as Hent. split; intros o.
  - destruct (law_pread k1 BLOCK_FD (urvb_buf (w_priv w)) 512 off BLOCK_FD o)
      as [E|(j & g & Hj & Hg & _ & E & _)]; [by rewrite <- (Hf _ _)|exfalso].
    destruct (Hent j k1 Hs Hok Hp Hb Hj) as (_ & g' & Hg' & Hfd & _). simplify_eq.
    rewrite Hfd in E. congruence.
  - destruct (law_pread k1 BLOCK_FD (urvb_buf (w_priv w)) 512 off RAM_FD o)
      as [E|(j & g & Hj & Hg & Hwr & _ & _ & Ho & E)]; [left; cbn; by rewrite <- (Hf _ _)|right].
    destruct (Hent j k1 Hs Hok Hp Hb Hj) as (_ & g' & Hg' & Hfd & Ht & _). simplify_eq.
    exists j, (entry_of g). do 4 (split; [done|]).
    cbn. rewrite <- (Hf _ _). apply E. intros i h Hi Hh.
    destruct (Hent i k1 Hs Hok Hp Hb Hi) as (_ & h' & Hh' & Hfd' & _). simplify_eq. by rewrite Hfd'.
Qed.

Lemma device_write w k1 :
  let off := u64 (512 * urvb_block_id (w_priv w)) in
  let k' := snd (k_syscall (SysPwrite64 BLOCK_FD (urvb_buf (w_priv w)) 512 off) k1) in
  live w -> cfg_mmap_ok (w_kern w) ->
  same_pages (w_kern (entered w)) k1 -> same_files (w_kern w) k1 -> same_fds (w_kern w) k1 ->
  guest_buffer w (urvb_buf (w_priv w)) 512 ->
  (forall o, k_file k' RAM_FD o = k_file (w_kern w) RAM_FD o) /\
  block_written (view w) (k_file k' BLOCK_FD).
Proof using L.
  intros off k' Hw Hok Hp Hf Hd Hb. pose proof (live_safe _ Hw) as Hs.
  assert (k_fd k1 RAM_FD <> k_fd k1 BLOCK_FD) as Hapart by (rewrite !(same_fd _ _ _ Hd); apply Hw).
  split; intros o.
  - destruct (law_pwrite k1 BLOCK_FD (urvb_buf (w_priv w)) 512 off RAM_FD o) as [E|[E _]];
      [by rewrite <- (Hf _ _)|done].
  - destruct (law_pwrite k1 BLOCK_FD (urvb_buf (w_priv w)) 512 off BLOCK_FD o)
      as [E|(_ & j & Hj & Ho & E)]; [left; cbn; by rewrite <- (Hf _ _)|right].
    destruct (buffer_entry w _ 512 j k1 Hs Hok Hp Hb Hj) as (H0 & g & Hg & Hfd & Ht & Hfit).
    exists j, (entry_of g). do 3 (split; [done|]). intros Hr. cbn in Hr.
    assert (k_load k1 (urvb_buf (w_priv w) + j) = Some (k_file k' BLOCK_FD o)) as El.
    { apply E. intros h Hh. simplify_eq. by rewrite Hfd. }
    erewrite law_load in El; [|exact H0|exact Hg|exact Hr|by left|].
    2: { rewrite Hfd. pose proof (same_len _ _ _ _ Hd (live_len _ Hw)).
         destruct Hfit. pose proof (Z.mod_pos_bound (urvb_buf (w_priv w) + j) PAGE eq_refl). lia. }
    rewrite Hfd in El.
    injection El as El. cbn. rewrite <- (Hf _ _). symmetry. exact El.
Qed.

(** The machine after the handler's part of the transfer. *)
Lemma view_transferred w p' r k' ram disk :
  cfg_mmap_ok (w_kern w) -> same_pages (w_kern (entered w)) k' ->
  (forall o, k_file k' RAM_FD o = ram o) -> (forall o, k_file k' BLOCK_FD o = disk o) ->
  (forall c, csr_view p' c = csr_view (w_priv w) c) -> priv_mode p' = priv_mode (w_priv w) ->
  stub_start p' = stub_start (w_priv w) -> stub_size p' = stub_size (w_priv w) ->
  view (mk_world p' r (cfg_unmap w k')) ≡
    (view w) <| m_block := urvb_block_id p' |> <| m_buf := urvb_buf p' |>
      <| m_ram := ram |> <| m_disk := disk |> <| m_x := xregs r |> <| m_pc := pc r |>.
Proof using L.
  intros Hok Hp Hr Hd Hc Hm Hs Hz. split; cbn; try done.
  - by rewrite Hm.
  - intros o. by rewrite (cfg_unmap_files _ _ _ _), Hr.
  - intros o. by rewrite (cfg_unmap_files _ _ _ _), Hd.
  - intros q. unfold tlb_of, user_page, stub_page. rewrite Hs, Hz.
    by rewrite (cfg_unmap_page w k' q Hok (Hp q)).
Qed.

Lemma owned w k1 fd buf n off (c : syscall) :
  (c = SysPread64 fd buf n off \/ c = SysPwrite64 fd buf n off) ->
  calm (w_kern w) k1 -> owns_buffers w (snd (k_syscall c k1)) -> guest_buffer w buf n.
Proof using L.
  intros Hc (_ & _ & l & El & _) Hown.
  apply (Hown (l ++ [(c, fst (k_syscall c k1))]) fd buf n off (fst (k_syscall c k1))).
  - by rewrite law_calls, El, app_assoc.
  - destruct Hc as [-> | ->]; [left|right]; apply elem_of_app; right; by apply list_elem_of_singleton.
Qed.

(** The store's operation on the machine, and what the process has done. *)
Definition performed w off data r p' k' : Prop :=
  exists ios m', device off data (view w) ios m' /\
    view (mk_world p' r (cfg_unmap w k')) ≡ m' <| m_pc := pc r |> /\
    same_pages (w_kern (entered w)) k' /\ same_fds (w_kern (entered w)) k' /\
    outputs (w_kern (entered w)) k' ios.

#[local] Ltac view_done Hr :=
  etrans; [eapply view_transferred; [done|done| | |intros []|done|done|done]; try done;
    intros o; reflexivity|split; cbn; done || apply Hr].

(** A transfer of one block, [c] being the call. *)
Lemma transfer_block w data r k1 c ios m' k' :
  cfg_mmap_ok (w_kern w) -> (forall i, xregs r i = m_x (view w) i) ->
  same_pages (w_kern (entered w)) k1 -> calm (w_kern (entered w)) k1 ->
  keeps_pages c = true -> keeps_fds c = true -> k' = snd (k_syscall c k1) ->
  call_io (c, fst (k_syscall c k1)) = ios ->
  device URVIRT_BLOCK_COMMAND data (view w) ios m' ->
  m' ≡ (view w) <| m_ram := k_file k' RAM_FD |> <| m_disk := k_file k' BLOCK_FD |> ->
  performed w URVIRT_BLOCK_COMMAND data r (w_priv (faulted w)) k'.
Proof using L.
  intros Hok Hr Hp Hc Hkp Hkd Hk <- Hdev Em. exists (call_io (c, fst (k_syscall c k1))), m'.
  assert (same_pages (w_kern (entered w)) k') as Hp'.
  { intros q. rewrite Hk. etrans; [by apply (law_keeps_pages c)|apply Hp]. }
  split; [done|]. split; [|split; [done|split]].
  - assert (m' <| m_pc := pc r |> ≡
      (view w) <| m_ram := k_file k' RAM_FD |> <| m_disk := k_file k' BLOCK_FD |> <| m_pc := pc r |>) as ->.
    { destruct Em. by split. }
    view_done Hr.
  - rewrite Hk. etrans; [apply Hc|by apply (law_keeps_fds c)].
  - change (call_io ?x) with ([] ++ call_io x). eapply outputs_trans; [by apply outputs_calm|].
    rewrite Hk. apply outputs_call.
Qed.

Lemma transfer_view w off data r p' c k' :
  live w -> cfg_mmap_ok (w_kern w) -> owns_buffers w k' ->
  block_write off data (w_priv (faulted w)) = Some (p', c) ->
  transferred (w_kern (entered w)) c k' -> (forall i, xregs r i = m_x (view w) i) ->
  performed w off data r p' k'.
Proof using L.
  intros Hw Hok Hown Hb (k1 & Hp & _ & Hc1 & Hk) Hr.
  assert (calm (w_kern w) k1) as Hc by (by rewrite (entered_calm w)).
  pose proof Hc as (Hf & Hd & _). revert Hb. unfold block_write.
  destruct (Z.eqb_spec off URVIRT_BLOCK_COMMAND) as [->|_];
    [destruct (Z.eqb_spec data URVIRT_BLOCK_CMD_READ) as [->|_];
     [|destruct (Z.eqb_spec data URVIRT_BLOCK_CMD_WRITE) as [->|_]; [|done]]
    |destruct (Z.eqb_spec off URVIRT_BLOCK_BLOCK_ID) as [->|_];
     [|destruct (Z.eqb_spec off URVIRT_BLOCK_BUF) as [->|_]; [|done]]].
  all: intros [= <- <-]; cbn iota in Hk.
  1,2: change (urvb_buf (w_priv (faulted w))) with (urvb_buf (w_priv w)) in Hk;
    change (urvb_block_id (w_priv (faulted w))) with (urvb_block_id (w_priv w)) in Hk;
    set (off := u64 (512 * urvb_block_id (w_priv w))) in *;
    pose proof Hown as Ho; rewrite Hk in Ho;
    eapply (owned w k1) in Ho; [|by eauto|done].
  - destruct (device_read w k1 Hw Hok Hp Hf Hd Ho) as [Hdisk Hram].
    eapply (transfer_block w _ r k1 _ _ ((view w) <| m_ram := k_file k' RAM_FD |>));
      [done|done|done|done| | |exact Hk|reflexivity| |]; [done|done| |].
    + apply dev_read; [done|done|]. by rewrite Hk.
    + split; cbn; try done. intros o. rewrite Hk. symmetry. apply Hdisk.
  - destruct (device_write w k1 Hw Hok Hp Hf Hd Ho) as [Hram Hdisk].
    eapply (transfer_block w _ r k1 _ _ ((view w) <| m_disk := k_file k' BLOCK_FD |>));
      [done|done|done|done| | |exact Hk|reflexivity| |]; [done|done| |].
    + apply dev_write; [done|done|]. by rewrite Hk.
    + split; cbn; try done. intros o. rewrite Hk. symmetry. apply Hram.
  - subst k'. exists [], ((view w) <| m_block := data |>). split; [by apply dev_id|].
    split; [|split; [done|split; [apply Hc1|by apply outputs_calm]]].
    etrans; [by apply (view_transferred w _ r k1 (k_file (w_kern w) RAM_FD) (k_file (w_kern w) BLOCK_FD)); [..|intros []|done|done|done]|].
    split; cbn; done || apply Hr.
  - subst k'. exists [], ((view w) <| m_buf := data |>). split; [by apply dev_buf|].
    split; [|split; [done|split; [apply Hc1|by apply outputs_calm]]].
    etrans; [by apply (view_transferred w _ r k1 (k_file (w_kern w) RAM_FD) (k_file (w_kern w) BLOCK_FD)); [..|intros []|done|done|done]|].
    split; cbn; done || apply Hr.
Qed.

(** The code of the guest in the handler's final pages is its code now. *)
Lemma code_at_unmap w k n pc0 v : cfg_mmap_ok (w_kern w) -> RAM_SIZE <= k_len k RAM_FD ->
  code_at (cfg_unmap w k) n pc0 v -> code_at k n pc0 v.
Proof using L.
  intros Hok Hlen (H0 & Hn & _ & H). split_and!; [done..|]. intros i Hi.
  destruct (H i Hi) as (g & Hg & Hr & Hfd & Ho & Hb). exists g.
  rewrite (cfg_unmap_files _ _ _ _) in Hb. split_and!; [|done || lia..].
  rewrite cfg_unmap_pages in Hg by done. unfold unmapped in Hg. by destruct (in_pages _ _ _).
Qed.

Lemma device_frame off data m ios m' : device off data m ios m' ->
  m_tlb m' = m_tlb m /\ m_pc m' = m_pc m.
Proof using. by intros []. Qed.

(** The store, where it still is in memory. *)
Lemma code_at_stored w k' r p' n v off data ios m' pc' :
  live w -> cfg_mmap_ok (w_kern w) -> (0 < n)%nat -> same_pages (w_kern (entered w)) k' ->
  same_fds (w_kern (entered w)) k' ->
  device off data (view w) ios m' -> view (mk_world p' r (cfg_unmap w k')) ≡ m' <| m_pc := pc' |> ->
  m_code m' n v -> code_at k' n (pc (w_regs w)) v.
Proof using L.
  intros Hw Hok Hn Hp Hfd Hd Hm Hcode.
  assert (RAM_SIZE <= k_len k' RAM_FD) as Hlen.
  { apply (same_len _ _ _ _ Hfd), (same_len _ _ _ _ (proj1 (proj2 (entered_calm w)))), Hw. }
  apply (code_at_unmap w); [done..|].
  set (w' := mk_world (w_priv w) (w_regs w) (cfg_unmap w k')).
  pose proof (live_safe _ Hw) as [Hs1 Hs2 Hs3 Hs4].
  change (pc (w_regs w)) with (pc (w_regs w')). apply (code_view w' n v); [| |done|].
  - split; [done..|]. refine (spatial _ _ _ Hs4). by apply cfg_unmap_same.
  - refine (same_len _ _ _ _ _ Hlen). by apply (law_keeps_fds (SysMunmap _ _)).
  - destruct (device_frame _ _ _ _ _ Hd) as [Ht Hpc].
    intros i Hi. specialize (Hcode i Hi). rewrite <- Hcode. unfold mem_byte. rewrite Hpc, Ht.
    assert (forall q, m_tlb (view w') q = m_tlb (view w) q) as Hq.
    { intros q. cbn. unfold tlb_of. by rewrite (cfg_unmap_page w k' q Hok (Hp q)). }
    rewrite (Hq _). cbn [view m_pc m_ram]. pose proof (eq_ram _ _ Hm) as Hram. cbn in Hram.
    destruct (m_tlb (view w) _) as [e|]; [|done]. by rewrite <- Hram.
Qed.

(** ** Page faults *)

Lemma simulate_store w n v rs2 va pa pte w2 :
  live w -> cfg_mmap_ok (w_kern w) -> walkable (faulted w) ->
  fault_translation (faulted w) va = translate (view w) va ->
  m_code (view w) n v -> store_insn n v rs2 -> rs2 <> 0 -> u_access (view w) Store va ->
  translate (view w) va = TPage pa pte \/ translate (view w) va = TFault (NoLeaf pa pte) ->
  in_ram pa = false -> owns_buffers w (w_kern w2) ->
  handle_page_fault SCAUSE_STORE_PF va (faulted w) = (inr (), w2) -> exists ios, simulates w w2 ios.
Proof using L.
  intros Hw Hok Hwalk Et Hcode Hs Hne Ha Ht Hram Hown H. pose proof Ht as Hft. rewrite <- Et in Hft.
  assert (0 < n)%nat as Hn by (by destruct Hs; lia).
  pose proof (code_view w n v (live_safe _ Hw) (live_len _ Hw) Hn Hcode) as Hat.
  apply (code_at_entered w) in Hat; [|done].
  pose proof (run_device_store n v rs2 va pa pte (faulted w) Hwalk Hft Hram Hs Hat) as Hdev.
  change (w_regs (faulted w)) with (w_regs w) in Hdev.
  destruct (block_write _ _ _) as [[p' c]|] eqn:Eb; [|by rewrite H in Hdev].
  destruct Hdev as (k' & Htr & Hnext & Hany). destruct (Hany _ H) as [pc' ->].
  change (w_kern (mk_world p' (set_reg (w_regs w) 0 pc') k')) with k' in Hown.
  destruct (transfer_view w _ _ (set_reg (w_regs w) 0 pc') _ _ _ Hw Hok Hown Eb Htr)
    as (ios & m' & Hd & Hv & Hp & Hfd & Ho).
  { intros i. apply xregs_set_pc. }
  assert (length (w_regs w) = 32%nat) as Hlen by apply Hw.
  assert (forall x, pc (set_reg (w_regs w) 0 x) = x) as Hpc by (intros x; by apply pc_set_reg; lia).
  rewrite Hpc in Hv. exists ios. split; [|done|done].
  exists (m' <| m_pc := pc' |>). split; [|left; symmetry; exact Hv]. apply asteps_once.
  apply (a_device (view w) n v rs2 va pa pte); try done.
  - replace (m_x (view w) rs2) with (reg (w_regs w) rs2); [done|]. cbn. unfold xregs.
    rewrite bool_decide_true; [done|]. destruct Hs; lia.
  - intros Hm'. pose proof (code_at_stored w k' _ _ n v _ _ _ _ _ Hw Hok Hn Hp Hfd Hd Hv Hm') as Hc'.
    rewrite (Hnext Hc') in H. injection H as E. by rewrite <- (Hpc pc'), <- E, Hpc.
Qed.

(** An entry that is no leaf permits nothing. *)
Lemma pointer_denied ram satp va pa pte a :
  code_sv39 ram satp va = TFault (NoLeaf pa pte) -> permits a pte = false.
Proof using.
  unfold code_sv39. case_bool_decide; [|done]. generalize (satp_root satp), 2%nat.
  intros table i. revert table. induction i as [|i IH]; intros table; cbn [sv39_walk].
  all: case_bool_decide; [|done]; set (e := ram_pte _ _).
  all: destruct (pte_v e); [|done]; cbn [negb orb].
  all: destruct (pte_r e) eqn:Er, (pte_w e) eqn:Ew, (pte_x e) eqn:Ex; cbn [negb andb orb];
    try done; try (by destruct (_ =? 0)).
  2: apply IH. intros [= _ <-]. by destruct a.
Qed.

Section found.
Context (w : world) (a : access) (va pa pte : Z).
Context (Hw : live w) (Hok : cfg_mmap_ok (w_kern w)) (Hva : is_u64 va) (Hwalk : walkable (faulted w)).
Context (Et : fault_translation (faulted w) va = translate (view w) va).
Context (Ha : u_access (view w) a va) (Htlb : tlb_permits (view w) a va = false).
Context (Ht : translate (view w) va = TPage pa pte \/ translate (view w) va = TFault (NoLeaf pa pte)).

Lemma found_code : fault_translation (faulted w) va = TPage pa pte \/
  fault_translation (faulted w) va = TFault (NoLeaf pa pte).
Proof using Et Ht. by rewrite Et. Qed.

Lemma simulate_ram w2 : in_ram pa = true ->
  handle_page_fault (pf_cause a) va (faulted w) = (inr (), w2) -> simulates w w2 [].
Proof using All.
  intros Hram H. pose proof found_code as Hf. destruct (permits a pte) eqn:Hperm.
  - assert (translate (view w) va = TPage pa pte) as Hpage.
    { destruct Ht as [|E]; [done|]. rewrite <- Et in E. apply (pointer_denied _ _ _ _ _ a) in E. congruence. }
    destruct (run_fault_found (pf_cause a) va pa pte (faulted w) Hwalk Hf) as (k1 & Hp1 & _ & Hc1 & E1).
    rewrite Hram in E1. rewrite E1 in H. pose proof (code_sv39_leaf _ _ _ _ _ Hf) as [Hpa _].
    destruct (run_fault_map a va pa pte ((faulted w) <| w_kern := k1 |>) Hva Hpa Hram Hperm)
      as (k2 & _ & [[E2 Hm]|[E2 _]]); rewrite E2 in H; [|done].
    pose proof (calm_run _ _ _ _ (fun k0 => calm_fault_in_ram k0 _ _ _) E2) as Hc2. cbn in Hc2.
    injection H as <-. apply (simulate_fill w va pa pte k1 k2); try done. by rewrite Hc1.
  - pose proof (run_fault_denied a va pa pte (faulted w) Hwalk Hf Hram Hperm) as Hd.
    destruct (priv_mode _ =? PRIV_S).
    { destruct Hd as (k & Hd). by rewrite Hd in H. }
    destruct Hd as (k & Hp & Hc & Hd). rewrite Hd, run_enter_trap in H. injection H as <-.
    apply simulate_pf; try done. by destruct Ht as [-> | ->]; cbn; rewrite ?Hperm.
Qed.

Lemma simulate_mmio w2 : in_ram pa = false -> fault_insn (view w) va a -> owns_buffers w (w_kern w2) ->
  handle_page_fault (pf_cause a) va (faulted w) = (inr (), w2) -> exists ios, simulates w w2 ios.
Proof using All.
  intros Hram Hi Hown H. pose proof found_code as Hf.
  destruct (run_fault_found (pf_cause a) va pa pte (faulted w) Hwalk Hf) as (k1 & Hp1 & Hf1 & (_ & Hd1 & _) & E1).
  rewrite Hram in E1. pose proof H as H0. rewrite E1 in H0.
  destruct (decide (a = Store)) as [->|Hns].
  2: { exfalso. refine (never_mmio_load _ _ _ _ _ _ _ H0). by destruct a. }
  inversion Hi as [|n v b Hne Hcode Hsz Hacc Hx0]; subst b.
  assert (0 < n)%nat as Hn by (destruct Hsz as [_ [[-> _]|[-> _]]]; lia).
  pose proof (code_at_entered w _ _ _ Hok (code_view w n v (live_safe _ Hw) (live_len _ Hw) Hn Hcode)) as Hat.
  apply (code_at_same _ k1) in Hat; [|exact Hp1|exact Hf1|exact Hd1].
  change k1 with (w_kern ((faulted w) <| w_kern := k1 |>)) in Hat.
  destruct (decode_store n v _ _ Hat Hsz Hacc) as [[rs2 Hs]|Hd].
  2: { by apply mmio_not_store in H0. }
  apply (simulate_store w n v rs2 va pa pte); try done.
  intros ->. exact (Hx0 pa pte Ht Hram Hs).
Qed.
End found.

(** A fault that the handler returns from, [w2] being the world then. *)
Lemma simulate_fault w info a w2 :
  live w -> cfg_mmap_ok (w_kern w) -> is_u64 (si_addr info) ->
  u_access (view w) a (si_addr info) -> tlb_permits (view w) a (si_addr info) = false ->
  fault_insn (view w) (si_addr info) a ->
  sv39_canonical (si_addr info) \/ ~ (- 2 ^ 39 <= s64 (si_addr info) < 2 ^ 39) ->
  ram_mmap_ok (w_kern (entered w)) -> owns_buffers w (w_kern w2) ->
  handle_signal SIGSEGV info (entered w) = (inr (), w2) -> exists ios, simulates w w2 ios.
Proof using L.
  intros Hw Hok Hva Ha Htlb Hi Hcan Hram Hown H. set (va := si_addr info) in *.
  rewrite (run_sigsegv info a w Hok (fault_accesses w va a Hw Hi)) in H. fold va in H.
  destruct (decide (get_satp_mode (satp (w_priv w)) = SATP_MODE_BARE)) as [Hb|Hm].
  { pose proof (bare_fault_stops (pf_cause a) va (faulted w) Hram Hb) as Hx. by rewrite H in Hx. }
  assert (walkable (faulted w)) as Hwalk by done. pose proof (fault_translate w va Hw Hm Hcan) as Et.
  assert (forall pa pte, translate (view w) va = TPage pa pte \/ translate (view w) va = TFault (NoLeaf pa pte) ->
    exists ios, simulates w w2 ios) as Hfound.
  { intros pa pte Ht. destruct (in_ram pa) eqn:Er.
    - exists []. by apply (simulate_ram w a va pa pte).
    - by apply (simulate_mmio w a va pa pte). }
  destruct (translation_cases (translate (view w) va)) as [Ht|[(pa & pte & Ht)|Ht]]; [|by eauto|].
  all: rewrite <- Et in Ht.
  - destruct (run_fault_real (pf_cause a) va (faulted w) Hwalk Ht) as (k & Hp & Hc & E).
    rewrite E, run_enter_trap in H. injection H as <-. exists []. apply simulate_pf; try done.
    rewrite <- Et. by destruct Ht as [-> | ->].
  - pose proof (run_fault_unsupported (pf_cause a) va (faulted w) Hwalk Ht) as E. by rewrite H in E.
Qed.
End faults.
