(* ===== verification/Correct.v ===== *)
(** * The hypervisor is a machine

    Every step of the process, the guest's own or a signal with the run of
    the handler it causes, is a run of the machine of [Arch] between what the
    guest sees before and after, and the input and output of the process on
    the guest's console and disk are the machine's. *)

From stdpp Require Import functions.
From S2P Require Import Prelude Bits State Machine Hoare Csr Trap Instr Linux PageWalk PageFault.
From S2P Require Import Block Sbi Handler Guest Isolation Hypervisor Arch Ecall Refine Simulation.
From S2P Require Import FaultSim.

Section correct.
Context {K : Kernel} {V : KernelView K} {L : KernelLaws K V} {U : UserIsa}.

Lemma owns_prefix w k k' : owns_buffers w k' -> calm k k' -> owns_buffers w k.
Proof using.
  intros H (_ & _ & l' & E & _) l fd buf n off r El Hin.
  apply (H (l ++ l') fd buf n off r); [by rewrite E, El, app_assoc|].
  rewrite !elem_of_app. tauto.
Qed.

(** The signal's own part of a run of the handler. *)
Lemma handler_simulates w sig info r w2 :
  live w -> cfg_mmap_ok (w_kern w) -> is_u64 (si_addr info) -> raises w sig info r ->
  owns_buffers w (w_kern w2) ->
  handle_signal sig info (entered (w <| w_regs := r |>)) = (inr (), w2) ->
  exists ios, simulates w w2 ios.
Proof using L.
  intros Hw Hok Hva Hr Hown.
  assert (w <| w_regs := w_regs w |> = w) as Ew by by destruct w.
  pose proof (safe_csr _ (live_safe _ Hw)) as Hp.
  destruct Hr as [info a7 Hcode Ha7 Ha|info n v Hill Hcode Hsz|info Hc|info a Ha Ht Hi Hcan Hram];
    rewrite ?Ew; intros H.
  - destruct (wf_mode _ Hp) as [Hm|Hm]; [exists []|].
    + by eapply simulate_uecall.
    + by eapply simulate_secall.
  - exists []. destruct (wf_mode _ Hp) as [Hm|Hm].
    + by eapply simulate_uillegal.
    + eapply simulate_sillegal; try done. cbn. by rewrite Hm.
  - exists []. by eapply simulate_alarm.
  - by eapply simulate_fault.
Qed.

Lemma signal_simulated w sig info r w' ios :
  live w -> is_u64 (si_addr info) -> raises w sig info r ->
  handler sig info (w <| w_regs := r |>) = (inr (), w') ->
  owns_buffers w (w_kern w') -> outputs (w_kern w) (w_kern w') ios ->
  asteps (view w) ios (view w') /\ same_fds (w_kern w) (w_kern w').
Proof using L.
  intros Hw Hva Hr H Hown Hio. pose proof (live_safe _ Hw) as [Hp Hg _ _].
  pose proof (raises_regs _ _ _ _ Hg Hr) as Hgr.
  set (w1 := w <| w_regs := r |>) in *.
  destruct (handler_frame sig info w1 w' Hva Hp Hgr (live_stub _ Hw) H) as (Hok & w2 & H2 & _ & Hv & Hc).
  change (w_kern w1) with (w_kern w) in Hok.
  destruct (handler_simulates w sig info r w2 Hw Hok Hva Hr (owns_prefix _ _ _ Hown Hc) H2)
    as [ios2 [(m2 & Hrun & Hm2) Hfds Hio2]].
  change (cfg_unmap w1) with (cfg_unmap w) in Hv.
  split; [|etrans; [apply (entered_calm w)|etrans; [exact Hfds|apply Hc]]].
  assert (ios = ios2) as ->.
  { refine (outputs_unique _ _ _ _ Hio _). rewrite <- (app_nil_r ios2).
    eapply outputs_trans; [|by apply outputs_calm]. change ios2 with ([] ++ ios2).
    eapply outputs_trans; [apply outputs_calm, entered_calm|exact Hio2]. }
  rewrite Hv. rewrite <- (app_nil_r ios2). eapply asteps_trans; [exact Hrun|].
  destruct Hm2 as [-> | [-> ->]]; [apply asteps_fin|apply asteps_fin_flushed].
Qed.

Lemma same_stub_ok w w' : same_stub w w' -> stub_ok (w_priv w) -> stub_ok (w_priv w').
Proof using. intros [H1 H2]. by apply stub_ok_fields. Qed.

(** The invariant after a step that keeps the descriptors. *)
Lemma live_next w w' :
  live w -> safe w' -> same_stub w w' -> same_fds (w_kern w) (w_kern w') -> live w'.
Proof using.
  intros Hw Hs Hst Hd. split; [done|by apply (same_stub_ok w), Hw| |].
  - unfold apart. rewrite !(same_fd _ _ _ Hd). apply Hw.
  - exact (same_len _ _ _ _ Hd (live_len _ Hw)).
Qed.

Lemma gstep_simulated w ios w' :
  live w -> gstep w ios w' -> live w' /\ asteps (view w) ios (view w').
Proof using L.
  intros Hw [r k m Hr Hp Hd _ Hn Hm|sig info r w1 ios' Hva Hraise H Hown Hio].
  - destruct (step_safe w (mk_world (w_priv w) r k) (live_safe _ Hw)) as [Hs Hst]; [by apply step_guest|].
    split; [by apply (live_next w)|]. rewrite Hm. by apply asteps_once, a_native.
  - destruct (signal_simulated _ _ _ _ _ _ Hw Hva Hraise H Hown Hio) as [Hrun Hfds].
    pose proof (live_safe _ Hw) as [Hp Hg Hc Hpages].
    destruct (step_safe (w <| w_regs := r |>) w1) as [Hs Hst].
    { split; [done|by eapply raises_regs|done|done]. }
    { apply (step_signal sig info); [done..|]. intros l fd buf n off res El Hin.
      apply (Hown l fd buf n off res El). by left. }
    split; [by apply (live_next w)|done].
Qed.

(** Runs of the process. *)
Inductive gsteps : world -> list io -> world -> Prop :=
| gsteps_refl w : gsteps w [] w
| gsteps_step w1 w2 w3 ios ios' :
    gstep w1 ios w2 -> gsteps w2 ios' w3 -> gsteps w1 (ios ++ ios') w3.

Lemma gsteps_simulated w ios w' :
  live w -> gsteps w ios w' -> live w' /\ asteps (view w) ios (view w').
Proof using L.
  intros Hw H. induction H as [|w1 w2 w3 ios ios' Hs _ IH]; [by split; [|apply asteps_refl]|].
  destruct (gstep_simulated _ _ _ Hw Hs) as [Hw2 H1]. destruct (IH Hw2) as [Hw3 H2].
  split; [done|]. by eapply asteps_trans.
Qed.

(** C1. The hypervisor implements the machine of Arch: every run of the process, by native
    steps of the guest and by signals with the runs of the handler they cause, is a run
    of that machine between what the guest sees before and after, with the same input
    and output on the console and the block device; and it ends in a state of the
    invariant. *)
Theorem hypervisor_refines w ios w' :
  live w -> gsteps w ios w' -> live w' /\ asteps (view w) ios (view w').
Proof using L. apply gsteps_simulated. Qed.
End correct.
