(* ===== verification/Bare.v ===== *)
(** * U-mode without translation

    The hypervisor does not support a guest that runs U-mode with translation
    off: entering U-mode empties the address space ([clear_vm]), and the
    first fetch, for which there is no page table to ask, ends the process
    ("someone turned off translation").  Such a guest, the test kernel among
    them, executes no instruction of its U-mode. *)

From S2P Require Import Prelude Bits State Machine Hoare Csr Trap Instr Linux PageWalk PageFault.
From S2P Require Import Block Handler Guest Isolation Hypervisor Arch Ecall Refine Simulation FaultSim Correct.

Section bare.
Context {K : Kernel} {V : KernelView K} {L : KernelLaws K V} {U : UserIsa}.

(** What the guest's instructions need: a translation of the program counter. *)
Context (fetched : forall m m', u_native m m' -> m_tlb m (m_pc m / 4096) <> None).

(** The guest is in U-mode at [pc0], with nothing mapped and no interrupt to
    come. *)
Record stalled (pc0 : Z) (w : world) : Prop := {
  st_live : live w;
  st_mode : m_mode (view w) = ModeU;
  st_pc : m_pc (view w) = pc0;
  st_bare : m_csr (view w) Satp / 2 ^ 60 = 0;
  st_timer : Z.testbit (m_csr (view w) Sie) STI = false;
  st_tlb q : m_tlb (view w) q = None;
}.

Lemma view_bare w : live w -> m_csr (view w) Satp / 2 ^ 60 = 0 ->
  get_satp_mode (satp (w_priv w)) = SATP_MODE_BARE.
Proof using.
  intros Hw H. rewrite get_satp_mode_div; [exact H|].
  exact (wf_words _ (safe_csr _ (live_safe _ Hw)) Satp).
Qed.

Lemma no_code m n v : (forall q, m_tlb m q = None) -> (0 < n)%nat -> ~ m_code m n v.
Proof using. intros Hq Hn Hc. specialize (Hc 0 ltac:(lia)). unfold mem_byte in Hc. by rewrite Hq in Hc. Qed.

(** A fault with translation off. *)
Lemma bare_fault_ends w info r :
  live w -> cfg_mmap_ok (w_kern w) -> m_csr (view w) Satp / 2 ^ 60 = 0 ->
  raises w SIGSEGV info r -> fst (handler SIGSEGV info (w <| w_regs := r |>)) = inl StopEbreak.
Proof using L.
  intros Hw Hok Hb Hr. inversion Hr as [| | |info' a Ha Ht Hi Hcan Hram]. subst info' r.
  assert (w <| w_regs := w_regs w |> = w) as -> by by destruct w.
  pose proof (run_sigsegv info a w Hok (fault_accesses w _ a Hw Hi)) as H.
  pose proof (bare_fault_stops (pf_cause a) (si_addr info) (faulted w) Hram (view_bare w Hw Hb)) as Hs.
  destruct (handle_page_fault _ _ _) as [o w2]. cbn in Hs. subst o.
  by rewrite (run_handler_stop _ _ _ _ _ Hok H).
Qed.

(** The frame of the handler when no interrupt is enabled. *)
Lemma fin_masked clear m : Z.testbit (m_csr m Sie) STI = false ->
  fin clear m = if clear then flush m else m.
Proof using. intros H. unfold fin, timer_pending. by rewrite H, andb_false_r. Qed.

Lemma stalled_alarm pc0 w info w' ios :
  stalled pc0 w -> is_u64 (si_addr info) -> si_code info = SI_TIMER -> live w' ->
  handler SIGALRM info w = (inr (), w') -> outputs (w_kern w) (w_kern w') ios ->
  ios = [] /\ stalled pc0 w'.
Proof using L.
  intros [Hw Hm Hpc Hb Ht Hq] Hva Hc Hw' H Hio. pose proof (live_safe _ Hw) as [Hp Hg Hcl _].
  destruct (handler_frame SIGALRM info w w' Hva Hp Hg (live_stub _ Hw) H) as (Hok & w2 & H2 & _ & Hv & Hcalm).
  pose proof (calm_run _ _ _ _ (calm_sigalrm info) H2) as Hcalm2.
  destruct (run_sigalrm info (entered w) Hc) as (k & E & Hpk & Hfk).
  rewrite E in H2. injection H2 as <-. cbn [w_kern w_priv] in *.
  split.
  { refine (outputs_unique _ _ _ _ Hio (outputs_calm _ _ _)).
    by rewrite (entered_calm w), Hcalm2. }
  set (w2 := mk_world (set_sti true (w_priv w)) (w_regs w) k) in *.
  change (view w' ≡ fin (should_clear_vm (w_priv w2)) (treated w w2)) in Hv.
  assert (view w' ≡ set_timer_pending true (view w)) as Ev.
  { rewrite Hv. rewrite (treated_frame w w2 Hok Hpk Hfk), fin_masked by exact Ht.
    change (should_clear_vm (w_priv w2)) with (should_clear_vm (w_priv w)). rewrite Hcl.
    by apply view_set_sti. }
  destruct Ev as [E1 E2 _ E4 _ _ _ E8]. split; [done|by rewrite E1|by rewrite E2| | |].
  - rewrite E4. exact Hb.
  - rewrite E4. exact Ht.
  - intros q. rewrite E8. apply Hq.
Qed.

Lemma stalled_step pc0 w ios w' : stalled pc0 w -> gstep w ios w' -> ios = [] /\ stalled pc0 w'.
Proof using L fetched.
  intros Hst Hs. pose proof Hst as [Hw Hm Hpc Hb Ht Hq].
  destruct (gstep_simulated w ios w' Hw Hs) as [Hw' _].
  destruct Hs as [r k m _ _ _ _ Hn _|sig info r w1 ios Hva Hr H Hown Hio].
  { apply fetched in Hn. by rewrite Hq in Hn. }
  destruct Hr as [info a7 Hc _ _|info n v _ Hc Hsz|info Hc|info a Ha Htl Hi Hcan Hram].
  - by apply (no_code _ 4 _ Hq) in Hc; [|lia].
  - apply (no_code _ n _ Hq) in Hc; [done|]. destruct Hsz as [_ [[-> _]|[-> _]]]; lia.
  - assert (w <| w_regs := w_regs w |> = w) as Ew by by destruct w. rewrite Ew in H.
    by apply (stalled_alarm pc0 w info).
  - exfalso. assert (cfg_mmap_ok (w_kern w)) as Hok.
    { pose proof (live_safe _ Hw) as [Hp Hg _ _].
      assert (w <| w_regs := w_regs w |> = w) as Ew by by destruct w. rewrite Ew in H.
      by destruct (handler_frame SIGSEGV info w w1 Hva Hp Hg (live_stub _ Hw) H). }
    pose proof (bare_fault_ends w info (w_regs w) Hw Hok Hb (raise_fault w info a Ha Htl Hi Hcan Hram)) as E.
    by rewrite H in E.
Qed.

Lemma stalled_steps pc0 w ios w' : stalled pc0 w -> gsteps w ios w' -> ios = [] /\ stalled pc0 w'.
Proof using L fetched.
  intros Hst H. induction H as [|w1 w2 w3 ios ios' Hs _ IH]; [done|].
  destruct (stalled_step _ _ _ _ Hst Hs) as [-> Hst2]. by apply IH.
Qed.

(** A run of the handler without input or output. *)
Lemma calm_live sig info w w' : live w -> is_u64 (si_addr info) ->
  handler sig info w = (inr (), w') -> calm (w_kern w) (w_kern w') -> live w'.
Proof using L.
  intros Hw Hva H (_ & Hd & l & El & Hq). destruct (step_safe w w' (live_safe _ Hw)) as [Hs Hst].
  { apply (step_signal sig info); [done..|]. intros l' fd buf n off r El' Hin. exfalso.
    rewrite El in El'. apply app_inv_head in El' as <-.
    rewrite Forall_forall in Hq. by specialize (Hq _ Hin). }
  by apply (live_next w).
Qed.

(** The sret of the S-mode guest. *)
Lemma sret_stalls info w w' :
  live w -> is_u64 (si_addr info) -> m_mode (view w) = ModeS -> m_csr (view w) Satp / 2 ^ 60 = 0 ->
  Z.testbit (m_csr (view w) Sie) STI = false -> Z.testbit (m_csr (view w) Sstatus) SPP = false ->
  m_code (view w) 4 sret_word -> handler SIGILL info w = (inr (), w') ->
  stalled (m_csr (view w) Sepc) w'.
Proof using L.
  intros Hw Hva Hms Hb Ht Hspp Hcode H. pose proof (live_safe _ Hw) as [Hp Hg Hcl _].
  destruct (handler_frame SIGILL info w w' Hva Hp Hg (live_stub _ Hw) H) as (Hok & w2 & H2 & _ & Hv & Hc).
  assert (live w') as Hw'.
  { apply (calm_live SIGILL info w); [done..|].
    by rewrite (entered_calm w), (calm_run _ _ _ _ (calm_sigill info) H2). }
  pose proof (mode_s w Hp Hms) as Hm.
  pose proof (code_view w 4 sret_word (live_safe _ Hw) (live_len _ Hw) ltac:(lia) Hcode) as Hat.
  rewrite run_sigill_word with (v := sret_word) in H2 by done.
  rewrite handle_sret, run_emulate_sret in H2. injection H2 as <-. cbn [w_priv w_regs w_kern] in *.
  set (p1 := (w_priv w) <| counter_ill := _ |>) in *.
  set (w2 := mk_world (sret_priv p1) (set_reg (w_regs w) 0 (sepc p1)) (w_kern (entered w))) in *.
  change (view w' ≡ fin (should_clear_vm (w_priv w2)) (treated w w2)) in Hv.
  assert (csr_wf p1) as Hp1 by by apply csr_wf_counter_ill.
  assert (view (mk_world (w_priv w2) (w_regs w2) (w_kern w)) ≡ arch_sret (view w)) as E2.
  { cbn [w_priv w_regs w2]. rewrite view_sret by done. apply arch_sret_proper, view_counter_ill. }
  assert (should_clear_vm (w_priv w2) = true) as Hc2.
  { cbn. change (sstatus p1) with (sstatus (w_priv w)). unfold get_sstatus_spp, SSTATUS_SPP_U.
    rewrite get_bit_testbit by done. by change (Z.testbit (sstatus (w_priv w)) 8 = false) in Hspp; rewrite Hspp. }
  assert (view w' ≡ flush (arch_sret (view w))) as Ev.
  { rewrite Hv, Hc2, (treated_frame w w2 Hok) by done.
    change (view _) with (view (mk_world (w_priv w2) (w_regs w2) (w_kern w))) at 1.
    rewrite E2. rewrite fin_masked; [reflexivity|exact Ht]. }
  destruct Ev as [E3 E4 _ E6 _ _ _ E8]. split; [done| | | | |].
  - rewrite E3. unfold arch_sret. cbn [m_mode flush]. by rewrite Hspp.
  - by rewrite E4.
  - rewrite E6. exact Hb.
  - rewrite E6. exact Ht.
  - intros q. by rewrite E8.
Qed.

(** C24. A guest that returns to U-mode with translation off, and with the timer interrupt
    disabled in sie, gets no further: through every run it stays at that program counter
    in U-mode without input or output, and its first fault stops the hypervisor. *)
Theorem bare_user_stops info w w1 ios w' :
  live w -> is_u64 (si_addr info) -> m_mode (view w) = ModeS ->
  m_csr (view w) Satp / 2 ^ 60 = 0 -> Z.testbit (m_csr (view w) Sie) STI = false ->
  Z.testbit (m_csr (view w) Sstatus) SPP = false ->
  m_code (view w) 4 sret_word -> handler SIGILL info w = (inr (), w1) -> gsteps w1 ios w' ->
  ios = [] /\ m_mode (view w') = ModeU /\ m_pc (view w') = m_csr (view w) Sepc /\
  (forall info r, cfg_mmap_ok (w_kern w') -> raises w' SIGSEGV info r ->
     fst (handler SIGSEGV info (w' <| w_regs := r |>)) = inl StopEbreak).
Proof using L fetched.
  intros Hw Hva Hms Hb Ht Hspp Hcode H Hsteps.
  pose proof (sret_stalls info w w1 Hw Hva Hms Hb Ht Hspp Hcode H) as Hst.
  destruct (stalled_steps _ _ _ _ Hst Hsteps) as [-> [H1 H2 H3 H4 _ _]].
  split_and!; try done. intros info' r Hok Hr. by apply bare_fault_ends.
Qed.
End bare.
