(* ===== verification/TestKernel.v ===== *)
(** * The test kernel

    Models the guest of test-kernel/: sbi.h, and [stvec], [umode],
    [kernel_main], [clear_bss] of test-kernel.c with the entry point of
    entry.S, as programs of the machine ([Arch]).  The instructions of the
    asm statements are data ([insn]) with a semantics ([exec]) that agrees
    with the machine's steps where they need a supervisor; the C code around
    the statements is Rocq code.  What the compiler and the linker choose
    (addresses, registers, compressed encodings) are parameters. *)

From stdpp Require Import functions.
From S2P Require Import Prelude Bits State Csr Trap Instr PageWalk PageFault Block Arch Refine.

#[local] Arguments Z.testbit : simpl never.
#[local] Arguments Z.pow : simpl never.
#[local] Arguments put_bit : simpl never.

(** ** Memory *)

(** The offset in RAM of a virtual address. *)
Definition ram_at (m : machine) (a : access) (va : Z) : option Z :=
  match translate m va with
  | TPage pa pte => if in_ram pa && permits a pte then Some (pa - RAM_START) else None
  | _ => None
  end.

(** A doubleword, aligned. *)
Definition load_d (m : machine) (va : Z) : option Z :=
  if va mod 8 =? 0 then o ← ram_at m Load va; Some (ram_le 8 (m_ram m) o) else None.

Definition put8 (o v : Z) (ram : Z -> Z) (x : Z) : Z :=
  if (o <=? x) && (x <? o + 8) then v / 2 ^ (8 * (x - o)) mod 2 ^ 8 else ram x.

Definition store_d (m : machine) (va v : Z) : option machine :=
  if va mod 8 =? 0
  then o ← ram_at m Store va; Some (m <| m_ram := put8 o v (m_ram m) |>) else None.

Definition store_b (m : machine) (va v : Z) : option machine :=
  o ← ram_at m Store va; Some (m <| m_ram := <[o := u8 v]> (m_ram m) |>).

(** ** Instructions *)

Inductive insn :=
| Addi (rd rs imm : Z)
| Ld (rd off rs : Z)
| Sd (rs2 off rs : Z)
| Csr (o : csr_op) (c : csr_id) (rs1 rd : Z)
| Ecall
| Sret.

(** The value a CSR takes when [v] is written. *)
Definition legal (c : csr_id) (old v : Z) : Z :=
  match c with
  | Sscratch | Sepc | Scause | Stval => v
  | Stvec => sanitize_stvec v
  | Sstatus => masked_write SSTATUS_WRITABLE_MASK old v
  | Sie | Sip => masked_write SIX_WRITABLE_MASK old v
  | Satp => if (v / 2 ^ 60 =? 8) || (v / 2 ^ 60 =? 0) then set_satp_asid v 0 else old
  end.

Lemma legal_warl c old v : is_u64 v -> warl c old v (legal c old v).
Proof.
  intros Hv. destruct c; [reflexivity| |reflexivity| | | |reflexivity|reflexivity|].
  - by apply sanitize_stvec_warl.
  - intros i Hi. by apply (masked_write_warl Sstatus).
  - intros i Hi. by apply (masked_write_warl Sie).
  - intros i Hi. by apply (masked_write_warl Sip).
  - unfold warl, legal. destruct (Z.eqb_spec (v / 2 ^ 60) 8); [|destruct (Z.eqb_spec (v / 2 ^ 60) 0)]; cbn [orb].
    + rewrite bool_decide_true by tauto. by apply set_satp_asid_warl.
    + rewrite bool_decide_true by tauto. by apply set_satp_asid_warl.
    + by rewrite bool_decide_false by tauto.
Qed.

Section exec.
(** The length of an instruction that has a compressed form, the time, and
    the answer of the console. *)
Context (len : insn -> Z) (now input : Z).

(** The SBI; a shutdown does not return. *)
Definition sbi (m : machine) : option (list io * machine) :=
  let a7 := m_x m 17 in
  if a7 =? sbi_putchar_id then Some ([Put (m_x m 10 mod 256)], sbi_return 0 m)
  else if a7 =? sbi_getchar_id then Some ([Get input], sbi_return input m)
  else if a7 =? sbi_set_timer_id
  then Some ([], sbi_return 0 (set_timer_pending (m_x m 10 <=? now) m))
  else if a7 =? sbi_shutdown_id then None
  else Some ([], sbi_return sbi_not_supported m).

Definition exec (i : insn) (m : machine) : option (list io * machine) :=
  match i with
  | Addi rd rs imm => Some ([], next (len i) (set_x rd (u64 (m_x m rs + imm)) m))
  | Ld rd off rs => v ← load_d m (u64 (m_x m rs + off)); Some ([], next (len i) (set_x rd v m))
  | Sd rs2 off rs => m' ← store_d m (u64 (m_x m rs + off)) (m_x m rs2); Some ([], next (len i) m')
  | Csr o c rs1 rd =>
      if is_s (m_mode m) then
        let m1 := next 4 (set_x rd (m_csr m c) m) in
        Some ([], match isa_csr o rs1 (m_csr m c) (m_x m rs1) with
                  | Some v => write_csr_arch c v (legal c (m_csr m c) v) m1
                  | None => m1
                  end)
      else None
  | Ecall => if is_s (m_mode m) then sbi m else Some ([], arch_trap SCAUSE_UECALL 0 m)
  | Sret => if is_s (m_mode m) then Some ([], arch_sret m) else None
  end.

(** Straight-line code, up to the instruction that leaves it. *)
Fixpoint run (code : list insn) (m : machine) : option (list io * machine) :=
  match code with
  | [] => Some ([], m)
  | i :: code =>
      '(ios, m1) ← exec i m;
      '(ios', m2) ← run code m1;
      Some (ios ++ ios', m2)
  end.

(** The words of the instructions that need a supervisor. *)
Definition word_of (i : insn) : option Z :=
  match i with
  | Csr o c rs1 rd =>
      if (0 <=? rs1) && (rs1 <? 32) && (0 <=? rd) && (rd <? 32)
      then Some (csr_word o false c rs1 rd) else None
  | Ecall => Some ecall_word
  | Sret => Some sret_word
  | _ => None
  end.

(** They are steps of the machine when their word is at the program counter. *)
Lemma exec_architecture `{U : UserIsa} i v m ios m' :
  (forall r, is_u64 (m_x m r)) -> (forall c, is_u64 (m_csr m c)) -> 0 <= input < 256 ->
  word_of i = Some v -> m_code m 4 v -> exec i m = Some (ios, m') -> astep m ios m'.
Proof using.
  intros Hx Hc Hin Hw Hcode. destruct i as [| | |o c rs1 rd| |]; try done; cbn [exec].
  - cbn [word_of] in Hw. destruct ((0 <=? rs1) && (rs1 <? 32) && (0 <=? rd) && (rd <? 32)) eqn:E; [|done].
    rewrite !andb_true_iff, !Z.leb_le, !Z.ltb_lt in E. injection Hw as <-.
    destruct (m_mode m) eqn:Hm; [done|]. intros [= <- <-].
    pose proof (a_csr m o false c rs1 rd) as Ha. cbv zeta in Ha. cbn [x_operand] in Ha.
    destruct (isa_csr o rs1 (m_csr m c) (m_x m rs1)) as [w|] eqn:Ei.
    + apply Ha; [done|lia|lia|done|]. apply legal_warl.
      exact (isa_csr_u64 _ _ _ _ _ (Hc c) (Hx rs1) Ei).
    + by apply (Ha (m_csr m c)); [|lia|lia| |].
  - injection Hw as <-. destruct (m_mode m) eqn:Hm; cbn.
    { intros [= <- <-]. by apply a_uecall. }
    unfold sbi. destruct (Z.eqb_spec (m_x m 17) sbi_putchar_id) as [E|H1]; [intros [= <- <-]; by apply a_putchar|].
    destruct (Z.eqb_spec (m_x m 17) sbi_getchar_id) as [E|H2]; [intros [= <- <-]; by apply a_getchar|].
    destruct (Z.eqb_spec (m_x m 17) sbi_set_timer_id) as [E|H3]; [intros [= <- <-]; by apply a_set_timer|].
    destruct (Z.eqb_spec (m_x m 17) sbi_shutdown_id) as [E|H4]; [done|]. intros [= <- <-].
    apply a_unknown; [done..|]. rewrite !elem_of_cons. intros [|[|[|[|Hi]]]]; try done.
    by apply not_elem_of_nil in Hi.
  - injection Hw as <-. destruct (m_mode m) eqn:Hm; [done|]. intros [= <- <-]. by apply a_sret.
Qed.
End exec.

(** ** Programs with translation off

    [has] names what a program's step can change. *)

Record has (m : machine) (md : mode) (x : Z -> Z) (c : csr_id -> Z) (ram : Z -> Z) (disk : Z -> Z) : Prop := {
  has_mode : m_mode m = md;
  has_x : m_x m = x;
  has_csr : m_csr m = c;
  has_ram : m_ram m = ram;
  has_disk : m_disk m = disk;
}.

Lemma has_self m : has m (m_mode m) (m_x m) (m_csr m) (m_ram m) (m_disk m).
Proof. done. Qed.

Lemma ram_at_bare m a va : m_csr m Satp = 0 ->
  ram_at m a va = if in_ram va then Some (va - RAM_START) else None.
Proof.
  intros H. unfold ram_at, translate. rewrite H. change (0 / 2 ^ 60 =? 8) with false. cbv iota.
  assert (permits a bare_pte = true) as -> by by destruct a. by rewrite andb_true_r.
Qed.

Lemma ram_le_ext n f g o : (forall i, o <= i < o + Z.of_nat n -> f i = g i) -> ram_le n f o = ram_le n g o.
Proof.
  revert o. induction n as [|n IH]; intros o H; cbn; [done|].
  rewrite (H o) by lia. rewrite IH; [done|]. intros i Hi. apply H. lia.
Qed.

Lemma ram_le_shift n f o d : ram_le n (fun i => f (i + d)) o = ram_le n f (o + d).
Proof.
  revert o. induction n as [|n IH]; intros o; cbn; [done|]. rewrite IH.
  by replace (o + 1 + d) with (o + d + 1) by lia.
Qed.

Lemma put8_same o v ram : is_u64 v -> ram_le 8 (put8 o v ram) o = v.
Proof.
  intros Hv. transitivity (ram_le 8 (fun i => v / 2 ^ (8 * (i + - o)) mod 2 ^ 8) o).
  - apply ram_le_ext. intros i Hi. unfold put8. rewrite (proj2 (Z.leb_le _ _)), (proj2 (Z.ltb_lt _ _)) by lia.
    by replace (i - o) with (i + - o) by lia.
  - rewrite (ram_le_shift 8 (fun i => v / 2 ^ (8 * i) mod 2 ^ 8)), ram_le_word by lia.
    replace (8 * (o + - o)) with 0 by lia. rewrite Z.pow_0_r, Z.div_1_r. by apply Z.mod_small.
Qed.

Lemma put8_other o v ram b : b + 8 <= o \/ o + 8 <= b -> ram_le 8 (put8 o v ram) b = ram_le 8 ram b.
Proof.
  intros H. apply ram_le_ext. intros i Hi. unfold put8.
  destruct (Z.leb_spec o i), (Z.ltb_spec i (o + 8)); done || lia.
Qed.

Lemma put8_outside o v ram x : ~ (o <= x < o + 8) -> put8 o v ram x = ram x.
Proof. intros H. unfold put8. destruct (Z.leb_spec o x), (Z.ltb_spec x (o + 8)); done || lia. Qed.

(** [sp] has [n] bytes of RAM above it. *)
Definition stack_room (sp n : Z) : Prop :=
  RAM_START <= sp /\ sp + n <= RAM_START + RAM_SIZE /\ sp mod 8 = 0.

Section programs.
Context (len : insn -> Z) (now input : Z).
#[local] Abbreviation exec := (exec len now input).
#[local] Abbreviation run := (run len now input).

Definition reaches (code : list insn) (m : machine) (Q : list io -> machine -> Prop) : Prop :=
  exists ios m', run code m = Some (ios, m') /\ Q ios m'.

Lemma reaches_nil m (Q : list io -> machine -> Prop) : Q [] m -> reaches [] m Q.
Proof using. intros H. by exists [], m. Qed.

Lemma reaches_cons i code m ios m1 (Q : list io -> machine -> Prop) :
  exec i m = Some (ios, m1) -> reaches code m1 (fun l => Q (ios ++ l)) -> reaches (i :: code) m Q.
Proof using.
  intros E (l & m2 & E2 & HQ). exists (ios ++ l), m2. split; [|done]. cbn [TestKernel.run].
  rewrite E. cbn. by rewrite E2.
Qed.

Lemma reaches_quiet i code m m1 (Q : list io -> machine -> Prop) :
  exec i m = Some ([], m1) -> reaches code m1 Q -> reaches (i :: code) m Q.
Proof using. intros E H. by eapply reaches_cons. Qed.

Lemma has_set_x i v m md x c ram disk : i <> 0 -> has m md x c ram disk ->
  has (set_x i v m) md (<[i := v]> x) c ram disk.
Proof using. intros Hi [<- <- <- <- <-]. unfold set_x. by rewrite (proj2 (Z.eqb_neq i 0) Hi). Qed.

Lemma has_next n m md x c ram disk : has m md x c ram disk -> has (next n m) md x c ram disk.
Proof using. by intros [<- <- <- <- <-]. Qed.

Section steps.
Context (code : list insn) (m : machine) (md : mode) (x : Z -> Z) (c : csr_id -> Z) (ram disk : Z -> Z).
Context (Q : list io -> machine -> Prop) (H : has m md x c ram disk).

Lemma reaches_addi rd rs imm : rd <> 0 ->
  (forall m', has m' md (<[rd := u64 (x rs + imm)]> x) c ram disk -> reaches code m' Q) ->
  reaches (Addi rd rs imm :: code) m Q.
Proof using H.
  intros Hrd Hk. eapply reaches_quiet; [reflexivity|]. apply Hk. apply has_next.
  rewrite (has_x _ _ _ _ _ _ H). by apply has_set_x.
Qed.

Lemma reaches_sd r off sp : c Satp = 0 -> x 2 = sp -> stack_room sp 512 -> 0 <= off < 512 -> off mod 8 = 0 ->
  (forall m', has m' md x c (put8 (sp + off - RAM_START) (x r) ram) disk -> reaches code m' Q) ->
  reaches (Sd r off 2 :: code) m Q.
Proof using H.
  intros Hc <- (H1 & H2 & H3) Ho Ha Hk. destruct H as [<- <- <- <- <-].
  assert (u64 (m_x m 2 + off) = m_x m 2 + off) as E.
  { apply u64_id. unfold is_u64, RAM_START in *. change RAM_SIZE with (4096 * 4096) in H2. lia. }
  assert (in_ram (m_x m 2 + off) = true) as Hr.
  { apply in_ram_spec. assert (off <= 504) by (Z.div_mod_to_equations; lia). lia. }
  eapply reaches_quiet; [|apply Hk].
  - cbn [TestKernel.exec]. rewrite E. unfold store_d. rewrite ram_at_bare, Hr by done.
    assert (((m_x m 2 + off) mod 8 =? 0) = true) as -> by (apply Z.eqb_eq; Z.div_mod_to_equations; lia).
    reflexivity.
  - by split.
Qed.

Lemma reaches_ld rd off sp v : c Satp = 0 -> x 2 = sp -> stack_room sp 512 -> 0 <= off < 512 -> off mod 8 = 0 ->
  rd <> 0 -> ram_le 8 ram (sp + off - RAM_START) = v ->
  (forall m', has m' md (<[rd := v]> x) c ram disk -> reaches code m' Q) ->
  reaches (Ld rd off 2 :: code) m Q.
Proof using H.
  intros Hc <- (H1 & H2 & H3) Ho Ha Hrd <- Hk. pose proof H as H'. destruct H as [<- <- <- <- <-].
  assert (u64 (m_x m 2 + off) = m_x m 2 + off) as E.
  { apply u64_id. unfold is_u64, RAM_START in *. change RAM_SIZE with (4096 * 4096) in H2. lia. }
  assert (in_ram (m_x m 2 + off) = true) as Hr.
  { apply in_ram_spec. assert (off <= 504) by (Z.div_mod_to_equations; lia). lia. }
  eapply reaches_quiet; [|apply Hk, has_next, has_set_x; [exact Hrd|exact H']].
  cbn [TestKernel.exec]. rewrite E. unfold load_d. rewrite ram_at_bare, Hr by done.
  assert (((m_x m 2 + off) mod 8 =? 0) = true) as -> by (apply Z.eqb_eq; Z.div_mod_to_equations; lia).
  reflexivity.
Qed.

(** csrr *)
Lemma reaches_csrr r d : md = ModeS -> d <> 0 ->
  (forall m', has m' md (<[d := c r]> x) c ram disk -> reaches code m' Q) ->
  reaches (Csr OpRS r 0 d :: code) m Q.
Proof using H.
  intros -> Hd Hk. eapply reaches_quiet; [|apply Hk, has_next, has_set_x; [exact Hd|exact H]].
  cbn [TestKernel.exec isa_csr]. by rewrite (has_mode _ _ _ _ _ _ H), (has_csr _ _ _ _ _ _ H).
Qed.

(** csrw and csrc, of registers other than satp *)
Lemma reaches_csrw o r rs v : md = ModeS -> r <> Satp -> isa_csr o rs (c r) (x rs) = Some v ->
  (forall m', has m' md x (<[r := legal r (c r) v]> c) ram disk -> reaches code m' Q) ->
  reaches (Csr o r rs 0 :: code) m Q.
Proof using H.
  intros -> Hr Hv Hk. destruct H as [Hm <- <- <- <-]. eapply reaches_quiet; [|apply Hk].
  - cbn [TestKernel.exec]. rewrite Hm, Hv. reflexivity.
  - unfold write_csr_arch, satp_switches. rewrite bool_decide_false by tauto. by split.
Qed.

Lemma reaches_putchar : md = ModeS -> x 17 = sbi_putchar_id ->
  (forall m', has m' md (<[10 := 0]> x) c ram disk ->
     reaches code m' (fun ios => Q (Put (x 10 mod 256) :: ios))) ->
  reaches (Ecall :: code) m Q.
Proof using H.
  intros -> H7 Hk. eapply reaches_cons.
  - cbn [TestKernel.exec]. rewrite (has_mode _ _ _ _ _ _ H). unfold sbi.
    by rewrite (has_x _ _ _ _ _ _ H), H7.
  - apply Hk. apply has_set_x; [done|]. by apply has_next.
Qed.

Lemma reaches_sret : md = ModeS ->
  (forall m', has m' (if Z.testbit (c Sstatus) SPP then ModeS else ModeU) x
     (<[Sstatus := put_bit SPP false (put_bit SPIE true
         (put_bit SIE (Z.testbit (c Sstatus) SPIE) (c Sstatus)))]> c) ram disk ->
     m_pc m' = c Sepc -> reaches code m' Q) ->
  reaches (Sret :: code) m Q.
Proof using H.
  intros -> Hk. destruct H as [Hm <- <- <- <-]. eapply reaches_quiet;
    [|apply (Hk (arch_sret m)); [by split|done]].
  cbn [TestKernel.exec]. by rewrite Hm.
Qed.
End steps.

(** ** stvec *)

#[local] Abbreviation sp := 2.
#[local] Abbreviation t0 := 5.
#[local] Abbreviation a0 := 10.
#[local] Abbreviation a7 := 17.

Definition stvec : list insn :=
  [Addi sp sp (-512);
   Sd t0 0 sp;
   Csr OpRS Sstatus 0 t0;
   Sd t0 8 sp;
   Csr OpRS Sepc 0 t0;
   Sd t0 16 sp;
   Sd a0 24 sp;
   Sd a7 32 sp;
   Addi a0 a0 3;
   Addi a7 0 1;
   Ecall;
   Ld a0 24 sp;
   Ld a7 32 sp;
   Ld t0 16 sp;
   Addi t0 t0 4;
   Csr OpRW Sepc t0 0;
   Ld t0 8 sp;
   Csr OpRW Sstatus t0 0;
   Ld t0 0 sp;
   Addi sp sp 512;
   Sret].

(** The machine is a supervisor's with translation off. *)
Record kernel_state (m : machine) : Prop := {
  ks_mode : m_mode m = ModeS;
  ks_bare : m_csr m Satp = 0;
  ks_x0 : m_x m 0 = 0;
  ks_words : (forall i, is_u64 (m_x m i)) /\ (forall c, is_u64 (m_csr m c));
  ks_user : Z.testbit (m_csr m Sstatus) SPP = false;
  ks_stack : stack_room (m_x m 2 - 512) 512;
}.

#[local] Ltac lookup := repeat first [rewrite fn_lookup_insert | rewrite fn_lookup_insert_ne by done].

Lemma masked_write_same mask s : is_u64 s -> masked_write mask s s = s.
Proof using.
  intros Hs. unfold masked_write. rewrite land_not64 by done. apply Z.bits_inj'. intros i Hi.
  rewrite Z.lor_spec, Z.land_spec, Z.ldiff_spec. by destruct (Z.testbit s i), (Z.testbit mask i).
Qed.

#[local] Ltac lookup_in Ha := repeat first
  [rewrite fn_lookup_insert in Ha | rewrite fn_lookup_insert_ne in Ha by done].

#[local] Ltac next_step Ha := let m := fresh "m" in clear Ha; intros m Ha; lookup_in Ha.

#[local] Ltac sd_step Ha :=
  eapply reaches_sd; [exact Ha|by lookup|lookup; reflexivity|eassumption|lia|done|]; next_step Ha.

#[local] Ltac ld_step Ha :=
  eapply reaches_ld; [exact Ha|by lookup|lookup; reflexivity|eassumption|lia|done|done
    |repeat first [rewrite put8_same by auto | rewrite put8_other by lia]; reflexivity|];
  next_step Ha.

(** The trap handler has returned: only sstatus, as sret leaves it, and forty
    bytes of stack are not as they were. *)
Record returned (m m' : machine) : Prop := {
  rt_hart : m_mode m' = ModeU /\ m_pc m' = u64 (m_csr m Sepc + 4);
  rt_x i : m_x m' i = m_x m i;
  rt_csr r : r <> Sepc -> r <> Sstatus -> m_csr m' r = m_csr m r;
  rt_sepc : m_csr m' Sepc = u64 (m_csr m Sepc + 4);
  rt_sstatus : m_csr m' Sstatus = m_csr (arch_sret m) Sstatus;
  rt_ram o : ~ (m_x m 2 - 512 <= o + RAM_START < m_x m 2 - 472) -> m_ram m' o = m_ram m o;
  rt_disk o : m_disk m' o = m_disk m o;
}.

Lemma run_stvec m : kernel_state m ->
  reaches stvec m (fun ios m' => ios = [Put (u8 (m_x m 10 + 3))] /\ returned m m').
Proof using.
  intros [Hm Hb Hx0 [Hx Hc] Hu Hs]. pose proof (has_self m) as Ha. rewrite Hm in Ha.
  set (x := m_x m) in *. set (c := m_csr m) in *. set (s := x 2 - 512) in *.
  assert (u64 (x 2 + -512) = s) as Es.
  { pose proof (Hx 2) as H2. pose proof Hs as (H1 & _ & _). unfold is_u64, RAM_START in *. apply u64_id. unfold is_u64. lia. }
  unfold stvec.
  eapply reaches_addi; [exact Ha|done|]. next_step Ha. rewrite Es in Ha.
  sd_step Ha. eapply reaches_csrr; [exact Ha|done|done|]. next_step Ha.
  sd_step Ha. eapply reaches_csrr; [exact Ha|done|done|]. next_step Ha.
  sd_step Ha. sd_step Ha. sd_step Ha.
  do 2 (eapply reaches_addi; [exact Ha|done|]; next_step Ha).
  rewrite Hx0 in Ha. eapply reaches_putchar; [exact Ha|done|by lookup|]. next_step Ha.
  ld_step Ha. ld_step Ha. ld_step Ha.
  eapply reaches_addi; [exact Ha|done|]. next_step Ha.
  eapply reaches_csrw; [exact Ha|done|done|cbn; lookup; reflexivity|]. next_step Ha.
  ld_step Ha.
  eapply reaches_csrw; [exact Ha|done|done|cbn; lookup; reflexivity|]. next_step Ha.
  ld_step Ha. eapply reaches_addi; [exact Ha|done|]. next_step Ha.
  eapply reaches_sret; [exact Ha|done|]. clear Ha. intros m' Ha Hpc. apply reaches_nil.
  assert (legal Sstatus (c Sstatus) (c Sstatus) = c Sstatus) as El by by apply masked_write_same.
  lookup_in Ha. rewrite El, Hu in Ha. lookup_in Hpc. change (m_pc m' = u64 (c Sepc + 4)) in Hpc.
  destruct Ha as [Hm' Hx' Hc' Hr' Hd']. split.
  { lookup. do 2 f_equal. unfold u8, u64. change (2 ^ 64) with (256 * 2 ^ 56).
    by rewrite Z.rem_mul_r, Z.mul_comm, Z.mod_add, Z.mod_mod by lia. }
  assert (u64 (s + 512) = x 2) as Ex.
  { unfold s. replace (x 2 - 512 + 512) with (x 2) by lia. by apply u64_id. }
  split; [done|..].
  - intros i. rewrite Hx', Ex. fold x. destruct (decide (i = 2)) as [->|]; [by lookup|].
    destruct (decide (i = 5)) as [->|]; [by lookup|].
    destruct (decide (i = 10)) as [->|]; [by lookup|].
    destruct (decide (i = 17)) as [->|]; [by lookup|]. by rewrite !fn_lookup_insert_ne by done.
  - intros r H1 H2. rewrite Hc'. by rewrite !fn_lookup_insert_ne by done.
  - rewrite Hc'. by lookup.
  - rewrite Hc'. by lookup.
  - intros o Ho. rewrite Hr'. fold x in Ho. rewrite !put8_outside by lia. done.
  - intros o. by rewrite Hd'.
Qed.

(** C34. The trap handler of the test kernel prints the byte three above a0 and returns
    behind the ecall to U-mode, with every register and CSR as before but sepc and the
    sstatus of sret, and nothing written but forty bytes below the stack pointer. *)
Theorem stvec_returns m : kernel_state m ->
  exists m', run stvec m = Some ([Put (u8 (m_x m 10 + 3))], m') /\ returned m m'.
Proof using.
  intros H. destruct (run_stvec m H) as (ios & m' & E & -> & Hr). by exists m'.
Qed.

(** ** sbi.h *)

(** The ecall with its operands in a7 and a0 to a2, and its result. *)
Definition sbi_call (which arg0 arg1 arg2 : Z) (m : machine) : option (list io * machine * Z) :=
  '(ios, m') ← exec Ecall (set_x a7 which (set_x 12 arg2 (set_x 11 arg1 (set_x a0 arg0 m))));
  Some (ios, m', m_x m' a0).

Definition sbi_console_putchar (c : Z) (m : machine) : option (list io * machine) :=
  '(ios, m', _) ← sbi_call sbi_putchar_id c 0 0 m; Some (ios, m').

(** The function has no [return]: it gives its caller nothing. *)
Definition sbi_console_getchar (m : machine) : option (list io * machine) :=
  '(ios, m', _) ← sbi_call sbi_getchar_id 0 0 0 m; Some (ios, m').

(** Should the call return, [for (;;)] does not. *)
Definition sbi_shutdown (m : machine) : option (list io * machine) :=
  sbi_call sbi_shutdown_id 0 0 0 m;; None.

Lemma sbi_call_x m which a b d : has
  (set_x a7 which (set_x 12 d (set_x 11 b (set_x a0 a m)))) (m_mode m)
  (<[17 := which]> (<[12 := d]> (<[11 := b]> (<[10 := a]> (m_x m))))) (m_csr m) (m_ram m) (m_disk m).
Proof using. by split. Qed.

Lemma sbi_call_returns m which arg0 arg1 arg2 : m_mode m = ModeS ->
  which = sbi_putchar_id \/ which = sbi_getchar_id ->
  exists m', sbi_call which arg0 arg1 arg2 m =
    Some ([if which =? sbi_putchar_id then Put (u8 arg0) else Get input], m',
          if which =? sbi_putchar_id then 0 else input) /\
    m_mode m' = ModeS /\ m_csr m' = m_csr m /\ m_ram m' = m_ram m /\
    (forall i, i <> 10 -> i <> 11 -> i <> 12 -> i <> 17 -> m_x m' i = m_x m i).
Proof using.
  intros Hm Hw. pose proof (sbi_call_x m which arg0 arg1 arg2) as Hx. unfold sbi_call.
  cbn [TestKernel.exec]. rewrite (has_mode _ _ _ _ _ _ Hx), Hm. cbn [is_s]. unfold sbi.
  rewrite (has_x _ _ _ _ _ _ Hx). lookup.
  destruct Hw as [-> | ->]; eexists; (split; [reflexivity|]); split_and!; try done;
    intros i H1 H2 H3 H4; cbn; by rewrite !fn_lookup_insert_ne by done.
Qed.

Lemma sbi_shutdown_stops m : sbi_shutdown m = None.
Proof using. unfold sbi_shutdown. by destruct (sbi_call _ _ _ _ m). Qed.

(** ** bss *)

Fixpoint clear_from (n : nat) (p : Z) (m : machine) : option machine :=
  match n with
  | O => Some m
  | S n => m' ← store_b m p 0; clear_from n (p + 1) m'
  end.

(** From the linker's [sbss] up to [ebss]. *)
Definition clear_bss (sbss ebss : Z) (m : machine) : option machine :=
  clear_from (Z.to_nat (ebss - sbss)) sbss m.

Lemma clear_from_spec n p m :
  m_csr m Satp = 0 -> RAM_START <= p -> p + Z.of_nat n <= RAM_START + RAM_SIZE ->
  exists ram, clear_from n p m = Some (m <| m_ram := ram |>) /\
    forall o, ram o = if (p <=? o + RAM_START) && (o + RAM_START <? p + Z.of_nat n) then 0 else m_ram m o.
Proof using.
  revert p m. induction n as [|n IH]; intros p m Hb Hp Hn; cbn [clear_from].
  - exists (m_ram m). split; [by destruct m|]. intros o.
    destruct (Z.leb_spec p (o + RAM_START)), (Z.ltb_spec (o + RAM_START) (p + Z.of_nat 0)); done || lia.
  - unfold store_b. rewrite ram_at_bare by done.
    rewrite (proj2 (in_ram_spec p)) by lia. cbn [mbind option_bind].
    set (m1 := m <| m_ram := <[p - RAM_START := u8 0]> (m_ram m) |>).
    destruct (IH (p + 1) m1) as (ram & E & Hr); [done|lia|lia|].
    exists ram. split; [rewrite E; done|]. intros o. rewrite Hr.
    change (m_ram m1) with (<[p - RAM_START := u8 0]> (m_ram m)).
    destruct (decide (p - RAM_START = o)) as [<-|Hne].
    + rewrite fn_lookup_insert. destruct (_ && _); [|]; rewrite ?andb_true_iff.
      all: destruct (Z.leb_spec p (p - RAM_START + RAM_START)),
        (Z.ltb_spec (p - RAM_START + RAM_START) (p + Z.of_nat (S n))); done || lia.
    + rewrite fn_lookup_insert_ne by done.
      destruct (Z.leb_spec (p + 1) (o + RAM_START)), (Z.ltb_spec (o + RAM_START) (p + 1 + Z.of_nat n)),
        (Z.leb_spec p (o + RAM_START)), (Z.ltb_spec (o + RAM_START) (p + Z.of_nat (S n))); done || lia.
Qed.

(** ** umode and kernel_main

    The linker's addresses: [stvec_at] and [umode_at] of the functions,
    [ecall_at] of the asm statement of [umode], [stack_top] of the boot
    stack.  The compiler's registers: [data] for the operand of that
    statement, [v1] to [v3] for those of [kernel_main], [ra] for the call. *)
Context (stvec_at umode_at ecall_at stack_top data v1 v2 v3 ret : Z).

Definition text : list Z := string_bytes "I wrote this with ecall from user mode" ++ [10].

(** The C string, with its end. *)
Definition str : list Z := text ++ [0].

(** One turn of the inner loop: [c - 3] goes to the kernel's [stvec].  The
    pointer [p] is the list: it is kept where the asm statement and [stvec]
    leave it alone.  The statement writes a0 without declaring it, so a
    compiler that kept [p] in a0 would be free to lose it. *)
Definition umode_char (c : Z) (m : machine) : option (list io * machine) :=
  let m := (set_x data (u64 (c - 3)) m) <| m_pc := ecall_at |> in
  '(l1, m1) ← run [Addi a0 data 0; Ecall] m;
  if m_pc m1 =? stvec_at then '(l2, m2) ← run stvec m1; Some (l1 ++ l2, m2) else None.

(** [for (p = str; *p; p++)] *)
Fixpoint umode_chars (p : list Z) (m : machine) : option (list io * machine) :=
  match p with
  | [] => None
  | c :: p =>
      if c =? 0 then Some ([], m)
      else '(l1, m1) ← umode_char c m; '(l2, m2) ← umode_chars p m1; Some (l1 ++ l2, m2)
  end.

(** [n] turns of [while (1)] *)
Fixpoint umode (n : nat) (m : machine) : option (list io * machine) :=
  match n with
  | O => Some ([], m)
  | S n => '(l1, m1) ← umode_chars str m; '(l2, m2) ← umode n m1; Some (l1 ++ l2, m2)
  end.

Definition kernel_main (m : machine) : option (list io * machine) :=
  '(l1, m) ← run [Csr OpRC Sstatus v1 0] (set_x v1 MASK_sstatus_spp m);
  '(l2, m) ← run [Csr OpRW Stvec v2 0] (set_x v2 stvec_at m);
  '(l3, m) ← run [Csr OpRW Sepc v3 0] (set_x v3 umode_at m);
  '(l4, m) ← run [Sret] m;
  Some (l1 ++ l2 ++ l3 ++ l4, m).

Definition start (m : machine) : option (list io * machine) :=
  kernel_main (set_x 1 ret (set_x sp stack_top m)).

(** The whole kernel, up to the [n]-th turn of its endless loop. *)
Definition test_kernel (n : nat) (m : machine) : option (list io * machine) :=
  '(l1, m1) ← start m;
  if (m_pc m1 =? umode_at) && negb (is_s (m_mode m1))
  then '(l2, m2) ← umode n m1; Some (l1 ++ l2, m2) else None.

(** [stvec] is where the vector's mode bits leave it. *)
Context (Hstvec : is_u64 stvec_at /\ stvec_at mod 4 = 0).
Context (Hdata : data <> 0 /\ data <> 2).
Context (Hecall : is_u64 ecall_at).

Record user_state (m : machine) : Prop := {
  us_mode : m_mode m = ModeU;
  us_bare : m_csr m Satp = 0;
  us_x0 : m_x m 0 = 0;
  us_words : (forall i, is_u64 (m_x m i)) /\ (forall c, is_u64 (m_csr m c));
  us_stvec : m_csr m Stvec = stvec_at;
  us_stack : stack_room (m_x m 2 - 512) 512;
}.

Lemma set_x_u64 i v m j : is_u64 v -> (forall k, is_u64 (m_x m k)) -> is_u64 (m_x (set_x i v m) j).
Proof using.
  intros Hv Hm. unfold set_x. cbn. destruct (i =? 0); [done|]. destruct (decide (i = j)) as [<-|].
  - by rewrite fn_lookup_insert.
  - by rewrite fn_lookup_insert_ne.
Qed.

(** A trap of the user's leads to [stvec] in a state of the kernel. *)
Lemma trap_to_stvec m : user_state m -> is_u64 (m_pc m) ->
  kernel_state (arch_trap SCAUSE_UECALL 0 m) /\ m_pc (arch_trap SCAUSE_UECALL 0 m) = stvec_at /\
  m_csr (arch_trap SCAUSE_UECALL 0 m) Stvec = stvec_at.
Proof using Hstvec.
  clear Hdata Hecall. intros [Hm Hb H0 [Hx Hc] Hs Hst] Hpc. pose proof (Hc Sstatus) as Hss.
  split; [|split; [|exact Hs]].
  - split; [done|exact Hb|done| | |done].
    + split; [done|]. intros r.
      destruct r; cbn; rewrite ?csr_insert_ne, ?fn_lookup_insert by done; try apply Hc; try done.
      by repeat apply put_bit_u64.
    + cbn. rewrite csr_insert_ne, csr_insert_ne, csr_insert_ne, fn_lookup_insert by done.
      unfold SIE, SPIE, SPP. rewrite !testbit_put_bit by done. cbn. by rewrite Hm.
  - cbn. rewrite Hs. unfold isa_vector. destruct Hstvec as [_ H4]. rewrite H4.
    rewrite bool_decide_false by done. cbn. Z.div_mod_to_equations. lia.
Qed.

(** ... and back. *)
Lemma returned_user m m' : kernel_state m -> m_csr m Stvec = stvec_at -> returned m m' -> user_state m'.
Proof using.
  intros [Hm Hb H0 [Hx Hc] Hu Hst] Hs [[Hm' _] Hx' Hr He Ht _ _]. split; try done.
  - by rewrite Hr.
  - by rewrite Hx'.
  - split; [intros i; by rewrite Hx'|]. intros r. destruct (decide (r = Sepc)) as [->|].
    { rewrite He. apply u64_range. }
    destruct (decide (r = Sstatus)) as [->|]; [|by rewrite Hr]. rewrite Ht. cbn.
    rewrite fn_lookup_insert. by repeat apply put_bit_u64.
  - by rewrite Hr.
  - by rewrite Hx'.
Qed.

Lemma run_umode_char c m : user_state m -> 0 <= c < 256 ->
  exists m', umode_char c m = Some ([Put c], m') /\ user_state m'.
Proof using Hstvec Hdata Hecall.
  intros Hus Hr. pose proof Hus as [Hm Hb H0 [Hx Hc] Hs Hst]. unfold umode_char.
  set (m0 := (set_x data (u64 (c - 3)) m) <| m_pc := ecall_at |>).
  set (m1 := next (len (Addi a0 data 0)) (set_x a0 (u64 (m_x m0 data + 0)) m0)).
  assert (run [Addi a0 data 0; Ecall] m0 = Some ([], arch_trap SCAUSE_UECALL 0 m1)) as ->.
  { cbn. by rewrite Hm. }
  cbn [mbind option_bind]. destruct Hdata as [Hd0 Hd2].
  assert (m_x m0 = <[data := u64 (c - 3)]> (m_x m)) as E0.
  { cbn. by rewrite (proj2 (Z.eqb_neq data 0) Hd0). }
  assert (m_x m1 = <[10 := u64 (c - 3)]> (<[data := u64 (c - 3)]> (m_x m))) as E1.
  { change (m_x m1) with (<[10 := u64 (m_x m0 data + 0)]> (m_x m0)). rewrite E0, fn_lookup_insert.
    by rewrite Z.add_0_r, (u64_id (u64 _)) by apply u64_range. }
  assert (user_state m1) as Hus1.
  { split; try done.
    - rewrite E1. by rewrite !fn_lookup_insert_ne by done.
    - split; [|done]. intros i. apply set_x_u64; [apply u64_range|]. intros k.
      apply set_x_u64; [apply u64_range|done].
    - rewrite E1. by rewrite !fn_lookup_insert_ne by done. }
  destruct (trap_to_stvec m1 Hus1 (u64_range _)) as (Hks & Hpc & Hsv).
  rewrite Hpc, Z.eqb_refl. destruct (run_stvec _ Hks) as (ios & m' & E & -> & Hret). rewrite E.
  exists m'. split; [|by eapply returned_user].
  change (m_x (arch_trap SCAUSE_UECALL 0 m1)) with (m_x m1). rewrite E1, fn_lookup_insert.
  cbn. do 4 f_equal. unfold u8, u64. change (2 ^ 64) with (256 * 2 ^ 56). change (2 ^ 8) with 256.
  rewrite Z.rem_mul_r by lia. generalize ((c - 3) / 256 mod 2 ^ 56). intros q.
  Z.div_mod_to_equations. lia.
Qed.

Lemma run_umode_chars p m : Forall (fun c => 0 < c < 256) p -> user_state m ->
  exists m', umode_chars (p ++ [0]) m = Some (Put <$> p, m') /\ user_state m'.
Proof using Hstvec Hdata Hecall.
  intros Hp. revert m. induction Hp as [|c p Hc _ IH]; intros m Hm; [by exists m|].
  cbn [umode_chars app]. rewrite (proj2 (Z.eqb_neq c 0)) by lia.
  destruct (run_umode_char c m Hm) as (m1 & E1 & Hm1); [lia|].
  destruct (IH m1 Hm1) as (m2 & E2 & Hm2). exists m2. split; [|done].
  rewrite E1. cbn. by rewrite E2.
Qed.

Lemma text_chars : Forall (fun c => 0 < c < 256) text.
Proof using. by repeat constructor. Qed.

Lemma run_umode n m : user_state m ->
  exists m', umode n m = Some (concat (replicate n (Put <$> text)), m') /\ user_state m'.
Proof using Hstvec Hdata Hecall.
  revert m. induction n as [|n IH]; intros m Hm; [by exists m|]. cbn [umode replicate concat].
  destruct (run_umode_chars text m text_chars Hm) as (m1 & E1 & Hm1).
  destruct (IH m1 Hm1) as (m2 & E2 & Hm2). exists m2. split; [|done].
  unfold str. rewrite E1. cbn [mbind option_bind]. by rewrite E2.
Qed.

Context (Hregs : Forall (fun r => r <> 0 /\ r <> 2) [v1; v2; v3]) (Humode : is_u64 umode_at).
Context (Hstack : stack_room (stack_top - 512) 512) (Hret : is_u64 ret).

Lemma run_statement code m md x c ram disk i v (P : machine -> Prop) :
  has m md x c ram disk -> i <> 0 ->
  (forall m0, has m0 md (<[i := v]> x) c ram disk -> reaches code m0 (fun ios m' => ios = [] /\ P m')) ->
  exists m', run code (set_x i v m) = Some ([], m') /\ P m'.
Proof using.
  intros Hm Hi H. destruct (H (set_x i v m)) as (ios & m' & E & -> & HP); [by apply has_set_x|].
  by exists m'.
Qed.

(** sstatus after the csrc. *)
Lemma csrc_sstatus s : is_u64 s ->
  let s' := legal Sstatus s (Z.ldiff s MASK_sstatus_spp) in
  is_u64 s' /\ Z.testbit s' SPP = false.
Proof using.
  clear. intros Hs s'. split.
  - apply masked_write_u64. rewrite <- land_not64 by done. auto with words.
  - unfold s', legal. rewrite (masked_write_warl Sstatus _ _ _ SPP eq_refl) by done.
    replace (bool_decide _) with true by (by vm_compute). cbv iota.
    rewrite Z.ldiff_spec. by rewrite andb_false_r.
Qed.

Lemma stvec_legal old : legal Stvec old stvec_at = stvec_at.
Proof using Hstvec.
  destruct Hstvec as [Hu H4]. unfold legal. rewrite sanitize_stvec_spec, H4, bool_decide_true by done.
  clear - H4. Z.div_mod_to_equations. lia.
Qed.

Lemma run_kernel_main m :
  m_mode m = ModeS -> m_csr m Satp = 0 -> m_x m 0 = 0 ->
  (forall i, is_u64 (m_x m i)) -> (forall c, is_u64 (m_csr m c)) -> stack_room (m_x m 2 - 512) 512 ->
  exists m', kernel_main m = Some ([], m') /\ user_state m' /\ m_pc m' = umode_at.
Proof using Hstvec Hregs Humode.
  intros Hm Hb H0 Hx Hc Hst. unfold kernel_main. pose proof (has_self m) as H. rewrite Hm in H.
  apply Forall_cons in Hregs as [[Hv1 Hv1'] [[Hv2 Hv2'] [[Hv3 Hv3'] _]%Forall_cons]%Forall_cons].
  set (x := m_x m) in *. set (c := m_csr m) in *.
  pose proof (csrc_sstatus (c Sstatus) (Hc Sstatus)) as [Hs1 Hspp].
  set (s1 := legal Sstatus (c Sstatus) (Z.ldiff (c Sstatus) MASK_sstatus_spp)) in *.
  destruct (run_statement [Csr OpRC Sstatus v1 0] m ModeS x c _ _ v1 MASK_sstatus_spp
    (fun m' => has m' ModeS (<[v1 := MASK_sstatus_spp]> x) (<[Sstatus := s1]> c) (m_ram m) (m_disk m)) H Hv1)
    as (m1 & -> & H1).
  { intros m0 Ha. eapply reaches_csrw; [exact Ha|done|done| |].
    - cbn. rewrite (proj2 (Z.eqb_neq v1 0) Hv1). by lookup.
    - intros m' Hm'. by apply reaches_nil. }
  cbn [mbind option_bind].
  destruct (run_statement [Csr OpRW Stvec v2 0] m1 _ _ _ _ _ v2 stvec_at
    (fun m' => has m' ModeS (<[v2 := stvec_at]> (<[v1 := MASK_sstatus_spp]> x))
       (<[Stvec := stvec_at]> (<[Sstatus := s1]> c)) (m_ram m) (m_disk m)) H1 Hv2) as (m2 & -> & H2).
  { intros m0 Ha. eapply reaches_csrw; [exact Ha|done|done|cbn; lookup; reflexivity|].
    intros m' Hm'. rewrite stvec_legal in Hm'. by apply reaches_nil. }
  cbn [mbind option_bind].
  destruct (run_statement [Csr OpRW Sepc v3 0] m2 _ _ _ _ _ v3 umode_at
    (fun m' => has m' ModeS (<[v3 := umode_at]> (<[v2 := stvec_at]> (<[v1 := MASK_sstatus_spp]> x)))
       (<[Sepc := umode_at]> (<[Stvec := stvec_at]> (<[Sstatus := s1]> c))) (m_ram m) (m_disk m)) H2 Hv3)
    as (m3 & -> & H3).
  { intros m0 Ha. eapply reaches_csrw; [exact Ha|done|done|cbn; lookup; reflexivity|].
    intros m' Hm'. by apply reaches_nil. }
  cbn [mbind option_bind].
  destruct (reaches_sret [] m3 _ _ _ _ _ (fun ios m' => ios = [] /\ user_state m' /\ m_pc m' = umode_at)
    H3 eq_refl) as (ios & m4 & -> & -> & Hus).
  2: { exists m4. split; [reflexivity|done]. }
  intros m4 H4 Hpc. apply reaches_nil. split; [done|]. split; [|rewrite Hpc; by lookup].
  revert H4. lookup. rewrite Hspp. intros [E1 E2 E3 _ _].
  assert (forall i v f, is_u64 v -> (forall k, is_u64 (f k)) -> forall j, is_u64 ((<[i := v]> f : Z -> Z) j)) as Hins.
  { intros i v f Hv Hf j. destruct (decide (i = j)) as [<-|]; [by rewrite fn_lookup_insert|].
    by rewrite fn_lookup_insert_ne. }
  split.
  - done.
  - rewrite E3. by lookup.
  - rewrite E2. by rewrite !fn_lookup_insert_ne by done.
  - split; [intros i; rewrite E2; repeat apply Hins; try done; by apply Hstvec|].
    intros r. rewrite E3. destruct r; lookup; try apply Hc; try done; [by apply Hstvec|].
    by repeat apply put_bit_u64.
  - rewrite E3. by lookup.
  - rewrite E2. by rewrite !fn_lookup_insert_ne by done.
Qed.

(** C33. The test kernel on the machine: started in S-mode without translation, with stvec
    at a multiple of four, it enters U-mode and each turn of its loop prints the string
    once, by ecalls from U-mode that its trap handler forwards to the SBI. *)
Theorem test_kernel_prints n m :
  m_mode m = ModeS -> m_csr m Satp = 0 -> m_x m 0 = 0 ->
  (forall i, is_u64 (m_x m i)) -> (forall c, is_u64 (m_csr m c)) ->
  exists m', test_kernel n m = Some (concat (replicate n (Put <$> text)), m').
Proof using All.
  intros Hm Hb H0 Hx Hc. unfold test_kernel, start. set (m0 := set_x 1 ret (set_x sp stack_top m)).
  assert (is_u64 stack_top) as Htop.
  { destruct Hstack as (H1 & H2 & _). clear - H1 H2. unfold is_u64, RAM_START in *.
    change RAM_SIZE with (4096 * 4096) in H2. lia. }
  destruct (run_kernel_main m0) as (m1 & -> & Hus & Hpc); [done|done|done| |done|exact Hstack|].
  { intros i. apply set_x_u64; [done|]. intros k. by apply set_x_u64. }
  cbn [mbind option_bind]. rewrite Hpc, Z.eqb_refl, (us_mode _ Hus). cbn [is_s negb andb bool_decide].
  destruct (run_umode n m1 Hus) as (m2 & E & _). exists m2. by rewrite E.
Qed.
End programs.
