(* ===== verification/Seccomp.v ===== *)
(** * The seccomp filter

    Models [gen_addr_filter] of seccomp-bpf.c.  The filter runs in the kernel:
    the BPF machine is the class [Bpf], and [BpfLaws] states the documented
    behaviour of the five kinds of instruction the filter uses (bpf(4),
    seccomp(2)). *)

From S2P Require Import Prelude Bits State Machine.

(** ** The code *)

(** [struct sock_filter]: code, jt, jf, k. *)
Abbreviation sock_filter := (Z * Z * Z * Z)%type (only parsing).

(** linux/bpf_common.h, linux/seccomp.h *)
Definition BPF_LD : Z := 0x00.
Definition BPF_W : Z := 0x00.
Definition BPF_ABS : Z := 0x20.
Definition BPF_JMP : Z := 0x05.
Definition BPF_JEQ : Z := 0x10.
Definition BPF_JGT : Z := 0x20.
Definition BPF_JGE : Z := 0x30.
Definition BPF_RET : Z := 0x06.
Definition BPF_K : Z := 0x00.
Definition SECCOMP_RET_ALLOW : Z := 0x7fff0000.
Definition SECCOMP_RET_TRAP : Z := 0x00030000.

Definition BPF_STMT (code k : Z) : sock_filter := (code, 0, 0, k).
Definition BPF_JUMP (code k jt jf : Z) : sock_filter := (code, jt, jf, k).

(** [offsetof(struct seccomp_data, instruction_pointer)], and its high word. *)
Definition SC_IP_LOW : Z := 8.
Definition SC_IP_HIGH : Z := SC_IP_LOW + 4.

Definition load_high : sock_filter := BPF_STMT (Z.lor (Z.lor BPF_LD BPF_W) BPF_ABS) SC_IP_HIGH.
Definition load_low : sock_filter := BPF_STMT (Z.lor (Z.lor BPF_LD BPF_W) BPF_ABS) SC_IP_LOW.

(** The instructions written to [out], and the number returned. *)
Definition gen_addr_filter (start_addr end_addr : Z) : list sock_filter * Z :=
  let start_addr_high := u32 (Z.shiftr start_addr 32) in
  let start_addr_low := u32 start_addr in
  let end_addr_high := u32 (Z.shiftr end_addr 32) in
  let end_addr_low := u32 end_addr in
  let filt := [
    load_high;
    BPF_JUMP (Z.lor BPF_JMP BPF_JEQ) start_addr_high 0 2;
    load_low;
    BPF_JUMP (Z.lor BPF_JMP BPF_JGE) start_addr_low 1 7;
    BPF_JUMP (Z.lor BPF_JMP BPF_JGT) start_addr_high 0 6;
    load_high;
    BPF_JUMP (Z.lor BPF_JMP BPF_JEQ) end_addr_high 0 2;
    load_low;
    BPF_JUMP (Z.lor BPF_JMP BPF_JGE) end_addr_low 2 1;
    BPF_JUMP (Z.lor BPF_JMP BPF_JGT) end_addr_high 1 0;
    BPF_STMT (Z.lor BPF_RET BPF_K) SECCOMP_RET_ALLOW;
    BPF_STMT (Z.lor BPF_RET BPF_K) SECCOMP_RET_TRAP ] in
  (filt, Z.of_nat (length filt)).

(** ** The BPF machine *)

(** [bpf prog data pc acc] is the value a filter returns on the words of
    [struct seccomp_data], from instruction [pc] with accumulator [acc]. *)
Class Bpf := bpf : list sock_filter -> (Z -> Z) -> nat -> Z -> option Z.

Class BpfLaws (B : Bpf) : Prop := {
  bpf_ld prog data pc acc k :
    prog !! pc = Some (BPF_STMT (Z.lor (Z.lor BPF_LD BPF_W) BPF_ABS) k) ->
    bpf prog data pc acc = bpf prog data (S pc) (data k);
  bpf_jeq prog data pc acc k jt jf :
    prog !! pc = Some (BPF_JUMP (Z.lor BPF_JMP BPF_JEQ) k jt jf) ->
    bpf prog data pc acc = bpf prog data (S pc + Z.to_nat (if acc =? k then jt else jf)) acc;
  bpf_jgt prog data pc acc k jt jf :
    prog !! pc = Some (BPF_JUMP (Z.lor BPF_JMP BPF_JGT) k jt jf) ->
    bpf prog data pc acc = bpf prog data (S pc + Z.to_nat (if k <? acc then jt else jf)) acc;
  bpf_jge prog data pc acc k jt jf :
    prog !! pc = Some (BPF_JUMP (Z.lor BPF_JMP BPF_JGE) k jt jf) ->
    bpf prog data pc acc = bpf prog data (S pc + Z.to_nat (if k <=? acc then jt else jf)) acc;
  bpf_ret prog data pc acc k :
    prog !! pc = Some (BPF_STMT (Z.lor BPF_RET BPF_K) k) -> bpf prog data pc acc = Some k;
}.

(** ** An executable machine *)

Fixpoint bpf_steps (fuel : nat) (prog : list sock_filter) (data : Z -> Z) (pc : nat) (acc : Z)
    : option Z :=
  match fuel with
  | O => None
  | S fuel =>
      '(code, jt, jf, k) ← prog !! pc;
      let jump (b : bool) := bpf_steps fuel prog data (S pc + Z.to_nat (if b then jt else jf)) acc in
      if code =? 0x20 then bpf_steps fuel prog data (S pc) (data k)
      else if code =? 0x15 then jump (acc =? k)
      else if code =? 0x25 then jump (k <? acc)
      else if code =? 0x35 then jump (k <=? acc)
      else if code =? 0x06 then Some k
      else None
  end.

(** Jumps are forward, so the length of the program bounds the steps. *)
#[export] Instance model_bpf : Bpf := fun prog data pc acc =>
  bpf_steps (length prog - pc) prog data pc acc.

Lemma bpf_steps_fuel fuel fuel' prog data pc acc :
  (length prog - pc <= fuel)%nat -> (length prog - pc <= fuel')%nat ->
  bpf_steps fuel prog data pc acc = bpf_steps fuel' prog data pc acc.
Proof.
  revert fuel' pc acc. induction fuel as [|fuel IH]; intros [|fuel'] pc acc H H'; [done| | |].
  1,2: cbn; by rewrite lookup_ge_None_2 by lia.
  cbn [bpf_steps]. destruct (prog !! pc) as [[[[code jt] jf] k]|] eqn:E; [|done].
  apply lookup_lt_Some in E. cbn [mbind option_bind].
  repeat match goal with |- context [if code =? ?c then _ else _] => destruct (code =? c) end;
    try done; apply IH; lia.
Qed.

#[export] Instance model_bpf_laws : BpfLaws model_bpf.
Proof.
  assert (forall prog data pc acc (x : sock_filter), prog !! pc = Some x ->
    bpf prog data pc acc = bpf_steps (S (length prog)) prog data pc acc) as Hb.
  { intros. unfold bpf, model_bpf. apply bpf_steps_fuel; lia. }
  split; intros; erewrite Hb by done; cbn [bpf_steps]; rewrite H; cbn [mbind option_bind];
    try reflexivity; unfold bpf, model_bpf; apply bpf_steps_fuel; lia.
Qed.

(** ** The filter admits the stub only *)

Section filter.
Context {B : Bpf} {L : BpfLaws B}.

Lemma split_le a b : is_u64 a -> is_u64 b ->
  (a <=? b) = (if b / 2 ^ 32 =? a / 2 ^ 32 then a mod 2 ^ 32 <=? b mod 2 ^ 32
               else a / 2 ^ 32 <? b / 2 ^ 32).
Proof using.
  intros _ _. pose proof (Z.div_mod a (2 ^ 32) ltac:(lia)). pose proof (Z.div_mod b (2 ^ 32) ltac:(lia)).
  pose proof (Z.mod_pos_bound a (2 ^ 32) ltac:(lia)). pose proof (Z.mod_pos_bound b (2 ^ 32) ltac:(lia)).
  destruct (Z.eqb_spec (b / 2 ^ 32) (a / 2 ^ 32)), (Z.leb_spec a b);
    symmetry; rewrite ?Z.leb_le, ?Z.leb_gt, ?Z.ltb_lt, ?Z.ltb_ge; lia.
Qed.

(** C28. The filter lets a system call through exactly when its instruction pointer is in
    [start_addr, end_addr), compared as 64-bit numbers in two 32-bit halves; every other
    call traps. *)
Theorem filter_admits_stub start_addr end_addr ip data acc :
  is_u64 start_addr -> is_u64 end_addr -> is_u64 ip ->
  data SC_IP_LOW = ip mod 2 ^ 32 -> data SC_IP_HIGH = ip / 2 ^ 32 ->
  bpf (gen_addr_filter start_addr end_addr).1 data 0 acc =
    Some (if (start_addr <=? ip) && (ip <? end_addr) then SECCOMP_RET_ALLOW
          else SECCOMP_RET_TRAP).
Proof using L.
  intros Hs He Hip Hl Hh. unfold gen_addr_filter.
  assert (forall x, is_u64 x -> u32 (Z.shiftr x 32) = x / 2 ^ 32) as Hhi.
  { intros x Hx. unfold u32. rewrite Z.shiftr_div_pow2 by lia. apply Z.mod_small.
    split; [apply Z.div_pos; [apply Hx|lia]|apply Z.div_lt_upper_bound; [lia|apply Hx]]. }
  rewrite !Hhi by done. unfold u32. cbv zeta. cbn [fst].
  set (prog := [_; _; _; _; _; _; _; _; _; _; _; _]).
  assert (forall acc, bpf prog data 10 acc = Some SECCOMP_RET_ALLOW) as Hallow
    by (intros; by apply bpf_ret).
  assert (forall acc, bpf prog data 11 acc = Some SECCOMP_RET_TRAP) as Htrap
    by (intros; by apply bpf_ret).
  assert (forall acc, bpf prog data 5 acc =
    Some (if ip <? end_addr then SECCOMP_RET_ALLOW else SECCOMP_RET_TRAP)) as Hend.
  { intros acc'. erewrite (bpf_ld prog data 5) by reflexivity. rewrite Hh.
    erewrite (bpf_jeq prog data 6) by reflexivity.
    rewrite Z.ltb_antisym, (split_le end_addr ip) by done.
    destruct (ip / 2 ^ 32 =? end_addr / 2 ^ 32).
    - change (7 + Z.to_nat 0)%nat with 7%nat. erewrite (bpf_ld prog data 7) by reflexivity.
      rewrite Hl. erewrite (bpf_jge prog data 8) by reflexivity.
      destruct (_ <=? _); [apply Htrap|apply Hallow].
    - change (7 + Z.to_nat 2)%nat with 9%nat. erewrite (bpf_jgt prog data 9) by reflexivity.
      destruct (_ <? _); [apply Htrap|apply Hallow]. }
  erewrite (bpf_ld prog data 0) by reflexivity. rewrite Hh.
  erewrite (bpf_jeq prog data 1) by reflexivity. rewrite (split_le start_addr ip) by done.
  destruct (ip / 2 ^ 32 =? start_addr / 2 ^ 32).
  - change (2 + Z.to_nat 0)%nat with 2%nat. erewrite (bpf_ld prog data 2) by reflexivity.
    rewrite Hl. erewrite (bpf_jge prog data 3) by reflexivity.
    destruct (start_addr mod 2 ^ 32 <=? ip mod 2 ^ 32); [apply Hend|apply Htrap].
  - change (2 + Z.to_nat 2)%nat with 4%nat. erewrite (bpf_jgt prog data 4) by reflexivity.
    destruct (start_addr / 2 ^ 32 <? ip / 2 ^ 32); [apply Hend|apply Htrap].
Qed.
End filter.
