(* ===== verification/Boot.v ===== *)
(** * The start of the stub

    Models [entrypoint] and [entrypoint_1] of urvirt-stub.c, from the jump of
    the loader to the jump to the guest's kernel: the stub unmaps everything
    but itself, makes a signal stack, installs the handler, maps RAM, copies
    the kernel image into it, locks itself in with the seccomp filter and
    initialises the hypervisor's state.  [boot_safe] says that the guest
    starts in a state of [safe], the invariant of [reachable_safe]. *)

From stdpp Require Import relations.
From S2P Require Import Prelude Bits State Machine Hoare Csr Trap Instr Linux PageWalk Printf.
From S2P Require Import Console PageFault Sbi Handler Guest Isolation Hypervisor Seccomp.

(** ** The code *)

(** [struct urvirt_config] (common.h), written by the loader at the start of
    [CONFIG_FD]; [struct priv_state] begins with the same fields. *)
Record urvirt_config := mk_config {
  cfg_stub_start : Z;
  cfg_stub_size : Z;
  cfg_kernel_size : Z;
}.

(** The file the loader leaves: zeroes and the configuration. *)
Definition config_file (c : urvirt_config) : priv_state :=
  zero_priv <| stub_start := cfg_stub_start c |> <| stub_size := cfg_stub_size c |>
            <| kernel_size := cfg_kernel_size c |>.

(** A little-endian object of the stub's stack after the kernel has written
    [written] at its start. *)
Definition le_object (n : nat) (written stack : list Z) : Z :=
  foldr (fun b r => Z.lor b (Z.shiftl r 8)) 0 (take n (written ++ drop (length written) stack)).

Section boot_code.
Context `{K : Kernel}.

(** The address of [handler_wrapper], and the bytes on the stack where
    [timerid] is: Linux writes four of the eight. *)
Variable handler_wrapper : Z.
Variable stack_garbage : list Z.

(** The first access to a configuration that is not mapped faults. *)
Definition map_conf : M Z :=
  conf ← s_mmap 0 CONF_SIZE (Z.lor PROT_READ PROT_WRITE) MAP_SHARED CONFIG_FD 0;
  if s64 conf <? 0 then halt (StopFault conf) else mret conf.

(** Up to the switch of stacks: the signal stack and the configuration.  The
    second [munmap] takes away the stack of the loader, on which the C function
    still runs until it switches to the new one: the model has the locals of
    the function in registers, as the optimising compiler keeps them. *)
Definition entrypoint_0 : M (Z * Z) :=
  conf ← map_conf;
  priv ← get_priv;
  s_munmap 0 (stub_start priv);;
  s_munmap conf CONF_SIZE;;
  conf ← map_conf;
  priv ← get_priv;
  let kernel_end := u64 (stub_start priv + stub_size priv) in
  s_munmap kernel_end (u64 (Z.shiftl 1 38 - kernel_end));;
  s_munmap conf CONF_SIZE;;
  sigstack_start ← s_mmap kernel_end SIGSTACK_SIZE (Z.lor PROT_READ PROT_WRITE)
    (Z.lor (Z.lor (Z.lor MAP_PRIVATE MAP_ANONYMOUS) MAP_STACK) MAP_FIXED) (-1) 0;
  conf ← map_conf;
  mod_priv (fun p => p <| stub_size := u64 (stub_size p + SIGSTACK_SIZE) |>);;
  mret (sigstack_start, conf).

(** [for (size_t i ...) ((char * ) KERNEL_START)[i] = kernel[i];] *)
Fixpoint copy_kernel (n : nat) (i kernel : Z) : M unit :=
  match n with
  | O => mret ()
  | S n =>
      b ← load8 (u64 (kernel + i));
      store8 (u64 (KERNEL_START + i)) b;;
      copy_kernel n (i + 1) kernel
  end.

Definition install_handler (sig : Z) : M Z :=
  s_rt_sigaction sig handler_wrapper (Z.lor SA_SIGINFO SA_ONSTACK) (Z.shiftl 1 (SIGALRM - 1)).

Definition round_up_pg (size : Z) : Z := Z.land (u64 (size + 4095)) (not64 4095).

(** After the filter: only the stub and RAM stay mapped. *)
Definition leave (id : list Z) (kernel kernel_size_pg conf : Z) : M unit :=
  s_munmap kernel kernel_size_pg;;
  mod_priv initialize_priv;;
  mod_priv (fun p => p <| timerid := le_object 8 id stack_garbage |>);;
  s_munmap conf CONF_SIZE;;
  write_log "Jumping to kernel ...";;
  put_reg 0 KERNEL_START.

(** From the copied image to the jump: the filter, the state, the guest. *)
Definition lock_in (priv : priv_state) (id : list Z) (kernel kernel_size_pg conf : Z) : M unit :=
  s_riscv_flush_icache 0 0 0;;
  let '(filt, len) := gen_addr_filter (stub_start priv) (u64 (stub_start priv + stub_size priv)) in
  s_prctl PR_SET_NO_NEW_PRIVS 1 0 0 0;;
  ret ← s_seccomp SECCOMP_SET_MODE_FILTER 0 (take (Z.to_nat len) filt);
  (if ret <? 0 then s_exit_group 1 else mret tt);;
  leave id kernel kernel_size_pg conf.

Definition entrypoint_1 (sigstack_start conf : Z) : M unit :=
  s_fcntl STDIN_FILENO F_SETFL O_NONBLOCK;;
  s_sigaltstack sigstack_start 0 SIGSTACK_SIZE;;
  install_handler SIGILL;;
  install_handler SIGSYS;;
  install_handler SIGALRM;;
  install_handler SIGSEGV;;
  id ← s_timer_create CLOCK_REALTIME SIGEV_SIGNAL SIGALRM 0;
  s_mmap RAM_START RAM_SIZE (Z.lor (Z.lor PROT_READ PROT_WRITE) PROT_EXEC)
    (Z.lor MAP_SHARED MAP_FIXED) RAM_FD 0;;
  priv ← get_priv;
  let kernel_size_pg := round_up_pg (kernel_size priv) in
  kernel ← s_mmap 0 kernel_size_pg PROT_READ MAP_PRIVATE KERNEL_FD 0;
  copy_kernel (Z.to_nat (kernel_size priv)) 0 kernel;;
  lock_in priv id kernel kernel_size_pg conf.

(** The switch to the new stack: [entrypoint_1] faults at once on one that is
    not mapped. *)
Definition entrypoint : M unit :=
  args ← entrypoint_0;
  if s64 (fst args) <? 0 then halt (StopFault (fst args))
  else entrypoint_1 (fst args) (snd args).
End boot_code.

(** ** Runs *)

Section traces.
Context {K : Kernel} {V : KernelView K} {L : KernelLaws K V}.

(** A call of the history, with its result. *)
Definition call_answer (c : syscall * sysret) : syscall * Z := (fst c, sr_val (snd c)).

(** [ran k0 tr k]: the history of [k] is that of [k0] and then the calls of
    [tr], with their results. *)
Definition ran (k0 : kstate) (tr : list (syscall * Z)) (k : kstate) : Prop :=
  exists l, k_calls k = k_calls k0 ++ l /\ tr = map call_answer l.

Lemma ran_start k0 : ran k0 [] k0.
Proof using. exists []. by rewrite app_nil_r. Qed.

Lemma ran_call k0 c tr k : ran k0 tr k ->
  ran k0 (tr ++ [(c, sr_val (fst (k_syscall c k)))]) (snd (k_syscall c k)).
Proof using L.
  intros (l & E & ->). exists (l ++ [(c, fst (k_syscall c k))]).
  by rewrite law_calls, E, app_assoc, map_app.
Qed.

Lemma ran_store k0 a v tr k k' : ran k0 tr k -> k_store k a v = Some k' -> ran k0 tr k'.
Proof using L.
  intros (l & E & ->) Hk. exists l. by rewrite (law_store_calls _ _ _ _ Hk).
Qed.

(** What the proofs track: the state, the pages, the files and the calls. *)
Record at_boot (k0 : kstate) (p : priv_state) (r : gregs) (pages : Z -> option vpage)
    (files : Z -> Z -> Z) (tr : list (syscall * Z)) (w : world) : Prop := {
  ab_priv : w_priv w = p;
  ab_regs : w_regs w = r;
  ab_pages : forall q, k_page (w_kern w) q = pages q;
  ab_files : forall fd o, k_file (w_kern w) fd o = files fd o;
  ab_fds : same_fds k0 (w_kern w);
  ab_ran : ran k0 tr (w_kern w);
}.

Lemma at_boot_ext k0 p r pages pages' files files' tr w :
  (forall q, pages q = pages' q) -> (forall fd o, files fd o = files' fd o) ->
  at_boot k0 p r pages files tr w -> at_boot k0 p r pages' files' tr w.
Proof using. intros Hp Hf []. split; try done; intros; by rewrite <- ?Hp, <- ?Hf. Qed.

Lemma at_boot_priv k0 p r pages files tr f w :
  at_boot k0 p r pages files tr w ->
  at_boot k0 (f p) r pages files tr (w <| w_priv := f (w_priv w) |>).
Proof using. intros [<- ? ? ? ? ?]. by split. Qed.

Section rules.
Context (F : stop -> world -> Prop) (k0 : kstate).

Lemma ends_get_priv p r pages files tr (Q : priv_state -> world -> Prop) w :
  at_boot k0 p r pages files tr w -> Q p w -> ends F get_priv Q w.
Proof using. unfold ends, get_priv. by intros [-> _ _ _ _ _] HQ. Qed.

(** A call that touches neither the address space nor the files. *)
Lemma ends_quiet c p r pages files tr (Q : sysret -> world -> Prop) w :
  keeps_pages c = true -> keeps_files c = true -> at_boot k0 p r pages files tr w ->
  (forall x w', x = fst (k_syscall c (w_kern w)) ->
     at_boot k0 p r pages files (tr ++ [(c, sr_val x)]) w' -> Q x w') ->
  ends F (do_syscall c) Q w.
Proof using L.
  intros Hp Hf [H1 H2 H3 H4 Hd H5] HQ. apply ends_syscall, HQ; [done|]. split; try done.
  - intros q. cbn. rewrite <- H3. by apply law_keeps_pages.
  - intros fd o. cbn. rewrite <- H4. by apply law_keeps_files.
  - cbn. etrans; [exact Hd|]. apply law_keeps_fds. destruct c; done.
  - by apply ran_call.
Qed.

Lemma ends_munmap a len p r pages files tr (Q : Z -> world -> Prop) w :
  0 <= a -> 0 <= len -> a + len <= TASK_SIZE -> page_aligned a -> page_aligned len ->
  at_boot k0 p r pages files tr w ->
  (forall x y w', at_boot k0 p r (unmapped a len pages) files
     (tr ++ [(SysMunmap a len, y)]) w' -> Q x w') ->
  ends F (s_munmap a len) Q w.
Proof using L.
  intros Ha Hl Hal Haa Hla [H1 H2 H3 H4 Hd H5] HQ. apply ends_bind, ends_syscall, ends_ret.
  eapply HQ. split; try done.
  - intros q. cbn. rewrite law_munmap by done. unfold unmapped. by rewrite H3.
  - intros fd o. cbn. rewrite <- H4. by apply law_keeps_files.
  - cbn. etrans; [exact Hd|]. by apply law_keeps_fds.
  - cbn. by apply ran_call.
Qed.

Lemma ends_mmap_free len prot flags fd off p r pages files tr (Q : Z -> world -> Prop) w :
  flags = MAP_SHARED \/ flags = MAP_PRIVATE -> 0 < len -> page_aligned len -> page_aligned off ->
  at_boot k0 p r pages files tr w ->
  let c := SysMmap 0 len prot flags fd off in
  (forall a w', is_u64 a -> s64 a < 0 -> at_boot k0 p r pages files (tr ++ [(c, a)]) w' -> Q a w') ->
  (forall a w', 0 <= a -> page_aligned a -> a + len <= TASK_SIZE ->
     (forall q, in_pages a len q = true -> pages q = None) ->
     at_boot k0 p r (mapped a len prot fd off pages) files (tr ++ [(c, a)]) w' -> Q a w') ->
  ends F (s_mmap 0 len prot flags fd off) Q w.
Proof using L.
  intros Hfl Hlen Hal Hao [H1 H2 H3 H4 Hd H5] c Herr Hok.
  apply ends_bind, ends_syscall, ends_ret. fold c.
  assert (forall fd o, k_file (snd (k_syscall c (w_kern w))) fd o = files fd o) as Hf
    by (intros; rewrite <- H4; by apply law_keeps_files).
  assert (same_fds k0 (snd (k_syscall c (w_kern w)))) as Hf'
    by (etrans; [exact Hd|by apply law_keeps_fds]).
  destruct (law_mmap_free (w_kern w) len prot flags fd off Hfl Hlen Hal Hao)
    as [[He Hs]|(Ha & Haa & Hsz & Hfree & Hm)].
  - apply Herr; [apply law_ret|exact He|]. split; try done.
    + intros q. cbn. rewrite <- H3. apply Hs.
    + by apply ran_call.
  - apply Hok; try done.
    + intros q Hq. rewrite <- H3. by apply Hfree.
    + split; try done; [|by apply ran_call].
      intros q. subst c. cbn. rewrite (Hm q). unfold mapped. by rewrite H3.
Qed.

Lemma ends_mmap_fixed addr len prot flags fd off p r pages files tr (Q : Z -> world -> Prop) w :
  truthy (Z.land flags MAP_FIXED) = true ->
  0 < len -> page_aligned addr -> page_aligned len -> page_aligned off ->
  at_boot k0 p r pages files tr w ->
  let c := SysMmap addr len prot flags fd off in
  (forall a pages' w', s64 a < 0 -> (forall q, pages' q = pages q \/ pages' q = None) ->
     at_boot k0 p r pages' files (tr ++ [(c, a)]) w' -> Q a w') ->
  (forall w', addr + len <= TASK_SIZE ->
     at_boot k0 p r (mapped addr len prot fd off pages) files (tr ++ [(c, addr)]) w' -> Q addr w') ->
  ends F (s_mmap addr len prot flags fd off) Q w.
Proof using L.
  intros Hfl Hlen Haa Hal Hao [H1 H2 H3 H4 Hd H5] c Herr Hok.
  apply ends_bind, ends_syscall, ends_ret. fold c.
  assert (forall fd o, k_file (snd (k_syscall c (w_kern w))) fd o = files fd o) as Hf
    by (intros; rewrite <- H4; by apply law_keeps_files).
  assert (same_fds k0 (snd (k_syscall c (w_kern w)))) as Hf'
    by (etrans; [exact Hd|by apply law_keeps_fds]).
  destruct (law_mmap_fixed (w_kern w) addr len prot flags fd off Hfl Hlen Haa Hal Hao)
    as [[He Hs]|(Ha & _ & Hsz & Hm)].
  - eapply Herr; [exact He| |split; try done; by apply ran_call].
    intros q. cbn. rewrite <- H3. apply Hs.
  - fold c in Ha, Hm. rewrite Ha. apply Hok; [done|].
    split; try done; [|rewrite <- Ha; by apply ran_call].
    intros q. subst c. cbn. rewrite (Hm q). unfold mapped. by rewrite H3.
Qed.
End rules.
End traces.

(** ** The copy of the kernel *)

Definition KERNEL_OFF : Z := KERNEL_START - RAM_START.

(** The files after bytes [lo] to [lo + n] of the image are in RAM. *)
Definition copied (lo n : Z) (files : Z -> Z -> Z) (fd o : Z) : Z :=
  if (fd =? RAM_FD) && ((KERNEL_OFF + lo <=? o) && (o <? KERNEL_OFF + lo + n))
  then files KERNEL_FD (o - KERNEL_OFF) else files fd o.

Lemma copied_S lo n files fd o : 0 <= n ->
  copied (lo + 1) n
    (fun fd o => if (fd =? RAM_FD) && (o =? KERNEL_OFF + lo) then files KERNEL_FD lo
                 else files fd o) fd o
  = copied lo (n + 1) files fd o.
Proof.
  intros Hn. unfold copied. destruct (Z.eqb_spec fd RAM_FD) as [->|]; simpl; [|done].
  destruct (Z.eqb_spec o (KERNEL_OFF + lo)) as [->|].
  - rewrite (proj2 (Z.leb_gt (KERNEL_OFF + (lo + 1)) (KERNEL_OFF + lo))), Z.leb_refl by lia.
    rewrite (proj2 (Z.ltb_lt (KERNEL_OFF + lo) (KERNEL_OFF + lo + (n + 1)))) by lia.
    simpl. f_equal. lia.
  - replace (KERNEL_OFF + lo + (n + 1)) with (KERNEL_OFF + (lo + 1) + n) by lia.
    destruct (Z.leb_spec (KERNEL_OFF + (lo + 1)) o), (Z.leb_spec (KERNEL_OFF + lo) o); try lia; done.
Qed.

(** Address [a] shows byte [o] of [fd]. *)
Record shows (pages : Z -> option vpage) (a fd o : Z) (g : vpage) : Prop := {
  sh_addr : is_u64 a;
  sh_page : pages (a / PAGE) = Some g;
  sh_fd : vp_fd g = fd;
  sh_off : vp_off g + a mod PAGE = o;
}.

Definition image_at (pages : Z -> option vpage) (kern n : Z) : Prop :=
  forall i, 0 <= i < n -> exists g, shows pages (kern + i) KERNEL_FD i g /\ vp_prot g = PROT_READ.

Definition ram_at_kernel (pages : Z -> option vpage) (n : Z) : Prop :=
  forall i, 0 <= i < n -> exists g,
    shows pages (KERNEL_START + i) RAM_FD (KERNEL_OFF + i) g /\ writable g = true.

Section copying.
Context {K : Kernel} {V : KernelView K} {L : KernelLaws K V}.
Context (F : stop -> world -> Prop) (k0 : kstate).

Lemma ends_load8 a b (Q : Z -> world -> Prop) w :
  k_load (w_kern w) a = Some b -> Q b w -> ends F (load8 a) Q w.
Proof using. unfold ends, load8. by intros ->. Qed.

Lemma ends_store8 a v k (Q : unit -> world -> Prop) w :
  k_store (w_kern w) a v = Some k -> Q tt (w <| w_kern := k |>) -> ends F (store8 a v) Q w.
Proof using. unfold ends, store8. by intros ->. Qed.

(** RAM is a file of its own. *)
Definition ram_apart (k : kstate) : Prop :=
  exists i, k_fd k RAM_FD = Some i /\ forall fd, fd <> RAM_FD -> k_fd k fd <> Some i.

Lemma ends_copy kern n i p r pages files tr (Q : unit -> world -> Prop) w :
  ram_apart k0 -> i + Z.of_nat n <= k_len k0 KERNEL_FD -> KERNEL_OFF + i + Z.of_nat n <= k_len k0 RAM_FD ->
  0 <= i -> image_at pages kern (i + Z.of_nat n) -> ram_at_kernel pages (i + Z.of_nat n) ->
  at_boot k0 p r pages files tr w ->
  (forall w', at_boot k0 p r pages (copied i (Z.of_nat n) files) tr w' -> Q tt w') ->
  ends F (copy_kernel n i kern) Q w.
Proof using L.
  intros (ino & Hino & Hapart).
  revert i files w. induction n as [|n IH]; intros i files w Hlk Hlr Hi Hsrc Hdst Hb HQ.
  - apply ends_ret, HQ. revert Hb. apply at_boot_ext; [done|]. intros fd o. unfold copied.
    destruct (Z.leb_spec (KERNEL_OFF + i) o), (Z.ltb_spec o (KERNEL_OFF + i + Z.of_nat 0));
      try lia; by rewrite andb_false_r.
  - destruct (Hsrc i ltac:(lia)) as (g & [Ga Gp Gfd Go] & Gr).
    destruct (Hdst i ltac:(lia)) as (h & [Ha Hp Hfd Ho] & Hw).
    pose proof Hb as [H1 H2 H3 H4 Hd H5]. cbn [copy_kernel]. rewrite !u64_id by done.
    pose proof (same_len _ _ KERNEL_FD _ Hd (reflexivity _)) as Hlk'.
    pose proof (same_len _ _ RAM_FD _ Hd (reflexivity _)) as Hlr'.
    apply ends_bind. eapply ends_load8.
    { rewrite (law_load (w_kern w) (kern + i) g); [done|apply Ga|by rewrite H3| | |].
      - unfold readable. by rewrite Gr.
      - right. by right.
      - rewrite Gfd, Go. lia. }
    destruct (law_store (w_kern w) (KERNEL_START + i)
      (k_file (w_kern w) (vp_fd g) (vp_off g + (kern + i) mod PAGE)) h ino) as (k' & Hk & Hf & Hf');
      [apply Ha|by rewrite H3|done|done|by rewrite (same_fd _ _ _ Hd)
      |rewrite Ho; unfold KERNEL_OFF, KERNEL_START, RAM_START in *; lia|].
    destruct (law_store_pages _ _ _ _ Hk) as [Hpg Hfd'].
    apply ends_bind. eapply ends_store8; [exact Hk|].
    apply (IH (i + 1) (fun fd o =>
      if (fd =? RAM_FD) && (o =? KERNEL_OFF + i) then files KERNEL_FD i else files fd o)).
    + lia.
    + lia.
    + lia.
    + intros j Hj. apply Hsrc. lia.
    + intros j Hj. apply Hdst. lia.
    + split; try done.
      * intros q. cbn. by rewrite <- H3, (Hpg q).
      * intros fd o. cbn. destruct (Z.eqb_spec fd RAM_FD) as [->|Hne]; cbn.
        -- rewrite Hf, Ho, Gfd, Go, <- !H4. destruct (_ =? _); [|done]. apply Z.mod_small, law_byte.
        -- rewrite Hf'; [apply H4|]. rewrite (same_fd _ _ _ Hd). by apply Hapart.
      * cbn. by etrans.
      * cbn. by eapply ran_store.
    + intros w' Hw'. apply HQ. revert Hw'. apply at_boot_ext; [done|]. intros fd o.
      rewrite copied_S by lia. by rewrite Nat2Z.inj_succ.
Qed.

(** Without a writable page at [KERNEL_START] the first store faults. *)
Lemma ends_copy_denied kern n (Q : unit -> world -> Prop) w :
  (forall g, k_page (w_kern w) (KERNEL_START / PAGE) = Some g -> writable g = false) ->
  (forall a, F (StopFault a) w) -> ends F (copy_kernel (S n) 0 kern) Q w.
Proof using L.
  intros Hw HF. cbn [copy_kernel]. apply ends_bind. unfold ends, load8.
  destruct (k_load _ _) as [b|]; [|apply HF]. apply ends_bind. unfold ends, store8.
  change (u64 (KERNEL_START + 0)) with KERNEL_START.
  rewrite law_store_denied by done. apply HF.
Qed.

(** Without a mapping of the image the first load faults. *)
Lemma ends_copy_unmapped kern n (Q : unit -> world -> Prop) w :
  is_u64 kern -> k_page (w_kern w) (kern / PAGE) = None -> (forall a, F (StopFault a) w) ->
  ends F (copy_kernel (S n) 0 kern) Q w.
Proof using L.
  intros Hu Hn HF. cbn [copy_kernel]. apply ends_bind. unfold ends, load8.
  rewrite Z.add_0_r, u64_id by done. rewrite law_load_unmapped by done. apply HF.
Qed.
End copying.

(** ** Up to the switch of stacks *)

Definition stub_end (c : urvirt_config) : Z := cfg_stub_start c + cfg_stub_size c.

(** The configuration as the boot leaves it: the signal stack is part of the
    stub. *)
Definition with_stack (c : urvirt_config) : urvirt_config :=
  mk_config (cfg_stub_start c) (cfg_stub_size c + SIGSTACK_SIZE) (cfg_kernel_size c).

Definition sigstack_mmap (c : urvirt_config) : syscall :=
  SysMmap (stub_end c) SIGSTACK_SIZE (Z.lor PROT_READ PROT_WRITE)
    (Z.lor (Z.lor (Z.lor MAP_PRIVATE MAP_ANONYMOUS) MAP_STACK) MAP_FIXED) (-1) 0.
Definition fixed_ram_mmap : syscall :=
  SysMmap RAM_START RAM_SIZE (Z.lor (Z.lor PROT_READ PROT_WRITE) PROT_EXEC)
    (Z.lor MAP_SHARED MAP_FIXED) RAM_FD 0.
Definition image_mmap (c : urvirt_config) : syscall :=
  SysMmap 0 (round_up_pg (cfg_kernel_size c)) PROT_READ MAP_PRIVATE KERNEL_FD 0.
Definition filter_call (c : urvirt_config) : syscall :=
  SysSeccomp SECCOMP_SET_MODE_FILTER 0
    (fst (gen_addr_filter (cfg_stub_start c) (stub_end (with_stack c)))).

(** The requests the stub cannot do without. *)
Definition boot_requests (c : urvirt_config) : list syscall :=
  [cfg_mmap; sigstack_mmap c; fixed_ram_mmap; image_mmap c; filter_call c].

Definition refused (c : syscall) (a : Z) : Prop :=
  match c with SysSeccomp _ _ _ => s32 a < 0 | _ => s64 a < 0 end.

Definition stops_at (c : syscall) (st : stop) : Prop :=
  match c with SysSeccomp _ _ _ => st = StopExit 1 | _ => exists a, st = StopFault a end.

(** The process stops as it does after a request that was refused, and its
    history has that refusal. *)
Definition refusal {K : Kernel} {V : KernelView K} (c : urvirt_config) (k0 : kstate)
    (st : stop) (w : world) : Prop :=
  exists tr rq a, ran k0 tr (w_kern w) /\ In (rq, a) tr /\
    In rq (boot_requests c) /\ refused rq a /\ stops_at rq st.

(** What the loader has set up when it jumps to the stub. *)
Record loaded {K : Kernel} {V : KernelView K} (c : urvirt_config) (w : world) : Prop := {
  ld_config : w_priv w = config_file c;
  ld_regs : gregs_wf (w_regs w);
  ld_aligned : page_aligned (cfg_stub_start c) /\ page_aligned (cfg_stub_size c);
  ld_fits : 0 <= cfg_stub_start c /\ 0 <= cfg_stub_size c /\ stub_end c + SIGSTACK_SIZE <= TASK_SIZE;
  ld_off_ram : stub_end c + SIGSTACK_SIZE <= RAM_START \/ RAM_START + RAM_SIZE <= cfg_stub_start c;
  ld_kernel : 0 < cfg_kernel_size c <= RAM_SIZE - KERNEL_OFF;
  ld_stub : forall q, in_pages (cfg_stub_start c) (cfg_stub_size c) q = true ->
    k_page (w_kern w) q <> None;
  ld_files : ram_apart (w_kern w);
  ld_len : RAM_SIZE <= k_len (w_kern w) RAM_FD /\ CONF_SIZE <= k_len (w_kern w) CONFIG_FD /\
    cfg_kernel_size c <= k_len (w_kern w) KERNEL_FD;
  ld_user : forall q, k_page (w_kern w) q <> None -> 0 <= q < TASK_SIZE / PAGE;
}.

(** The stub and its signal stack. *)
Definition stub_space (c : urvirt_config) (pages : Z -> option vpage) : Z -> option vpage :=
  mapped (stub_end c) SIGSTACK_SIZE (Z.lor PROT_READ PROT_WRITE) (-1) 0
    (fun q => if in_pages (cfg_stub_start c) (cfg_stub_size c) q then pages q else None).

Lemma unmapped_around a len b m prot fd off pages q :
  (forall q, in_pages a len q = true -> pages q = None) ->
  unmapped a len (unmapped b m (mapped a len prot fd off pages)) q = unmapped b m pages q.
Proof.
  intros Hfree. unfold unmapped, mapped. destruct (in_pages a len q) eqn:E; [|done].
  rewrite Hfree by done. by destruct (in_pages b m q).
Qed.

Lemma only_stub c pages q :
  page_aligned (cfg_stub_start c) -> page_aligned (cfg_stub_size c) ->
  (pages q <> None -> 0 <= q < TASK_SIZE / PAGE) ->
  unmapped (stub_end c) (TASK_SIZE - stub_end c) (unmapped 0 (cfg_stub_start c) pages) q
  = if in_pages (cfg_stub_start c) (cfg_stub_size c) q then pages q else None.
Proof.
  unfold unmapped, in_pages, stub_end, page_aligned, PAGE, TASK_SIZE. intros Hs Hz Hq.
  set (s := cfg_stub_start c) in *. set (z := cfg_stub_size c) in *.
  replace (s + z + (2 ^ 38 - (s + z))) with (2 ^ 38) by lia.
  replace ((s + z) / 4096) with (s / 4096 + z / 4096) by (Z.div_mod_to_equations; lia).
  change (0 / 4096) with 0. rewrite Z.add_0_l.
  destruct (pages q) as [g|]; [|by repeat case_match].
  specialize (Hq ltac:(done)).
  destruct (Z.leb_spec (s / 4096 + z / 4096) q), (Z.ltb_spec q (2 ^ 38 / 4096)),
    (Z.leb_spec 0 q), (Z.ltb_spec q (s / 4096)), (Z.leb_spec (s / 4096) q),
    (Z.ltb_spec q (s / 4096 + z / 4096)); simpl; done || lia.
Qed.

Lemma stub_end_spec c :
  page_aligned (cfg_stub_start c) -> page_aligned (cfg_stub_size c) ->
  0 <= cfg_stub_start c -> 0 <= cfg_stub_size c -> stub_end c + 4096 <= TASK_SIZE ->
  page_aligned (stub_end c) /\ u64 (stub_end c) = stub_end c /\
  u64 (Z.shiftl 1 38 - stub_end c) = TASK_SIZE - stub_end c.
Proof.
  intros Has Haz Hs Hz Hfit. change (Z.shiftl 1 38) with TASK_SIZE.
  split; [|split; apply u64_id; unfold is_u64, TASK_SIZE, stub_end in *; lia].
  unfold stub_end, page_aligned, PAGE in *. Z.div_mod_to_equations; lia.
Qed.

Lemma config_with_stack c :
  0 <= cfg_stub_size c -> 0 <= cfg_stub_start c -> stub_end c + 4096 <= TASK_SIZE ->
  config_file (with_stack c) =
    (config_file c) <| stub_size := u64 (stub_size (config_file c) + SIGSTACK_SIZE) |>.
Proof.
  intros Hz Hs Hfit. unfold config_file, with_stack. cbn.
  rewrite u64_id; [done|]. unfold is_u64, SIGSTACK_SIZE, TASK_SIZE, stub_end in *. lia.
Qed.

Section entry.
Context {K : Kernel} {V : KernelView K} {L : KernelLaws K V}.
Context (c : urvirt_config) (k0 : kstate).
#[local] Abbreviation F := (refusal c k0).

(** A request of the trace was refused. *)
Lemma refusal_in rq a p r pages files tr st w :
  at_boot k0 p r pages files tr w -> In rq (boot_requests c) -> In (rq, a) tr ->
  refused rq a -> stops_at rq st -> F st w.
Proof using. intros Hb H1 H2 H3 H4. exists tr, rq, a. split; [apply Hb|done]. Qed.

Lemma ends_map_conf p r pages files tr (Q : Z -> world -> Prop) w :
  at_boot k0 p r pages files tr w ->
  (forall conf w', 0 <= conf -> page_aligned conf -> conf + CONF_SIZE <= TASK_SIZE ->
     (forall q, in_pages conf CONF_SIZE q = true -> pages q = None) ->
     at_boot k0 p r (mapped conf CONF_SIZE (Z.lor PROT_READ PROT_WRITE) CONFIG_FD 0 pages)
       files (tr ++ [(cfg_mmap, conf)]) w' -> Q conf w') ->
  ends F map_conf Q w.
Proof using L.
  intros Hb HQ. apply ends_bind.
  eapply ends_mmap_free; [by left|done..|exact Hb| |].
  - intros a w' _ Ha Hb'. rewrite (proj2 (Z.ltb_lt _ 0)) by done. apply ends_halt.
    apply (refusal_in cfg_mmap a _ _ _ _ _ _ _ Hb'); [by left|apply in_or_app; right; by left|done|].
    by eexists.
  - intros a w' Ha Haa Hs Hfree Hw'. unfold TASK_SIZE, CONF_SIZE in Hs.
    rewrite (proj2 (Z.ltb_ge _ 0)); [by eapply HQ|].
    unfold s64, sext. rewrite Z.mod_small by lia. rewrite (proj2 (Z.ltb_lt a _)) by lia. lia.
Qed.

(** The state at the switch of stacks, unless the signal stack was refused. *)
Definition switched (r : gregs) (pages : Z -> option vpage) (files : Z -> Z -> Z)
    (args : Z * Z) (w : world) : Prop :=
  (s64 (fst args) < 0 /\ forall a, F (StopFault a) w) \/
  (fst args = stub_end c /\ page_aligned (snd args) /\ 0 <= snd args /\
   snd args + CONF_SIZE <= TASK_SIZE /\
   (forall q, in_pages (snd args) CONF_SIZE q = true -> stub_space c pages q = None) /\
   exists tr, at_boot k0 (config_file (with_stack c)) r
     (mapped (snd args) CONF_SIZE (Z.lor PROT_READ PROT_WRITE) CONFIG_FD 0 (stub_space c pages))
     files tr w).

Lemma ends_entrypoint_0 w :
  loaded c w -> w_kern w = k0 ->
  ends F entrypoint_0 (switched (w_regs w) (k_page k0) (k_file k0)) w.
Proof using L.
  intros [Hp Hr [Has Haz] (Hs & Hz & Hfit) _ _ _ _ _ Huser] Hk. unfold SIGSTACK_SIZE in Hfit.
  assert (at_boot k0 (config_file c) (w_regs w) (k_page k0) (k_file k0) [] w)
    as Hb by (rewrite <- Hk; split; try done; apply ran_start).
  destruct (stub_end_spec c Has Haz Hs Hz Hfit) as (Hae & Hend & Hlen).
  unfold entrypoint_0. apply ends_bind. eapply ends_map_conf; [exact Hb|].
  clear Hb. intros c1 w1 Hc1 Hca1 Hcs1 Hfree1 Hb.
  apply ends_bind. eapply ends_get_priv; [exact Hb|].
  change (stub_start (config_file c)) with (cfg_stub_start c).
  apply ends_bind. eapply ends_munmap; [done..|unfold stub_end in *; lia|done|exact Has|exact Hb|].
  clear Hb. intros _ y1 w2 Hb.
  apply ends_bind. eapply ends_munmap; [done..|exact Hb|]. clear Hb. intros _ y2 w3 Hb.
  eapply at_boot_ext in Hb; [|intros q; by apply unmapped_around|done].
  apply ends_bind. eapply ends_map_conf; [exact Hb|].
  clear Hb. intros c2 w4 Hc2 Hca2 Hcs2 Hfree2 Hb.
  apply ends_bind. eapply ends_get_priv; [exact Hb|].
  change (u64 (stub_start (config_file c) + stub_size (config_file c))) with (u64 (stub_end c)).
  rewrite Hend, Hlen. apply ends_bind.
  eapply ends_munmap; [unfold stub_end in *; lia|lia|lia|exact Hae| |exact Hb|].
  { unfold page_aligned, PAGE, TASK_SIZE in *. Z.div_mod_to_equations; lia. }
  clear Hb. intros _ y3 w5 Hb.
  apply ends_bind. eapply ends_munmap; [done..|exact Hb|]. clear Hb. intros _ y4 w6 Hb.
  eapply at_boot_ext in Hb;
    [|intros q; rewrite unmapped_around by done; apply only_stub; [done..|rewrite <- Hk; apply Huser]
     |done].
  apply ends_bind. eapply ends_mmap_fixed; [done..|exact Hae|done|done|exact Hb| |]; clear Hb.
  - intros a pages' w7 Ha Hsub Hb. apply ends_bind.
    eapply ends_map_conf; [exact Hb|]. clear Hb. intros c3 w8 _ _ _ _ Hb. left. split; [exact Ha|].
    intros b. eapply (refusal_in (sigstack_mmap c) a); [exact (at_boot_priv _ _ _ _ _ _
      (fun p => p <| stub_size := u64 (stub_size p + SIGSTACK_SIZE) |>) _ Hb)|by right; left|
      |exact Ha|by eexists].
    rewrite !in_app_iff. left. right. by left.
  - intros w7 _ Hb. apply ends_bind. eapply ends_map_conf; [exact Hb|].
    clear Hb. intros c3 w8 Hc3 Hca3 Hcs3 Hfree3 Hb. right. split_and!; try done.
    eexists. rewrite config_with_stack by lia.
    exact (at_boot_priv _ _ _ _ _ _ (fun p => p <| stub_size := u64 (stub_size p + SIGSTACK_SIZE) |>) _ Hb).
Qed.

(** ** The image in RAM *)

(** The pages once RAM is mapped at its bare address. *)
Definition with_ram (pages : Z -> option vpage) : Z -> option vpage :=
  mapped RAM_START RAM_SIZE (Z.lor (Z.lor PROT_READ PROT_WRITE) PROT_EXEC) RAM_FD 0 pages.

Definition with_image (kern : Z) (pages : Z -> option vpage) : Z -> option vpage :=
  mapped kern (round_up_pg (cfg_kernel_size c)) PROT_READ KERNEL_FD 0 pages.

Lemma round_up_pg_spec size : 0 < size < 2 ^ 63 ->
  page_aligned (round_up_pg size) /\ size <= round_up_pg size.
Proof using.
  unfold round_up_pg, page_aligned, PAGE. intros Hs.
  rewrite u64_id by (unfold is_u64; lia). rewrite land_not64 by (unfold is_u64; lia).
  change 4095 with (Z.ones 12). rewrite Z.ldiff_ones_r by lia.
  rewrite Z.shiftl_mul_pow2, Z.shiftr_div_pow2 by lia. change (2 ^ 12) with 4096.
  rewrite Z.ones_equiv. cbn. Z.div_mod_to_equations; lia.
Qed.

Lemma ram_sized size : 0 < size <= RAM_SIZE -> 0 < size < 2 ^ 63.
Proof using. change RAM_SIZE with (4096 * 4096). lia. Qed.

Lemma shows_mapped a len prot fd pages x :
  page_aligned a -> page_aligned len -> is_u64 x -> a <= x < a + len ->
  exists g, shows (mapped a len prot fd 0 pages) x fd (x - a) g /\ vp_prot g = prot.
Proof using.
  intros Ha Hl Hu Hx. exists (mk_vpage fd (0 + PAGE * (x / PAGE - a / PAGE)) prot).
  split; [split; [done| |done|]|].
  - unfold mapped. by rewrite in_pages_mod.
  - cbn. unfold page_aligned, PAGE in *. Z.div_mod_to_equations; lia.
  - done.
Qed.

Lemma image_at_mapped kern pages :
  page_aligned kern -> 0 <= kern -> kern + round_up_pg (cfg_kernel_size c) <= TASK_SIZE ->
  0 < cfg_kernel_size c <= RAM_SIZE -> image_at (with_image kern pages) kern (cfg_kernel_size c).
Proof using.
  intros Hk H0 Hfit Hs i Hi. destruct (round_up_pg_spec _ (ram_sized _ Hs)) as [Hr Hle].
  destruct (shows_mapped kern (round_up_pg (cfg_kernel_size c)) PROT_READ KERNEL_FD pages (kern + i))
    as (g & Hg & Hp); [done|done|unfold is_u64, TASK_SIZE in *; lia|lia|].
  exists g. split; [|done]. by replace (kern + i - kern) with i in Hg by lia.
Qed.

Lemma ram_at_kernel_mapped kern pages :
  (forall q, in_pages kern (round_up_pg (cfg_kernel_size c)) q = true -> with_ram pages q = None) ->
  cfg_kernel_size c <= RAM_SIZE - KERNEL_OFF ->
  ram_at_kernel (with_image kern (with_ram pages)) (cfg_kernel_size c).
Proof using.
  unfold KERNEL_OFF. change RAM_SIZE with 16777216. change (KERNEL_START - RAM_START) with 2097152.
  intros Hfree Hs i Hi.
  destruct (shows_mapped RAM_START RAM_SIZE (Z.lor (Z.lor PROT_READ PROT_WRITE) PROT_EXEC) RAM_FD
    pages (KERNEL_START + i)) as (g & [Hu Hp Hfd Ho] & Hprot);
    [done|done|unfold is_u64, KERNEL_START; lia
    |unfold KERNEL_START, RAM_START; change RAM_SIZE with 16777216; lia|].
  exists g. split; [split; try done|unfold writable; by rewrite Hprot].
  - unfold with_image, mapped at 1. destruct (in_pages kern _ _) eqn:E; [|exact Hp].
    apply Hfree in E. unfold with_ram in E. by rewrite E in Hp.
  - rewrite Ho. unfold KERNEL_OFF. lia.
Qed.

Lemma s64_negative a : is_u64 a -> s64 a < 0 -> TASK_SIZE <= a.
Proof using.
  unfold is_u64, s64, sext, TASK_SIZE. intros Ha. rewrite Z.mod_small by lia.
  destruct (Z.ltb_spec a (2 ^ (64 - 1))); lia.
Qed.

(** The image is mapped and copied. *)
Lemma ends_image {A} p r pages files tr (rest : Z -> M A) (Q : A -> world -> Prop) w :
  ram_apart k0 -> RAM_SIZE <= k_len k0 RAM_FD -> cfg_kernel_size c <= k_len k0 KERNEL_FD ->
  0 < cfg_kernel_size c <= RAM_SIZE - KERNEL_OFF ->
  (forall q, TASK_SIZE / PAGE <= q -> with_ram pages q = None) ->
  at_boot k0 p r (with_ram pages) files tr w ->
  (forall kern tr' w', 0 <= kern -> page_aligned kern ->
     kern + round_up_pg (cfg_kernel_size c) <= TASK_SIZE ->
     (forall q, in_pages kern (round_up_pg (cfg_kernel_size c)) q = true -> with_ram pages q = None) ->
     at_boot k0 p r (with_image kern (with_ram pages)) (copied 0 (cfg_kernel_size c) files)
       (tr ++ tr') w' -> ends F (rest kern) Q w') ->
  ends F (kernel ← s_mmap 0 (round_up_pg (cfg_kernel_size c)) PROT_READ MAP_PRIVATE KERNEL_FD 0;
          copy_kernel (Z.to_nat (cfg_kernel_size c)) 0 kernel;; rest kernel) Q w.
Proof using L.
  intros Hino Hlr Hlk Hs Hhigh Hb HQ. assert (0 < cfg_kernel_size c <= RAM_SIZE) as Hs'.
  { revert Hs. unfold KERNEL_OFF, KERNEL_START, RAM_START. lia. }
  destruct (round_up_pg_spec _ (ram_sized _ Hs')) as [Hr Hle].
  apply ends_bind. eapply ends_mmap_free; [by right|lia|done|done|exact Hb| |]; clear Hb.
  - intros a w' Hu Ha Hb. apply ends_bind.
    destruct (Z.to_nat (cfg_kernel_size c)) eqn:En; [lia|].
    apply ends_copy_unmapped; [exact Hu| |].
    + rewrite (ab_pages _ _ _ _ _ _ _ Hb). apply Hhigh, Z.div_le_mono; [done|].
      by apply s64_negative.
    + intros b. apply (refusal_in (image_mmap c) a _ _ _ _ _ _ _ Hb);
        [do 3 right; by left|apply in_or_app; right; by left|exact Ha|by eexists].
  - intros kern w' H0 Hk Hfit Hfree Hb. apply ends_bind.
    eapply (ends_copy F k0 kern _ 0); [exact Hino|lia|lia|done| | |exact Hb|].
    + rewrite Z2Nat.id by lia. by apply image_at_mapped.
    + rewrite Z2Nat.id by lia. apply ram_at_kernel_mapped; [exact Hfree|lia].
    + rewrite Z2Nat.id by lia. intros w'' Hb'. by eapply HQ.
Qed.

(** Without RAM the copy faults. *)
Lemma ends_image_no_ram {A} p r pages files tr (rest : Z -> M A) (Q : A -> world -> Prop) w :
  0 < cfg_kernel_size c <= RAM_SIZE -> pages (KERNEL_START / PAGE) = None ->
  (exists a, In (fixed_ram_mmap, a) tr /\ s64 a < 0) -> at_boot k0 p r pages files tr w ->
  ends F (kernel ← s_mmap 0 (round_up_pg (cfg_kernel_size c)) PROT_READ MAP_PRIVATE KERNEL_FD 0;
          copy_kernel (Z.to_nat (cfg_kernel_size c)) 0 kernel;; rest kernel) Q w.
Proof using L.
  intros Hs Hn (e & Hin & He) Hb. destruct (round_up_pg_spec _ (ram_sized _ Hs)) as [Hr Hle].
  assert (forall pages a w', at_boot k0 p r pages files (tr ++ [(image_mmap c, a)]) w' ->
    forall b, F (StopFault b) w') as HF.
  { intros pages' a w' Hb' b. apply (refusal_in fixed_ram_mmap e _ _ _ _ _ _ _ Hb');
      [do 2 right; by left|apply in_or_app; by left|exact He|by eexists]. }
  apply ends_bind. destruct (Z.to_nat (cfg_kernel_size c)) eqn:En; [lia|].
  eapply ends_mmap_free; [by right|lia|done|done|exact Hb| |]; clear Hb.
  - intros a w' _ _ Hb. apply ends_bind, ends_copy_denied; [|exact (HF _ _ _ Hb)].
    intros g. by rewrite (ab_pages _ _ _ _ _ _ _ Hb), Hn.
  - intros a w' _ _ _ _ Hb. apply ends_bind, ends_copy_denied; [|exact (HF _ _ _ Hb)].
    intros g. rewrite (ab_pages _ _ _ _ _ _ _ Hb). unfold mapped. rewrite Hn.
    destruct (in_pages _ _ _); [|done]. by intros [= <-].
Qed.

(** ** The address space *)

Definition off_ram (conf : Z) : Prop :=
  conf + CONF_SIZE <= RAM_START \/ RAM_START + RAM_SIZE <= conf.

Definition with_conf (conf : Z) (pages : Z -> option vpage) : Z -> option vpage :=
  mapped conf CONF_SIZE (Z.lor PROT_READ PROT_WRITE) CONFIG_FD 0 pages.

Lemma in_pages_disjoint a m b n q :
  page_aligned a -> page_aligned m -> page_aligned b -> page_aligned n ->
  a + m <= b \/ b + n <= a -> in_pages a m q = true -> in_pages b n q = false.
Proof using.
  unfold page_aligned, in_pages, PAGE. intros Ha Hm Hb Hn Hd.
  rewrite andb_true_iff, andb_false_iff, Z.leb_le, Z.leb_gt, Z.ltb_lt, Z.ltb_ge.
  Z.div_mod_to_equations; lia.
Qed.

Lemma in_pages_below a n q : page_aligned a -> page_aligned n -> a + n <= TASK_SIZE ->
  TASK_SIZE / PAGE <= q -> in_pages a n q = false.
Proof using.
  unfold in_pages, page_aligned, TASK_SIZE, PAGE. intros Ha Hn Hf Hq.
  apply andb_false_iff. right. apply Z.ltb_ge. Z.div_mod_to_equations; lia.
Qed.

Lemma stub_space_bounds pages q :
  page_aligned (cfg_stub_start c) -> page_aligned (cfg_stub_size c) -> 0 <= cfg_stub_size c ->
  stub_space c pages q <> None -> in_pages (cfg_stub_start c) (cfg_stub_size c + SIGSTACK_SIZE) q = true.
Proof using.
  unfold stub_space, mapped. intros Hs Hz H0.
destruct (in_pages (stub_end c) SIGSTACK_SIZE q) eqn:E1; [intros _|
  destruct (in_pages (cfg_stub_start c) (cfg_stub_size c) q) eqn:E2; [intros _|by intros []]];
  unfold in_pages, stub_end, page_aligned, SIGSTACK_SIZE, PAGE in *;
  rewrite andb_true_iff, Z.leb_le, Z.ltb_lt in *; Z.div_mod_to_equations; lia.
Qed.

(** Dropping the image and the configuration leaves the stub and RAM. *)
Lemma final_space conf kern pages q :
  page_aligned conf -> off_ram conf ->
  (forall q, in_pages conf CONF_SIZE q = true -> pages q = None) ->
  (forall q, in_pages kern (round_up_pg (cfg_kernel_size c)) q = true ->
     with_ram (with_conf conf pages) q = None) ->
  unmapped conf CONF_SIZE (unmapped kern (round_up_pg (cfg_kernel_size c))
    (with_image kern (with_ram (with_conf conf pages)))) q = with_ram pages q.
Proof using.
  unfold off_ram. intros Hc Hoff Hfree Hkern. unfold unmapped, with_image. unfold mapped at 1.
  destruct (in_pages kern _ q) eqn:Ek; [apply Hkern in Ek|]; unfold with_ram, mapped in *.
  - destruct (in_pages RAM_START _ q) eqn:Er; [done|]. unfold with_conf, mapped in Ek.
    destruct (in_pages conf _ q) eqn:Ec; done.
  - destruct (in_pages conf _ q) eqn:Ec.
    + rewrite (in_pages_disjoint conf CONF_SIZE RAM_START RAM_SIZE q) by done. by rewrite Hfree.
    + destruct (in_pages RAM_START _ q); [done|]. unfold with_conf, mapped. by rewrite Ec.
Qed.
End entry.

(** ** The state at the jump to the guest *)

Section booting.
Context {K : Kernel} {V : KernelView K} {L : KernelLaws K V}.
Context (handler_wrapper : Z) (stack_garbage : list Z).

(** Calls made on the way: non-blocking input, the signal stack, the handler
    of four signals, and no way back to more privileges. *)
Definition set_up_calls (c : urvirt_config) : list syscall :=
  let sigaction sig := SysRtSigaction sig handler_wrapper (Z.lor SA_SIGINFO SA_ONSTACK)
    (Z.shiftl 1 (SIGALRM - 1)) 8 in
  [SysFcntl STDIN_FILENO F_SETFL O_NONBLOCK; SysSigaltstack (stub_end c) 0 SIGSTACK_SIZE;
   sigaction SIGILL; sigaction SIGSYS; sigaction SIGALRM; sigaction SIGSEGV;
   SysPrctl PR_SET_NO_NEW_PRIVS 1 0 0 0].

Record booted (c : urvirt_config) (w0 w : world) : Prop := {
  bo_priv : exists id, w_priv w = (initialize_priv (config_file (with_stack c))) <| timerid := id |>;
  bo_regs : w_regs w = set_reg (w_regs w0) 0 KERNEL_START;
  bo_pages : forall q, k_page (w_kern w) q = with_ram (stub_space c (k_page (w_kern w0))) q;
  bo_files : forall fd o, k_file (w_kern w) fd o =
    copied 0 (cfg_kernel_size c) (k_file (w_kern w0)) fd o;
  bo_fds : same_fds (w_kern w0) (w_kern w);
  bo_calls : exists tr a, ran (w_kern w0) tr (w_kern w) /\
    (forall call, In call (set_up_calls c) -> In call (map fst tr)) /\
    In (filter_call c, a) tr /\ 0 <= s32 a;
}.

Section start.
Context (c : urvirt_config) (w0 : world).
#[local] Abbreviation k0 := (w_kern w0).
#[local] Abbreviation F := (refusal c k0).
#[local] Abbreviation config := (config_file (with_stack c)).

(** A call that only reports. *)
#[local] Ltac quiet Hb :=
  apply ends_bind; apply ends_bind; eapply ends_quiet; [reflexivity|reflexivity|exact Hb|];
  clear Hb; let w := fresh "w" in intros ? w _ Hb; apply ends_ret.

Lemma filter_length a b :
  take (Z.to_nat (snd (gen_addr_filter a b))) (fst (gen_addr_filter a b)) = fst (gen_addr_filter a b).
Proof using. reflexivity. Qed.

Lemma config_stub_end : 0 <= stub_end c -> stub_end c + SIGSTACK_SIZE <= TASK_SIZE ->
  u64 (stub_start config + stub_size config) = stub_end (with_stack c).
Proof using.
  unfold stub_end, SIGSTACK_SIZE, TASK_SIZE. intros H0 H. cbn. apply u64_id.
  unfold is_u64, SIGSTACK_SIZE. lia.
Qed.

(** What [lock_in] relies on: the configuration and the image are mapped where
    nothing else was. *)
Record image_mapped (kern conf : Z) : Prop := {
  im_conf : page_aligned conf /\ 0 <= conf /\ conf + CONF_SIZE <= TASK_SIZE /\ off_ram conf;
  im_conf_free q : in_pages conf CONF_SIZE q = true -> stub_space c (k_page k0) q = None;
  im_kern : page_aligned kern /\ 0 <= kern /\ kern + round_up_pg (cfg_kernel_size c) <= TASK_SIZE;
  im_kern_free q : in_pages kern (round_up_pg (cfg_kernel_size c)) q = true ->
    with_ram (with_conf conf (stub_space c (k_page k0))) q = None;
}.

Lemma ends_mod_priv f p r pages files tr (Q : unit -> world -> Prop) w :
  at_boot k0 p r pages files tr w ->
  (forall w', at_boot k0 (f p) r pages files tr w' -> Q tt w') -> ends F (mod_priv f) Q w.
Proof using. intros Hb HQ. apply HQ. by apply at_boot_priv. Qed.

Lemma ends_leave id kern conf tr a w :
  0 < cfg_kernel_size c <= RAM_SIZE -> image_mapped kern conf ->
  (forall call, In call (set_up_calls c) -> In call (map fst tr)) ->
  In (filter_call c, a) tr -> 0 <= s32 a ->
  at_boot k0 config (w_regs w0)
    (with_image c kern (with_ram (with_conf conf (stub_space c (k_page k0)))))
    (copied 0 (cfg_kernel_size c) (k_file k0)) tr w ->
  ends F (leave stack_garbage id kern (round_up_pg (cfg_kernel_size c)) conf) (fun _ => booted c w0) w.
Proof using L.
  intros Hs [(Hca & Hc0 & Hcs & Hoff) Hcf (Hka & Hk0 & Hks) Hkf] Hcalls Hfilter Ha Hb.
  destruct (round_up_pg_spec _ (ram_sized _ Hs)) as [Hr Hle]. unfold leave.
  apply ends_bind. eapply ends_munmap; [exact Hk0|lia|exact Hks|exact Hka|exact Hr|exact Hb|].
  clear Hb. intros _ y4 w4 Hb.
  apply ends_bind. eapply ends_mod_priv; [exact Hb|]. clear Hb. intros w5 Hb.
  apply ends_bind. eapply ends_mod_priv; [exact Hb|]. clear Hb. intros w6 Hb.
  apply ends_bind. eapply ends_munmap; [done..|exact Hb|]. clear Hb. intros _ y7 w7 Hb.
  apply ends_bind. quiet Hb. apply ends_ret. destruct Hb as [B1 B2 B3 B4 B6 B5]. split.
  - eexists. exact B1.
  - cbn. by rewrite B2.
  - intros q. cbn. rewrite B3. by apply final_space.
  - exact B4.
  - exact B6.
  - eexists _, a. split; [exact B5|]. split; [|split; [|exact Ha]].
    + intros call Hc. apply Hcalls in Hc. rewrite !map_app, !in_app_iff. tauto.
    + rewrite !in_app_iff. tauto.
Qed.

Lemma ends_lock_in id kern conf tr w :
  0 <= stub_end c -> stub_end c + SIGSTACK_SIZE <= TASK_SIZE ->
  0 < cfg_kernel_size c <= RAM_SIZE -> image_mapped kern conf ->
  (forall call x, In call (set_up_calls c) ->
     In call (map fst (tr ++ [(SysPrctl PR_SET_NO_NEW_PRIVS 1 0 0 0, x)]))) ->
  at_boot k0 config (w_regs w0)
    (with_image c kern (with_ram (with_conf conf (stub_space c (k_page k0)))))
    (copied 0 (cfg_kernel_size c) (k_file k0)) tr w ->
  ends F (lock_in stack_garbage config id kern (round_up_pg (cfg_kernel_size c)) conf)
    (fun _ => booted c w0) w.
Proof using L.
  intros He Hfit Hs Him Hcalls Hb. unfold lock_in. quiet Hb.
  rewrite config_stub_end by done. change (stub_start config) with (cfg_stub_start c).
  rewrite (surjective_pairing (gen_addr_filter _ _)), filter_length.
  quiet Hb. apply ends_bind; apply ends_bind. eapply ends_quiet; [reflexivity..|exact Hb|].
  clear Hb. fold (filter_call c). intros y w3 _ Hb3. apply ends_ret, ends_bind.
  destruct (Z.ltb_spec (s32 (sr_val y)) 0) as [Hneg|Hpos].
  { apply ends_bind. eapply ends_quiet; [reflexivity..|exact Hb3|]. intros z w4 _ Hb4.
    apply ends_halt, (refusal_in c k0 (filter_call c) (sr_val y) _ _ _ _ _ _ _ Hb4);
      [do 4 right; by left| |exact Hneg|done].
    rewrite !in_app_iff. left. right. by left. }
  apply ends_ret. eapply ends_leave; [done|exact Him| | |exact Hpos|exact Hb3].
  - intros call Hc. apply (Hcalls call (sr_val x0)) in Hc. rewrite !map_app, !in_app_iff in *. tauto.
  - rewrite !in_app_iff. cbn. tauto.
Qed.

Lemma with_conf_outside conf q :
  loaded c w0 -> page_aligned conf -> conf + CONF_SIZE <= TASK_SIZE -> TASK_SIZE / PAGE <= q ->
  with_ram (with_conf conf (stub_space c (k_page k0))) q = None.
Proof using.
  intros [_ _ [Has Haz] (_ & _ & Hfit) _ _ _ _ _ Huser] Hca Hcs Hq.
  assert (page_aligned (stub_end c)) as Hae.
  { unfold stub_end, page_aligned, PAGE in *. Z.div_mod_to_equations; lia. }
  unfold with_ram, with_conf, stub_space, mapped.
  rewrite (in_pages_below RAM_START RAM_SIZE q), (in_pages_below conf CONF_SIZE q),
    (in_pages_below (stub_end c) SIGSTACK_SIZE q) by done.
  destruct (in_pages _ _ q); [|done]. destruct (k_page k0 q) eqn:E; [|done].
  specialize (Huser q ltac:(by rewrite E)). lia.
Qed.

Lemma kernel_start_free conf : loaded c w0 -> page_aligned conf -> off_ram conf ->
  with_conf conf (stub_space c (k_page k0)) (KERNEL_START / PAGE) = None.
Proof using.
  intros [_ _ [Has Haz] (_ & H0 & _) Hoff _ _ _ _ _] Hca Hoc.
  assert (in_pages RAM_START RAM_SIZE (KERNEL_START / PAGE) = true) as Hin by done.
  unfold with_conf, mapped.
  rewrite (in_pages_disjoint RAM_START RAM_SIZE conf CONF_SIZE) by (done || (unfold off_ram in Hoc; tauto)).
  destruct (stub_space c (k_page k0) (KERNEL_START / PAGE)) eqn:E; [|done]. exfalso.
  assert (page_aligned (cfg_stub_size c + SIGSTACK_SIZE)) as Haz'.
  { unfold page_aligned, SIGSTACK_SIZE, PAGE in *. Z.div_mod_to_equations; lia. }
  assert (in_pages (cfg_stub_start c) (cfg_stub_size c + SIGSTACK_SIZE) (KERNEL_START / PAGE) = true)
    as Hs by (apply (stub_space_bounds c (k_page k0)); [done..|by rewrite E]).
  rewrite (in_pages_disjoint _ _ RAM_START RAM_SIZE _ Has Haz' eq_refl eq_refl) in Hin; [done| |done].
  unfold stub_end in Hoff. lia.
Qed.

Lemma ends_entrypoint_1 args w :
  loaded c w0 -> switched c k0 (w_regs w0) (k_page k0) (k_file k0) args w ->
  0 <= s64 (fst args) -> off_ram (snd args) ->
  ends F (entrypoint_1 handler_wrapper stack_garbage (fst args) (snd args))
    (fun _ => booted c w0) w.
Proof using L.
  intros Hl [[Hn _]|(-> & Hca & Hc0 & Hcs & Hcf & tr & Hb)] Hs Hoff; [lia|]. clear Hs.
  set (conf := snd args) in *. fold (with_conf conf (stub_space c (k_page k0))) in Hb.
  pose proof (ld_fits _ _ Hl) as (Hs0 & Hz0 & Hfit). pose proof (ld_kernel _ _ Hl) as Hks.
  assert (0 < cfg_kernel_size c <= RAM_SIZE) as Hks'.
  { revert Hks. unfold KERNEL_OFF, KERNEL_START, RAM_START. lia. }
  unfold entrypoint_1. do 6 quiet Hb. quiet Hb.
  apply ends_bind. eapply ends_mmap_fixed; [done..|exact Hb| |]; clear Hb.
  - intros a pages' w8 Ha Hsub Hb. apply ends_bind. eapply ends_get_priv; [exact Hb|].
    eapply ends_image_no_ram; [exact Hks'| | |exact Hb].
    + pose proof (Hsub (KERNEL_START / PAGE)) as H. rewrite kernel_start_free in H by done. tauto.
    + exists a. split; [|exact Ha]. apply in_or_app. right. by left.
  - intros w8 _ Hb. apply ends_bind. eapply ends_get_priv; [exact Hb|].
    eapply ends_image; [apply (ld_files _ _ Hl)|apply (ld_len _ _ Hl)..|exact Hks| |exact Hb|].
    + intros q. by apply with_conf_outside.
    + clear Hb. intros kern tr' w9 Hk0 Hka Hkfit Hkfree Hb.
      eapply ends_lock_in; [unfold stub_end; lia|exact Hfit|exact Hks'| | |exact Hb].
      * split; [done|exact Hcf|done|exact Hkfree].
      * intros call z Hc. rewrite !map_app, !in_app_iff. cbn in Hc |- *. tauto.
Qed.

Lemma ends_entrypoint :
  loaded c w0 ->
  (forall args w1, entrypoint_0 w0 = (inr args, w1) -> off_ram (snd args)) ->
  ends F (entrypoint handler_wrapper stack_garbage) (fun _ => booted c w0) w0.
Proof using L.
  intros Hl Hoff. unfold entrypoint. apply ends_bind.
  pose proof (ends_entrypoint_0 c k0 w0 Hl eq_refl) as H0. unfold ends at 1 in H0. unfold ends at 1.
  destruct (entrypoint_0 w0) as [[st|args] w1]; [exact H0|].
  specialize (Hoff args w1 eq_refl). destruct (Z.ltb_spec (s64 (fst args)) 0).
  - destruct H0 as [[_ HF]|(E & _)]; [apply HF|]. exfalso.
    pose proof (ld_fits _ _ Hl) as (Hs0 & Hz0 & Hfit).
    assert (is_u64 (fst args)) by (rewrite E; unfold is_u64, stub_end, SIGSTACK_SIZE, TASK_SIZE in *; lia).
    pose proof (s64_negative (fst args)) as Hn. unfold SIGSTACK_SIZE, TASK_SIZE in *. intuition lia.
  - by apply ends_entrypoint_1.
Qed.

(** ** The guest's first state *)

Lemma csr_wf_timerid p id : csr_wf p -> csr_wf (p <| timerid := id |>).
Proof using. apply csr_wf_view; [by intros []|done]. Qed.

Lemma booted_regs w : loaded c w0 -> booted c w0 w ->
  gregs_wf (w_regs w) /\ pc (w_regs w) = KERNEL_START.
Proof using.
  intros Hl [_ Hr _ _ _ _]. rewrite Hr. pose proof (ld_regs _ _ Hl) as [Hlen Hf]. split.
  - apply set_reg_wf; [by split|]. unfold is_u64, KERNEL_START. lia.
  - unfold pc. apply reg_set_reg. rewrite Hlen. lia.
Qed.

Lemma booted_stub w : booted c w0 w ->
  stub_start (w_priv w) = cfg_stub_start c /\
  stub_size (w_priv w) = cfg_stub_size c + SIGSTACK_SIZE.
Proof using. by intros [[id ->] _ _ _ _ _]. Qed.

Lemma booted_confined w : loaded c w0 -> booted c w0 w -> confined (w_priv w) (w_kern w).
Proof using.
  intros Hl Hb q Hq. destruct (booted_stub w Hb) as [Hs Hz].
  unfold stub_page in Hq. rewrite Hs, Hz in Hq. rewrite (bo_pages _ _ _ Hb).
  pose proof (ld_fits _ _ Hl) as (_ & H0 & _). destruct (ld_aligned _ _ Hl) as [Has Haz].
  unfold with_ram, mapped. destruct (in_pages RAM_START RAM_SIZE q) eqn:E.
  - split; [done|]. by apply mapped_ram_backed.
  - destruct (stub_space c (k_page k0) q) eqn:Es; [|done]. exfalso.
    rewrite (stub_space_bounds c (k_page k0) q) in Hq; [done..|by rewrite Es].
Qed.

Lemma booted_safe w : loaded c w0 -> booted c w0 w -> safe w /\ stub_ok (w_priv w).
Proof using.
  intros Hl Hb. destruct (booted_regs w Hl Hb) as [Hr _]. destruct (booted_stub w Hb) as [Hs Hz].
  split; [split; [|done| |by apply booted_confined]|].
  - destruct (bo_priv _ _ _ Hb) as [id ->].
    by apply csr_wf_timerid, initialize_priv_csr_wf.
  - by destruct (bo_priv _ _ _ Hb) as [id ->].
  - unfold stub_ok. rewrite Hs, Hz. destruct (ld_aligned _ _ Hl) as [Has Haz].
    pose proof (ld_fits _ _ Hl) as (H0 & H1 & H2). unfold stub_end, page_aligned, PAGE, SIGSTACK_SIZE in *.
    split_and!; try done; [Z.div_mod_to_equations|..]; lia.
Qed.

(** The guest reads the image at its bare address. *)
Lemma booted_image w i : loaded c w0 -> booted c w0 w -> 0 <= i < cfg_kernel_size c ->
  k_load (w_kern w) (KERNEL_START + i) = Some (k_file k0 KERNEL_FD i).
Proof using L.
  intros Hl Hb Hi. pose proof (ld_kernel _ _ Hl) as Hs.
  assert (RAM_START <= KERNEL_START + i < RAM_START + RAM_SIZE) as Hr.
  { revert Hs. unfold KERNEL_OFF, KERNEL_START, RAM_START. lia. }
  rewrite (load_mapped (w_kern w) RAM_START RAM_SIZE (Z.lor (Z.lor PROT_READ PROT_WRITE) PROT_EXEC)
    RAM_FD 0 (stub_space c (k_page k0)));
    [|done|done|done|done|apply (bo_pages _ _ _ Hb)|done|by left|].
  2: { pose proof (same_len _ _ _ _ (bo_fds _ _ _ Hb) (proj1 (ld_len _ _ Hl))). lia. }
  rewrite (bo_files _ _ _ Hb). unfold copied.
  replace (0 + (KERNEL_START + i - RAM_START)) with (KERNEL_OFF + i) by (unfold KERNEL_OFF; lia).
  rewrite Z.eqb_refl, (proj2 (Z.leb_le _ _)), (proj2 (Z.ltb_lt _ _)) by lia. cbn.
  do 2 f_equal. lia.
Qed.
End start.

(** C6. The start-up either reaches the guest or stops because Linux refused one of the five
    requests it needs (the configuration, the signal stack, RAM, the image, the filter):
    the history of calls of the process then has that request with its error, and the
    stop is the one that follows it (a fault, or the exit after the filter). If it
    reaches the guest, only the stub, its stack and RAM are mapped, the image is in RAM
    and no other byte of a file has changed, and the signal stack, the handlers and the
    filter for the stub's addresses have been asked for, the filter with success. *)
Theorem boot_outcome c w :
  loaded c w ->
  (forall args w1, entrypoint_0 w = (inr args, w1) -> off_ram (snd args)) ->
  match entrypoint handler_wrapper stack_garbage w with
  | (inr _, w') => booted c w w'
  | (inl st, w') => refusal c (w_kern w) st w'
  end.
Proof using L. intros Hl Hoff. by apply ends_entrypoint. Qed.

(** C9. The first state of the guest is one of the invariant: S-mode with translation off at
    KERNEL_START, reset CSRs, only RAM mapped beside the stub, which now includes its
    stack; and the guest reads the kernel image at KERNEL_START. *)
Theorem boot_safe c w w' :
  loaded c w ->
  (forall args w1, entrypoint_0 w = (inr args, w1) -> off_ram (snd args)) ->
  entrypoint handler_wrapper stack_garbage w = (inr (), w') ->
  safe w' /\ stub_ok (w_priv w') /\ pc (w_regs w') = KERNEL_START /\
  priv_mode (w_priv w') = PRIV_S /\
  (forall r, csr_view (w_priv w') r = initial_csr (config_file c) r) /\
  (stub_start (w_priv w'), stub_size (w_priv w')) =
    (cfg_stub_start c, cfg_stub_size c + SIGSTACK_SIZE) /\
  (forall i, 0 <= i < cfg_kernel_size c ->
     k_load (w_kern w') (KERNEL_START + i) = Some (k_file (w_kern w) KERNEL_FD i)).
Proof using L.
  intros Hl Hoff Hrun. pose proof (ends_inv _ _ _ _ _ _ (ends_entrypoint c w Hl Hoff) Hrun) as Hb.
  destruct (booted_safe c w w' Hl Hb) as [H1 H2]. destruct (booted_regs c w w' Hl Hb) as [_ H3].
  destruct (booted_stub c w w' Hb) as [H4 H5]. split_and!; try done.
  - by destruct (bo_priv _ _ _ Hb) as [id ->].
  - intros r. destruct (bo_priv _ _ _ Hb) as [id ->]. by destruct r.
  - by rewrite H4, H5.
  - intros i Hi. by apply (booted_image c w).
Qed.

(** C5. From the loader on: in every state of a run of the step relation after the start-up
    (any code of the guest that leaves the address space to the hypervisor, so that does
    not jump into the stub; any signals, in any order; block reads into memory of the
    guest), the CSRs are legal and every page outside the stub and its stack is a page
    of RAM inside the RAM file. *)
Theorem boot_reachable c w w1 w' q g :
  loaded c w ->
  (forall args w1, entrypoint_0 w = (inr args, w1) -> off_ram (snd args)) ->
  entrypoint handler_wrapper stack_garbage w = (inr (), w1) -> rtc step w1 w' ->
  in_pages (cfg_stub_start c) (cfg_stub_size c + SIGSTACK_SIZE) q = false ->
  k_page (w_kern w') q = Some g ->
  csr_wf (w_priv w') /\ gregs_wf (w_regs w') /\
  vp_fd g = RAM_FD /\ 0 <= vp_off g /\ vp_off g + PAGE <= RAM_SIZE.
Proof using L.
  intros Hl Hoff Hrun Hsteps Hq Hg.
  pose proof (ends_inv _ _ _ _ _ _ (ends_entrypoint c w Hl Hoff) Hrun) as Hb.
  destruct (booted_safe c w w1 Hl Hb) as [Hsafe _].
  destruct (booted_stub c w w1 Hb) as [Hs Hz].
  destruct (reachable_inv w1 w' Hsafe Hsteps) as [Hw' [Hs' Hz']].
  split; [apply Hw'|]. split; [apply Hw'|]. apply (safe_page w' q); [done| |done].
  unfold stub_page. by rewrite Hs', Hz', Hs, Hz.
Qed.
End booting.
