(* ===== verification/Loader.v ===== *)
(** * The loader

    Models [main] of urvirt-loader.c: it maps the stub's image, puts the
    kernel image, the disk image and two fresh files on the descriptors the
    stub expects, writes the configuration and jumps to the stub.  The calls
    go through the C library, whose functions are system calls that return -1
    on an error.  [loader_loads] says that the stub then finds what
    [Boot.loaded] asks for. *)

From stdpp Require Import relations.
From S2P Require Import Prelude Bits State Machine Hoare Csr Trap Instr Linux PageWalk Printf.
From S2P Require Import Console PageFault Sbi Handler Guest Isolation Hypervisor Seccomp Boot.

(** ** The code *)

Definition O_RDONLY : Z := 0.
Definition O_RDWR : Z := 2.
Definition MAP_FAILED : Z := 2 ^ 64 - 1.

(** What a function of the C library returns for the result of its call. *)
Definition libc_ret (v : Z) : Z :=
  if (-4096 <? s64 v) && (s64 v <? 0) then -1 else s64 v.

Section loader_code.
Context `{K : Kernel}.

(** The bytes of [img_stat.st_size] before the first [fstat]. *)
Variable stack_garbage : list Z.

Definition libc_open (path : list Z) (flags : Z) : M Z :=
  r ← do_syscall (SysOpen path flags); mret (s32 (libc_ret (sr_val r))).
(** The bytes of [st_size] afterwards. *)
Definition libc_fstat (fd : Z) (st_size : list Z) : M (list Z) :=
  r ← do_syscall (SysFstat fd);
  mret (take 8 (sr_buf r ++ drop (length (sr_buf r)) st_size)).
Definition libc_mmap (addr length prot flags fd pgoffset : Z) : M Z :=
  r ← do_syscall (SysMmap addr length prot flags fd pgoffset); mret (u64 (libc_ret (sr_val r))).
Definition libc_munmap (addr length : Z) : M Z :=
  r ← do_syscall (SysMunmap addr length); mret (s32 (libc_ret (sr_val r))).
Definition libc_close (fd : Z) : M Z :=
  r ← do_syscall (SysClose fd); mret (s32 (libc_ret (sr_val r))).
Definition libc_dup2 (oldfd newfd : Z) : M Z :=
  r ← do_syscall (SysDup2 oldfd newfd); mret (s32 (libc_ret (sr_val r))).
Definition libc_memfd_create (name : string) (flags : Z) : M Z :=
  r ← do_syscall (SysMemfdCreate (string_bytes name) flags); mret (s32 (libc_ret (sr_val r))).
Definition libc_ftruncate (fd length : Z) : M Z :=
  r ← do_syscall (SysFtruncate fd length); mret (s32 (libc_ret (sr_val r))).
(** [fprintf(stderr, ...)]; standard error is not buffered. *)
Definition libc_eprint (text : list Z) : M Z :=
  r ← do_syscall (SysWrite 2 text); mret (s64 (libc_ret (sr_val r))).

Definition usage (argv0 : list Z) : list Z :=
  string_bytes "Usage: " ++ argv0 ++ string_bytes " <stub-image> <kernel-image> <fs-img>" ++ [10].

(** An image on a descriptor of its own. *)
Definition move_fd (fd newfd : Z) : M unit := libc_dup2 fd newfd;; libc_close fd;; mret tt.

Definition install_files (config_fd_orig ram_fd_orig : Z) : M unit :=
  libc_dup2 config_fd_orig CONFIG_FD;;
  libc_dup2 ram_fd_orig RAM_FD;;
  libc_close config_fd_orig;;
  libc_close ram_fd_orig;;
  mret tt.

(** The two fresh files. *)
Definition make_files : M unit :=
  config_fd_orig ← libc_memfd_create "config_fd" 0;
  ram_fd_orig ← libc_memfd_create "ram_fd" 0;
  libc_ftruncate config_fd_orig CONF_SIZE;;
  libc_ftruncate ram_fd_orig RAM_SIZE;;
  install_files config_fd_orig ram_fd_orig.

(** The configuration is [w_priv]; without a mapping the first store faults. *)
Definition write_config (stub_addr file_size_up kernel_size_ : Z) : M unit :=
  conf ← libc_mmap 0 CONF_SIZE (Z.lor PROT_READ PROT_WRITE) MAP_SHARED CONFIG_FD 0;
  if conf =? MAP_FAILED then halt (StopFault conf)
  else
    mod_priv (fun p => p <| stub_start := stub_addr |> <| stub_size := file_size_up |>
                         <| kernel_size := kernel_size_ |>);;
    libc_munmap conf CONF_SIZE;;
    mret tt.

(** After the stub's image is mapped; returns the address the loader jumps
    to, where the jump faults if nothing is mapped. *)
Definition main_rest (argv : list (list Z)) (img_stat : list Z) (stub_addr file_size_up : Z) : M Z :=
  kernel_img_fd ← libc_open (argv !!! 2%nat) O_RDONLY;
  img_stat ← libc_fstat kernel_img_fd img_stat;
  let kernel_size_ := le_object 8 [] img_stat in
  move_fd kernel_img_fd KERNEL_FD;;
  make_files;;
  block_fd_orig ← libc_open (argv !!! 3%nat) O_RDWR;
  move_fd block_fd_orig BLOCK_FD;;
  write_config stub_addr file_size_up kernel_size_;;
  libc_eprint (string_bytes "[urvirt] Entering urvirt-stub" ++ [10]);;
  if stub_addr =? MAP_FAILED then halt (StopFault stub_addr) else mret stub_addr.

Definition main (argv : list (list Z)) : M Z :=
  if negb (Z.of_nat (length argv) =? 4) then
    libc_eprint (usage (argv !!! 0%nat));; s_exit_group 1
  else
    stub_img_fd ← libc_open (argv !!! 1%nat) O_RDONLY;
    img_stat ← libc_fstat stub_img_fd stack_garbage;
    let file_size := le_object 8 [] img_stat in
    let file_size_up := round_up_pg file_size in
    stub_addr ← libc_mmap 0 file_size_up (Z.lor PROT_EXEC PROT_READ) MAP_PRIVATE stub_img_fd 0;
    libc_close stub_img_fd;;
    main_rest argv img_stat stub_addr file_size_up.
End loader_code.

(** ** What is assumed of files and descriptors

    A descriptor is open on an inode ([k_fd]); an inode has a size and bytes,
    and paths name inodes. *)

Class FileView (K : Kernel) := {
  k_inode : kstate -> list Z -> option Z;
  k_size : kstate -> Z -> Z;
  k_data : kstate -> Z -> Z -> Z;
}.

(** [fds] with [fd] open on [i], or closed. *)
Definition set_fd (fd : Z) (i : option Z) (fds : Z -> option Z) (x : Z) : option Z :=
  if x =? fd then i else fds x.

Definition lowest (fds : Z -> option Z) (fd : Z) : Prop :=
  0 <= fd /\ fds fd = None /\ forall x, 0 <= x < fd -> fds x <> None.

(** Calls of the loader that keep what the inodes hold. *)
Definition keeps_data (c : syscall) : bool :=
  match c with
  | SysOpen _ _ | SysFstat _ | SysDup2 _ _ | SysMmap _ _ _ _ _ _ | SysMunmap _ _ => true
  | SysWrite fd _ => std_stream fd
  | _ => false
  end.

Definition same_data {K : Kernel} {FV : FileView K} (k k' : kstate) : Prop :=
  forall i, k_size k' i = k_size k i /\ forall o, k_data k' i o = k_data k i o.

(** Another descriptor, or a path, still stands for what [fd] is open on. *)
Definition referenced {K : Kernel} {V : KernelView K} {FV : FileView K}
    (k : kstate) (fd i : Z) : Prop :=
  (exists x, x <> fd /\ k_fd k x = Some i) \/ exists p, k_inode k p = Some i.

Class FileLaws (K : Kernel) (V : KernelView K) (FV : FileView K) : Prop := {
  law_file k fd i o : k_fd k fd = Some i -> k_file k fd o = k_data k i o;
  law_len k fd i : k_fd k fd = Some i -> k_len k fd = k_size k i;
  law_size k i : 0 <= k_size k i < 2 ^ 63;
  (** none of these calls makes or removes a path *)
  law_inode c k p : k_inode (snd (k_syscall c k)) p = k_inode k p;
  law_data c k : keeps_data c = true -> same_data k (snd (k_syscall c k));
  (** mappings stay, whatever happens to the descriptors *)
  law_fd_pages c k q : keeps_fds c = false ->
    is_Some (k_page (snd (k_syscall c k)) q) <-> is_Some (k_page k q);
  (** open(2) and memfd_create(2) return the lowest free descriptor *)
  law_open k path flags :
    flags = O_RDONLY \/ flags = O_RDWR ->
    let a := sr_val (fst (k_syscall (SysOpen path flags) k)) in
    let k' := snd (k_syscall (SysOpen path flags) k) in
    (s64 a < 0 /\ same_fds k k') \/
    exists fd i, a = u64 fd /\ fd < 2 ^ 31 /\ k_inode k path = Some i /\ lowest (k_fd k) fd /\
      forall x, k_fd k' x = set_fd fd (Some i) (k_fd k) x;
  law_memfd k name flags :
    let a := sr_val (fst (k_syscall (SysMemfdCreate name flags) k)) in
    let k' := snd (k_syscall (SysMemfdCreate name flags) k) in
    (s64 a < 0 /\ same_fds k k' /\ same_data k k') \/
    exists fd i, a = u64 fd /\ fd < 2 ^ 31 /\ lowest (k_fd k) fd /\
      (forall x, k_fd k x <> Some i) /\ (forall p, k_inode k p <> Some i) /\
      (forall x, k_fd k' x = set_fd fd (Some i) (k_fd k) x) /\
      k_size k' i = 0 /\ (forall o, k_data k' i o = 0) /\
      forall j, j <> i -> k_size k' j = k_size k j /\ forall o, k_data k' j o = k_data k j o;
  law_dup2 k oldfd newfd i :
    k_fd k oldfd = Some i -> 0 <= newfd < 2 ^ 31 ->
    let a := sr_val (fst (k_syscall (SysDup2 oldfd newfd) k)) in
    let k' := snd (k_syscall (SysDup2 oldfd newfd) k) in
    (s64 a < 0 /\ same_fds k k') \/
    (a = newfd /\ forall x, k_fd k' x = set_fd newfd (Some i) (k_fd k) x);
  (** close(2) releases the descriptor whatever it returns *)
  law_close k fd i :
    k_fd k fd = Some i -> referenced k fd i ->
    let k' := snd (k_syscall (SysClose fd) k) in
    (forall x, k_fd k' x = set_fd fd None (k_fd k) x) /\ same_data k k';
  (** ftruncate(2) cuts, or extends with zeroes, and keeps the descriptors *)
  law_ftruncate k fd len i :
    k_fd k fd = Some i -> 0 <= len < 2 ^ 63 ->
    let a := sr_val (fst (k_syscall (SysFtruncate fd len) k)) in
    let k' := snd (k_syscall (SysFtruncate fd len) k) in
    (forall x, k_fd k' x = k_fd k x) /\
    ((s64 a < 0 /\ same_data k k') \/
     k_size k' i = len /\
     (forall o, k_data k' i o = if (0 <=? o) && (o <? len `min` k_size k i) then k_data k i o else 0) /\
     forall j, j <> i -> k_size k' j = k_size k j /\ forall o, k_data k' j o = k_data k j o);
  law_fstat k fd i :
    k_fd k fd = Some i ->
    let r := fst (k_syscall (SysFstat fd) k) in
    s64 (sr_val r) < 0 \/ (length (sr_buf r) = 8%nat /\ le_object 8 (sr_buf r) [] = k_size k i);
}.


(** ** What Linux may refuse *)

Section denials.
Context {K : Kernel} {V : KernelView K} {FV : FileView K}.
Context (argv : list (list Z)) (k0 : kstate).

(** The requests the loader cannot do without, in the state in which it makes
    them: on a descriptor that is open. *)
Definition load_request (k : kstate) (c : syscall) : Prop :=
  match c with
  | SysOpen path flags =>
      (path = argv !!! 1%nat \/ path = argv !!! 2%nat) /\ flags = O_RDONLY \/
      path = argv !!! 3%nat /\ flags = O_RDWR
  | SysFstat fd => k_fd k fd <> None
  | SysMmap _ len _ _ fd _ =>
      c = SysMmap 0 len (Z.lor PROT_EXEC PROT_READ) MAP_PRIVATE fd 0 /\
        (exists i, k_inode k (argv !!! 1%nat) = Some i /\ k_fd k fd = Some i /\
                   len = round_up_pg (k_size k i)) \/
      c = cfg_mmap /\ k_fd k CONFIG_FD <> None
  | SysMemfdCreate name flags =>
      (name = string_bytes "config_fd" \/ name = string_bytes "ram_fd") /\ flags = 0
  | SysFtruncate fd len => k_fd k fd <> None /\ (len = CONF_SIZE \/ len = RAM_SIZE)
  | SysDup2 oldfd newfd => k_fd k oldfd <> None /\ CONFIG_FD <= newfd <= BLOCK_FD
  | _ => False
  end.

(** One system call. *)
Definition called (k k' : kstate) : Prop := exists c, k' = snd (k_syscall c k).

(** One of the requests between [k0] and [k] was refused. *)
Definition turned_down (k : kstate) : Prop :=
  exists k1 c, rtc called k0 k1 /\ load_request k1 c /\
    s64 (sr_val (fst (k_syscall c k1))) < 0 /\ rtc called (snd (k_syscall c k1)) k.

Lemma denied_syscall c k : turned_down k -> turned_down (snd (k_syscall c k)).
Proof using.
  intros (k1 & d & H1 & H2 & H3 & H4). exists k1, d. split_and!; try done.
  eapply rtc_r; [exact H4|by exists c].
Qed.

(** A refusal stays in the history, whether the computation returns or stops. *)
Definition lasting {A} (m : M A) : Prop :=
  forall w, turned_down (w_kern w) -> turned_down (w_kern (snd (m w))).

Lemma lasting_ret {A} (a : A) : lasting (mret a).
Proof using. by intros w. Qed.

Lemma lasting_halt {A} st : lasting (halt st : M A).
Proof using. by intros w. Qed.

Lemma lasting_mod_priv f : lasting (mod_priv f).
Proof using. by intros w. Qed.

Lemma lasting_bind {A B} (m : M A) (f : A -> M B) :
  lasting m -> (forall a, lasting (f a)) -> lasting (m ≫= f).
Proof using.
  intros Hm Hf w Hw. specialize (Hm w Hw). unfold mbind, M_bind.
  destruct (m w) as [[st|a] w']; [done|by apply Hf].
Qed.

Lemma lasting_syscall c : lasting (do_syscall c).
Proof using.
  intros w Hw. apply (denied_syscall c) in Hw. unfold do_syscall.
  by destruct (k_syscall c (w_kern w)).
Qed.

(** How the process may stop, and what its return means. *)
Definition only_denied (_ : stop) (w : world) : Prop := turned_down (w_kern w).
Definition unless_denied {A} (P : A -> world -> Prop) (a : A) (w : world) : Prop :=
  turned_down (w_kern w) \/ P a w.

(** Once a request is refused nothing more is claimed. *)
Lemma ends_denied {A} (m : M A) P w :
  lasting m -> turned_down (w_kern w) ->
  ends only_denied m (unless_denied P) w.
Proof using.
  intros Hst Hd. specialize (Hst w Hd). unfold ends. destruct (m w) as [[st|x] w']; [done|by left].
Qed.

(** A function of the library, and the computation after it. *)
Lemma ends_libc_any {A B} c (g : sysret -> B) (f : B -> M A) P w :
  (rtc called (w_kern w) (snd (k_syscall c (w_kern w))) ->
   ends only_denied (f (g (fst (k_syscall c (w_kern w))))) P
     (w <| w_kern := snd (k_syscall c (w_kern w)) |>)) ->
  ends only_denied ((r ← do_syscall c; mret (g r)) ≫= f) P w.
Proof using.
  intros HQ. apply ends_bind, ends_bind, ends_syscall, ends_ret, HQ.
  apply rtc_once. by exists c.
Qed.

Lemma ends_libc {A B} c (g : sysret -> B) (f : B -> M A) P w :
  rtc called k0 (w_kern w) -> (forall b, lasting (f b)) ->
  load_request (w_kern w) c ->
  (0 <= s64 (sr_val (fst (k_syscall c (w_kern w)))) ->
   rtc called k0 (snd (k_syscall c (w_kern w))) ->
   ends only_denied (f (g (fst (k_syscall c (w_kern w))))) (unless_denied P)
     (w <| w_kern := snd (k_syscall c (w_kern w)) |>)) ->
  ends only_denied ((r ← do_syscall c; mret (g r)) ≫= f) (unless_denied P) w.
Proof using.
  intros Hran Hst Hreq HQ. apply ends_libc_any. intros Hc.
  destruct (Z.ltb_spec (s64 (sr_val (fst (k_syscall c (w_kern w))))) 0) as [Hneg|Hpos].
  - apply ends_denied; [apply Hst|]. exists (w_kern w), c. by split_and!.
  - apply HQ; [done|by etrans].
Qed.

End denials.

(** A suffix of the loader keeps a refusal. *)
#[local] Ltac kept :=
  intros; unfold main_rest, move_fd, make_files, install_files, write_config, libc_open, libc_fstat,
    libc_mmap, libc_munmap, libc_close, libc_dup2, libc_memfd_create, libc_ftruncate, libc_eprint;
  cbv zeta;
  repeat first [ apply lasting_bind; [|intros ?] | apply lasting_ret | apply lasting_halt
               | apply lasting_mod_priv | apply lasting_syscall
               | match goal with |- lasting _ _ (if ?b then _ else _) => destruct b end ].

(** ** Runs in which Linux refuses nothing *)

Section runs.
Context {K : Kernel} {V : KernelView K} {L : KernelLaws K V}.
Context {FV : FileView K} {FL : FileLaws K V FV}.
Context (argv : list (list Z)) (k0 : kstate).

(** What is tracked: the mapped pages, the descriptors and the inodes. *)
Record at_load (p : priv_state) (r : gregs) (live : Z -> Prop) (fds : Z -> option Z)
    (size : Z -> Z) (data : Z -> Z -> Z) (w : world) : Prop := {
  al_priv : w_priv w = p;
  al_regs : w_regs w = r;
  al_live : forall q, is_Some (k_page (w_kern w) q) <-> live q;
  al_fds : forall x, k_fd (w_kern w) x = fds x;
  al_size : forall i, k_size (w_kern w) i = size i;
  al_data : forall i o, k_data (w_kern w) i o = data i o;
  al_inode : forall q, k_inode (w_kern w) q = k_inode k0 q;
  al_ran : rtc called k0 (w_kern w);
}.

Lemma at_load_ext p r live live' fds fds' size size' data data' w :
  (forall q, live q <-> live' q) -> (forall x, fds x = fds' x) ->
  (forall i, size i = size' i) -> (forall i o, data i o = data' i o) ->
  at_load p r live fds size data w -> at_load p r live' fds' size' data' w.
Proof using.
  intros Hl Hf Hs Hd []. split; try done; intros;
    rewrite <- ?Hf, <- ?Hs, <- ?Hd, <- ?Hl; auto.
Qed.

Lemma libc_ret_fd fd : 0 <= fd < 2 ^ 31 -> s32 (libc_ret (u64 fd)) = fd.
Proof using.
  intros Hfd. unfold libc_ret. assert (s64 (u64 fd) = fd) as ->.
  { unfold s64, sext, u64. rewrite Z.mod_mod by lia. rewrite Z.mod_small by lia.
    by rewrite (proj2 (Z.ltb_lt _ _)) by lia. }
  rewrite (proj2 (Z.ltb_ge fd 0)), andb_false_r by lia.
  unfold s32, sext. rewrite Z.mod_small by lia. by rewrite (proj2 (Z.ltb_lt _ _)) by lia.
Qed.

Section calls.
Context {A : Type} (P : A -> world -> Prop).
Context (p : priv_state) (r : gregs).
#[local] Abbreviation goal m w := (ends (only_denied argv k0) m (unless_denied argv k0 P) w).

Lemma ends_open path flags i live fds size data (f : Z -> M A) w :
  load_request argv (w_kern w) (SysOpen path flags) -> k_inode k0 path = Some i ->
  at_load p r live fds size data w -> (forall b, lasting argv k0 (f b)) ->
  (forall fd w', lowest fds fd -> fd < 2 ^ 31 ->
     at_load p r live (set_fd fd (Some i) fds) size data w' -> goal (f fd) w') ->
  goal (libc_open path flags ≫= f) w.
Proof using FL.
  intros Hreq Hi [H1 H2 H3 H4 H5 H6 H7 H8] Hst HQ.
  eapply (ends_libc argv k0 (SysOpen path flags)); [exact H8|exact Hst|exact Hreq|]. intros Hpos Hran.
  assert (flags = O_RDONLY \/ flags = O_RDWR) as Hfl by (cbn in Hreq; tauto).
  destruct (law_open (w_kern w) path flags Hfl) as [[Hneg _]|(fd & j & Ha & Hfd & Hj & [Hl0 [Hl1 Hl2]] & Hup)];
    [lia|].
  rewrite H7, Hi in Hj. injection Hj as <-.
  rewrite Ha, libc_ret_fd by lia. apply HQ; [split_and!; [done|by rewrite <- H4|]|done|].
  { intros x Hx. rewrite <- H4. by apply Hl2. }
  split; try done; cbn; try by eexists.
  - intros q. rewrite law_fd_pages by done. apply H3.
  - intros x. rewrite Hup. unfold set_fd. by rewrite H4.
  - intros j. rewrite (proj1 (law_data (SysOpen path flags) (w_kern w) eq_refl j)). apply H5.
  - intros j o. rewrite (proj2 (law_data (SysOpen path flags) (w_kern w) eq_refl j)). apply H6.
  - intros q. by rewrite law_inode.
Qed.

(** A call that only reports: [fstat], [fprintf]. *)
Lemma at_load_report c live fds size data w :
  keeps_data c = true -> keeps_fds c = true -> keeps_pages c = true ->
  rtc called k0 (snd (k_syscall c (w_kern w))) -> at_load p r live fds size data w ->
  at_load p r live fds size data (w <| w_kern := snd (k_syscall c (w_kern w)) |>).
Proof using FL L.
  intros Hkd Hkf Hkp Hran [H1 H2 H3 H4 H5 H6 H7 H8]. split; try done; cbn.
  - intros q. by rewrite (law_keeps_pages c (w_kern w) Hkp q).
  - intros x. by rewrite (same_fd _ _ _ (law_keeps_fds c (w_kern w) Hkf)).
  - intros j. by rewrite (proj1 (law_data c (w_kern w) Hkd j)).
  - intros j o. by rewrite (proj2 (law_data c (w_kern w) Hkd j)).
  - intros q. by rewrite law_inode.
Qed.

Lemma ends_eprint text live fds size data (f : Z -> M A) w :
  at_load p r live fds size data w ->
  (forall x w', at_load p r live fds size data w' -> goal (f x) w') ->
  goal (libc_eprint text ≫= f) w.
Proof using FL L.
  intros Hw HQ. apply ends_libc_any. intros Hc. apply HQ, at_load_report; try done.
  etrans; [apply Hw|done].
Qed.

Lemma ends_fstat fd st i live fds size data (f : list Z -> M A) w :
  fds fd = Some i -> at_load p r live fds size data w ->
  (forall b, lasting argv k0 (f b)) ->
  (forall st w', le_object 8 [] st = size i -> at_load p r live fds size data w' -> goal (f st) w') ->
  goal (libc_fstat fd st ≫= f) w.
Proof using FL L.
  intros Hi Hw Hst HQ. pose proof (al_fds _ _ _ _ _ _ _ Hw fd) as Hfd. rewrite Hi in Hfd.
  eapply (ends_libc argv k0 (SysFstat fd)); [apply Hw|exact Hst|cbn; by rewrite Hfd|]. intros Hpos Hran.
  apply HQ; [|by apply at_load_report].
  destruct (law_fstat (w_kern w) fd i Hfd) as [Hneg|[Hlen Hle]]; [lia|].
  rewrite <- (al_size _ _ _ _ _ _ _ Hw), <- Hle. rewrite take_app_length' by done.
  unfold le_object. by rewrite drop_nil, app_nil_r.
Qed.

Lemma ends_dup2 oldfd newfd i live fds size data (f : Z -> M A) w :
  fds oldfd = Some i -> CONFIG_FD <= newfd <= BLOCK_FD -> at_load p r live fds size data w ->
  (forall b, lasting argv k0 (f b)) ->
  (forall x w', at_load p r live (set_fd newfd (Some i) fds) size data w' -> goal (f x) w') ->
  goal (libc_dup2 oldfd newfd ≫= f) w.
Proof using FL.
  intros Hi Hn [H1 H2 H3 H4 H5 H6 H7 H8] Hst HQ.
  eapply (ends_libc argv k0 (SysDup2 oldfd newfd)); [exact H8|exact Hst|cbn; by rewrite H4, Hi|].
  intros Hpos Hran. destruct (law_dup2 (w_kern w) oldfd newfd i) as [[Hneg _]|[_ Hup]];
    [by rewrite H4|unfold CONFIG_FD, BLOCK_FD in *; lia|lia|].
  apply HQ. split; try done; cbn; try by eexists.
  - intros q. rewrite law_fd_pages by done. apply H3.
  - intros x. rewrite Hup. unfold set_fd. by rewrite H4.
  - intros j. rewrite (proj1 (law_data (SysDup2 oldfd newfd) (w_kern w) eq_refl j)). apply H5.
  - intros j o. rewrite (proj2 (law_data (SysDup2 oldfd newfd) (w_kern w) eq_refl j)). apply H6.
  - intros q. by rewrite law_inode.
Qed.

Lemma ends_close fd i live fds size data (f : Z -> M A) w :
  fds fd = Some i -> (exists x, x <> fd /\ fds x = Some i) \/ (exists q, k_inode k0 q = Some i) ->
  at_load p r live fds size data w ->
  (forall x w', at_load p r live (set_fd fd None fds) size data w' -> goal (f x) w') ->
  goal (libc_close fd ≫= f) w.
Proof using FL.
  intros Hi Href [H1 H2 H3 H4 H5 H6 H7 H8] HQ.
  eapply ends_libc_any. intros Hran. pose proof (transitivity H8 Hran) as Hran'.
  destruct (law_close (w_kern w) fd i) as [Hup Hd]; [by rewrite H4| |].
  { destruct Href as [(x & Hx & Hfx)|(q & Hq)]; [left; exists x; by rewrite H4|right; exists q; by rewrite H7]. }
  apply HQ. split; try done; cbn; try by eexists.
  - intros q. rewrite law_fd_pages by done. apply H3.
  - intros x. rewrite Hup. unfold set_fd. by rewrite H4.
  - intros j. by rewrite (proj1 (Hd j)).
  - intros j o. by rewrite (proj2 (Hd j)).
  - intros q. by rewrite law_inode.
Qed.

Lemma ends_memfd name live fds size data (f : Z -> M A) w :
  name = "config_fd" \/ name = "ram_fd" ->
  at_load p r live fds size data w -> (forall b, lasting argv k0 (f b)) ->
  (forall fd i w', lowest fds fd -> fd < 2 ^ 31 ->
     (forall x, fds x <> Some i) -> (forall q, k_inode k0 q <> Some i) ->
     at_load p r live (set_fd fd (Some i) fds) (fun j => if j =? i then 0 else size j)
       (fun j o => if j =? i then 0 else data j o) w' -> goal (f fd) w') ->
  goal (libc_memfd_create name 0 ≫= f) w.
Proof using FL.
  intros Hname [H1 H2 H3 H4 H5 H6 H7 H8] Hst HQ.
  eapply (ends_libc argv k0 (SysMemfdCreate (string_bytes name) 0));
    [exact H8|exact Hst|cbn; destruct Hname as [-> | ->]; tauto|].
  intros Hpos Hran.
  destruct (law_memfd (w_kern w) (string_bytes name) 0) as
    [[Hneg _]|(fd & i & Ha & Hfd & [Hl0 [Hl1 Hl2]] & Hf1 & Hf2 & Hup & Hs & Hd & Ho)]; [lia|].
  rewrite Ha, libc_ret_fd by lia. apply (HQ fd i).
  - split_and!; [done|by rewrite <- H4|]. intros x Hx. rewrite <- H4. by apply Hl2.
  - done.
  - intros x. by rewrite <- H4.
  - intros q. by rewrite <- H7.
  - split; try done; cbn; try by eexists.
    + intros q. rewrite law_fd_pages by done. apply H3.
    + intros x. rewrite Hup. unfold set_fd. by rewrite H4.
    + intros j. destruct (Z.eqb_spec j i) as [->|Hj]; [done|]. by rewrite (proj1 (Ho j Hj)).
    + intros j o. destruct (Z.eqb_spec j i) as [->|Hj]; [done|]. by rewrite (proj2 (Ho j Hj)).
    + intros q. by rewrite law_inode.
Qed.

Lemma ends_ftruncate fd len i live fds size data (f : Z -> M A) w :
  fds fd = Some i -> len = CONF_SIZE \/ len = RAM_SIZE -> (forall o, data i o = 0) ->
  at_load p r live fds size data w -> (forall b, lasting argv k0 (f b)) ->
  (forall x w', at_load p r live fds (fun j => if j =? i then len else size j) data w' ->
     goal (f x) w') ->
  goal (libc_ftruncate fd len ≫= f) w.
Proof using FL L.
  intros Hi Hlen Hz [H1 H2 H3 H4 H5 H6 H7 H8] Hst HQ.
  eapply (ends_libc argv k0 (SysFtruncate fd len)); [exact H8|exact Hst|cbn; by rewrite H4, Hi|].
  intros Hpos Hran. destruct (law_ftruncate (w_kern w) fd len i) as [Hfd [[Hneg _]|(Hs & Hd & Ho)]];
    [by rewrite H4|unfold CONF_SIZE in *; change RAM_SIZE with 16777216 in *; lia|lia|].
  apply HQ. split; try done; cbn; try by eexists.
  - intros q. by rewrite (law_keeps_pages (SysFtruncate fd len) (w_kern w) eq_refl q).
  - intros x. by rewrite Hfd.
  - intros j. destruct (Z.eqb_spec j i) as [->|Hj]; [done|]. by rewrite (proj1 (Ho j Hj)).
  - intros j o. destruct (decide (j = i)) as [->|Hj]; [|by rewrite (proj2 (Ho j Hj))].
    rewrite Hd, Hz, H6, Hz. by destruct (_ && _).
  - intros q. by rewrite law_inode.
Qed.

Lemma libc_ret_addr a : 0 <= a <= TASK_SIZE -> u64 (libc_ret a) = a.
Proof using.
  unfold TASK_SIZE. intros Ha. unfold libc_ret. assert (s64 a = a) as ->.
  { unfold s64, sext. rewrite Z.mod_small by lia. by rewrite (proj2 (Z.ltb_lt _ _)) by lia. }
  rewrite (proj2 (Z.ltb_ge a 0)), andb_false_r by lia. apply u64_id. unfold is_u64. lia.
Qed.

Lemma ends_libc_mmap len prot flags fd live fds size data (f : Z -> M A) w :
  load_request argv (w_kern w) (SysMmap 0 len prot flags fd 0) -> 0 < len -> page_aligned len ->
  at_load p r live fds size data w -> (forall b, lasting argv k0 (f b)) ->
  (forall a w', 0 <= a -> page_aligned a -> a + len <= TASK_SIZE ->
     (forall q, in_pages a len q = true -> ~ live q) ->
     at_load p r (fun q => in_pages a len q = true \/ live q) fds size data w' -> goal (f a) w') ->
  goal (libc_mmap 0 len prot flags fd 0 ≫= f) w.
Proof using FL L.
  intros Hreq Hlen Hal [H1 H2 H3 H4 H5 H6 H7 H8] Hst HQ.
  assert (flags = MAP_SHARED \/ flags = MAP_PRIVATE) as Hfl
    by (destruct Hreq as [[[= _ ->] _]|[[= _ _ ->] _]]; tauto).
  eapply (ends_libc argv k0 (SysMmap 0 len prot flags fd 0)); [exact H8|exact Hst|exact Hreq|].
  intros Hpos Hran.
  destruct (law_mmap_free (w_kern w) len prot flags fd 0 Hfl Hlen Hal eq_refl)
    as [[Hneg _]|(Ha & Haa & Hsz & Hfree & Hm)]; [lia|].
  set (c := SysMmap 0 len prot flags fd 0) in *.
  rewrite libc_ret_addr by lia. apply HQ; try done.
  - intros q Hq Hl. apply H3 in Hl. rewrite Hfree in Hl by done. by destruct Hl.
  - split; try done; cbn; try by eexists.
    + intros q. rewrite (Hm q), <- H3. unfold mapped. destruct (in_pages _ len q);
        [|split; [by right|by intros [|]]].
      split; [by left|by eexists].
    + intros x. by rewrite (same_fd _ _ _ (law_keeps_fds c (w_kern w) eq_refl)).
    + intros j. by rewrite (proj1 (law_data c (w_kern w) eq_refl j)).
    + intros j o. by rewrite (proj2 (law_data c (w_kern w) eq_refl j)).
    + intros q. by rewrite law_inode.
Qed.

Lemma ends_libc_munmap addr len live fds size data (f : Z -> M A) w :
  0 <= addr -> 0 <= len -> addr + len <= TASK_SIZE -> page_aligned addr -> page_aligned len ->
  at_load p r live fds size data w ->
  (forall x w', at_load p r (fun q => in_pages addr len q = false /\ live q) fds size data w' ->
     goal (f x) w') ->
  goal (libc_munmap addr len ≫= f) w.
Proof using FL L.
  intros Ha Hl Hal Haa Hla [H1 H2 H3 H4 H5 H6 H7 H8] HQ. set (c := SysMunmap addr len).
  apply (ends_libc_any argv k0 c). intros Hran. pose proof (transitivity H8 Hran) as Hran'. apply HQ.
  split; try done; cbn; try by eexists.
  - intros q. subst c. rewrite law_munmap by done. unfold unmapped. rewrite <- H3.
    destruct (in_pages addr len q); [by split; [intros []|intros [? _]]|].
    by split; [|intros [_ ?]].
  - intros x. by rewrite (same_fd _ _ _ (law_keeps_fds c (w_kern w) eq_refl)).
  - intros j. by rewrite (proj1 (law_data c (w_kern w) eq_refl j)).
  - intros j o. by rewrite (proj2 (law_data c (w_kern w) eq_refl j)).
  - intros q. by rewrite law_inode.
Qed.
End calls.

Lemma ends_seq {A B} (m : M B) (f : B -> M A) P w :
  (forall b, lasting argv k0 (f b)) ->
  ends (only_denied argv k0) m
    (unless_denied argv k0 (fun b w' => ends (only_denied argv k0) (f b) (unless_denied argv k0 P) w')) w ->
  ends (only_denied argv k0) (m ≫= f) (unless_denied argv k0 P) w.
Proof using.
  intros Hst Hm. apply ends_bind. eapply ends_conseq; [exact Hm|].
  intros b w' [Hd|H]; [|done]. by apply ends_denied.
Qed.

(** ** The phases *)

(** Moving a descriptor leaves only the new one. *)
Lemma ends_move_fd fd newfd i p r live fds size data (P : unit -> world -> Prop) w :
  lowest fds fd -> fd <> newfd -> CONFIG_FD <= newfd <= BLOCK_FD ->
  at_load p r live (set_fd fd (Some i) fds) size data w ->
  (forall w', at_load p r live (set_fd newfd (Some i) fds) size data w' -> P tt w') ->
  ends (only_denied argv k0) (move_fd fd newfd) (unless_denied argv k0 P) w.
Proof using FL.
  intros (Hfd0 & Hfd & _) Hne Hn Hw HP. unfold move_fd.
  eapply ends_dup2; [|exact Hn|exact Hw|kept|]; [unfold set_fd; by rewrite Z.eqb_refl|].
  clear w Hw. intros _ w Hw.
  eapply ends_close; [| |exact Hw|].
  { unfold set_fd. by rewrite (proj2 (Z.eqb_neq fd newfd) Hne), Z.eqb_refl. }
  { left. exists newfd. split; [done|]. unfold set_fd. by rewrite Z.eqb_refl. }
  clear w Hw. intros _ w Hw. apply ends_ret. right. apply HP. revert Hw. apply at_load_ext; try done.
  intros x. unfold set_fd. destruct (Z.eqb_spec x fd) as [->|]; [|done].
  by rewrite (proj2 (Z.eqb_neq fd newfd) Hne), Hfd.
Qed.

(** Two descriptors below those the stub expects are free. *)
Definition room (fds : Z -> option Z) : Prop :=
  exists a b, 0 <= a < b /\ b < CONFIG_FD /\ fds a = None /\ fds b = None.

Lemma lowest_room fds fd : room fds -> lowest fds fd -> 0 <= fd < CONFIG_FD.
Proof using.
  intros (a & b & Hab & Hb & Ha & _) (H0 & _ & Hl). split; [done|].
  destruct (Z.lt_ge_cases a fd); [|lia]. by destruct (Hl a ltac:(lia)).
Qed.

Lemma lowest_second fds fd fd2 i : room fds -> lowest fds fd ->
  lowest (set_fd fd (Some i) fds) fd2 -> 0 <= fd2 < CONFIG_FD /\ fd2 <> fd /\ fds fd2 = None.
Proof using.
  intros (a & b & Hab & Hb & Ha & Hfb) (H0 & H1 & Hl) (G0 & G1 & Gl).
  assert (fd2 <> fd) as Hne by (intros ->; unfold set_fd in G1; by rewrite Z.eqb_refl in G1).
  unfold set_fd in *. rewrite (proj2 (Z.eqb_neq fd2 fd) Hne) in G1. split_and!; try done.
  assert (fd <= a) by (destruct (Z.lt_ge_cases a fd); [by destruct (Hl a ltac:(lia))|lia]).
  destruct (Z.lt_ge_cases b fd2); [|lia]. destruct (Gl b ltac:(lia)).
  by rewrite (proj2 (Z.eqb_neq b fd)) by lia.
Qed.

(** The descriptors after [make_files]. *)
Definition with_files (ic ir : Z) (fds : Z -> option Z) : Z -> option Z :=
  set_fd RAM_FD (Some ir) (set_fd CONFIG_FD (Some ic) fds).

Lemma with_files_moved c1 c2 ic ir fds x :
  0 <= c1 < CONFIG_FD -> 0 <= c2 < CONFIG_FD -> fds c1 = None -> fds c2 = None ->
  set_fd c2 None (set_fd c1 None (set_fd RAM_FD (Some ir) (set_fd CONFIG_FD (Some ic)
    (set_fd c2 (Some ir) (set_fd c1 (Some ic) fds))))) x = with_files ic ir fds x.
Proof using.
  unfold with_files, set_fd, CONFIG_FD, RAM_FD. intros H1 H2 E1 E2.
  destruct (Z.eqb_spec x c2) as [->|]; [rewrite !(proj2 (Z.eqb_neq c2 _)) by lia; done|].
  destruct (Z.eqb_spec x c1) as [->|]; [rewrite !(proj2 (Z.eqb_neq c1 _)) by lia; done|].
  done.
Qed.

Lemma ends_install_files c1 c2 ic ir p r live fds size data (P : unit -> world -> Prop) w :
  0 <= c1 < CONFIG_FD -> 0 <= c2 < CONFIG_FD -> c2 <> c1 -> fds c1 = None -> fds c2 = None ->
  at_load p r live (set_fd c2 (Some ir) (set_fd c1 (Some ic) fds)) size data w ->
  (forall w', at_load p r live (with_files ic ir fds) size data w' -> P tt w') ->
  ends (only_denied argv k0) (install_files c1 c2) (unless_denied argv k0 P) w.
Proof using FL.
  intros Hc1 Hc2 Hne E1 E2 Hw HP. unfold install_files, CONFIG_FD in *.
  eapply ends_dup2; [|by vm_compute|exact Hw|kept|].
  { unfold set_fd. by rewrite (proj2 (Z.eqb_neq c1 c2)), Z.eqb_refl by lia. }
  clear w Hw. intros _ w Hw.
  eapply ends_dup2; [|by vm_compute|exact Hw|kept|].
  { unfold set_fd. by rewrite (proj2 (Z.eqb_neq c2 64)), Z.eqb_refl by lia. }
  clear w Hw. intros _ w Hw.
  eapply ends_close; [| |exact Hw|].
  { unfold set_fd, RAM_FD. rewrite !(proj2 (Z.eqb_neq c1 _)) by lia. by rewrite Z.eqb_refl. }
  { left. exists 64. by split; [lia|]. }
  clear w Hw. intros _ w Hw.
  eapply ends_close; [| |exact Hw|].
  { unfold set_fd, RAM_FD. rewrite !(proj2 (Z.eqb_neq c2 _)) by lia. by rewrite Z.eqb_refl. }
  { left. exists RAM_FD. unfold RAM_FD. split; [lia|]. unfold set_fd.
    by rewrite (proj2 (Z.eqb_neq 65 c1)) by lia. }
  clear w Hw. intros _ w Hw. apply ends_ret. right. apply HP. revert Hw. apply at_load_ext; try done.
  intros x. by apply with_files_moved.
Qed.

Lemma ends_make_files p r live fds size data (P : unit -> world -> Prop) w :
  room fds -> at_load p r live fds size data w ->
  (forall ic ir w', ic <> ir -> (forall x, fds x <> Some ic /\ fds x <> Some ir) ->
     (forall q, k_inode k0 q <> Some ic /\ k_inode k0 q <> Some ir) ->
     at_load p r live (with_files ic ir fds)
       (fun j => if j =? ir then RAM_SIZE else if j =? ic then CONF_SIZE else size j)
       (fun j o => if (j =? ir) || (j =? ic) then 0 else data j o) w' -> P tt w') ->
  ends (only_denied argv k0) make_files (unless_denied argv k0 P) w.
Proof using FL L.
  intros Hroom Hw HP. unfold make_files.
  eapply ends_memfd; [tauto|exact Hw|kept|]. clear w Hw. intros c1 ic w Hl1 _ Fc1 Fc2 Hw.
  eapply ends_memfd; [tauto|exact Hw|kept|]. clear w Hw. intros c2 ir w Hl2 _ Fr1 Fr2 Hw.
  pose proof (lowest_room _ _ Hroom Hl1) as Hc1.
  destruct (lowest_second _ _ _ _ Hroom Hl1 Hl2) as (Hc2 & Hne & Hnone).
  assert (fds c1 = None) as Hnone1 by apply Hl1.
  pose proof (proj2 (Z.eqb_neq c1 c2) (not_eq_sym Hne)) as E12.
  assert (ic <> ir) as Hi.
  { intros <-. apply (Fr1 c1). unfold set_fd. by rewrite Z.eqb_refl. }
  pose proof (proj2 (Z.eqb_neq ic ir) Hi) as Eir.
  eapply ends_ftruncate; [|tauto| |exact Hw|kept|];
    [unfold set_fd; by rewrite E12, Z.eqb_refl
    |intros o; cbn; by rewrite Eir, Z.eqb_refl|]. clear w Hw. intros _ w Hw.
  eapply ends_ftruncate; [|tauto| |exact Hw|kept|];
    [unfold set_fd; by rewrite Z.eqb_refl|intros o; cbn; by rewrite Z.eqb_refl|].
  clear w Hw. intros _ w Hw.
  eapply ends_install_files; [exact Hc1|exact Hc2|exact Hne|exact Hnone1|exact Hnone|exact Hw|].
  clear w Hw. intros w Hw. apply (HP ic ir); [done| |by split|].
  - intros x. split; [done|]. intros E. apply (Fr1 x). unfold set_fd.
    destruct (Z.eqb_spec x c1) as [->|]; [by rewrite Hnone1 in E|done].
  - revert Hw. apply at_load_ext; try done; intros j; [|intros o];
      destruct (Z.eqb_spec j ir), (Z.eqb_spec j ic); done.
Qed.

Lemma ends_write_config a up ks p r live fds size data (P : unit -> world -> Prop) w :
  fds CONFIG_FD <> None -> at_load p r live fds size data w ->
  (forall w', at_load (p <| stub_start := a |> <| stub_size := up |> <| kernel_size := ks |>)
     r live fds size data w' -> P tt w') ->
  ends (only_denied argv k0) (write_config a up ks) (unless_denied argv k0 P) w.
Proof using FL L.
  intros Hopen Hw HP. unfold write_config.
  eapply ends_libc_mmap; [|done|done|exact Hw|kept|].
  { right. split; [done|]. by rewrite (al_fds _ _ _ _ _ _ _ Hw). }
  clear w Hw. intros conf w H0 Hc Hfit Hfree Hw.
  rewrite (proj2 (Z.eqb_neq conf MAP_FAILED)) by (unfold TASK_SIZE, CONF_SIZE, MAP_FAILED in *; lia).
  apply ends_bind. unfold ends at 1, mod_priv.
  assert (at_load (p <| stub_start := a |> <| stub_size := up |> <| kernel_size := ks |>) r
    (fun q => in_pages conf CONF_SIZE q = true \/ live q) fds size data
    (w <| w_priv := (w_priv w) <| stub_start := a |> <| stub_size := up |> <| kernel_size := ks |> |>))
    as Hw' by (destruct Hw as [<- ? ? ? ? ? ? ?]; by split).
  eapply ends_libc_munmap; [exact H0|done|exact Hfit|exact Hc|done|exact Hw'|].
  clear w Hw Hw'. intros _ w Hw. apply ends_ret. right. apply HP.
  revert Hw. apply at_load_ext; try done. intros q. specialize (Hfree q).
  destruct (in_pages conf CONF_SIZE q); split.
  - by intros [? _].
  - intros Hl. by destruct (Hfree eq_refl Hl).
  - by intros [_ [?|?]].
  - by split; [|right].
Qed.

Lemma room_above fds fd i : CONFIG_FD <= fd -> room fds -> room (set_fd fd i fds).
Proof using.
  intros Hfd (a & b & Hab & Hb & Ha & Hfb). exists a, b. unfold set_fd, CONFIG_FD in *.
  rewrite !(proj2 (Z.eqb_neq _ fd)) by lia. done.
Qed.

Lemma ends_main_rest st addr up i2 i3 p r live fds size data (P : Z -> world -> Prop) w :
  k_inode k0 (argv !!! 2%nat) = Some i2 -> k_inode k0 (argv !!! 3%nat) = Some i3 ->
  room fds -> addr < MAP_FAILED -> at_load p r live fds size data w ->
  (forall ic ir w', ic <> ir ->
     (forall x, set_fd KERNEL_FD (Some i2) fds x <> Some ic /\
                set_fd KERNEL_FD (Some i2) fds x <> Some ir) ->
     (forall q, k_inode k0 q <> Some ic /\ k_inode k0 q <> Some ir) ->
     at_load (p <| stub_start := addr |> <| stub_size := up |> <| kernel_size := size i2 |>) r live
       (set_fd BLOCK_FD (Some i3) (with_files ic ir (set_fd KERNEL_FD (Some i2) fds)))
       (fun j => if j =? ir then RAM_SIZE else if j =? ic then CONF_SIZE else size j)
       (fun j o => if (j =? ir) || (j =? ic) then 0 else data j o) w' -> P addr w') ->
  ends (only_denied argv k0) (main_rest argv st addr up) (unless_denied argv k0 P) w.
Proof using FL L.
  intros Hi2 Hi3 Hroom Haddr Hw HP. unfold main_rest.
  eapply ends_open; [cbn; tauto|exact Hi2|exact Hw|kept|]. clear w Hw. intros fd w Hlow _ Hw.
  pose proof (lowest_room _ _ Hroom Hlow) as Hfd.
  eapply ends_fstat; [|exact Hw|kept|]; [unfold set_fd; by rewrite Z.eqb_refl|].
  clear w Hw st. intros st w Hst Hw. rewrite Hst.
  apply ends_seq; [kept|]. eapply ends_move_fd; [exact Hlow| |done|exact Hw|].
  { unfold KERNEL_FD, CONFIG_FD in *. lia. }
  clear w Hw. intros w Hw. pose proof (room_above _ KERNEL_FD (Some i2) ltac:(done) Hroom) as Hroom2.
  apply ends_seq; [kept|]. eapply ends_make_files; [exact Hroom2|exact Hw|].
  clear w Hw. intros ic ir w Hne Hf Hq Hw.
  assert (room (with_files ic ir (set_fd KERNEL_FD (Some i2) fds))) as Hroom3
    by (unfold with_files; by repeat apply room_above).
  eapply ends_open; [cbn; tauto|exact Hi3|exact Hw|kept|]. clear w Hw. intros bfd w Hlow2 _ Hw.
  pose proof (lowest_room _ _ Hroom3 Hlow2) as Hbfd.
  apply ends_seq; [kept|]. eapply ends_move_fd; [exact Hlow2| |done|exact Hw|].
  { unfold BLOCK_FD, CONFIG_FD in *. lia. }
  clear w Hw. intros w Hw. apply ends_seq; [kept|]. eapply ends_write_config; [|exact Hw|]; [done|].
  clear w Hw. intros w Hw. eapply ends_eprint; [exact Hw|]. clear Hw. intros _ w' Hw. rewrite (proj2 (Z.eqb_neq addr MAP_FAILED)) by lia.
  apply ends_ret. right. by apply (HP ic ir).
Qed.
End runs.

(** ** What the stub finds *)

Section loading.
Context {K : Kernel} {V : KernelView K} {L : KernelLaws K V}.
Context {FV : FileView K} {FL : FileLaws K V FV}.
Context (stack_garbage : list Z).

(** A process that has been started on three images. *)
Record launched (argv : list (list Z)) (i1 i2 i3 : Z) (w : world) : Prop := {
  la_priv : w_priv w = zero_priv;
  la_regs : gregs_wf (w_regs w);
  la_argv : length argv = 4%nat;
  la_stub : k_inode (w_kern w) (argv !!! 1%nat) = Some i1 /\ 0 < k_size (w_kern w) i1;
  la_kernel : k_inode (w_kern w) (argv !!! 2%nat) = Some i2 /\
    0 < k_size (w_kern w) i2 <= RAM_SIZE - KERNEL_OFF;
  la_disk : k_inode (w_kern w) (argv !!! 3%nat) = Some i3;
  la_fds : forall fd, CONFIG_FD <= fd <= BLOCK_FD -> k_fd (w_kern w) fd = None;
  la_room : room (k_fd (w_kern w));
  la_user : forall q, k_page (w_kern w) q <> None -> 0 <= q < TASK_SIZE / PAGE;
}.

(** What the loader leaves to the stub at [addr]: four descriptors, of which
    two are fresh files of zeroes, and the configuration. *)
Record left_by_loader (i1 i2 i3 : Z) (w : world) (addr : Z) (w' : world) : Prop := {
  lb_addr : 0 <= addr /\ page_aligned addr /\
    addr + round_up_pg (k_size (w_kern w) i1) <= TASK_SIZE;
  lb_files : exists ic ir, ic <> ir /\
    (forall x, k_fd (w_kern w) x <> Some ic /\ k_fd (w_kern w) x <> Some ir) /\
    (forall q, k_inode (w_kern w) q <> Some ic /\ k_inode (w_kern w) q <> Some ir) /\
    at_load (w_kern w)
      (config_file (mk_config addr (round_up_pg (k_size (w_kern w) i1)) (k_size (w_kern w) i2)))
      (w_regs w)
      (fun q => in_pages addr (round_up_pg (k_size (w_kern w) i1)) q = true
                \/ is_Some (k_page (w_kern w) q))
      (set_fd BLOCK_FD (Some i3) (with_files ic ir (set_fd KERNEL_FD (Some i2) (k_fd (w_kern w)))))
      (fun j => if j =? ir then RAM_SIZE else if j =? ic then CONF_SIZE else k_size (w_kern w) j)
      (fun j o => if (j =? ir) || (j =? ic) then 0 else k_data (w_kern w) j o) w';
}.

Lemma ends_main argv i1 i2 i3 w : launched argv i1 i2 i3 w ->
  ends (only_denied argv (w_kern w)) (main stack_garbage argv)
    (unless_denied argv (w_kern w) (left_by_loader i1 i2 i3 w)) w.
Proof using FL L.
  intros Hl. destruct (la_stub _ _ _ _ _ Hl) as [Hi1 Hs1].
  destruct (la_kernel _ _ _ _ _ Hl) as [Hi2 Hs2]. pose proof (law_size (w_kern w) i1) as Hbound.
  destruct (round_up_pg_spec (k_size (w_kern w) i1)) as [Hup Hle]; [lia|].
  assert (at_load (w_kern w) zero_priv (w_regs w) (fun q => is_Some (k_page (w_kern w) q))
    (k_fd (w_kern w)) (k_size (w_kern w)) (k_data (w_kern w)) w) as Hw.
  { split; try done. apply Hl. }
  unfold main. rewrite (la_argv _ _ _ _ _ Hl). change (negb (Z.of_nat 4 =? 4)) with false. cbv iota.
  eapply ends_open; [cbn; tauto|exact Hi1|exact Hw|kept|].
  clear Hw. intros fd w1 Hlow _ Hw.
  eapply ends_fstat; [|exact Hw|kept|]; [unfold set_fd; by rewrite Z.eqb_refl|].
  clear Hw. intros st w2 Hst Hw. rewrite Hst.
  eapply ends_libc_mmap; [|lia|exact Hup|exact Hw|kept|].
  { left. split; [done|]. exists i1. rewrite (al_inode _ _ _ _ _ _ _ _ Hw), (al_fds _ _ _ _ _ _ _ _ Hw),
      (al_size _ _ _ _ _ _ _ _ Hw). unfold set_fd. by rewrite Z.eqb_refl. }
  clear Hw. intros addr w3 Ha Haa Hfit Hfree Hw.
  eapply ends_close; [| |exact Hw|];
    [unfold set_fd; by rewrite Z.eqb_refl|right; by eexists|].
  clear Hw. intros _ w4 Hw.
  assert (at_load (w_kern w) zero_priv (w_regs w)
    (fun q => in_pages addr (round_up_pg (k_size (w_kern w) i1)) q = true
              \/ is_Some (k_page (w_kern w) q))
    (k_fd (w_kern w)) (k_size (w_kern w)) (k_data (w_kern w)) w4) as Hw'.
  { revert Hw. apply at_load_ext; try done. intros x. unfold set_fd.
    destruct (Z.eqb_spec x fd) as [->|]; [|done]. symmetry. apply Hlow. }
  eapply ends_main_rest; [exact Hi2|apply (la_disk _ _ _ _ _ Hl)|apply (la_room _ _ _ _ _ Hl)| |exact Hw'|].
  { unfold MAP_FAILED, TASK_SIZE in *. lia. }
  clear Hw Hw'. intros ic ir w5 Hne Hf Hq Hw. split; [done|].
  exists ic, ir. split_and!; [done| |done|done].
  intros x. destruct (decide (x = KERNEL_FD)) as [->|Hx].
  - rewrite (la_fds _ _ _ _ _ Hl KERNEL_FD) by done. done.
  - specialize (Hf x). unfold set_fd in Hf. by rewrite (proj2 (Z.eqb_neq x KERNEL_FD) Hx) in Hf.
Qed.

(** The configuration for a stub mapped at [addr]. *)
Definition config_of (w : world) (i1 i2 addr : Z) : urvirt_config :=
  mk_config addr (round_up_pg (k_size (w_kern w) i1)) (k_size (w_kern w) i2).

(** Linux has put the stub clear of the guest's RAM, with room for a stack. *)
Definition placed (c : urvirt_config) : Prop :=
  stub_end c + SIGSTACK_SIZE <= TASK_SIZE /\
  (stub_end c + SIGSTACK_SIZE <= RAM_START \/ RAM_START + RAM_SIZE <= cfg_stub_start c).

Lemma with_files_apart i2 i3 ic ir fds fd :
  ic <> ir -> i2 <> ir -> i3 <> ir -> (forall x, fds x <> Some ir) -> fd <> RAM_FD ->
  set_fd BLOCK_FD (Some i3) (with_files ic ir (set_fd KERNEL_FD (Some i2) fds)) fd <> Some ir.
Proof using.
  intros H1 H2 H3 Hf Hfd. unfold with_files, set_fd. rewrite (proj2 (Z.eqb_neq fd RAM_FD) Hfd).
  destruct (fd =? BLOCK_FD); [congruence|]. destruct (fd =? CONFIG_FD); [congruence|].
  destruct (fd =? KERNEL_FD); [congruence|apply Hf].
Qed.

(** The sizes of the files the stub maps and copies. *)
Lemma left_sizes argv i1 i2 i3 w addr w' :
  launched argv i1 i2 i3 w -> left_by_loader i1 i2 i3 w addr w' ->
  k_len (w_kern w') RAM_FD = RAM_SIZE /\ k_len (w_kern w') CONFIG_FD = CONF_SIZE /\
  k_len (w_kern w') KERNEL_FD = k_size (w_kern w) i2.
Proof using FL.
  intros Hl [_ (ic & ir & Hne & Hf & Hq & [_ _ _ Hfds Hsize _ _ _])].
  destruct (la_kernel _ _ _ _ _ Hl) as [Hi2 _]. destruct (Hq (argv !!! 2%nat)) as [Hqc Hqr].
  split_and!.
  - rewrite (law_len _ _ ir) by (by rewrite Hfds). by rewrite Hsize, Z.eqb_refl.
  - rewrite (law_len _ _ ic) by (by rewrite Hfds).
    by rewrite Hsize, (proj2 (Z.eqb_neq ic ir) Hne), Z.eqb_refl.
  - rewrite (law_len _ _ i2) by (by rewrite Hfds).
    by rewrite Hsize, !(proj2 (Z.eqb_neq i2 _)) by congruence.
Qed.

Lemma left_loaded argv i1 i2 i3 w addr w' :
  launched argv i1 i2 i3 w -> left_by_loader i1 i2 i3 w addr w' ->
  placed (config_of w i1 i2 addr) -> loaded (config_of w i1 i2 addr) w'.
Proof using FL.
  intros Hl Hleft [Hroom Hoff]. pose proof Hleft as [(Ha & Haa & Hfit) (ic & ir & Hne & Hf & Hq & Hw)].
  destruct (la_stub _ _ _ _ _ Hl) as [Hi1 Hs1]. pose proof (law_size (w_kern w) i1) as Hbound.
  destruct (round_up_pg_spec (k_size (w_kern w) i1)) as [Hup Hle]; [lia|].
  set (size := round_up_pg (k_size (w_kern w) i1)) in *. split.
  - apply Hw.
  - rewrite (al_regs _ _ _ _ _ _ _ _ Hw). apply Hl.
  - done.
  - split; [exact Ha|]. split; [cbn; fold size; lia|exact Hroom].
  - exact Hoff.
  - apply (la_kernel _ _ _ _ _ Hl).
  - intros q Hin E. destruct (proj2 (al_live _ _ _ _ _ _ _ _ Hw q) (or_introl Hin)) as [g Hg].
    by rewrite Hg in E.
  - exists ir. split; [by rewrite (al_fds _ _ _ _ _ _ _ _ Hw)|]. intros fd Hfd.
    rewrite (al_fds _ _ _ _ _ _ _ _ Hw). apply with_files_apart; [done| | |apply Hf|done].
    + intros ->. apply (Hq (argv !!! 2%nat)), (la_kernel _ _ _ _ _ Hl).
    + intros ->. apply (Hq (argv !!! 3%nat)), (la_disk _ _ _ _ _ Hl).
  - destruct (left_sizes argv i1 i2 i3 w addr w' Hl Hleft) as (E1 & E2 & E3).
    rewrite E1, E2, E3. by split_and!.
  - intros q Hnone. assert (is_Some (k_page (w_kern w') q)) as Hlive
      by (destruct (k_page (w_kern w') q); [by eexists|done]).
    apply (al_live _ _ _ _ _ _ _ _ Hw) in Hlive as [Hin|[g Hg]].
    + split; [|destruct (Z.lt_ge_cases q (TASK_SIZE / PAGE)); [done|]].
      * unfold in_pages in Hin. apply andb_true_iff in Hin as [Hin%Z.leb_le _].
        pose proof (Z.div_pos addr PAGE Ha). unfold PAGE in *. lia.
      * by rewrite (in_pages_below addr size q) in Hin.
    + apply (la_user _ _ _ _ _ Hl). by rewrite Hg.
Qed.

(** The files behind the four descriptors. *)
Lemma left_files argv i1 i2 i3 w addr w' :
  launched argv i1 i2 i3 w -> left_by_loader i1 i2 i3 w addr w' ->
  (forall o, k_file (w_kern w') KERNEL_FD o = k_data (w_kern w) i2 o) /\
  (forall o, k_file (w_kern w') BLOCK_FD o = k_data (w_kern w) i3 o) /\
  (forall o, k_file (w_kern w') RAM_FD o = 0) /\
  (forall fd, ~ CONFIG_FD <= fd <= BLOCK_FD -> k_fd (w_kern w') fd = k_fd (w_kern w) fd).
Proof using FL.
  intros Hl [_ (ic & ir & Hne & Hf & Hq & [_ _ _ Hfds _ Hdata _ _])].
  assert (forall i path, k_inode (w_kern w) path = Some i -> (i =? ir) || (i =? ic) = false) as Hpath.
  { intros i path Hi. rewrite orb_false_iff, !Z.eqb_neq.
    destruct (Hq path). split; congruence. }
  destruct (la_kernel _ _ _ _ _ Hl) as [Hi2 _]. pose proof (la_disk _ _ _ _ _ Hl) as Hi3.
  split_and!.
  - intros o. rewrite (law_file _ _ i2) by (by rewrite Hfds). by rewrite Hdata, (Hpath i2 _ Hi2).
  - intros o. rewrite (law_file _ _ i3) by (by rewrite Hfds). by rewrite Hdata, (Hpath i3 _ Hi3).
  - intros o. rewrite (law_file _ _ ir) by (by rewrite Hfds). by rewrite Hdata, Z.eqb_refl.
  - intros fd Hfd. rewrite Hfds. unfold with_files, set_fd, CONFIG_FD, BLOCK_FD, RAM_FD, KERNEL_FD in *.
    by rewrite !(proj2 (Z.eqb_neq fd _)) by lia.
Qed.

(** C7. The loader, started on three images that exist and without descriptors 64 to 67,
    stops only after Linux has refused one of the requests it needs: opening an image,
    asking for its size, mapping the stub or the configuration, making, sizing or
    placing a descriptor, each as the loader makes it and on a descriptor that is open.
    If it returns without such a refusal, it jumps to the stub with everything the stub
    asks for: the stub's image mapped, the configuration written, a RAM file of RAM_SIZE
    bytes and a configuration file of CONF_SIZE bytes, the kernel and the disk on their
    descriptors with their contents, RAM all zeroes, and no other descriptor changed. *)
Theorem loader_loads argv i1 i2 i3 w : launched argv i1 i2 i3 w ->
  match main stack_garbage argv w with
  | (inr addr, w') =>
      turned_down argv (w_kern w) (w_kern w') \/
      ((placed (config_of w i1 i2 addr) -> loaded (config_of w i1 i2 addr) w') /\
       k_len (w_kern w') RAM_FD = RAM_SIZE /\ k_len (w_kern w') CONFIG_FD = CONF_SIZE /\
       k_len (w_kern w') KERNEL_FD = k_size (w_kern w) i2 /\
       (forall o, k_file (w_kern w') KERNEL_FD o = k_data (w_kern w) i2 o) /\
       (forall o, k_file (w_kern w') BLOCK_FD o = k_data (w_kern w) i3 o) /\
       (forall o, k_file (w_kern w') RAM_FD o = 0) /\
       (forall fd, ~ CONFIG_FD <= fd <= BLOCK_FD -> k_fd (w_kern w') fd = k_fd (w_kern w) fd))
  | (inl st, w') => turned_down argv (w_kern w) (w_kern w')
  end.
Proof using FL L.
  intros Hl. pose proof (ends_main argv i1 i2 i3 w Hl) as H. unfold ends in H.
  destruct (main stack_garbage argv w) as [[st|addr] w']; [exact H|].
  destruct H as [Hd|Hleft]; [by left|right].
  destruct (left_sizes argv i1 i2 i3 w addr w' Hl Hleft) as (? & ? & ?).
  destruct (left_files argv i1 i2 i3 w addr w' Hl Hleft) as (? & ? & ? & ?).
  split; [by apply (left_loaded argv i1 i2 i3)|by split_and!].
Qed.

(** With any other number of arguments than three the loader prints its usage line on
    standard error and exits with status 1, and makes no other system call. *)
Theorem main_usage argv w : length argv <> 4%nat ->
  main stack_garbage argv w =
    (inl (StopExit 1), w <| w_kern := snd (k_syscall (SysExitGroup 1)
       (snd (k_syscall (SysWrite 2 (usage (argv !!! 0%nat))) (w_kern w)))) |>).
Proof using.
  intros Hn. unfold main. rewrite (proj2 (Z.eqb_neq _ _)) by lia.
  unfold libc_eprint, s_exit_group, do_syscall, mbind, M_bind, mret, M_ret, halt. cbn.
  destruct (k_syscall (SysWrite 2 _) (w_kern w)) as [r k]. cbn.
  by destruct (k_syscall (SysExitGroup 1) k).
Qed.

(** C8. Loader and stub composed: a process started on three images that reaches the guest
    runs the bytes of the kernel image from KERNEL_START, and every state the guest
    reaches from there is one of the invariant. *)
Theorem launch_safe handler_wrapper garbage argv i1 i2 i3 w addr w1 w2 w' :
  launched argv i1 i2 i3 w ->
  main stack_garbage argv w = (inr addr, w1) -> ~ turned_down argv (w_kern w) (w_kern w1) ->
  placed (config_of w i1 i2 addr) ->
  (forall args w2, entrypoint_0 w1 = (inr args, w2) -> off_ram (snd args)) ->
  entrypoint handler_wrapper garbage w1 = (inr (), w2) -> rtc step w2 w' ->
  (forall i, 0 <= i < k_size (w_kern w) i2 ->
     k_load (w_kern w2) (KERNEL_START + i) = Some (k_data (w_kern w) i2 i)) /\
  pc (w_regs w2) = KERNEL_START /\ safe w'.
Proof using FL L.
  intros Hl Hmain Hnd Hplaced Hoff Hrun Hsteps.
  pose proof (ends_inv _ _ _ _ _ _ (ends_main argv i1 i2 i3 w Hl) Hmain) as [Hd|Hleft]; [done|].
  pose proof (left_loaded _ _ _ _ _ _ _ Hl Hleft Hplaced) as Hloaded.
  destruct (left_files _ _ _ _ _ _ _ Hl Hleft) as (Hkernel & _).
  pose proof (ends_inv _ _ _ _ _ _ (ends_entrypoint handler_wrapper garbage _ w1 Hloaded Hoff) Hrun) as Hb.
  split; [|split].
  - intros i Hi. rewrite (booted_image _ _ _ w2 i Hloaded Hb) by exact Hi. by rewrite Hkernel.
  - by destruct (booted_regs _ _ _ w2 Hloaded Hb).
  - apply (reachable_inv w2 w'); [|done]. by destruct (booted_safe _ _ _ w2 Hloaded Hb).
Qed.
End loading.
