(* ===== verification/System.v ===== *)
(** * The whole system

    The process from the loader on is a machine that is switched on: the
    kernel image in RAM, the disk image on the disk, the hart in S-mode at
    KERNEL_START with translation off; every run of it is a run of that
    machine. *)

From S2P Require Import Prelude Bits State Machine Hoare Csr Trap Linux PageWalk PageFault Isolation.
From S2P Require Import Hypervisor Arch Refine Simulation Correct Boot Loader.

(** The machine when it is switched on, with [size] bytes of [image] loaded
    and [disk] in the block device.  Its TLB is that of bare translation. *)
Record powered_on (image : Z -> Z) (size : Z) (disk : Z -> Z) (m : machine) : Prop := {
  on_hart : m_mode m = ModeS /\ m_pc m = KERNEL_START;
  on_csr c : m_csr m c = if decide (c = Sstatus) then SSTATUS_FIXED else 0;
  on_device : m_block m = 0 /\ m_buf m = 0;
  on_image o : 0 <= o < size -> m_ram m (KERNEL_OFF + o) = image o;
  on_zero o : ~ (KERNEL_OFF <= o < KERNEL_OFF + size) -> m_ram m o = 0;
  on_disk o : m_disk m o = disk o;
  on_tlb q e : m_tlb m q = Some e ->
    RAM_START / PAGE <= q < (RAM_START + RAM_SIZE) / PAGE /\
    e = mk_entry (PAGE * q - RAM_START) true true true;
}.

Section boot.
Context {K : Kernel} {V : KernelView K} {L : KernelLaws K V}.
Context (hw : Z) (c : urvirt_config) (w0 w : world).
Context (Hl : loaded c w0) (Hb : booted hw c w0 w).

Lemma booted_live : live w.
Proof using Hl Hb.
  destruct (booted_safe hw c w0 w Hl Hb) as [H1 H2]. pose proof (bo_fds _ _ _ _ Hb) as Hfds.
  split; [done..| |].
  - unfold apart. rewrite !(same_fd _ _ _ Hfds). destruct (ld_files _ _ Hl) as (i & -> & Hi).
    intros E. by apply (Hi BLOCK_FD).
  - apply (same_len _ _ RAM_FD _ Hfds), (ld_len _ _ Hl).
Qed.

Lemma booted_view image disk :
  (forall o, k_file (w_kern w0) KERNEL_FD o = image o) ->
  (forall o, k_file (w_kern w0) BLOCK_FD o = disk o) ->
  (forall o, k_file (w_kern w0) RAM_FD o = 0) ->
  powered_on image (cfg_kernel_size c) disk (view w).
Proof using Hl Hb.
  intros Hi Hd Hr. destruct (bo_priv _ _ _ _ Hb) as [id Ep].
  pose proof (bo_files _ _ _ _ Hb) as Hf. unfold copied in Hf. split; cbn.
  - by rewrite Ep, (proj2 (booted_regs hw c w0 w Hl Hb)).
  - intros r. rewrite Ep. by destruct r.
  - by rewrite Ep.
  - intros o Ho. rewrite Hf, Z.eqb_refl, (proj2 (Z.leb_le _ _)), (proj2 (Z.ltb_lt _ _)) by lia.
    cbn [andb]. rewrite Hi. f_equal. lia.
  - intros o Ho. rewrite Hf, Z.eqb_refl. cbn [andb]. destruct (Z.leb_spec (KERNEL_OFF + 0) o); [|apply Hr].
    destruct (Z.ltb_spec o (KERNEL_OFF + 0 + cfg_kernel_size c)); [lia|apply Hr].
  - intros o. rewrite Hf. apply Hd.
  - intros q e. unfold tlb_of. destruct (user_page (w_priv w) q) eqn:Eu; [|done].
    unfold user_page in Eu. apply andb_prop in Eu as [_ Hstub]. apply negb_true_iff in Hstub.
    destruct (booted_stub hw c w0 w Hb) as [Hs Hz].
    rewrite (bo_pages _ _ _ _ Hb). unfold with_ram, mapped.
    destruct (in_pages RAM_START RAM_SIZE q) eqn:E; cbn.
    + intros [= <-]. unfold in_pages in E. rewrite andb_true_iff, Z.leb_le, Z.ltb_lt in E.
      split; [done|]. unfold entry_of. cbn [vp_off vp_prot]. f_equal.
      change (RAM_START / PAGE) with 0x80000. change RAM_START with (PAGE * 0x80000). lia.
    + destruct (stub_space c (k_page (w_kern w0)) q) eqn:Es; [|done].
      destruct (booted_safe hw c w0 w Hl Hb) as [[_ _ _ Hpages] _]. specialize (Hpages q Hstub).
      rewrite (bo_pages _ _ _ _ Hb) in Hpages. unfold with_ram, mapped in Hpages.
      rewrite E, Es in Hpages. exfalso.
      pose proof (ld_fits _ _ Hl) as (_ & H0 & _). destruct (ld_aligned _ _ Hl) as [Has Haz].
      unfold stub_page in Hstub. rewrite Hs, Hz in Hstub.
      rewrite (stub_space_bounds c (k_page (w_kern w0)) q) in Hstub; [done..|by rewrite Es].
Qed.
End boot.

Section launch.
Context {K : Kernel} {V : KernelView K} {L : KernelLaws K V}.
Context {FV : FileView K} {FL : FileLaws K V FV} {U : UserIsa}.
Context (stack_garbage : list Z).

(** C2. Loader, stub and handler composed: a process started on three images that reaches
    the guest is a machine that is switched on, with the kernel image in RAM and zeroes
    around it, the disk image on the disk and the hart at KERNEL_START in S-mode without
    translation, and every run of it from there is a run of that machine. *)
Theorem launch_refines handler_wrapper garbage argv i1 i2 i3 w addr w1 w2 ios w' :
  launched argv i1 i2 i3 w ->
  main stack_garbage argv w = (inr addr, w1) -> ~ turned_down argv (w_kern w) (w_kern w1) ->
  placed (config_of w i1 i2 addr) ->
  (forall args w2, entrypoint_0 w1 = (inr args, w2) -> off_ram (snd args)) ->
  entrypoint handler_wrapper garbage w1 = (inr (), w2) -> gsteps w2 ios w' ->
  powered_on (k_data (w_kern w) i2) (k_size (w_kern w) i2) (k_data (w_kern w) i3) (view w2) /\
  asteps (view w2) ios (view w').
Proof using FL L.
  intros Hl Hmain Hnd Hplaced Hoff Hrun Hsteps.
  pose proof (ends_inv _ _ _ _ _ _ (ends_main stack_garbage argv i1 i2 i3 w Hl) Hmain) as [Hd|Hleft]; [done|].
  pose proof (left_loaded _ _ _ _ _ _ _ Hl Hleft Hplaced) as Hloaded.
  destruct (left_files _ _ _ _ _ _ _ Hl Hleft) as (Hkernel & Hdisk & Hram & _).
  pose proof (ends_inv _ _ _ _ _ _ (ends_entrypoint handler_wrapper garbage _ w1 Hloaded Hoff) Hrun) as Hb.
  split; [by apply (booted_view handler_wrapper (config_of w i1 i2 addr) w1)|].
  refine (proj2 (gsteps_simulated w2 ios w' _ Hsteps)). exact (booted_live _ _ _ _ Hloaded Hb).
Qed.
End launch.
