(* ===== verification/LoaderModel.v ===== *)
(** * The executable kernel and the loader

    [LinuxModel] satisfies the laws of files and descriptors that the theorem
    about the loader assumes. *)

From S2P Require Import Prelude Bits State Machine Hoare Linux LinuxModel Boot Loader.

#[export] Instance model_files : FileView model_kernel := {|
  k_inode := fun k p => lk_paths k !! p;
  k_size := lk_size;
  k_data := lk_data;
|}.

Lemma le_object_split n v : 0 <= v < 2 ^ (8 * Z.of_nat n) -> le_object n (le_split n v) [] = v.
Proof.
  unfold le_object. rewrite drop_nil, app_nil_r. intros Hv.
  assert (length (le_split n v) = n) as Hl.
  { clear Hv. revert v. induction n as [|n IH]; intros v; simpl; [done|]. by rewrite IH. }
  rewrite take_ge by lia. clear Hl. revert v Hv. induction n as [|n IH]; intros v Hv.
  - simpl in *. lia.
  - cbn [le_split foldr]. rewrite Nat2Z.inj_succ in Hv.
    replace (8 * Z.succ (Z.of_nat n)) with (8 + 8 * Z.of_nat n) in Hv by lia.
    rewrite Z.pow_add_r in Hv by lia. change (2 ^ 8) with 256 in Hv.
    rewrite IH by (Z.div_mod_to_equations; lia).
    rewrite Z.lor_comm, lor_add by (change (2 ^ 8) with 256; Z.div_mod_to_equations; lia).
    change (2 ^ 8) with 256. Z.div_mod_to_equations; lia.
Qed.

Lemma lowest_fd_spec k fd : lowest_fd k = Some fd -> fd < 1024 /\ lowest (fun x => lk_fds k !! x) fd.
Proof.
  unfold lowest_fd, lowest. assert (forall n a, 0 <= a ->
    head (filter (fun fd => lk_fds k !! fd = None) (seqZ a n)) = Some fd ->
    a <= fd < a + n /\ lk_fds k !! fd = None /\ forall x, a <= x < fd -> lk_fds k !! x <> None) as H.
  { intros n. destruct (Z.le_gt_cases n 0) as [|Hn]; [intros a _; by rewrite seqZ_nil|].
    assert (0 <= n) as Hn0 by lia. clear Hn. revert n Hn0.
    apply (natlike_ind (fun n => forall a, 0 <= a -> _ -> _)); [by intros|].
    intros n Hn IH a Ha. rewrite seqZ_cons by lia. rewrite filter_cons.
    case_decide as E; simpl; [intros [= <-]; split_and!; [lia..|done|lia]|].
    replace (Z.pred (Z.succ n)) with n by lia. intros Hh.
    destruct (IH (Z.succ a) ltac:(lia) Hh) as (H1 & H2 & H3). split_and!; [lia..|done|].
    intros x Hx. destruct (decide (x = a)) as [->|]; [done|]. apply H3. lia. }
  intros E. destruct (H 1024 0 ltac:(lia) E) as (H1 & H2 & H3). split_and!; [lia..|done|done].
Qed.

Lemma foldr_max_le l x : In x l -> x <= foldr Z.max 0 l.
Proof. induction l as [|y l IH]; simpl; [done|]. intros [->|H]; [lia|]. specialize (IH H). lia. Qed.

Lemma fresh_inode_spec k :
  (forall fd, lk_fds k !! fd <> Some (fresh_inode k)) /\
  (forall p, lk_paths k !! p <> Some (fresh_inode k)) /\
  forall o, lk_files k !! (fresh_inode k, o) = None.
Proof.
  unfold fresh_inode. set (l := _ ++ _ ++ _).
  assert (forall x, In x l -> x <> 1 + foldr Z.max 0 l) as Hl.
  { intros x Hx%foldr_max_le. lia. }
  split_and!.
  - intros fd E. refine (Hl _ _ eq_refl). apply in_or_app. left.
    apply in_map_iff. eexists (fd, _). split; [done|]. by apply list_elem_of_In, elem_of_map_to_list.
  - intros p E. refine (Hl _ _ eq_refl). apply in_or_app. right. apply in_or_app. left.
    apply in_map_iff. eexists (p, _). split; [done|]. by apply list_elem_of_In, elem_of_map_to_list.
  - intros o. destruct (lk_files k !! _) as [v|] eqn:E; [|done]. exfalso.
    refine (Hl _ _ eq_refl). apply in_or_app. right. apply in_or_app. right.
    apply in_map_iff. eexists ((_, o), v). split; [done|]. by apply list_elem_of_In, elem_of_map_to_list.
Qed.

Lemma lk_data_cut i len files k j o :
  lk_data (k <| lk_files := cut i len files |>) j o =
    if (j =? i) && negb ((0 <=? o) && (o <? len)) then 0
    else lk_data (k <| lk_files := files |>) j o.
Proof.
  unfold lk_data, cut. cbn [lk_files]. cbn.
  destruct ((j =? i) && negb ((0 <=? o) && (o <? len))) eqn:E.
  - rewrite map_lookup_filter_None_2; [done|]. right. intros v _ H. cbn in H.
    apply andb_true_iff in E as [->%Z.eqb_eq E]. specialize (H eq_refl).
    rewrite negb_true_iff, andb_false_iff, Z.leb_gt, Z.ltb_ge in E. lia.
  - do 2 f_equal. apply option_eq. intros v. rewrite map_lookup_filter_Some. cbn.
    split; [by intros [? _]|]. intros Hv. split; [done|]. intros ->.
    rewrite Z.eqb_refl in E. cbn in E. rewrite negb_false_iff, andb_true_iff, Z.leb_le, Z.ltb_lt in E. lia.
Qed.

Lemma lk_syscall_data c k l i :
  lk_size ((snd (lk_step c k)) <| lk_calls := l |>) i = lk_size (snd (lk_step c k)) i /\
  forall o, lk_data ((snd (lk_step c k)) <| lk_calls := l |>) i o = lk_data (snd (lk_step c k)) i o.
Proof. done. Qed.

Lemma lk_mmap_sizes addr len prot flags fd off k :
  lk_sizes (snd (lk_mmap addr len prot flags fd off k)) = lk_sizes k /\
  lk_paths (snd (lk_mmap addr len prot flags fd off k)) = lk_paths k.
Proof. unfold lk_mmap. by destruct (_ && _). Qed.

Lemma copy_in_paths fd buf count offset k : lk_paths (copy_in fd buf count offset k) = lk_paths k.
Proof.
  unfold copy_in. generalize (seqZ 0 count). intros l. revert k.
  induction l as [|i l IH]; intros k; simpl; [done|]. rewrite IH.
  unfold lk_store, lk_put. repeat case_match; simplify_eq/=; done.
Qed.

Lemma copy_out_paths fd buf count offset k : lk_paths (copy_out fd buf count offset k) = lk_paths k.
Proof.
  unfold copy_out. generalize (seqZ 0 count). intros l. revert k.
  induction l as [|i l IH]; intros k; simpl; [done|]. rewrite IH.
  unfold lk_put. repeat case_match; done.
Qed.

Lemma lk_step_paths c k : lk_paths (snd (lk_step c k)) = lk_paths k.
Proof.
  destruct c; simpl; try done; try (by repeat case_match).
  - pose proof (lk_mmap_sizes addr length prot flags fd pgoffset k) as [_ H].
    by destruct (lk_mmap _ _ _ _ _ _ _).
  - apply copy_in_paths.
  - apply copy_out_paths.
Qed.

Lemma lk_step_data c k : keeps_data c = true -> same_data (K := model_kernel) k (snd (lk_step c k)).
Proof.
  intros Hc i. destruct c; simplify_eq/=; try done; try (by repeat case_match).
  pose proof (lk_mmap_sizes addr length prot flags fd pgoffset k) as [Hs _].
  pose proof (lk_mmap_frame addr length prot flags fd pgoffset k) as [Hf _].
  unfold lk_size, lk_data. destruct (lk_mmap _ _ _ _ _ _ _). simpl in *. by rewrite Hs, Hf.
Qed.

Lemma lk_error_neg e k : 0 < e < 4096 -> s64 (sr_val (fst (lk_error e k))) < 0.
Proof.
  intros He. cbn. unfold s64, sext, u64. rewrite Z.mod_mod by lia.
  replace ((- e) mod 2 ^ 64) with (2 ^ 64 - e).
  - rewrite (proj2 (Z.ltb_ge _ _)) by lia. lia.
  - replace (- e) with (2 ^ 64 - e + (-1) * 2 ^ 64) by lia. rewrite Z.mod_add by lia.
    by rewrite Z.mod_small by lia.
Qed.

Lemma set_fd_insert fd i (m : gmap Z Z) x : <[fd := i]> m !! x = set_fd fd (Some i) (fun x => m !! x) x.
Proof.
  unfold set_fd. rewrite lookup_insert. case_decide as E; [subst; by rewrite Z.eqb_refl|].
  by rewrite (proj2 (Z.eqb_neq x fd)) by congruence.
Qed.

#[export] Instance model_file_laws : FileLaws model_kernel model_view model_files.
Proof.
  split.
  - intros k fd i o Hfd. cbn in *. unfold lk_byte. by rewrite Hfd.
  - intros k fd i Hfd. cbn in *. unfold lk_len. by rewrite Hfd.
  - intros k i. cbn. apply Z.mod_pos_bound. lia.
  - intros c k p. cbn. destruct (proj2 (lk_syscall_split c k)) as [l ->]. cbn. by rewrite lk_step_paths.
  - intros c k Hc i. cbn. destruct (proj2 (lk_syscall_split c k)) as [l ->]. by apply lk_step_data.
  - intros c k q Hc. cbn. destruct (proj2 (lk_syscall_split c k)) as [l ->].
    destruct c; simplify_eq/=; repeat case_match; done.
  - intros k path flags _. cbn. unfold lk_syscall, lk_step, lk_fd_step.
    destruct (lk_paths k !! path) as [i|] eqn:Ei; [|left; by split; [apply lk_error_neg|]].
    destruct (lowest_fd k) as [fd|] eqn:Ef; [|left; by split; [apply lk_error_neg|]].
    apply lowest_fd_spec in Ef as [Hlt Hlow]. right. exists fd, i. cbn.
    split_and!; [done|lia|done|done|]. intros x. apply set_fd_insert.
  - intros k name flags. cbn. unfold lk_syscall, lk_step, lk_fd_step.
    destruct (lowest_fd k) as [fd|] eqn:Ef; [|left; by split; [apply lk_error_neg|]].
    apply lowest_fd_spec in Ef as [Hlt Hlow]. right. exists fd, (fresh_inode k). cbn.
    destruct (fresh_inode_spec k) as (F1 & F2 & F3).
    split_and!; [done|lia|done|done|done|intros x; apply set_fd_insert| | |].
    + unfold lk_size. cbn. by rewrite lookup_insert_eq.
    + intros o. unfold lk_data. cbn. by rewrite F3.
    + intros j Hj. unfold lk_size. cbn. by rewrite lookup_insert_ne by congruence.
  - intros k oldfd newfd i Hi Hn. cbn in *. unfold lk_syscall, lk_step, lk_fd_step. rewrite Hi.
    right. cbn. split; [apply u64_id; unfold is_u64; lia|]. intros x. apply set_fd_insert.
  - intros k fd i Hi _. cbn. split; [|done]. intros x. unfold set_fd. rewrite lookup_delete.
    case_decide as E; [subst; by rewrite Z.eqb_refl|]. by rewrite (proj2 (Z.eqb_neq x fd)) by congruence.
  - intros k fd len i Hi Hlen. cbn in *. unfold lk_syscall, lk_step, lk_fd_step. rewrite Hi.
    cbn -[Z.min]. split; [done|]. right. split_and!.
    + unfold lk_size. cbn. rewrite lookup_insert_eq. cbn. by apply Z.mod_small.
    + intros o. pose proof (lk_data_cut i (len `min` lk_size k i) (lk_files k) k i o) as H.
      rewrite Z.eqb_refl in H. unfold lk_data in *. cbn -[Z.min] in *. rewrite H.
      by destruct ((0 <=? o) && _).
    + intros j Hj. split; [unfold lk_size; cbn; by rewrite lookup_insert_ne by congruence|].
      intros o. pose proof (lk_data_cut i (len `min` lk_size k i) (lk_files k) k j o) as H.
      rewrite (proj2 (Z.eqb_neq j i)) in H by done. exact H.
  - intros k fd i Hi. cbn in *. unfold lk_syscall, lk_step, lk_fd_step. rewrite Hi. right.
    cbn [fst sr_buf]. split; [done|]. apply le_object_split.
    unfold lk_size. pose proof (Z.mod_pos_bound (default 0 (lk_sizes k !! i)) (2 ^ 63)). lia.
Qed.

(** ** Deciding whether a call was refused *)

(** The recorded calls are the calls made. *)
Lemma called_calls k k' : rtc (called (K := model_kernel)) k k' ->
  exists l, lk_calls k' = lk_calls k ++ l.
Proof.
  induction 1 as [k|k k1 k' [c ->] _ [l Hl]]; [exists []; by rewrite app_nil_r|].
  exists ((c, fst (lk_syscall c k)) :: l). rewrite Hl.
  pose proof (law_calls (KernelLaws := model_laws) c k) as H. cbn in *. by rewrite H, <- app_assoc.
Qed.

Definition granted (ca : syscall * sysret) : bool := 0 <=? s64 (sr_val (snd ca)).

Lemma not_denied argv k0 k :
  forallb granted (drop (length (lk_calls k0)) (lk_calls k)) = true ->
  ~ turned_down (K := model_kernel) argv k0 k.
Proof.
  intros Hall (k1 & c & H1 & _ & Hr & H2).
  apply called_calls in H1 as [l1 H1], H2 as [l2 H2].
  pose proof (law_calls (KernelLaws := model_laws) c k1) as H. cbn in *.
  rewrite H2, H, H1, <- !app_assoc, drop_app_length, forallb_forall in Hall.
  specialize (Hall (c, fst (lk_syscall c k1))). unfold granted in Hall. rewrite Z.leb_le in Hall.
  cbn in Hall. apply Z.lt_nge in Hr. apply Hr, Hall. rewrite !in_app_iff. right. by left.
Qed.
