(* ===== verification/Demo.v ===== *)
(** * Concrete worlds

    A guest on the executable kernel of [LinuxModel]: code and page tables in
    RAM, an S-mode world, a U-mode world and a world with translation on; and
    boolean checks of the invariants, so that the witnesses evaluate. *)

From S2P Require Import Prelude Bits State Machine Hoare Csr Trap Instr Linux LinuxModel PageWalk.
From S2P Require Import Printf Console PageFault Block Sbi Handler Guest Isolation Hypervisor Arch Refine Simulation Boot Loader LoaderModel.

(** ** Checks *)

Definition u64b (v : Z) : bool := (0 <=? v) && (v <? 2 ^ 64).

Lemma u64b_spec v : u64b v = true -> is_u64 v.
Proof. unfold u64b, is_u64. rewrite andb_true_iff, Z.leb_le, Z.ltb_lt. done. Qed.

Definition all_csrs : list csr_id :=
  [Sscratch; Stvec; Sepc; Sstatus; Sie; Sip; Scause; Stval; Satp].

Definition csr_check (p : priv_state) : bool :=
  forallb (fun c => u64b (csr_view p c)) all_csrs
  && ((priv_mode p =? PRIV_U) || (priv_mode p =? PRIV_S))
  && (Z.land (sstatus p) (not64 SSTATUS_WRITABLE_MASK) =? SSTATUS_FIXED)
  && ((Z.land (stvec p) STVEC_MODE_MASK =? STVEC_DIRECT)
      || (Z.land (stvec p) STVEC_MODE_MASK =? STVEC_VECTORED))
  && (Z.land (sip p) (not64 SIX_WRITABLE_MASK) =? 0)
  && (Z.land (sie p) (not64 SIX_WRITABLE_MASK) =? 0)
  && (bf_get 44 16 (satp p) =? 0)
  && ((get_satp_mode (satp p) =? SATP_MODE_SV39) || (get_satp_mode (satp p) =? SATP_MODE_BARE)).

Lemma csr_check_spec p : csr_check p = true -> csr_wf p.
Proof.
  unfold csr_check. rewrite !andb_true_iff, !orb_true_iff, !Z.eqb_eq, forallb_forall.
  intros (((((((H & ?) & ?) & ?) & ?) & ?) & ?) & ?). split; try done.
  intros c. apply u64b_spec, H. destruct c; cbn; tauto.
Qed.

Definition gregs_check (r : gregs) : bool := (length r =? 32)%nat && forallb u64b r.

Lemma gregs_check_spec r : gregs_check r = true -> gregs_wf r.
Proof.
  unfold gregs_check. rewrite andb_true_iff, Nat.eqb_eq, forallb_forall. intros [Hl H].
  split; [done|]. apply Forall_forall. intros v Hv. apply u64b_spec, H, list_elem_of_In, Hv.
Qed.

Definition code_check (k : lk) (n : nat) (pc v : Z) : bool :=
  (0 <=? pc) && (pc + Z.of_nat n <=? 2 ^ 63) && (RAM_SIZE <=? lk_len k RAM_FD) &&
  forallb (fun i =>
    match lk_pages k !! ((pc + i) / PAGE) with
    | Some g => readable g && (vp_fd g =? RAM_FD)
        && (0 <=? vp_off g + (pc + i) mod PAGE) && (vp_off g + (pc + i) mod PAGE <? RAM_SIZE)
        && (lk_byte k RAM_FD (vp_off g + (pc + i) mod PAGE) =? v / 2 ^ (8 * i) mod 2 ^ 8)
    | None => false
    end) (seqZ 0 (Z.of_nat n)).

Lemma code_check_spec k n pc v : code_check k n pc v = true -> code_at (K := model_kernel) k n pc v.
Proof.
  unfold code_check. rewrite !andb_true_iff, !Z.leb_le, forallb_forall. intros [[[H0 Hn] Hl] H].
  split_and!; [done..|]. intros i Hi.
  assert (In i (seqZ 0 (Z.of_nat n))) as Hin by (apply list_elem_of_In, elem_of_seqZ; lia).
  specialize (H i Hin). cbn.
  destruct (lk_pages k !! ((pc + i) / PAGE)) as [g|]; [|done].
  rewrite !andb_true_iff, Z.leb_le, Z.ltb_lt, !Z.eqb_eq in H. exists g. tauto.
Qed.

(** ** Memory *)

Fixpoint put_bytes (n : nat) (fd off v : Z) (m : gmap (Z * Z) Z) : gmap (Z * Z) Z :=
  match n with
  | O => m
  | S n => <[(fd, off) := v mod 256]> (put_bytes n fd (off + 1) (v / 256) m)
  end.

(** Where the guest's program counter is; its page is mapped. *)
Definition demo_pc : Z := 0x80200000.

Definition demo_pages : gmap Z vpage :=
  {[ demo_pc / PAGE := mk_vpage RAM_FD (demo_pc - RAM_START) 7 ]}.

(** A page table whose root is at 0x80300000: 0x1000 is a readable, writable
    page of RAM, 0x2000 a read-only one, 0x3000 the block device. *)
Definition demo_tables (m : gmap (Z * Z) Z) : gmap (Z * Z) Z :=
  let pte ppn flags := ppn * 2 ^ 10 + flags in
  put_bytes 8 RAM_FD 0x300000 (pte 0x80301 1)
  (put_bytes 8 RAM_FD 0x301000 (pte 0x80302 1)
  (put_bytes 8 RAM_FD 0x302008 (pte 0x80400 0x17)
  (put_bytes 8 RAM_FD 0x302010 (pte 0x80401 0x13)
  (put_bytes 8 RAM_FD 0x302018 (pte 0x10400 0x17)
  (put_bytes 8 RAM_FD 0x400000 0x1122334455667788 m))))).

(** The descriptors of the loader, and the standard ones. *)
Definition std_fds : gmap Z Z :=
  list_to_map ((fun fd => (fd, fd)) <$> [0; 1; 2; CONFIG_FD; RAM_FD; KERNEL_FD; BLOCK_FD]).

(** Their files, named by the same numbers, with a kernel of five bytes. *)
Definition std_sizes : gmap Z Z :=
  list_to_map [(CONFIG_FD, CONF_SIZE); (RAM_FD, RAM_SIZE); (KERNEL_FD, 5); (BLOCK_FD, 512)].

(** The instruction [v] of [n] bytes is at [demo_pc]. *)
Definition demo_kernel (n : nat) (v : Z) : lk :=
  mk_lk demo_pages (demo_tables (put_bytes n RAM_FD (demo_pc - RAM_START) v ∅)) std_fds std_sizes ∅ [] 1000 [].

(** ** Worlds *)

Definition demo_priv (md at_ : Z) : priv_state :=
  (initialize_priv (zero_priv <| stub_start := 0x20000000 |> <| stub_size := 0x10000 |>))
    <| priv_mode := md |> <| satp := at_ |> <| sie := 32 |> <| stvec := 0x80201000 |>.

Definition demo_regs : gregs := demo_pc :: replicate 31 1.

Definition demo_world (md at_ : Z) (n : nat) (v : Z) : world :=
  mk_world (demo_priv md at_) demo_regs (demo_kernel n v).

Definition sv39_satp : Z := 8 * 2 ^ 60 + 0x80300.

Definition demo_s : world := demo_world PRIV_S 0 4 (csr_word OpRW false Sscratch 5 6).
Definition demo_u : world := demo_world PRIV_U 0 4 wfi_word.
Definition demo_vm : world := demo_world PRIV_U sv39_satp 4 (sd_word 0 5 6 0).

(** A computation that returns ends in its final world. *)
Lemma run_snd {A} (m : M A) w a : fst (m w) = inr a -> m w = (inr a, snd (m w)).
Proof. destruct (m w) as [r w']. cbn. by intros ->. Qed.

(** Discharges a hypothesis by evaluation. *)
Ltac check :=
  lazymatch goal with
  | |- csr_wf _ => apply csr_check_spec; vm_compute; reflexivity
  | |- gregs_wf _ => apply gregs_check_spec; vm_compute; reflexivity
  | |- is_u64 _ => apply u64b_spec; vm_compute; reflexivity
  | |- code_at _ _ _ _ => apply code_check_spec; vm_compute; reflexivity
  | |- ram_mmap_ok _ => unfold ram_mmap_ok; split; apply Z.leb_le; vm_compute; reflexivity
  | |- cfg_mmap_ok _ => unfold cfg_mmap_ok; apply Z.leb_le; vm_compute; reflexivity
  | |- _ = _ => vm_compute; reflexivity
  | |- _ => first [vm_compute; split; congruence | vm_compute; congruence]
  end.

(** The run does not stop. *)
Definition returns {A} (r : (stop + A) * world) : bool :=
  match fst r with inr _ => true | inl _ => false end.

Lemma demo_confined md at_ n v :
  confined (K := model_kernel) (demo_priv md at_) (demo_kernel n v).
Proof.
  intros q _. change (guest_page (demo_pages !! q)). unfold demo_pages.
  destruct (decide (demo_pc / PAGE = q)) as [<-|Hq].
  - rewrite lookup_singleton_eq. vm_compute. split_and!; congruence.
  - by rewrite lookup_singleton_ne.
Qed.

Lemma demo_safe : safe demo_s.
Proof. split; [check|check|reflexivity|apply demo_confined]. Qed.

(** ** Guests of the machine *)

(** User-level instructions: a nop, and accesses and refusals anywhere. *)
#[export] Instance demo_isa : UserIsa := {|
  u_native m m' := m_code m 4 0x13 /\ m' = next 4 m;
  u_access _ _ _ := True;
  u_illegal _ := True;
|}.

Lemma demo_fetched m m' : u_native m m' -> m_tlb m (m_pc m / 4096) <> None.
Proof.
  intros [Hc _] E. specialize (Hc 0 ltac:(lia)). unfold mem_byte in Hc.
  rewrite Z.add_0_r, E in Hc. done.
Qed.

(** An S-mode guest at the instruction [v], with no interrupt enabled. *)
Definition demo_guest (v : Z) : world :=
  mk_world ((demo_priv PRIV_S 0) <| sie := 0 |>) demo_regs (demo_kernel 4 v).

Lemma std_apart pages files inp t calls : apart (K := model_kernel) (mk_lk pages files std_fds std_sizes ∅ inp t calls).
Proof. intros E. vm_compute in E. discriminate E. Qed.

Lemma demo_live v : live (demo_guest v).
Proof.
  split; [split; [check|check|reflexivity|]| |apply std_apart|apply Z.leb_le; vm_compute; reflexivity].
  - refine (confined_stub (demo_priv PRIV_S 0) _ _ _ _ (demo_confined PRIV_S 0 4 v)); check.
  - vm_compute. repeat split; congruence.
Qed.

(** The bytes of [v] at the program counter, by evaluation. *)
Definition m_code_check (m : machine) (n : nat) (v : Z) : bool :=
  forallb (fun i => bool_decide (mem_byte m Load (m_pc m + i) = Some (v / 2 ^ (8 * i) mod 2 ^ 8)))
    (seqZ 0 (Z.of_nat n)).

Lemma m_code_check_spec m n v : m_code_check m n v = true -> m_code m n v.
Proof.
  unfold m_code_check. rewrite forallb_forall. intros H i Hi.
  assert (In i (seqZ 0 (Z.of_nat n))) as Hin by (apply list_elem_of_In, elem_of_seqZ; lia).
  by specialize (H i Hin); apply bool_decide_eq_true in H.
Qed.

(** A run that has recorded no transfer of a block. *)
Definition no_blocks (l : list (syscall * sysret)) : bool :=
  forallb (fun e => match fst e with SysPread64 _ _ _ _ | SysPwrite64 _ _ _ _ => false | _ => true end) l.

Lemma owns_none (w : world (K := model_kernel)) k :
  no_blocks (drop (length (lk_calls (w_kern w))) (lk_calls k)) = true -> owns_buffers w k.
Proof.
  intros H l fd buf n off r E Hl. cbn in E. rewrite E, drop_app_length in H.
  unfold no_blocks in H. rewrite forallb_forall in H.
  destruct Hl as [Hl|Hl]; by specialize (H _ (proj1 (list_elem_of_In _ _) Hl)).
Qed.

(** ** A process the loader has prepared

    Two pages of stub, a page of the loader's stack, a kernel of five bytes. *)

Definition boot_config : urvirt_config := mk_config 0x3000000000 0x2000 5.

Definition boot_pages : gmap Z vpage :=
  <[0x3000000 := mk_vpage 3 0 5]> (<[0x3000001 := mk_vpage 3 4096 5]>
  (<[0x3f00000 := mk_vpage (-1) 0 3]> ∅)).

Definition boot_world : world :=
  mk_world (config_file boot_config) demo_regs
    (mk_lk boot_pages (put_bytes 5 KERNEL_FD 0 0x1122334455 ∅) std_fds std_sizes ∅ [] 1000 []).

Lemma boot_page q : boot_pages !! q <> None -> q = 0x3000000 \/ q = 0x3000001 \/ q = 0x3f00000.
Proof.
  unfold boot_pages. intros H. destruct (decide (q = 0x3000000)); [by left|].
  destruct (decide (q = 0x3000001)); [by right; left|].
  destruct (decide (q = 0x3f00000)); [by right; right|].
  by rewrite !lookup_insert_ne in H by congruence.
Qed.

Lemma std_ram_apart pages files inp t calls :
  ram_apart (K := model_kernel) (mk_lk pages files std_fds std_sizes ∅ inp t calls).
Proof.
  exists RAM_FD. split; [reflexivity|]. intros fd Hne E.
  change (std_fds !! fd = Some RAM_FD) in E. unfold std_fds in E. apply elem_of_list_to_map_2 in E.
  apply list_elem_of_fmap in E as (x & Hx & _). by simplify_eq.
Qed.

Lemma boot_loaded : loaded boot_config boot_world.
Proof.
  split; [reflexivity|check|by vm_compute|by vm_compute|right; by vm_compute|by vm_compute| |apply std_ram_apart
    |split_and!; apply Z.leb_le; vm_compute; reflexivity|].
  - intros q Hq. unfold in_pages in Hq. rewrite andb_true_iff, Z.leb_le, Z.ltb_lt in Hq.
    change (_ / PAGE) with 0x3000000 in Hq at 1. change (_ / PAGE) with 0x3000002 in Hq.
    assert (q = 0x3000000 \/ q = 0x3000001) as [-> | ->] by lia; by vm_compute.
  - intros q Hq%boot_page. change (TASK_SIZE / PAGE) with 0x4000000. lia.
Qed.

(** Where the stub is put by the compiler, and the stack it finds. *)
Definition run_boot : (stop + unit) * world := entrypoint 0x3000000100 (replicate 8 0xaa) boot_world.

Lemma boot_off_ram args w1 : entrypoint_0 boot_world = (inr args, w1) -> off_ram (snd args).
Proof.
  assert (fst (entrypoint_0 boot_world) = inr (0x3000002000, 0x3000003000)) as E by (by vm_compute).
  destruct (entrypoint_0 boot_world) as [r w]. cbn in E. intros [= -> ->].
  injection E as ->. right. vm_compute. congruence.
Qed.

(** ** A process started on three images

    Five thousand bytes of stub, five of kernel, an ecall first, a block of
    disk. *)

Definition launch_argv : list (list Z) :=
  string_bytes <$> ["urvirt-loader"; "stub"; "kernel"; "disk"]%string.

Definition launch_paths : gmap (list Z) Z :=
  list_to_map [(string_bytes "stub", 10); (string_bytes "kernel", 11); (string_bytes "disk", 12)].

Definition launch_pages : gmap Z vpage := {[ 16 := mk_vpage (-1) 0 5 ]}.

Definition launch_fds : gmap Z Z := list_to_map [(0, 0); (1, 1); (2, 2)].

Definition launch_world : world :=
  mk_world zero_priv demo_regs
    (mk_lk launch_pages (put_bytes 5 11 0 0x1100000073 ∅) launch_fds
       (list_to_map [(10, 5000); (11, 5); (12, 512)]) launch_paths [] 1000 []).

Lemma launch_launched : launched launch_argv 10 11 12 launch_world.
Proof.
  split; [reflexivity|check|reflexivity|by vm_compute|by vm_compute|by vm_compute| | |].
  - intros fd Hfd. change (launch_fds !! fd = None). unfold launch_fds, CONFIG_FD, BLOCK_FD in *. cbn.
    by rewrite !lookup_insert_ne by lia.
  - exists 3, 4. by vm_compute.
  - intros q Hq. change (launch_pages !! q <> None) in Hq. unfold launch_pages in Hq.
    destruct (decide (16 = q)) as [<-|Hne]; [by vm_compute|]. by rewrite lookup_singleton_ne in Hq.
Qed.

Definition loaded_world : world := snd (main [] launch_argv launch_world).

Lemma run_main_returns : main [] launch_argv launch_world = (inr 0x11000, loaded_world).
Proof. unfold loaded_world. apply run_snd. vm_compute. reflexivity. Qed.

Lemma launch_granted : ~ turned_down launch_argv (w_kern launch_world) (w_kern loaded_world).
Proof. apply not_denied. vm_compute. reflexivity. Qed.
