(* ===== verification/Witnesses.v ===== *)
(** * The theorems at concrete inputs

    One lemma per theorem with hypotheses: the hypotheses hold for a world of
    [Demo], and the theorem says something about it. *)

From stdpp Require Import relations.
From S2P Require Import TestKernel.
From S2P Require Import Prelude Bits State Machine Hoare Csr Trap Instr Linux LinuxModel PageWalk.
From S2P Require Import Double Ntoa Ftoa FtoaTotal Printf Console PageFault Block Sbi Handler Guest Isolation Hypervisor.
From S2P Require Import Arch Ecall Refine Simulation Correct Bare Seccomp Boot Loader System LoaderModel Demo.

(** ** CSRs, traps and instructions *)

Lemma initialize_priv_wf_witness : csr_wf (initialize_priv zero_priv).
Proof. apply (initialize_priv_wf zero_priv). check. Defined.

Lemma csr_write_refines_witness : exists p',
  write_csr CSR_STVEC 0x80201003 demo_s = (inr (), demo_s <| w_priv := p' |>) /\ stvec p' mod 4 = 0.
Proof.
  destruct (csr_write_refines Stvec 0x80201003 demo_s) as (p' & H & _ & [_ Hw] & _);
    [check|check|].
  exists p'. exact (conj H Hw).
Defined.

Lemma enter_trap_refines_witness : exists p' r',
  enter_trap SCAUSE_UECALL 0 demo_u = (inr (), mk_world p' r' (w_kern demo_u)) /\
  h_mode (hart_of p' r') = ModeS /\ h_spp (hart_of p' r') = ModeU /\ pc r' = 0x80201000.
Proof.
  destruct (enter_trap_refines SCAUSE_UECALL 0 demo_u) as (p' & r' & H & Hh & _);
    [check|check|check|check|].
  exists p', r'. split; [exact H|]. rewrite Hh. split; [reflexivity|]. split; [reflexivity|].
  change (pc r') with (h_pc (hart_of p' r')). rewrite Hh. vm_compute. reflexivity.
Defined.

Lemma csr_instr_refines_witness : exists p' r',
  handle_priv_instr (csr_word OpRW false Sscratch 5 6) demo_s =
    (inr (), mk_world p' r' (w_kern demo_s)) /\ pc r' = demo_pc + 4 /\ sscratch p' = 1.
Proof.
  destruct (csr_instr_refines OpRW false Sscratch 5 6 demo_s)
    as (p' & r' & H & Hpc & _ & [Hw _] & _); [lia|lia|check|check|].
  exists p', r'. split; [exact H|]. split; [rewrite Hpc; vm_compute; reflexivity|exact Hw].
Defined.

Lemma sret_refines_witness : exists p' r',
  handle_priv_instr sret_word demo_s = (inr (), mk_world p' r' (w_kern demo_s)) /\
  h_mode (hart_of p' r') = ModeU.
Proof.
  destruct (sret_refines demo_s) as (p' & r' & H & Hh & _); [check|check|].
  exists p', r'. split; [exact H|]. rewrite Hh. vm_compute. reflexivity.
Defined.

Lemma trap_sret_roundtrip_witness : exists p' r',
  (enter_trap SCAUSE_TIMER 0;; handle_priv_instr sret_word) demo_u =
    (inr (), mk_world p' r' (w_kern demo_u)) /\ pc r' = demo_pc /\ priv_mode p' = PRIV_U.
Proof.
  destruct (trap_sret_roundtrip SCAUSE_TIMER 0 demo_u) as (p' & r' & H & Hpc & Hm & _);
    [check|check|].
  exists p', r'. exact (conj H (conj Hpc Hm)).
Defined.

Lemma priv_instr_decides_witness : exists w', handle_priv_instr wfi_word demo_s = (inr (), w').
Proof. apply (priv_instr_decides wfi_word demo_s); [check|check|exact priv_wfi]. Defined.

(** ** Translation and page faults *)

Lemma demo_walkable : walkable demo_vm.
Proof. split; check. Qed.

Lemma lookup_pa_refines_witness : exists k,
  lookup_pa 0x1008 demo_vm = (inr (Some (0x80400008, 0x80400 * 2 ^ 10 + 0x17)), demo_vm <| w_kern := k |>).
Proof.
  pose proof (lookup_pa_refines 0x1008 demo_vm (proj1 demo_walkable) (proj2 demo_walkable)) as H.
  assert (sv39 (k_file (w_kern demo_vm) RAM_FD) (satp (w_priv demo_vm)) 0x1008
    = TPage 0x80400008 (0x80400 * 2 ^ 10 + 0x17)) as E by (vm_compute; reflexivity).
  rewrite E in H. destruct H as (k & H & _); [left; check|]. exists k. exact H.
Defined.

Lemma page_fault_maps_witness : exists k,
  handle_page_fault SCAUSE_LOAD_PF 0x1000 demo_vm = (inr (), demo_vm <| w_kern := k |>) /\
  k_load k 0x1000 = Some 0x88.
Proof.
  destruct (page_fault_maps Load 0x1000 0x80400000 (0x80400 * 2 ^ 10 + 0x17) demo_vm)
    as (k & _ & [(H & _ & Hl)|(H & _)]);
    [exact demo_walkable|check|vm_compute; reflexivity|check|check| |].
  - exists k. split; [exact H|]. rewrite Hl by (vm_compute; reflexivity). vm_compute. reflexivity.
  - assert (returns (handle_page_fault (pf_cause Load) 0x1000 demo_vm) = true) as E by check.
    unfold returns in E. rewrite H in E. discriminate E.
Defined.



Definition after_fault : world := snd (handle_page_fault (pf_cause Store) 0x1000 demo_vm).

Lemma run_after_fault :
  handle_page_fault (pf_cause Store) 0x1000 demo_vm = (inr (), after_fault).
Proof. unfold after_fault. apply run_snd. vm_compute. reflexivity. Qed.

Lemma page_fault_isolation_witness : gains_ram (w_kern demo_vm) (w_kern after_fault).
Proof.
  apply (page_fault_isolation Store 0x1000 demo_vm after_fault);
    [exact (proj1 demo_walkable)|check|exact run_after_fault].
Defined.

(** ** The block device *)

Lemma block_store_refines_witness : exists k',
  transferred (w_kern demo_vm) None k' /\
  handle_page_fault SCAUSE_STORE_PF 0x3008 demo_vm =
    (inr (), mk_world ((w_priv demo_vm) <| urvb_block_id := 1 |>)
               (set_reg (w_regs demo_vm) 0 (demo_pc + 4)) k').
Proof.
  destruct (block_store_refines 4 (sd_word 0 5 6 0) 5 0x3008 0x10400008
    (0x10400 * 2 ^ 10 + 0x17) demo_vm) as (k' & Ht & H);
    [exact demo_walkable|vm_compute; reflexivity|check|apply store_sd; lia|lia|check|].
  exists k'. split; [exact Ht|]. apply H. destruct Ht as (k1 & Hp & Hf & (_ & Hd & _) & ->).
  apply (code_at_same (w_kern demo_vm)); [exact Hp|exact Hf|exact Hd|check].
Defined.

Definition demo_x0 : world := demo_world PRIV_U sv39_satp 4 (sd_word 0 0 6 0).

Lemma block_store_x0_witness : exists k', transferred (w_kern demo_x0) None k' /\
  handle_page_fault SCAUSE_STORE_PF 0x3008 demo_x0 =
    (inr (), mk_world ((w_priv demo_x0) <| urvb_block_id := demo_pc |>)
               (set_reg (w_regs demo_x0) 0 (demo_pc + 4)) k').
Proof.
  apply (block_store_x0 (sd_word 0 0 6 0) 0x3008 (0x10400 * 2 ^ 10 + 0x17) demo_x0);
    [split; check|vm_compute; reflexivity|apply store_sd; lia|check].
Defined.

Definition demo_sdsp : world := demo_world PRIV_S 0 2 (c_sdsp_word 3 8).

Lemma decode_sdsp_witness : decode_sd demo_pc demo_sdsp = (inr (-1), demo_sdsp).
Proof. apply (decode_sdsp 3 8 demo_pc demo_sdsp); [lia|lia|check]. Defined.

(** ** SBI *)

Lemma sbi_timer_refines_witness : exists p' k sec nsec,
  handle_legacy_sbi_call SBI_SET_TIMER 4000000 0 0 demo_s = (inr 0, mk_world p' (w_regs demo_s)
    (snd (k_syscall (SysTimerSettime 0 0 0 0 sec nsec) k))) /\
  sec * 10 ^ 9 + nsec = 3999000000 /\ get_six_sti (sip p') = 0.
Proof.
  destruct (sbi_timer_refines 4000000 0 0 demo_s)
    as (p' & k & sec & nsec & H & _ & _ & Hs & _ & _ & _ & _ & _ & Hd); [check|check|check|].
  exists p', k, sec, nsec. split; [exact H|]. split; [apply Hd; vm_compute; reflexivity|exact Hs].
Defined.

Lemma sbi_call_refines_witness :
  handle_legacy_sbi_call SBI_CONSOLE_PUTCHAR 0x141 0 0 demo_s =
    (inr 0, demo_s <| w_kern := snd (k_syscall (SysWrite 1 [0x41]) (w_kern demo_s)) |>).
Proof. apply (sbi_call_refines SBI_CONSOLE_PUTCHAR 0x141 0 0 demo_s). discriminate. Defined.

(** ** The handler *)

Definition timer_info : siginfo := mk_siginfo SI_TIMER 0 0.
Definition after_timer : world := snd (handler SIGALRM timer_info demo_s).

Lemma run_after_timer : handler SIGALRM timer_info demo_s = (inr (), after_timer).
Proof. unfold after_timer. apply run_snd. vm_compute. reflexivity. Qed.

(** A run that has recorded the calls [l], none of them a read. *)
Definition no_reads (l : list (syscall * sysret)) : bool :=
  forallb (fun e => match fst e with SysPread64 _ _ _ _ => false | _ => true end) l.

Lemma reads_own_none (w w' : world (K := model_kernel)) :
  no_reads (drop (length (lk_calls (w_kern w))) (lk_calls (w_kern w'))) = true -> reads_own w w'.
Proof.
  intros H l fd buf n off r E Hl. cbn in E. rewrite E, drop_app_length in H.
  unfold no_reads in H. rewrite forallb_forall in H.
  by specialize (H _ (proj1 (list_elem_of_In _ _) Hl)).
Qed.

Lemma reachable_safe_witness :
  csr_wf (w_priv after_timer) /\ should_clear_vm (w_priv after_timer) = false /\
  RAM_FD = RAM_FD /\ 0 <= 0x200000 /\ 0x200000 + PAGE <= RAM_SIZE.
Proof.
  apply (reachable_safe demo_s after_timer (demo_pc / PAGE) (mk_vpage RAM_FD 0x200000 7) demo_safe).
  - apply rtc_once, (step_signal SIGALRM timer_info);
      [check|exact run_after_timer|apply reads_own_none; check].
  - vm_compute. reflexivity.
  - vm_compute. reflexivity.
Defined.

Definition ecall_info : siginfo := mk_siginfo 0 93 0.
Definition after_ecall : world := snd (handler SIGSYS ecall_info demo_u).

Lemma run_after_ecall : handler SIGSYS ecall_info demo_u = (inr (), after_ecall).
Proof. unfold after_ecall. apply run_snd. vm_compute. reflexivity. Qed.

Lemma handler_flushes_witness : k_page (w_kern after_ecall) (demo_pc / PAGE) = None.
Proof.
  apply (handler_flushes SIGSYS ecall_info demo_u after_ecall);
    [check|check|check| |exact run_after_ecall|left; vm_compute; discriminate
    |vm_compute; split; congruence|vm_compute; reflexivity].
  vm_compute. repeat split; congruence.
Defined.

Lemma handler_timer_witness : exists p' r' k,
  handler SIGALRM timer_info demo_u = (inr (), mk_world p' r' k) /\
  hart_of p' r' = isa_trap SCAUSE_TIMER 0 (hart_of (w_priv demo_u) (w_regs demo_u)).
Proof.
  destruct (handler_timer timer_info demo_u) as (p' & r' & k & H & _ & Hh & _);
    [check|check|check|reflexivity|].
  exists p', r', k. split; [exact H|]. exact Hh.
Defined.

Lemma handler_uecall_witness :
  delivers SCAUSE_UECALL ((w_priv demo_u) <| counter_uecall := 1 |>)
    (set_reg (set_reg (w_regs demo_u) 17 93) 0 (demo_pc - 4)) (handler SIGSYS ecall_info demo_u).
Proof. apply (handler_uecall ecall_info demo_u); [check|check|check|reflexivity]. Defined.

Lemma handler_uillegal_witness :
  delivers SCAUSE_ILLEGAL ((w_priv demo_u) <| counter_ill := 1 |>) (w_regs demo_u)
    (handler SIGILL timer_info demo_u).
Proof. apply (handler_uillegal timer_info demo_u); [check|check|check|reflexivity]. Defined.

Lemma handler_emulates_csr_witness : exists p' r' k,
  handler SIGILL timer_info demo_s = (inr (), mk_world p' r' k) /\ sscratch p' = 1.
Proof.
  destruct (handler_emulates_csr timer_info OpRW false Sscratch 5 6 demo_s)
    as (p' & r' & k & H & _ & _ & _ & _ & _ & Hs);
    [check|check|check|reflexivity|lia|lia|check|].
  exists p', r', k. exact (conj H Hs).
Defined.

(** demo_s writes byte 1 to the console, and sets a timer that is due. *)
Definition putchar_info : siginfo := mk_siginfo 1 SBI_CONSOLE_PUTCHAR 0.
Definition set_timer_info : siginfo := mk_siginfo 1 SBI_SET_TIMER 0.

Lemma handler_putchar_witness : exists k,
  handler SIGSYS putchar_info demo_s = (inr (), mk_world (calling_priv (w_priv demo_s))
    (set_reg (set_reg (w_regs demo_s) 17 1) 10 0) k) /\
  map fst (lk_calls k) = [cfg_mmap; SysWrite 1 [1]; SysMunmap 0x80201000 CONF_SIZE].
Proof.
  pose proof (handler_putchar putchar_info demo_s) as H.
  destruct (k_syscall cfg_mmap (w_kern demo_s)) as [mapped k1] eqn:E1.
  destruct (k_syscall (SysWrite 1 [u8 (reg (w_regs demo_s) 10)]) k1) as [r2 k2] eqn:E2.
  destruct (k_syscall (SysMunmap (sr_val mapped) CONF_SIZE) k2) as [r3 k3] eqn:E3.
  exists k3. split.
  - apply H; [check|check|reflexivity|reflexivity|discriminate|check|reflexivity].
  - assert (mapped = fst (k_syscall cfg_mmap (w_kern demo_s))) as -> by (by rewrite E1).
    assert (k1 = snd (k_syscall cfg_mmap (w_kern demo_s))) as -> by (by rewrite E1).
    apply (f_equal snd) in E2. cbn [snd] in E2. subst k2.
    apply (f_equal snd) in E3. cbn [snd] in E3. subst k3. vm_compute. reflexivity.
Defined.

Lemma handler_set_timer_witness : exists p' r' k,
  handler SIGSYS set_timer_info demo_s = (inr (), mk_world p' r' k) /\ Z.testbit (sip p') 5 = true.
Proof.
  destruct (handler_set_timer set_timer_info demo_s) as (p' & r' & k & H & Hs & _);
    [check|check|check|reflexivity|reflexivity|discriminate|].
  exists p', r', k. split; [exact H|]. rewrite Hs. vm_compute. reflexivity.
Defined.

(** ** The filter and printf *)

Lemma filter_admits_stub_witness :
  bpf (gen_addr_filter 0x20000000 0x20010000).1
    (fun o => if o =? SC_IP_LOW then 0x80200000 else 0) 0 0 = Some SECCOMP_RET_TRAP.
Proof.
  apply (filter_admits_stub 0x20000000 0x20010000 0x80200000); check.
Defined.

Lemma snprintf_spec_witness : exists b',
  snprintf_ (Some [1; 1; 1; 1]) 3 (string_bytes "abcd") [] = Some (4, b') /\
  b' !! 1%nat = Some 98 /\ b' !! 2%nat = Some 0 /\ b' !! 3%nat = Some 1.
Proof.
  pose proof (snprintf_spec [1; 1; 1; 1] 3 (string_bytes "abcd") []) as H.
  assert (text_of (string_bytes "abcd") [] = Some [97; 98; 99; 100]) as E
    by (vm_compute; reflexivity).
  rewrite E in H. destruct H as (b' & Hs & _ & Hb); [simpl; lia|simpl; lia|].
  exists b'. split; [exact Hs|]. rewrite !Hb. vm_compute. repeat split.
Defined.

Lemma printf_atoi_roundtrip_witness : exists digits,
  text_of (string_bytes "%u") [VInt 4096] = Some digits /\
  _atoi (digits ++ string_bytes "x") = (4096, string_bytes "x").
Proof. apply (printf_atoi_roundtrip 4096 (string_bytes "x")); check. Defined.

Definition to_list (c : Z) (s : list Z) (_ _ : Z) : list Z := s ++ [c].

(** %.41f of a small number, %g of the largest one. *)
Lemma float_total_witness :
  is_Some (_ftoa to_list 0 FTOA_DEPTH (decimal 1 3) 41 0 FLAGS_PRECISION ([], 0)) /\
  is_Some (_etoa to_list 0 FTOA_DEPTH DBL_MAX 0 0 FLAGS_ADAPT_EXP ([], 0)).
Proof.
  assert (prec_ok (prec_limit FLAGS_PRECISION) 41 FLAGS_PRECISION) as H1
    by (intros _; vm_compute; split; congruence).
  assert (prec_ok (prec_limit FLAGS_ADAPT_EXP) 0 FLAGS_ADAPT_EXP) as H2
    by (intros H; vm_compute in H; discriminate H).
  split.
  - exact (proj1 (float_total to_list 0 (decimal 1 3) 41 0 FLAGS_PRECISION ([], 0) eq_refl H1)).
  - exact (proj2 (float_total to_list 0 DBL_MAX 0 0 FLAGS_ADAPT_EXP ([], 0) eq_refl H2)).
Defined.

Lemma printf_float_int_witness :
  text_of (string_bytes "%.0f") [VDouble (of_Z 1234567)] = Some (string_bytes "1234567").
Proof. rewrite (printf_float_int 1234567); [|lia]. vm_compute. reflexivity. Defined.

(** 0x4000001000 has bit 38 set and bit 39 clear. *)
Lemma lookup_pa_40_bits_witness :
  sv39 (k_file (w_kern demo_vm) RAM_FD) (satp (w_priv demo_vm)) 0x4000001000 = TFault NonCanonical.
Proof.
  refine (proj1 (lookup_pa_40_bits 0x4000001000 demo_vm (proj1 demo_walkable) (proj2 demo_walkable) _ _)).
  - vm_compute. split; congruence.
  - intros [_ H]. vm_compute in H. discriminate H.
Defined.

Definition demo_ld : world := demo_world PRIV_U sv39_satp 4 (5 * 2 ^ 7 + OPCODE_LOAD).
Definition segv_info : siginfo := mk_siginfo 1 0 0x1000.

Lemma handler_demand_paging_witness : exists k,
  handler SIGSEGV segv_info demo_ld =
    (inr (), mk_world ((w_priv demo_ld) <| counter_segv := 1 |>) (w_regs demo_ld) k) /\
  k_load k 0x1000 = Some 0x88.
Proof.
  destruct (handler_demand_paging segv_info Load 0x80400000 (0x80400 * 2 ^ 10 + 0x17) demo_ld)
    as [(w' & H & _)|(k & H & _ & Hl)];
    [check|check|split; check|check|reflexivity|check| |check|check|check| |].
  - apply access_word with (5 * 2 ^ 7 + OPCODE_LOAD); [discriminate|check|check].
  - assert (returns (handler SIGSEGV segv_info demo_ld) = true) as E by check.
    unfold returns in E. rewrite H in E. discriminate E.
  - exists k. split; [exact H|]. change 0x1000 with (si_addr segv_info).
    rewrite Hl by check. vm_compute. reflexivity.
Defined.

(** ** The machine *)

(** What Linux saves at an ecall. *)
Definition at_ecall (w : world (K := model_kernel)) : world :=
  w <| w_regs := set_reg (set_reg (w_regs w) 17 1) 0 (u64 (pc (w_regs w) + 4)) |>.

(** The handler's run at a putchar of byte 1. *)
Definition after_putchar (w : world (K := model_kernel)) : world := snd (handler SIGSYS putchar_info (at_ecall w)).

#[local] Instance syscall_eq_dec : EqDecision syscall.
Proof. solve_decision. Defined.

#[local] Instance sysret_eq_dec : EqDecision sysret.
Proof. solve_decision. Defined.

(** The conditions of a step in which the guest calls putchar. *)
Definition putchar_check (w : world (K := model_kernel)) : bool :=
  m_code_check (view w) 4 ecall_word && (reg (w_regs w) 17 =? 1)
  && returns (handler SIGSYS putchar_info (at_ecall w))
  && no_blocks (drop (length (lk_calls (w_kern w))) (lk_calls (w_kern (after_putchar w))))
  && bool_decide (lk_calls (w_kern (after_putchar w)) = lk_calls (w_kern w) ++
       drop (length (lk_calls (w_kern w))) (lk_calls (w_kern (after_putchar w))))
  && bool_decide (concat (map call_io (drop (length (lk_calls (w_kern w)))
       (lk_calls (w_kern (after_putchar w))))) = [Put 1]).

Lemma putchar_step w : putchar_check w = true -> gsteps w [Put 1] (after_putchar w).
Proof.
  unfold putchar_check. rewrite !andb_true_iff, !bool_decide_eq_true, Z.eqb_eq.
  intros (((((Hc & H17) & Hr) & Hn) & Hl) & Hio). rewrite <- (app_nil_r [Put 1]).
  apply gsteps_step with (after_putchar w); [|apply gsteps_refl].
  apply (gs_signal w SIGSYS putchar_info (w_regs (at_ecall w))).
  - check.
  - apply (raise_ecall w putchar_info 1); [by apply m_code_check_spec|by rewrite H17|check].
  - unfold returns in Hr. change (handler SIGSYS putchar_info (at_ecall w) = (inr (), after_putchar w)).
    unfold after_putchar. destruct (handler SIGSYS putchar_info (at_ecall w)) as [[s|[]] w']; [done|reflexivity].
  - by apply owns_none.
  - eexists. split; [exact Hl|done].
Qed.

Lemma putchar_checks : putchar_check (demo_guest ecall_word) = true.
Proof. vm_compute. reflexivity. Qed.

Lemma hypervisor_refines_witness :
  asteps (view (demo_guest ecall_word)) [Put 1] (view (after_putchar (demo_guest ecall_word))).
Proof.
  apply (hypervisor_refines (demo_guest ecall_word) [Put 1] (after_putchar (demo_guest ecall_word)));
    [exact (demo_live ecall_word)|exact (putchar_step _ putchar_checks)].
Defined.

(** The guest returns to a U-mode without translation. *)
Definition demo_sret : world := snd (handler SIGILL timer_info (demo_guest sret_word)).

Lemma run_demo_sret : handler SIGILL timer_info (demo_guest sret_word) = (inr (), demo_sret).
Proof. unfold demo_sret. apply run_snd. vm_compute. reflexivity. Qed.

Lemma demo_sret_cfg : cfg_mmap_ok (w_kern demo_sret).
Proof. unfold cfg_mmap_ok. apply Z.leb_le. vm_compute. reflexivity. Qed.

Lemma bare_user_stops_witness : m_mode (view demo_sret) = ModeU /\
  (raises demo_sret SIGSEGV timer_info demo_regs ->
   fst (handler SIGSEGV timer_info (demo_sret <| w_regs := demo_regs |>)) = inl StopEbreak).
Proof.
  destruct (bare_user_stops demo_fetched timer_info (demo_guest sret_word) demo_sret [] demo_sret)
    as (_ & Hm & _ & Hf); [exact (demo_live sret_word)|check|reflexivity|check|check|check| |exact run_demo_sret|apply gsteps_refl|].
  - apply m_code_check_spec. vm_compute. reflexivity.
  - split; [exact Hm|]. exact (Hf timer_info demo_regs demo_sret_cfg).
Defined.

(** ** The test kernel *)

Definition bare_machine (x : Z -> Z) : machine :=
  mk_machine ModeS 0x80200000 x (fun _ => 0) 0 0 (fun _ => 0) (fun _ => 0) (fun _ => None).

(** sp is 0x80300200, the other registers are zero. *)
Definition demo_stack (i : Z) : Z := if i =? 2 then 0x80300200 else 0.

Lemma stvec_returns_witness : exists m',
  TestKernel.run (fun _ => 2) 0 0 TestKernel.stvec (bare_machine demo_stack) = Some ([Put 3], m') /\ m_pc m' = 4.
Proof.
  destruct (stvec_returns (fun _ => 2) 0 0 (bare_machine demo_stack)) as (m' & E & H).
  - split; [reflexivity..| |reflexivity|vm_compute; split; [congruence|split; [congruence|reflexivity]]].
    split; [|intros c; check]. intros i. cbn. unfold demo_stack. destruct (i =? 2); check.
  - exists m'. split; [exact E|]. destruct (rt_hart _ _ H) as [_ Hpc]. rewrite Hpc. vm_compute. reflexivity.
Defined.

Lemma test_kernel_prints_witness : exists m',
  test_kernel (fun _ => 2) 0 0 0x80200100 0x80200180 0x80200190 0x80400000 15 14 14 14 0x80200008 2
    (bare_machine (fun _ => 0)) = Some ((Put <$> text) ++ (Put <$> text), m').
Proof.
  apply (test_kernel_prints (fun _ => 2) 0 0 0x80200100 0x80200180 0x80200190 0x80400000 15 14 14 14 0x80200008).
  - vm_compute. split; [split; congruence|reflexivity].
  - vm_compute. split; congruence.
  - check.
  - repeat constructor; discriminate.
  - check.
  - vm_compute. split; [congruence|split; [congruence|reflexivity]].
  - check.
  - reflexivity.
  - reflexivity.
  - reflexivity.
  - intros i. check.
  - intros c. check.
Defined.

(** ** The start-up *)

Definition booted_world : world := snd run_boot.

Lemma run_boot_returns :
  entrypoint 0x3000000100 (replicate 8 0xaa) boot_world = (inr (), booted_world).
Proof. unfold booted_world, run_boot. apply run_snd. vm_compute. reflexivity. Qed.

Lemma boot_outcome_witness : booted 0x3000000100 boot_config boot_world booted_world.
Proof.
  pose proof (boot_outcome 0x3000000100 (replicate 8 0xaa) boot_config boot_world
    boot_loaded boot_off_ram) as H.
  rewrite run_boot_returns in H. exact H.
Defined.

Lemma boot_safe_witness : safe booted_world /\ stub_ok (w_priv booted_world) /\
  k_load (w_kern booted_world) 0x80200004 = Some 0x11.
Proof.
  destruct (boot_safe 0x3000000100 (replicate 8 0xaa) boot_config boot_world booted_world
    boot_loaded boot_off_ram run_boot_returns) as (Hs & Hst & _ & _ & _ & _ & Hi).
  split; [exact Hs|]. split; [exact Hst|]. apply (Hi 4). vm_compute. split; congruence.
Defined.

Lemma boot_reachable_witness : csr_wf (w_priv booted_world) /\ gregs_wf (w_regs booted_world) /\
  RAM_FD = RAM_FD /\ 0 <= 0x200000 /\ 0x200000 + PAGE <= RAM_SIZE.
Proof.
  apply (boot_reachable 0x3000000100 (replicate 8 0xaa) boot_config boot_world booted_world
    booted_world (KERNEL_START / PAGE) (mk_vpage RAM_FD 0x200000 7) boot_loaded boot_off_ram
    run_boot_returns); [reflexivity|vm_compute; reflexivity|vm_compute; reflexivity].
Defined.

(** ** The loader *)

Lemma launch_placed : placed (config_of launch_world 10 11 0x11000).
Proof. split; [|left]; vm_compute; congruence. Qed.

Lemma loader_loads_witness : loaded (config_of launch_world 10 11 0x11000) loaded_world /\
  k_len (w_kern loaded_world) RAM_FD = RAM_SIZE /\
  k_file (w_kern loaded_world) KERNEL_FD 4 = 0x11.
Proof.
  pose proof (loader_loads [] launch_argv 10 11 12 launch_world launch_launched) as H.
  rewrite run_main_returns in H. destruct H as [Hd|(Hl & Hlen & _ & _ & Hk & _)]; [by destruct launch_granted|].
  split; [exact (Hl launch_placed)|]. split; [exact Hlen|]. apply (Hk 4).
Defined.

Lemma main_usage_witness : fst (main [] [string_bytes "urvirt-loader"] launch_world) = inl (StopExit 1).
Proof. rewrite (main_usage [] [string_bytes "urvirt-loader"] launch_world); [reflexivity|discriminate]. Defined.

Definition launched_guest : world := snd (entrypoint 0x11100 [] loaded_world).

Lemma run_launched_guest : entrypoint 0x11100 [] loaded_world = (inr (), launched_guest).
Proof. unfold launched_guest. apply run_snd. vm_compute. reflexivity. Qed.

Lemma launch_off_ram args w2 : entrypoint_0 loaded_world = (inr args, w2) -> off_ram (snd args).
Proof.
  assert (match fst (entrypoint_0 loaded_world) with
          | inr args => bool_decide (snd args + CONF_SIZE <= RAM_START) | inl _ => true end = true)
    as E by (vm_compute; reflexivity).
  intros H. rewrite H in E. cbn [fst] in E. apply bool_decide_eq_true in E. by left.
Qed.

Lemma launch_safe_witness : safe launched_guest /\
  k_load (w_kern launched_guest) 0x80200004 = Some 0x11.
Proof.
  destruct (launch_safe [] 0x11100 [] launch_argv 10 11 12 launch_world 0x11000 loaded_world
    launched_guest launched_guest launch_launched run_main_returns launch_granted launch_placed
    launch_off_ram run_launched_guest) as (Hi & _ & Hs); [reflexivity|].
  split; [exact Hs|]. apply (Hi 4). vm_compute. split; congruence.
Defined.

Lemma launched_putchar : putchar_check launched_guest = true.
Proof. vm_compute. reflexivity. Qed.

Lemma launch_refines_witness : m_pc (view launched_guest) = KERNEL_START /\
  asteps (view launched_guest) [Put 1] (view (after_putchar launched_guest)).
Proof.
  destruct (launch_refines [] 0x11100 [] launch_argv 10 11 12 launch_world 0x11000 loaded_world
    launched_guest [Put 1] (after_putchar launched_guest) launch_launched run_main_returns launch_granted
    launch_placed launch_off_ram run_launched_guest) as [Hon Hs]; [exact (putchar_step _ launched_putchar)|].
  split; [exact (proj2 (on_hart _ _ _ _ Hon))|exact Hs].
Defined.
